(** * Wallet transaction database (lib/wallet/txdb.js) *)

(** A shallow embedding of the TXDB write pipeline of bcoin's wallet:
    the key layout, the records stored under it, the batch protocol
    (start / drop / clear / commit), the credit and spent-marker
    helpers, [add], [insert], [confirm], [unconfirm], [disconnect],
    [erase], [removeRecursive], [removeConflicts], [abandon] and the
    SPV orphan tracker of [verifyInputs].

    Conventions.
    - JavaScript numbers are modelled as [Z]; every quantity handled
      here (satoshi amounts, heights, indices, counters) is an integer
      far inside the exactly representable range of a double.
    - Hashes are the hex strings the code passes around.
    - The ordered key-value store is a finite map from the schema's
      keys to typed values.  A key is one constructor per layout
      function; a value is the content of the serialized record, the
      binary codecs (primitives/*.js, utils/reader.js, utils/writer.js)
      being taken as round-tripping.  A value of the wrong shape under
      a key makes the decoding step throw.
    - A [co] generator is a computation in a state-and-exception
      monad over the in-memory TXDB object; awaiting the store never
      fails (store I/O errors are outside the model).
    - The records that walletdb keeps under its own keys (OutpointMap,
      BlockMap) are outside the wallet-scoped store and are left out. *)

From stdpp Require Import gmap strings list fin_maps.
From Stdlib Require Import ZArith Lia Ascii.

Local Open Scope Z_scope.

(** ** Primitive records *)

Definition Hash := string.
Definition Address := string.

Definition NULL_HASH : Hash :=
  "0000000000000000000000000000000000000000000000000000000000000000".

Record Outpoint := mkOutpoint { op_hash : Hash; op_index : Z }.

Record Input := mkInput {
  prevout : Outpoint;
  (* what input.getAddress() extracts from the scriptSig, if anything *)
  in_address : option Address }.

Record Output := mkOutput {
  out_value : Z;
  (* output.getAddress() *)
  out_address : option Address }.

(** A transaction with the wallet-local metadata of the extended
    serialization.  [tx_hash], [tx_coinbase] and [tx_rbf] stand for
    what tx.hash('hex'), tx.isCoinbase() and tx.isRBF() return
    (primitives/tx.js). *)
Record TX := mkTX {
  tx_hash : Hash;
  tx_inputs : list Input;
  tx_outputs : list Output;
  tx_height : Z;
  tx_block : option Hash;
  tx_ts : Z;
  tx_index : Z;
  tx_ps : Z;
  tx_mutable : bool;
  tx_coinbase : bool;
  tx_rbf : bool }.

Definition tx_set_block (tx : TX) (height : Z) (block : option Hash)
    (ts index : Z) : TX :=
  mkTX (tx_hash tx) (tx_inputs tx) (tx_outputs tx) height block ts index
       (tx_ps tx) (tx_mutable tx) (tx_coinbase tx) (tx_rbf tx).

(** TX.fromExtended always yields an immutable transaction. *)
Definition tx_immutable (tx : TX) : TX :=
  mkTX (tx_hash tx) (tx_inputs tx) (tx_outputs tx) (tx_height tx)
       (tx_block tx) (tx_ts tx) (tx_index tx) (tx_ps tx) false
       (tx_coinbase tx) (tx_rbf tx).

(** Block metadata handed to [add] and [confirm]. *)
Record BlockMeta := mkBlockMeta {
  bm_block : Hash; bm_height : Z; bm_ts : Z }.

(** The serialized part of a coin: hash and index are not written. *)
Record CoinRaw := mkCoinRaw {
  cr_height : Z; cr_value : Z; cr_address : option Address;
  cr_coinbase : bool }.

Record Coin := mkCoin {
  coin_height : Z;
  coin_value : Z;
  coin_address : option Address;
  coin_coinbase : bool;
  coin_hash : Hash;
  coin_index : Z }.

Definition Coin_toRaw (c : Coin) : CoinRaw :=
  mkCoinRaw (coin_height c) (coin_value c) (coin_address c) (coin_coinbase c).

(** Coin.fromRaw followed by the assignments of coin.hash, coin.index
    every caller performs. *)
Definition Coin_fromRaw (r : CoinRaw) (hash : Hash) (index : Z) : Coin :=
  mkCoin (cr_height r) (cr_value r) (cr_address r) (cr_coinbase r) hash index.

Definition coin_set_height (c : Coin) (h : Z) : Coin :=
  mkCoin h (coin_value c) (coin_address c) (coin_coinbase c)
         (coin_hash c) (coin_index c).

Record Credit := mkCredit { coin : Coin; spent : bool }.

Record Path := mkPath { account : Z }.

Record Balance := mkBalance { bal_unconfirmed : Z; bal_confirmed : Z }.

Record TXDBState := mkState {
  st_tx : Z; st_coin : Z; st_unconfirmed : Z; st_confirmed : Z;
  st_committed : bool }.

Record BlockRecord := mkBlockRecord {
  br_hash : Hash; br_height : Z; br_ts : Z; br_hashes : list Hash }.

(** ** Database layout *)

(** One constructor per layout function ([layout.t], [layout.c], ...);
    [KR] is the singleton state key. *)
Inductive Key :=
  | Kt (hash : Hash)
  | Kc (hash : Hash) (index : Z)
  | Kd (hash : Hash) (index : Z)
  | Ks (hash : Hash) (index : Z)
  | Kp (hash : Hash)
  | Km (time : Z) (hash : Hash)
  | Kh (height : Z) (hash : Hash)
  | KT (account : Z) (hash : Hash)
  | KP (account : Z) (hash : Hash)
  | KM (account : Z) (time : Z) (hash : Hash)
  | KH (account : Z) (height : Z) (hash : Hash)
  | KC (account : Z) (hash : Hash) (index : Z)
  | Kr (hash : Hash)
  | Kb (height : Z)
  | KR.

#[global] Instance Key_eq_dec : EqDecision Key.
Proof. solve_decision. Defined.

Definition Key_encode (k : Key) : Z * Hash * Z * Z :=
  match k with
  | Kt h => (0, h, 0, 0)
  | Kc h i => (1, h, i, 0)
  | Kd h i => (2, h, i, 0)
  | Ks h i => (3, h, i, 0)
  | Kp h => (4, h, 0, 0)
  | Km t h => (5, h, t, 0)
  | Kh n h => (6, h, n, 0)
  | KT a h => (7, h, a, 0)
  | KP a h => (8, h, a, 0)
  | KM a t h => (9, h, a, t)
  | KH a n h => (10, h, a, n)
  | KC a h i => (11, h, a, i)
  | Kr h => (12, h, 0, 0)
  | Kb n => (13, EmptyString, n, 0)
  | KR => (14, EmptyString, 0, 0)
  end.

Definition Key_decode (e : Z * Hash * Z * Z) : option Key :=
  let '(tag, h, a, b) := e in
  match tag with
  | 0 => Some (Kt h)
  | 1 => Some (Kc h a)
  | 2 => Some (Kd h a)
  | 3 => Some (Ks h a)
  | 4 => Some (Kp h)
  | 5 => Some (Km a h)
  | 6 => Some (Kh a h)
  | 7 => Some (KT a h)
  | 8 => Some (KP a h)
  | 9 => Some (KM a b h)
  | 10 => Some (KH a b h)
  | 11 => Some (KC a h b)
  | 12 => Some (Kr h)
  | 13 => Some (Kb a)
  | 14 => Some KR
  | _ => None
  end.

#[global] Instance Key_countable : Countable Key.
Proof.
  apply (inj_countable Key_encode Key_decode).
  intros []; reflexivity.
Defined.

(** The content of a stored value. *)
Inductive Value :=
  | VDummy
  | VTX (tx : TX)
  | VCredit (c : CoinRaw) (spent : bool)
  | VCoin (c : CoinRaw)
  | VOutpoint (o : Outpoint)
  | VState (tx coin unconfirmed confirmed : Z)
  | VBlock (b : BlockRecord).

#[global] Instance Outpoint_eq_dec : EqDecision Outpoint.
Proof. solve_decision. Defined.
#[global] Instance Input_eq_dec : EqDecision Input.
Proof. solve_decision. Defined.
#[global] Instance Output_eq_dec : EqDecision Output.
Proof. solve_decision. Defined.
#[global] Instance TX_eq_dec : EqDecision TX.
Proof. solve_decision. Defined.
#[global] Instance CoinRaw_eq_dec : EqDecision CoinRaw.
Proof. solve_decision. Defined.
#[global] Instance BlockRecord_eq_dec : EqDecision BlockRecord.
Proof. solve_decision. Defined.
#[global] Instance Value_eq_dec : EqDecision Value.
Proof. solve_decision. Defined.

Definition DUMMY : Value := VDummy.

(** A staged batch operation: a put or a del. *)
Definition Op : Type := Key * option Value.

Definition apply_op (m : gmap Key Value) (o : Op) : gmap Key Value :=
  match o.2 with
  | Some v => <[o.1 := v]> m
  | None => delete o.1 m
  end.

(** Flushing a batch applies its operations in program order. *)
Definition apply_ops (ops : list Op) (m : gmap Key Value) : gmap Key Value :=
  fold_left apply_op ops m.

(** ** Record codecs *)

Definition Outpoint_fromTX (tx : TX) (index : Z) : Outpoint :=
  mkOutpoint (tx_hash tx) index.

Definition Outpoint_toRaw (o : Outpoint) : Value := VOutpoint o.

Definition Outpoint_fromRaw (v : Value) : option Outpoint :=
  match v with VOutpoint o => Some o | _ => None end.

Definition Credit_toRaw (c : Credit) : Value :=
  VCredit (Coin_toRaw (coin c)) (spent c).

Definition TX_toExtended (tx : TX) : Value := VTX (tx_immutable tx).

Definition TX_fromExtended (v : Value) : option TX :=
  match v with VTX tx => Some tx | _ => None end.

Definition TXDBState_toRaw (s : TXDBState) : Value :=
  VState (st_tx s) (st_coin s) (st_unconfirmed s) (st_confirmed s).

Definition TXDBState_clone (s : TXDBState) : TXDBState :=
  mkState (st_tx s) (st_coin s) (st_unconfirmed s) (st_confirmed s) false.

Definition TXDBState_toBalance (s : TXDBState) : Balance :=
  mkBalance (st_unconfirmed s) (st_confirmed s).

(** tx.inputs[index], tx.outputs[index]: [None] is JavaScript's
    undefined for an index outside the array. *)
Definition tx_input (tx : TX) (index : Z) : option Input :=
  if index <? 0 then None else tx_inputs tx !! Z.to_nat index.

Definition tx_output (tx : TX) (index : Z) : option Output :=
  if index <? 0 then None else tx_outputs tx !! Z.to_nat index.

(** Credit.fromTX(tx, index): the coin of output [index] of [tx], not
    spent.  Undefined (the property access throws) when the
    transaction has no such output. *)
Definition Credit_fromTX (tx : TX) (index : Z) : option Credit :=
  match tx_output tx index with
  | Some o =>
      Some (mkCredit (mkCoin (tx_height tx) (out_value o) (out_address o)
                             (tx_coinbase tx) (tx_hash tx) index) false)
  | None => None
  end.

Definition Credit_fromRaw (v : Value) (hash : Hash) (index : Z) : option Credit :=
  match v with
  | VCredit r sp => Some (mkCredit (Coin_fromRaw r hash index) sp)
  | _ => None
  end.

Definition BlockRecord_fromRaw (v : Value) : option BlockRecord :=
  match v with VBlock b => Some b | _ => None end.

(** BlockRecord.prototype.add: [None] stands for the false it returns
    when the hash is already listed. *)
Definition BlockRecord_add (b : BlockRecord) (hash : Hash) : option BlockRecord :=
  if bool_decide (hash ∈ br_hashes b) then None
  else Some (mkBlockRecord (br_hash b) (br_height b) (br_ts b)
                           (br_hashes b ++ [hash])).

Fixpoint remove_first (hash : Hash) (l : list Hash) : list Hash :=
  match l with
  | [] => []
  | x :: rest => if bool_decide (x = hash) then rest else x :: remove_first hash rest
  end.

(** BlockRecord.prototype.remove: pops the last hash in the fast case,
    splices the first occurrence out otherwise. *)
Definition BlockRecord_remove (b : BlockRecord) (hash : Hash) : option BlockRecord :=
  if bool_decide (hash ∈ br_hashes b) then
    Some (mkBlockRecord (br_hash b) (br_height b) (br_ts b)
            (if bool_decide (last (br_hashes b) = Some hash)
             then removelast (br_hashes b)
             else remove_first hash (br_hashes b)))
  else None.

(** ** Transaction details and events *)

Record DetailsMember := mkMember {
  m_value : Z; m_address : option Address; m_path : option Path }.

(** The projection built along the write pipeline.  The reference to
    the transaction object itself is not kept: the fields copied by
    the constructor are. *)
Record Details := mkDetails {
  dt_hash : Hash;
  dt_block : option Hash;
  dt_height : Z;
  dt_ts : Z;
  dt_index : Z;
  dt_ps : Z;
  dt_inputs : list DetailsMember;
  dt_outputs : list DetailsMember;
  dt_accounts : list Z }.

(** utils.binaryInsert(items, item, cmp, true): sorted insertion that
    keeps one copy of an item already present. *)
Fixpoint binaryInsert (items : list Z) (item : Z) : list Z :=
  match items with
  | [] => [item]
  | x :: rest =>
      if item <? x then item :: x :: rest
      else if item =? x then x :: rest
      else x :: binaryInsert rest item
  end.

Definition Details_new (tx : TX) : Details :=
  mkDetails (tx_hash tx) (tx_block tx) (tx_height tx) (tx_ts tx)
    (tx_index tx) (tx_ps tx)
    (map (fun i => mkMember 0 (in_address i) None) (tx_inputs tx))
    (map (fun o => mkMember (out_value o) (out_address o) None) (tx_outputs tx))
    [].

Definition update_member (l : list DetailsMember) (i : nat)
    (f : DetailsMember -> DetailsMember) : list DetailsMember :=
  match l !! i with
  | Some m => <[i := f m]> l
  | None => l
  end.

Definition Details_setInput (d : Details) (i : nat) (path : option Path)
    (c : option Coin) : Details :=
  let ins1 := match c with
              | Some c => update_member (dt_inputs d) i
                  (fun m => mkMember (coin_value c) (coin_address c) (m_path m))
              | None => dt_inputs d
              end in
  match path with
  | Some p =>
      mkDetails (dt_hash d) (dt_block d) (dt_height d) (dt_ts d) (dt_index d)
        (dt_ps d)
        (update_member ins1 i (fun m => mkMember (m_value m) (m_address m) (Some p)))
        (dt_outputs d) (binaryInsert (dt_accounts d) (account p))
  | None =>
      mkDetails (dt_hash d) (dt_block d) (dt_height d) (dt_ts d) (dt_index d)
        (dt_ps d) ins1 (dt_outputs d) (dt_accounts d)
  end.

Definition Details_setOutput (d : Details) (i : nat) (path : option Path)
    : Details :=
  match path with
  | Some p =>
      mkDetails (dt_hash d) (dt_block d) (dt_height d) (dt_ts d) (dt_index d)
        (dt_ps d) (dt_inputs d)
        (update_member (dt_outputs d) i
           (fun m => mkMember (m_value m) (m_address m) (Some p)))
        (binaryInsert (dt_accounts d) (account p))
  | None => d
  end.

Inductive EventData :=
  | EvTX (tx : TX)
  | EvBalance (b : Balance).

Definition Event : Type := string * EventData * Details.

(** ** The in-memory TXDB object *)

(** Modelled from the spec: the coin cache (utils/lru.js is not part
    of the sources).  A map from [hash‖index] to raw credit bytes that
    participates in the batch: [start] opens a list of pending
    pushes and unpushes, [commit] publishes them, [drop] discards
    them; [set] populates an entry at once on a read.  The bound of
    10 000 entries and the eviction order are not modelled. *)
Record LRU := mkLRU {
  lru_items : gmap (Hash * Z) Value;
  lru_pending : option (list ((Hash * Z) * option Value)) }.

Definition LRU_get (c : LRU) (k : Hash * Z) : option Value := lru_items c !! k.
Definition LRU_set (c : LRU) (k : Hash * Z) (v : Value) : LRU :=
  mkLRU (<[k := v]> (lru_items c)) (lru_pending c).
Definition LRU_start (c : LRU) : LRU := mkLRU (lru_items c) (Some []).
Definition LRU_drop (c : LRU) : LRU := mkLRU (lru_items c) None.
Definition LRU_clear (c : LRU) : LRU := mkLRU (lru_items c) (Some []).
Definition LRU_push (c : LRU) (k : Hash * Z) (v : Value) : LRU :=
  mkLRU (lru_items c) (option_map (fun l => l ++ [(k, Some v)]) (lru_pending c)).
Definition LRU_unpush (c : LRU) (k : Hash * Z) : LRU :=
  mkLRU (lru_items c) (option_map (fun l => l ++ [(k, None)]) (lru_pending c)).
Definition LRU_apply (m : gmap (Hash * Z) Value)
    (o : (Hash * Z) * option Value) : gmap (Hash * Z) Value :=
  match o.2 with Some v => <[o.1 := v]> m | None => delete o.1 m end.
Definition LRU_commit (c : LRU) : LRU :=
  mkLRU (fold_left LRU_apply (default [] (lru_pending c)) (lru_items c)) None.

Record Orphan := mkOrphan {
  o_tx : TX; o_hash : Hash; o_index : Z; o_block : option BlockMeta }.

(** What the TXDB consumes from the wallet and its options: the path
    resolver (address to account path), the SPV switches, and the
    script check tx.verifyInputAsync. *)
Record Env := mkEnv {
  wpaths : gmap Address Path;
  opt_resolution : bool;
  opt_verify : bool;
  verifyInput : TX -> Z -> Coin -> bool }.

Record TXDB := mkTXDB {
  env : Env;
  (* this.db: the committed store *)
  db : gmap Key Value;
  (* this.wallet.current: the open batch, if any *)
  current : option (list Op);
  state : TXDBState;
  pending : option TXDBState;
  events : list Event;
  coinCache : LRU;
  locked : gset (Hash * Z);
  orphans : gmap (Hash * Z) (list Orphan);
  count : gmap Hash Z;
  totalOrphans : Z }.

Definition set_db (f : gmap Key Value -> gmap Key Value) (s : TXDB) : TXDB :=
  mkTXDB (env s) (f (db s)) (current s) (state s) (pending s) (events s)
    (coinCache s) (locked s) (orphans s) (count s) (totalOrphans s).
Definition set_current (f : option (list Op) -> option (list Op)) (s : TXDB) : TXDB :=
  mkTXDB (env s) (db s) (f (current s)) (state s) (pending s) (events s)
    (coinCache s) (locked s) (orphans s) (count s) (totalOrphans s).
Definition set_state (f : TXDBState -> TXDBState) (s : TXDB) : TXDB :=
  mkTXDB (env s) (db s) (current s) (f (state s)) (pending s) (events s)
    (coinCache s) (locked s) (orphans s) (count s) (totalOrphans s).
Definition set_pending (f : option TXDBState -> option TXDBState) (s : TXDB) : TXDB :=
  mkTXDB (env s) (db s) (current s) (state s) (f (pending s)) (events s)
    (coinCache s) (locked s) (orphans s) (count s) (totalOrphans s).
Definition set_events (f : list Event -> list Event) (s : TXDB) : TXDB :=
  mkTXDB (env s) (db s) (current s) (state s) (pending s) (f (events s))
    (coinCache s) (locked s) (orphans s) (count s) (totalOrphans s).
Definition set_coinCache (f : LRU -> LRU) (s : TXDB) : TXDB :=
  mkTXDB (env s) (db s) (current s) (state s) (pending s) (events s)
    (f (coinCache s)) (locked s) (orphans s) (count s) (totalOrphans s).
Definition set_locked (f : gset (Hash * Z) -> gset (Hash * Z)) (s : TXDB) : TXDB :=
  mkTXDB (env s) (db s) (current s) (state s) (pending s) (events s)
    (coinCache s) (f (locked s)) (orphans s) (count s) (totalOrphans s).
Definition set_tracker (o : gmap (Hash * Z) (list Orphan)) (c : gmap Hash Z)
    (t : Z) (s : TXDB) : TXDB :=
  mkTXDB (env s) (db s) (current s) (state s) (pending s) (events s)
    (coinCache s) (locked s) o c t.

(** ** The monad of the write pipeline *)

(** [Throw] is a JavaScript exception; [Fuel] marks a recursion of the
    model that ran out of its bound (it has no counterpart in the
    code, whose recursion is unbounded). *)
Inductive Res (A : Type) :=
  | Ok (a : A)
  | Throw (msg : string)
  | Fuel.
Arguments Ok {A} a.
Arguments Throw {A} msg.
Arguments Fuel {A}.

Definition M (A : Type) : Type := TXDB -> Res A * TXDB.

Definition ret {A} (a : A) : M A := fun s => (Ok a, s).

Definition bind {A B} (m : M A) (k : A -> M B) : M B :=
  fun s =>
    match m s with
    | (Ok a, s') => k a s'
    | (Throw e, s') => (Throw e, s')
    | (Fuel, s') => (Fuel, s')
    end.

Definition throw {A} (msg : string) : M A := fun s => (Throw msg, s).
Definition out_of_fuel {A} : M A := fun s => (Fuel, s).
Definition gets {A} (f : TXDB -> A) : M A := fun s => (Ok (f s), s).
Definition modify (f : TXDB -> TXDB) : M unit := fun s => (Ok tt, f s).

(** assert(cond, msg) *)
Definition assert (cond : bool) (msg : string) : M unit :=
  if cond then ret tt else throw msg.

(** try { body } catch (e) { handler; throw e; } *)
Definition try_rethrow {A} (body : M A) (handler : M unit) : M A :=
  fun s =>
    match body s with
    | (Throw e, s') =>
        match handler s' with
        | (Ok _, s'') => (Throw e, s'')
        | (Throw e', s'') => (Throw e', s'')
        | (Fuel, s'') => (Fuel, s'')
        end
    | r => r
    end.

Declare Scope txdb_scope.
Delimit Scope txdb_scope with txdb.
Notation "x <- m ;; k" := (bind m (fun x => k))
  (at level 100, m at next level, right associativity) : txdb_scope.
Notation "m ;; k" := (bind m (fun _ => k))
  (at level 100, right associativity) : txdb_scope.
Local Open Scope txdb_scope.

(** ** Batch protocol *)

(** Modelled from the spec: the wallet's batch lifecycle (wallet.js is
    not part of the sources).  [start] opens an empty batch, [drop]
    discards it, [clear] un-stages everything, [commit] flushes the
    staged operations in order and closes the batch. *)
Definition wallet_start : M unit := modify (set_current (fun _ => Some [])).
Definition wallet_drop : M unit := modify (set_current (fun _ => None)).
Definition wallet_clear : M unit := modify (set_current (fun _ => Some [])).
Definition wallet_commit : M unit :=
  cur <- gets current ;;
  match cur with
  | Some ops =>
      modify (fun s => set_current (fun _ => None) (set_db (apply_ops ops) s))
  | None => throw "AssertionError"
  end.

Definition start : M unit :=
  modify (fun s => set_pending (fun _ => Some (TXDBState_clone (state s))) s) ;;
  modify (set_coinCache LRU_start) ;;
  wallet_start.

Definition drop : M unit :=
  modify (set_pending (fun _ => None)) ;;
  modify (set_events (fun _ => [])) ;;
  modify (set_coinCache LRU_drop) ;;
  wallet_drop.

Definition clear : M unit :=
  modify (fun s => set_pending (fun _ => Some (TXDBState_clone (state s))) s) ;;
  modify (set_events (fun _ => [])) ;;
  modify (set_coinCache LRU_clear) ;;
  wallet_clear.

(** The buffered events are handed to the listeners when the pending
    state was committed; the listeners are outside the model, so only
    the emptying of the buffer shows. *)
Definition commit : M unit :=
  wallet_commit ;;
  p <- gets pending ;;
  match p with
  | None => throw "TypeError"
  | Some p =>
      (if st_committed p then modify (set_state (fun _ => p)) else ret tt) ;;
      modify (set_pending (fun _ => None)) ;;
      modify (set_events (fun _ => [])) ;;
      modify (set_coinCache LRU_commit)
  end.

Definition emit (event : string) (data : EventData) (details : Details) : M unit :=
  modify (set_events (fun l => l ++ [(event, data, details)])).

Definition put (key : Key) (value : Value) : M unit :=
  cur <- gets current ;;
  match cur with
  | Some ops => modify (set_current (fun _ => Some (ops ++ [(key, Some value)])))
  | None => throw "AssertionError"
  end.

Definition del (key : Key) : M unit :=
  cur <- gets current ;;
  match cur with
  | Some ops => modify (set_current (fun _ => Some (ops ++ [(key, None)])))
  | None => throw "AssertionError"
  end.

Definition get (key : Key) : M (option Value) := gets (fun s => db s !! key).

Definition has (key : Key) : M bool :=
  gets (fun s => bool_decide (is_Some (db s !! key))).

Definition getPath (addr : option Address) : M (option Path) :=
  gets (fun s => a ← addr; wpaths (env s) !! a).

Definition hasPath (addr : option Address) : M bool :=
  gets (fun s => bool_decide (is_Some (a ← addr; wpaths (env s) !! a))).

(** Updates of the pending counters ([this.pending.x += v]); without a
    pending state the property access throws. *)
Definition update_pending (f : TXDBState -> TXDBState) : M unit :=
  p <- gets pending ;;
  match p with
  | Some p => modify (set_pending (fun _ => Some (f p)))
  | None => throw "TypeError"
  end.

Definition add_tx (n : Z) (s : TXDBState) : TXDBState :=
  mkState (st_tx s + n) (st_coin s) (st_unconfirmed s) (st_confirmed s) (st_committed s).
Definition add_coin (n : Z) (s : TXDBState) : TXDBState :=
  mkState (st_tx s) (st_coin s + n) (st_unconfirmed s) (st_confirmed s) (st_committed s).
Definition add_unconfirmed (n : Z) (s : TXDBState) : TXDBState :=
  mkState (st_tx s) (st_coin s) (st_unconfirmed s + n) (st_confirmed s) (st_committed s).
Definition add_confirmed (n : Z) (s : TXDBState) : TXDBState :=
  mkState (st_tx s) (st_coin s) (st_unconfirmed s) (st_confirmed s + n) (st_committed s).
Definition mark_committed (s : TXDBState) : TXDBState :=
  mkState (st_tx s) (st_coin s) (st_unconfirmed s) (st_confirmed s) true.

(** this.put(layout.R, this.pending.commit()) *)
Definition commit_state : M unit :=
  update_pending mark_committed ;;
  p <- gets pending ;;
  match p with
  | Some p => put KR (TXDBState_toRaw p)
  | None => throw "TypeError"
  end.

(** ** Readers *)

(** A stored value of the wrong shape makes the decoder throw. *)
Definition decode {A} (r : option A) : M A :=
  match r with
  | Some a => ret a
  | None => throw "DecodeError"
  end.

Definition getTX (hash : Hash) : M (option TX) :=
  data <- get (Kt hash) ;;
  match data with
  | None => ret None
  | Some data => tx <- decode (TX_fromExtended data) ;; ret (Some tx)
  end.

Definition hasTX (hash : Hash) : M bool := has (Kt hash).

Definition getSpent (hash : Hash) (index : Z) : M (option Outpoint) :=
  data <- get (Ks hash index) ;;
  match data with
  | None => ret None
  | Some data => o <- decode (Outpoint_fromRaw data) ;; ret (Some o)
  end.

Definition isSpent (hash : Hash) (index : Z) : M bool := has (Ks hash index).

Definition getCredit (hash : Hash) (index : Z) : M (option Credit) :=
  let key := (hash, index) in
  cached <- gets (fun s => LRU_get (coinCache s) key) ;;
  match cached with
  | Some data =>
      credit <- decode (Credit_fromRaw data hash index) ;;
      ret (Some credit)
  | None =>
      data <- get (Kc hash index) ;;
      match data with
      | None => ret None
      | Some data =>
          credit <- decode (Credit_fromRaw data hash index) ;;
          modify (set_coinCache (fun c => LRU_set c key data)) ;;
          ret (Some credit)
      end
  end.

Definition getCoin (hash : Hash) (index : Z) : M (option Coin) :=
  credit <- getCredit hash index ;;
  match credit with
  | None => ret None
  | Some credit => ret (Some (coin credit))
  end.

Definition getSpentCoin (spent : Outpoint) (prevout : Outpoint) : M (option Coin) :=
  data <- get (Kd (op_hash spent) (op_index spent)) ;;
  match data with
  | None => ret None
  | Some (VCoin r) => ret (Some (Coin_fromRaw r (op_hash prevout) (op_index prevout)))
  | Some _ => throw "DecodeError"
  end.

Definition hasSpentCoin (spent : Outpoint) : M bool :=
  has (Kd (op_hash spent) (op_index spent)).

Definition getBlock (height : Z) : M (option BlockRecord) :=
  data <- get (Kb height) ;;
  match data with
  | None => ret None
  | Some data => b <- decode (BlockRecord_fromRaw data) ;; ret (Some b)
  end.

(** The entries a range scan of d[hash, 0x00000000 .. 0xffffffff]
    visits, as (index, value) pairs. *)
Definition scan_d (m : gmap Key Value) (hash : Hash) : list (Z * Value) :=
  omap (fun kv =>
          match kv.1 with
          | Kd h j =>
              if bool_decide (h = hash) && (0 <=? j) && (j <=? 4294967295)
              then Some (j, kv.2) else None
          | _ => None
          end) (map_to_list m).

(** getSpentCredits: the undo coins of [tx], aligned with its inputs.
    The parse callback asserts that the scanned index names an input
    and decodes the coin; the scan order of the store is not modelled,
    so of two failing entries either may be the one reported. *)
Definition getSpentCredits (tx : TX) : M (list (option Credit)) :=
  if tx_coinbase tx then ret (map (fun _ => None) (tx_inputs tx))
  else
    m <- gets db ;;
    let entries := scan_d m (tx_hash tx) in
    if negb (forallb (fun e => bool_decide (is_Some (tx_input tx e.1))) entries)
    then throw "AssertionError"
    else if negb (forallb (fun e => match e.2 with VCoin _ => true | _ => false end) entries)
    then throw "DecodeError"
    else
      ret (imap (fun i input =>
                   match m !! Kd (tx_hash tx) (Z.of_nat i) with
                   | Some (VCoin r) =>
                       Some (mkCredit (Coin_fromRaw r (op_hash (prevout input))
                                                    (op_index (prevout input))) false)
                   | _ => None
                   end) (tx_inputs tx)).

(** ** Credits and spent markers *)

Definition saveCredit (credit : Credit) (path : Path) : M unit :=
  let c := coin credit in
  let key := (coin_hash c, coin_index c) in
  let raw := Credit_toRaw credit in
  put (Kc (coin_hash c) (coin_index c)) raw ;;
  put (KC (account path) (coin_hash c) (coin_index c)) DUMMY ;;
  modify (set_coinCache (fun l => LRU_push l key raw)).

Definition removeCredit (credit : Credit) (path : Path) : M unit :=
  let c := coin credit in
  let key := (coin_hash c, coin_index c) in
  del (Kc (coin_hash c) (coin_index c)) ;;
  del (KC (account path) (coin_hash c) (coin_index c)) ;;
  modify (set_coinCache (fun l => LRU_unpush l key)).

(** tx.inputs[index].prevout: reading [prevout] of undefined throws. *)
Definition input_prevout (tx : TX) (index : Z) : M Outpoint :=
  match tx_input tx index with
  | Some input => ret (prevout input)
  | None => throw "TypeError"
  end.

Definition spendCredit (credit : Credit) (tx : TX) (index : Z) : M unit :=
  prevout <- input_prevout tx index ;;
  let spender := Outpoint_fromTX tx index in
  put (Ks (op_hash prevout) (op_index prevout)) (Outpoint_toRaw spender) ;;
  put (Kd (op_hash spender) (op_index spender)) (VCoin (Coin_toRaw (coin credit))).

Definition unspendCredit (tx : TX) (index : Z) : M unit :=
  prevout <- input_prevout tx index ;;
  let spender := Outpoint_fromTX tx index in
  del (Ks (op_hash prevout) (op_index prevout)) ;;
  del (Kd (op_hash spender) (op_index spender)).

Definition writeInput (tx : TX) (index : Z) : M unit :=
  prevout <- input_prevout tx index ;;
  let spender := Outpoint_fromTX tx index in
  put (Ks (op_hash prevout) (op_index prevout)) (Outpoint_toRaw spender).

Definition removeInput (tx : TX) (index : Z) : M unit :=
  prevout <- input_prevout tx index ;;
  del (Ks (op_hash prevout) (op_index prevout)).

Definition updateSpentCoin (tx : TX) (index : Z) : M unit :=
  let prevout := Outpoint_fromTX tx index in
  spent <- getSpent (op_hash prevout) (op_index prevout) ;;
  match spent with
  | None => ret tt
  | Some spent =>
      c <- getSpentCoin spent prevout ;;
      match c with
      | None => ret tt
      | Some c =>
          put (Kd (op_hash spent) (op_index spent))
              (VCoin (Coin_toRaw (coin_set_height c (tx_height tx))))
      end
  end.

Definition resolveInput (tx : TX) (index : Z) (path : Path) : M bool :=
  let hash := tx_hash tx in
  spent <- getSpent hash index ;;
  match spent with
  | None => ret false
  | Some spent =>
      known <- hasSpentCoin spent ;;
      if known then ret false
      else
        stx <- getTX (op_hash spent) ;;
        match stx with
        | None => throw "AssertionError"
        | Some stx =>
            match Credit_fromTX tx index with
            | None => throw "TypeError"
            | Some credit =>
                spendCredit credit stx (op_index spent) ;;
                (if tx_height stx =? -1 then
                   let credit := mkCredit (coin credit) true in
                   saveCredit credit path ;;
                   (if negb (tx_height tx =? -1)
                    then update_pending (add_confirmed (coin_value (coin credit)))
                    else ret tt)
                 else ret tt) ;;
                ret true
            end
        end
  end.

(** isRBF: the transaction signals replacement itself, or one of its
    inputs spends an output of a transaction recorded under [r]. *)
Fixpoint isRBF_inputs (inputs : list Input) : M bool :=
  match inputs with
  | [] => ret false
  | input :: rest =>
      r <- has (Kr (op_hash (prevout input))) ;;
      if r then ret true else isRBF_inputs rest
  end.

Definition isRBF (tx : TX) : M bool :=
  if tx_rbf tx then ret true else isRBF_inputs (tx_inputs tx).

Definition addBlock (tx : TX) (entry : option BlockMeta) : M unit :=
  let hash := tx_hash tx in
  let height := tx_height tx in
  block <- getBlock height ;;
  let block := match block with
               | Some b => b
               | None => mkBlockRecord (default NULL_HASH (tx_block tx))
                                       (tx_height tx) (tx_ts tx) []
               end in
  match BlockRecord_add block hash with
  | None => ret tt
  | Some block => put (Kb height) (VBlock block)
  end.

Definition removeBlock (tx : TX) (height : Z) : M unit :=
  let hash := tx_hash tx in
  block <- getBlock height ;;
  match block with
  | None => ret tt
  | Some block =>
      match BlockRecord_remove block hash with
      | None => ret tt
      | Some block =>
          if bool_decide (br_hashes block = []) then del (Kb height)
          else put (Kb height) (VBlock block)
      end
  end.

Definition unlockCoin (o : Outpoint) : M unit :=
  modify (set_locked (fun l => l ∖ {[ (op_hash o, op_index o) ]})).

Fixpoint unlock_inputs (inputs : list Input) : M unit :=
  match inputs with
  | [] => ret tt
  | input :: rest => unlockCoin (prevout input) ;; unlock_inputs rest
  end.

Definition unlockTX (tx : TX) : M unit :=
  if tx_coinbase tx then ret tt else unlock_inputs (tx_inputs tx).

(** ** insert *)

(** The index keys written for a transaction: [t], [m] and [p] or [h],
    then [T], [M] and [P] or [H] for each account touched. *)
Fixpoint index_accounts (tx : TX) (accounts : list Z) : M unit :=
  match accounts with
  | [] => ret tt
  | acct :: rest =>
      put (KT acct (tx_hash tx)) DUMMY ;;
      put (KM acct (tx_ps tx) (tx_hash tx)) DUMMY ;;
      (if tx_height tx =? -1 then put (KP acct (tx_hash tx)) DUMMY
       else put (KH acct (tx_height tx) (tx_hash tx)) DUMMY) ;;
      index_accounts tx rest
  end.

(** The loop of [insert] over the inputs, from input [i] on. *)
Fixpoint insert_inputs (tx : TX) (i : nat) (inputs : list Input)
    (details : Details) (updated : bool) : M (Details * bool) :=
  match inputs with
  | [] => ret (details, updated)
  | input :: rest =>
      let prevout := prevout input in
      credit <- getCredit (op_hash prevout) (op_index prevout) ;;
      match credit with
      | None =>
          writeInput tx (Z.of_nat i) ;;
          insert_inputs tx (S i) rest details updated
      | Some credit =>
          let c := coin credit in
          path <- getPath (coin_address c) ;;
          match path with
          | None => throw "AssertionError"
          | Some path =>
              let details := Details_setInput details i (Some path) (Some c) in
              spendCredit credit tx (Z.of_nat i) ;;
              update_pending (add_coin (-1)) ;;
              update_pending (add_unconfirmed (- coin_value c)) ;;
              (if tx_height tx =? -1 then
                 saveCredit (mkCredit c true) path
               else
                 update_pending (add_confirmed (- coin_value c)) ;;
                 removeCredit credit path) ;;
              insert_inputs tx (S i) rest details true
          end
      end
  end.

(** The loop of [insert] over the outputs, from output [i] on. *)
Fixpoint insert_outputs (tx : TX) (i : nat) (outputs : list Output)
    (details : Details) (updated : bool) : M (Details * bool) :=
  match outputs with
  | [] => ret (details, updated)
  | output :: rest =>
      path <- getPath (out_address output) ;;
      match path with
      | None => insert_outputs tx (S i) rest details updated
      | Some path =>
          let details := Details_setOutput details i (Some path) in
          resolved <- resolveInput tx (Z.of_nat i) path ;;
          if resolved then insert_outputs tx (S i) rest details true
          else
            match Credit_fromTX tx (Z.of_nat i) with
            | None => throw "TypeError"
            | Some credit =>
                update_pending (add_coin 1) ;;
                update_pending (add_unconfirmed (out_value output)) ;;
                (if negb (tx_height tx =? -1)
                 then update_pending (add_confirmed (out_value output))
                 else ret tt) ;;
                saveCredit credit path ;;
                insert_outputs tx (S i) rest details true
            end
      end
  end.

(** [insert] returns the details, or nothing when the transaction did
    not touch the wallet. *)
Definition insert (tx : TX) (block : option BlockMeta) : M (option Details) :=
  let hash := tx_hash tx in
  let details := Details_new tx in
  r <- (if negb (tx_coinbase tx)
        then insert_inputs tx 0 (tx_inputs tx) details false
        else ret (details, false)) ;;
  r <- insert_outputs tx 0 (tx_outputs tx) r.1 r.2 ;;
  let details := r.1 in
  if negb r.2 then clear ;; ret None
  else
    put (Kt hash) (TX_toExtended tx) ;;
    put (Km (tx_ps tx) hash) DUMMY ;;
    (if tx_height tx =? -1 then put (Kp hash) DUMMY
     else put (Kh (tx_height tx) hash) DUMMY) ;;
    index_accounts tx (dt_accounts details) ;;
    (if negb (tx_height tx =? -1) then addBlock tx block else ret tt) ;;
    update_pending (add_tx 1) ;;
    commit_state ;;
    unlockTX tx ;;
    emit "tx" (EvTX tx) details ;;
    p <- gets pending ;;
    match p with
    | None => throw "TypeError"
    | Some p =>
        emit "balance" (EvBalance (TXDBState_toBalance p)) details ;;
        ret (Some details)
    end.

(** ** confirm *)

Fixpoint confirm_inputs (tx : TX) (i : nat)
    (inputs : list (Input * option Credit)) (details : Details) : M Details :=
  match inputs with
  | [] => ret details
  | (input, credit) :: rest =>
      let prevout := prevout input in
      credit <-
        match credit with
        | Some credit => ret (Some credit)
        | None =>
            credit <- getCredit (op_hash prevout) (op_index prevout) ;;
            match credit with
            | None => ret None
            | Some credit =>
                spendCredit credit tx (Z.of_nat i) ;;
                update_pending (add_coin (-1)) ;;
                update_pending (add_unconfirmed (- coin_value (coin credit))) ;;
                ret (Some credit)
            end
        end ;;
      match credit with
      | None => confirm_inputs tx (S i) rest details
      | Some credit =>
          let c := coin credit in
          assert (negb (coin_height c =? -1)) "AssertionError" ;;
          path <- getPath (coin_address c) ;;
          match path with
          | None => throw "AssertionError"
          | Some path =>
              let details := Details_setInput details i (Some path) (Some c) in
              update_pending (add_confirmed (- coin_value c)) ;;
              removeCredit credit path ;;
              confirm_inputs tx (S i) rest details
          end
      end
  end.

Fixpoint confirm_outputs (tx : TX) (i : nat) (outputs : list Output)
    (details : Details) : M Details :=
  match outputs with
  | [] => ret details
  | output :: rest =>
      path <- getPath (out_address output) ;;
      match path with
      | None => confirm_outputs tx (S i) rest details
      | Some path =>
          let details := Details_setOutput details i (Some path) in
          credit <- getCredit (tx_hash tx) (Z.of_nat i) ;;
          match credit with
          | None => throw "AssertionError"
          | Some credit =>
              (if spent credit then updateSpentCoin tx (Z.of_nat i) else ret tt) ;;
              let c := coin_set_height (coin credit) (tx_height tx) in
              update_pending (add_confirmed (out_value output)) ;;
              saveCredit (mkCredit c (spent credit)) path ;;
              confirm_outputs tx (S i) rest details
          end
      end
  end.

Fixpoint reindex_accounts (tx : TX) (accounts : list Z) : M unit :=
  match accounts with
  | [] => ret tt
  | acct :: rest =>
      del (KP acct (tx_hash tx)) ;;
      put (KH acct (tx_height tx) (tx_hash tx)) DUMMY ;;
      reindex_accounts tx rest
  end.

Definition _confirm (tx : TX) (block : option BlockMeta) : M Details :=
  let hash := tx_hash tx in
  let details := Details_new tx in
  details <-
    (if negb (tx_coinbase tx) then
       credits <- getSpentCredits tx ;;
       confirm_inputs tx 0 (zip (tx_inputs tx) credits) details
     else ret details) ;;
  details <- confirm_outputs tx 0 (tx_outputs tx) details ;;
  del (Kr hash) ;;
  put (Kt hash) (TX_toExtended tx) ;;
  del (Kp hash) ;;
  put (Kh (tx_height tx) hash) DUMMY ;;
  reindex_accounts tx (dt_accounts details) ;;
  (if negb (tx_height tx =? -1) then addBlock tx block else ret tt) ;;
  commit_state ;;
  unlockTX tx ;;
  emit "confirmed" (EvTX tx) details ;;
  p <- gets pending ;;
  match p with
  | None => throw "TypeError"
  | Some p =>
      emit "balance" (EvBalance (TXDBState_toBalance p)) details ;;
      ret details
  end.

(** [confirm] returns nothing when the hash is unknown. *)
Definition confirm (hash : Hash) (block : option BlockMeta) : M (option Details) :=
  tx <- getTX hash ;;
  match tx with
  | None => ret None
  | Some tx =>
      if negb (tx_height tx =? -1) then throw "TX is already confirmed."
      else
        match block with
        | None => throw "AssertionError"
        | Some b =>
            let tx := tx_set_block tx (bm_height b) (Some (bm_block b))
                                   (bm_ts b) (tx_index tx) in
            start ;;
            details <- try_rethrow (_confirm tx block) drop ;;
            commit ;;
            ret (Some details)
        end
  end.

(** ** disconnect *)

(** Modelled from the spec: [tx.unsetBlock()] (primitives/tx.js is not
    part of the sources) unsets the block fields of the transaction:
    no height, no block hash, no time, no index. *)
Definition tx_unset_block (tx : TX) : TX :=
  tx_set_block tx (-1) None 0 (-1).

Fixpoint disconnect_inputs (tx : TX) (i : nat) (credits : list (option Credit))
    (details : Details) : M Details :=
  match credits with
  | [] => ret details
  | None :: rest => disconnect_inputs tx (S i) rest details
  | Some credit :: rest =>
      let c := coin credit in
      assert (negb (coin_height c =? -1)) "AssertionError" ;;
      path <- getPath (coin_address c) ;;
      match path with
      | None => throw "AssertionError"
      | Some path =>
          let details := Details_setInput details i (Some path) (Some c) in
          update_pending (add_confirmed (coin_value c)) ;;
          saveCredit (mkCredit c true) path ;;
          disconnect_inputs tx (S i) rest details
      end
  end.

Fixpoint disconnect_outputs (tx : TX) (i : nat) (outputs : list Output)
    (details : Details) : M Details :=
  match outputs with
  | [] => ret details
  | output :: rest =>
      path <- getPath (out_address output) ;;
      match path with
      | None => disconnect_outputs tx (S i) rest details
      | Some path =>
          credit <- getCredit (tx_hash tx) (Z.of_nat i) ;;
          match credit with
          | None =>
              updateSpentCoin tx (Z.of_nat i) ;;
              disconnect_outputs tx (S i) rest details
          | Some credit =>
              (if spent credit then updateSpentCoin tx (Z.of_nat i) else ret tt) ;;
              let details := Details_setOutput details i (Some path) in
              let c := coin_set_height (coin credit) (-1) in
              update_pending (add_confirmed (- out_value output)) ;;
              saveCredit (mkCredit c (spent credit)) path ;;
              disconnect_outputs tx (S i) rest details
          end
      end
  end.

Fixpoint unreindex_accounts (tx : TX) (height : Z) (accounts : list Z)
    : M unit :=
  match accounts with
  | [] => ret tt
  | acct :: rest =>
      put (KP acct (tx_hash tx)) DUMMY ;;
      del (KH acct height (tx_hash tx)) ;;
      unreindex_accounts tx height rest
  end.

(** [details] is built from the transaction as stored, before its
    block fields are unset. *)
Definition disconnect (tx : TX) : M Details :=
  let hash := tx_hash tx in
  let details := Details_new tx in
  let height := tx_height tx in
  assert (negb (height =? -1)) "AssertionError" ;;
  let tx := tx_unset_block tx in
  details <-
    (if negb (tx_coinbase tx) then
       credits <- getSpentCredits tx ;;
       disconnect_inputs tx 0 credits details
     else ret details) ;;
  details <- disconnect_outputs tx 0 (tx_outputs tx) details ;;
  removeBlock tx height ;;
  put (Kt hash) (TX_toExtended tx) ;;
  put (Kp hash) DUMMY ;;
  del (Kh height hash) ;;
  unreindex_accounts tx height (dt_accounts details) ;;
  commit_state ;;
  emit "unconfirmed" (EvTX tx) details ;;
  p <- gets pending ;;
  match p with
  | None => throw "TypeError"
  | Some p =>
      emit "balance" (EvBalance (TXDBState_toBalance p)) details ;;
      ret details
  end.

Definition _unconfirm (hash : Hash) : M (option Details) :=
  tx <- getTX hash ;;
  match tx with
  | None => ret None
  | Some tx => details <- disconnect tx ;; ret (Some details)
  end.

Definition unconfirm (hash : Hash) : M (option Details) :=
  start ;;
  details <- try_rethrow (_unconfirm hash) drop ;;
  commit ;;
  ret details.

(** ** erase and recursive removal *)

Fixpoint erase_inputs (tx : TX) (i : nat) (credits : list (option Credit))
    (details : Details) : M Details :=
  match credits with
  | [] => ret details
  | None :: rest =>
      removeInput tx (Z.of_nat i) ;;
      erase_inputs tx (S i) rest details
  | Some credit :: rest =>
      let c := coin credit in
      path <- getPath (coin_address c) ;;
      match path with
      | None => throw "AssertionError"
      | Some path =>
          let details := Details_setInput details i (Some path) (Some c) in
          update_pending (add_coin 1) ;;
          update_pending (add_unconfirmed (coin_value c)) ;;
          (if negb (tx_height tx =? -1)
           then update_pending (add_confirmed (coin_value c))
           else ret tt) ;;
          unspendCredit tx (Z.of_nat i) ;;
          saveCredit credit path ;;
          erase_inputs tx (S i) rest details
      end
  end.

Fixpoint erase_outputs (tx : TX) (i : nat) (outputs : list Output)
    (details : Details) : M Details :=
  match outputs with
  | [] => ret details
  | output :: rest =>
      path <- getPath (out_address output) ;;
      match path with
      | None => erase_outputs tx (S i) rest details
      | Some path =>
          let details := Details_setOutput details i (Some path) in
          match Credit_fromTX tx (Z.of_nat i) with
          | None => throw "TypeError"
          | Some credit =>
              update_pending (add_coin (-1)) ;;
              update_pending (add_unconfirmed (- out_value output)) ;;
              (if negb (tx_height tx =? -1)
               then update_pending (add_confirmed (- out_value output))
               else ret tt) ;;
              removeCredit credit path ;;
              erase_outputs tx (S i) rest details
          end
      end
  end.

Fixpoint unindex_accounts (tx : TX) (accounts : list Z) : M unit :=
  match accounts with
  | [] => ret tt
  | acct :: rest =>
      del (KT acct (tx_hash tx)) ;;
      del (KM acct (tx_ps tx) (tx_hash tx)) ;;
      (if tx_height tx =? -1 then del (KP acct (tx_hash tx))
       else del (KH acct (tx_height tx) (tx_hash tx))) ;;
      unindex_accounts tx rest
  end.

Definition erase (tx : TX) : M Details :=
  let hash := tx_hash tx in
  let details := Details_new tx in
  details <-
    (if negb (tx_coinbase tx) then
       credits <- getSpentCredits tx ;;
       erase_inputs tx 0 credits details
     else ret details) ;;
  details <- erase_outputs tx 0 (tx_outputs tx) details ;;
  del (Kr hash) ;;
  del (Kt hash) ;;
  del (Km (tx_ps tx) hash) ;;
  (if tx_height tx =? -1 then del (Kp hash)
   else del (Kh (tx_height tx) hash)) ;;
  unindex_accounts tx (dt_accounts details) ;;
  (if negb (tx_height tx =? -1) then removeBlock tx (tx_height tx) else ret tt) ;;
  update_pending (add_tx (-1)) ;;
  commit_state ;;
  emit "remove tx" (EvTX tx) details ;;
  p <- gets pending ;;
  match p with
  | None => throw "TypeError"
  | Some p =>
      emit "balance" (EvBalance (TXDBState_toBalance p)) details ;;
      ret details
  end.

(** The loop of [removeRecursive] over the outputs: [recurse] is the
    recursive call on a spender. *)
Fixpoint remove_spenders (recurse : TX -> M Details) (hash : Hash) (i : nat)
    (outputs : list Output) : M unit :=
  match outputs with
  | [] => ret tt
  | _ :: rest =>
      spent <- getSpent hash (Z.of_nat i) ;;
      match spent with
      | None => remove_spenders recurse hash (S i) rest
      | Some spent =>
          stx <- getTX (op_hash spent) ;;
          match stx with
          | None => throw "AssertionError"
          | Some stx =>
              recurse stx ;;
              remove_spenders recurse hash (S i) rest
          end
      end
  end.

(** [removeRecursive] follows the spent markers; the model bounds the
    depth of the recursion by [fuel]. *)
Fixpoint removeRecursive (fuel : nat) (tx : TX) : M Details :=
  match fuel with
  | O => out_of_fuel
  | S fuel =>
      remove_spenders (removeRecursive fuel) (tx_hash tx) 0 (tx_outputs tx) ;;
      start ;;
      details <- erase tx ;;
      commit ;;
      ret details
  end.

Definition remove (fuel : nat) (hash : Hash) : M (option Details) :=
  tx <- getTX hash ;;
  match tx with
  | None => ret None
  | Some tx => details <- removeRecursive fuel tx ;; ret (Some details)
  end.

Definition abandon (fuel : nat) (hash : Hash) : M (option Details) :=
  result <- has (Kp hash) ;;
  if negb result then throw "TX not eligible."
  else remove fuel hash.

(** ** Conflicts *)

Definition removeConflict (fuel : nat) (tx : TX) : M Details :=
  drop ;;
  details <- removeRecursive fuel tx ;;
  start ;;
  emit "conflict" (EvTX tx) details ;;
  ret details.

(** The first loop of [removeConflicts]: [None] is the early
    [return false]; otherwise the sparse array [spends], aligned with
    the inputs. *)
Fixpoint gather_spends (hash : Hash) (conf : bool) (inputs : list Input)
    : M (option (list (option TX))) :=
  match inputs with
  | [] => ret (Some [])
  | input :: rest =>
      let prevout := prevout input in
      spent <- getSpent (op_hash prevout) (op_index prevout) ;;
      match spent with
      | None =>
          r <- gather_spends hash conf rest ;;
          ret (option_map (cons None) r)
      | Some spent =>
          if bool_decide (op_hash spent = hash) then
            r <- gather_spends hash conf rest ;;
            ret (option_map (cons None) r)
          else
            spender <- getTX (op_hash spent) ;;
            match spender with
            | None => throw "AssertionError"
            | Some spender =>
                if conf && negb (tx_height spender =? -1) then ret None
                else
                  r <- gather_spends hash conf rest ;;
                  ret (option_map (cons (Some spender)) r)
            end
      end
  end.

Fixpoint remove_spends (fuel : nat) (spends : list (option TX)) : M unit :=
  match spends with
  | [] => ret tt
  | None :: rest => remove_spends fuel rest
  | Some spender :: rest =>
      removeConflict fuel spender ;;
      remove_spends fuel rest
  end.

Definition removeConflicts (fuel : nat) (tx : TX) (conf : bool) : M bool :=
  let hash := tx_hash tx in
  if tx_coinbase tx then ret true
  else
    spends <- gather_spends hash conf (tx_inputs tx) ;;
    match spends with
    | None => ret false
    | Some spends => remove_spends fuel spends ;; ret true
    end.

(** ** add *)

Definition _add (fuel : nat) (tx : TX) (block : option BlockMeta)
    : M (option Details) :=
  let hash := tx_hash tx in
  existing <- getTX hash ;;
  assert (negb (tx_mutable tx)) "Cannot add mutable TX to wallet." ;;
  match existing with
  | Some existing =>
      if negb (tx_height existing =? -1) then ret None
      else if tx_height tx =? -1 then ret None
      else
        let existing := tx_set_block existing (tx_height tx) (tx_block tx)
                                     (tx_ts tx) (tx_index tx) in
        details <- _confirm existing block ;;
        ret (Some details)
  | None =>
      if tx_height tx =? -1 then
        rbf <- isRBF tx ;;
        if rbf then put (Kr hash) DUMMY ;; ret None
        else
          ok <- removeConflicts fuel tx true ;;
          if negb ok then ret None
          else insert tx block
      else
        removeConflicts fuel tx false ;;
        del (Kr hash) ;;
        insert tx block
  end.

Definition add (fuel : nat) (tx : TX) (block : option BlockMeta)
    : M (option Details) :=
  start ;;
  result <- try_rethrow (_add fuel tx block) drop ;;
  commit ;;
  ret result.

(** ** SPV orphan tracker *)

(** options.verify && tx.height === -1: run the script check of input
    [i] against [c] (input.coin = coin; tx.verifyInputAsync(i)). *)
Definition check_input (tx : TX) (i : nat) (c : Coin) : M bool :=
  gets (fun s =>
          if opt_verify (env s) && (tx_height tx =? -1)
          then verifyInput (env s) tx (Z.of_nat i) c
          else true).

(** The first loop of [verifyInputs]: [None] is an early
    [return false]; otherwise the flags [orphans[i]]. *)
Fixpoint scan_inputs (tx : TX) (i : nat) (inputs : list Input)
    : M (option (list bool)) :=
  match inputs with
  | [] => ret (Some [])
  | input :: rest =>
      let prevout := prevout input in
      c <- getCoin (op_hash prevout) (op_index prevout) ;;
      match c with
      | Some c =>
          ok <- check_input tx i c ;;
          if negb ok then ret None
          else r <- scan_inputs tx (S i) rest ;; ret (option_map (cons false) r)
      | None =>
          spent <- getSpent (op_hash prevout) (op_index prevout) ;;
          c <- match spent with
               | Some spent => getSpentCoin spent prevout
               | None => ret None
               end ;;
          match c with
          | Some c =>
              ok <- check_input tx i c ;;
              if negb ok then ret None
              else r <- scan_inputs tx (S i) rest ;; ret (option_map (cons false) r)
          | None =>
              ours <- hasPath (in_address input) ;;
              r <- scan_inputs tx (S i) rest ;;
              ret (option_map (cons ours) r)
          end
      end
  end.

(** One pass of the body of the second loop for an orphan input:
    purge on overflow, then stash. *)
Definition stash_orphan (tx : TX) (i : nat) (input : Input)
    (block : option BlockMeta) : M unit :=
  let hash := tx_hash tx in
  let key := (op_hash (prevout input), op_index (prevout input)) in
  modify (fun s =>
            if totalOrphans s >? 20 then set_tracker ∅ ∅ 0 s else s) ;;
  modify (fun s =>
            let list := default [] (orphans s !! key) in
            let n := default 0 (count s !! hash) in
            set_tracker
              (<[key := list ++ [mkOrphan tx hash (Z.of_nat i) block]]> (orphans s))
              (<[hash := n + 1]> (count s))
              (totalOrphans s + 1) s).

Fixpoint store_orphans (tx : TX) (block : option BlockMeta) (i : nat)
    (inputs : list Input) (flags : list bool) (hasOrphans : bool) : M bool :=
  match inputs, flags with
  | input :: rest, flag :: flags =>
      if flag then
        stash_orphan tx i input block ;;
        store_orphans tx block (S i) rest flags true
      else store_orphans tx block (S i) rest flags hasOrphans
  | _, _ => ret hasOrphans
  end.

Definition verifyInputs (tx : TX) (block : option BlockMeta) : M bool :=
  let hash := tx_hash tx in
  if tx_coinbase tx then ret true
  else
    known <- gets (fun s => default 0 (count s !! hash)) ;;
    if negb (known =? 0) then ret false
    else
      flags <- scan_inputs tx 0 (tx_inputs tx) ;;
      match flags with
      | None => ret false
      | Some flags =>
          hasOrphans <- store_orphans tx block 0 (tx_inputs tx) flags false ;;
          ret (negb hasOrphans)
      end.

(** ** Balance recomputed from the credits *)

(** getWalletBalance: the scan over every stored credit, adding the
    value of each credit with a height to [confirmed] and of each
    credit not spent to [unconfirmed]. *)
Definition balance_step (k : Key) (v : Value) (b : Balance) : Balance :=
  match k, v with
  | Kc _ _, VCredit r sp =>
      mkBalance
        (if sp then bal_unconfirmed b else bal_unconfirmed b + cr_value r)
        (if cr_height r =? -1 then bal_confirmed b else bal_confirmed b + cr_value r)
  | _, _ => b
  end.

Definition getWalletBalance (m : gmap Key Value) : Balance :=
  map_fold balance_step (mkBalance 0 0) m.

(** ** States between two write entry points *)

(** No batch is open, nothing is pending and no event is buffered. *)
Definition quiescent (s : TXDB) : Prop :=
  current s = None /\ pending s = None /\ events s = [] /\
  lru_pending (coinCache s) = None.

(** The cache only holds bytes that are stored under the credit key. *)
Definition cache_coherent (s : TXDB) : Prop :=
  forall h i v, lru_items (coinCache s) !! (h, i) = Some v ->
                db s !! Kc h i = Some v.

(** Every key holds a value of its own kind. *)
Definition value_ok (k : Key) (v : Value) : bool :=
  match k, v with
  | Kt _, VTX _ => true
  | Kc _ _, VCredit _ _ => true
  | Kd _ _, VCoin _ => true
  | Ks _ _, VOutpoint _ => true
  | KR, VState _ _ _ _ => true
  | Kb _, VBlock _ => true
  | Kp _, VDummy | Km _ _, VDummy | Kh _ _, VDummy | KT _ _, VDummy
  | KP _ _, VDummy | KM _ _ _, VDummy | KH _ _ _, VDummy
  | KC _ _ _, VDummy | Kr _, VDummy => true
  | _, _ => false
  end.

Definition well_typed (m : gmap Key Value) : Prop :=
  map_Forall (fun k v => value_ok k v = true) m.

(** The object right after [start]. *)
Definition started (s : TXDB) : TXDB :=
  set_current (fun _ => Some [])
    (set_coinCache LRU_start
       (set_pending (fun _ => Some (TXDBState_clone (state s))) s)).

(** The batch [confirm] runs once it has set the block fields
    (start, _confirm, drop on error, commit). *)
Definition confirm_transition (tx : TX) (block : option BlockMeta)
    : M (option Details) :=
  start ;;
  details <- try_rethrow (_confirm tx block) drop ;;
  commit ;;
  ret (Some details).

(** The condition [isRBF] tests. *)
Definition rbf_tainted (m : gmap Key Value) (tx : TX) : Prop :=
  tx_rbf tx = true \/
  exists input, input ∈ tx_inputs tx /\ is_Some (m !! Kr (op_hash (prevout input))).

(** ** Wallets fed with orphans *)

(** The [n]-th of a family of transactions, each with one input whose
    previous output is unknown and whose scriptSig carries an address
    of the wallet. *)
Definition orphan_tx (n : nat) : TX :=
  mkTX (String (Ascii.ascii_of_nat (65 + n)) "o")
       [mkInput (mkOutpoint (String (Ascii.ascii_of_nat (65 + n)) "u") 0)
                (Some "addrA")]
       [mkOutput 1 None] (-1) None 0 0 100 false false false.

(** [verifyInputs] on the first [n] transactions of the family. *)
Fixpoint feed_orphans (n : nat) (s : TXDB) : TXDB :=
  match n with
  | O => s
  | S n => (verifyInputs (orphan_tx n) None (feed_orphans n s)).2
  end.

(** ** Effects of a batch body, as data *)

(** The net change of the pending counters made by a piece of a batch
    body, and whether it marked the pending state committed. *)
Record Delta := mkDelta {
  d_tx : Z; d_coin : Z; d_unconfirmed : Z; d_confirmed : Z;
  d_commit : bool }.

Definition delta0 : Delta := mkDelta 0 0 0 0 false.

Definition delta_plus (a b : Delta) : Delta :=
  mkDelta (d_tx a + d_tx b) (d_coin a + d_coin b)
          (d_unconfirmed a + d_unconfirmed b) (d_confirmed a + d_confirmed b)
          (d_commit a || d_commit b).

Definition apply_delta (d : Delta) (p : TXDBState) : TXDBState :=
  mkState (st_tx p + d_tx d) (st_coin p + d_coin d)
          (st_unconfirmed p + d_unconfirmed d) (st_confirmed p + d_confirmed d)
          (st_committed p || d_commit d).

(** [step s s' new d]: [s'] differs from [s] by the operations [new]
    staged on the open batch and by the change [d] of the pending
    counters; the store, the environment and the committed state are
    the same, and a coherent cache stays coherent. *)
Definition step (s s' : TXDB) (new : list Op) (d : Delta) : Prop :=
  db s' = db s /\ env s' = env s /\ state s' = state s /\
  current s' = (fun ops => ops ++ new) <$> current s /\
  pending s' = apply_delta d <$> pending s /\
  (cache_coherent s -> cache_coherent s').

(** [runs m s a new d]: from [s] the computation [m] returns [a]
    without throwing, with the effect [step] describes. *)
Definition runs {A} (m : M A) (s : TXDB) (a : A) (new : list Op) (d : Delta)
    : Prop :=
  exists s', m s = (Ok a, s') /\ step s s' new d.

(** A batch is open. *)
Definition batch_open (s : TXDB) : Prop :=
  is_Some (current s) /\ is_Some (pending s).

(** The credit stored for an outpoint, and the path of an address. *)
Definition credit_at (m : gmap Key Value) (o : Outpoint) : option (CoinRaw * bool) :=
  match m !! Kc (op_hash o) (op_index o) with
  | Some (VCredit r sp) => Some (r, sp)
  | _ => None
  end.

Definition path_of (paths : gmap Address Path) (addr : option Address)
    : option Path :=
  a ← addr; paths !! a.

(** ** What insert stages, as a function of the store *)

(** The operations [insert] stages for input [i], the change of the
    counters, and the details as extended. *)
Definition insert_input_ops (m : gmap Key Value) (paths : gmap Address Path)
    (tx : TX) (i : nat) (input : Input) : list Op :=
  let p := prevout input in
  let marker := (Ks (op_hash p) (op_index p),
                 Some (VOutpoint (mkOutpoint (tx_hash tx) (Z.of_nat i)))) in
  match credit_at m p with
  | None => [marker]
  | Some (r, sp) =>
      match path_of paths (cr_address r) with
      | None => []
      | Some path =>
          [marker; (Kd (tx_hash tx) (Z.of_nat i), Some (VCoin r))] ++
          (if tx_height tx =? -1 then
             [(Kc (op_hash p) (op_index p), Some (VCredit r true));
              (KC (account path) (op_hash p) (op_index p), Some DUMMY)]
           else
             [(Kc (op_hash p) (op_index p), None);
              (KC (account path) (op_hash p) (op_index p), None)])
      end
  end.

Definition insert_input_delta (m : gmap Key Value) (tx : TX) (input : Input)
    : Delta :=
  match credit_at m (prevout input) with
  | None => delta0
  | Some (r, sp) =>
      mkDelta 0 (-1) (- cr_value r)
              (if tx_height tx =? -1 then 0 else - cr_value r) false
  end.

Definition insert_input_details (m : gmap Key Value) (paths : gmap Address Path)
    (i : nat) (input : Input) (details : Details) : Details :=
  let p := prevout input in
  match credit_at m p with
  | None => details
  | Some (r, sp) =>
      Details_setInput details i (path_of paths (cr_address r))
        (Some (Coin_fromRaw r (op_hash p) (op_index p)))
  end.

Fixpoint insert_inputs_ops (m : gmap Key Value) (paths : gmap Address Path)
    (tx : TX) (i : nat) (inputs : list Input) : list Op :=
  match inputs with
  | [] => []
  | input :: rest =>
      insert_input_ops m paths tx i input ++ insert_inputs_ops m paths tx (S i) rest
  end.

Fixpoint insert_inputs_delta (m : gmap Key Value) (tx : TX)
    (inputs : list Input) : Delta :=
  match inputs with
  | [] => delta0
  | input :: rest =>
      delta_plus (insert_input_delta m tx input) (insert_inputs_delta m tx rest)
  end.

Fixpoint insert_inputs_details (m : gmap Key Value) (paths : gmap Address Path)
    (i : nat) (inputs : list Input) (details : Details) : Details :=
  match inputs with
  | [] => details
  | input :: rest =>
      insert_inputs_details m paths (S i) rest
        (insert_input_details m paths i input details)
  end.

Definition insert_inputs_updated (m : gmap Key Value) (inputs : list Input)
    (updated : bool) : bool :=
  updated || existsb (fun input => bool_decide (is_Some (credit_at m (prevout input)))) inputs.

(** Every stored credit an input spends decodes and resolves to a
    path of the wallet. *)
Definition inputs_ok (m : gmap Key Value) (paths : gmap Address Path)
    (inputs : list Input) : Prop :=
  forall input v, input ∈ inputs ->
    m !! Kc (op_hash (prevout input)) (op_index (prevout input)) = Some v ->
    exists r sp path, v = VCredit r sp /\ path_of paths (cr_address r) = Some path.

(** [l] is the part of [whole] that starts at position [i]. *)
Definition suffix_at {A} (whole : list A) (i : nat) (l : list A) : Prop :=
  forall k x, l !! k = Some x -> whole !! (i + k)%nat = Some x.

(** The operations staged for output [i] when no spent marker waits
    for it. *)
Definition output_raw (tx : TX) (output : Output) : CoinRaw :=
  mkCoinRaw (tx_height tx) (out_value output) (out_address output)
            (tx_coinbase tx).

Definition insert_output_ops (paths : gmap Address Path) (tx : TX) (i : nat)
    (output : Output) : list Op :=
  match path_of paths (out_address output) with
  | None => []
  | Some path =>
      [(Kc (tx_hash tx) (Z.of_nat i), Some (VCredit (output_raw tx output) false));
       (KC (account path) (tx_hash tx) (Z.of_nat i), Some DUMMY)]
  end.

Definition insert_output_delta (paths : gmap Address Path) (tx : TX)
    (output : Output) : Delta :=
  match path_of paths (out_address output) with
  | None => delta0
  | Some _ =>
      mkDelta 0 1 (out_value output)
              (if tx_height tx =? -1 then 0 else out_value output) false
  end.

Fixpoint insert_outputs_ops (paths : gmap Address Path) (tx : TX) (i : nat)
    (outputs : list Output) : list Op :=
  match outputs with
  | [] => []
  | output :: rest =>
      insert_output_ops paths tx i output ++ insert_outputs_ops paths tx (S i) rest
  end.

Fixpoint insert_outputs_delta (paths : gmap Address Path) (tx : TX)
    (outputs : list Output) : Delta :=
  match outputs with
  | [] => delta0
  | output :: rest =>
      delta_plus (insert_output_delta paths tx output)
                 (insert_outputs_delta paths tx rest)
  end.

Fixpoint outputs_details (paths : gmap Address Path) (i : nat)
    (outputs : list Output) (details : Details) : Details :=
  match outputs with
  | [] => details
  | output :: rest =>
      outputs_details paths (S i) rest
        (Details_setOutput details i (path_of paths (out_address output)))
  end.

Definition outputs_updated (paths : gmap Address Path) (outputs : list Output)
    (updated : bool) : bool :=
  updated || existsb (fun o => bool_decide (is_Some (path_of paths (out_address o)))) outputs.

Definition index_ops (tx : TX) (accounts : list Z) : list Op :=
  flat_map (fun acct =>
              [(KT acct (tx_hash tx), Some DUMMY);
               (KM acct (tx_ps tx) (tx_hash tx), Some DUMMY);
               (if tx_height tx =? -1 then (KP acct (tx_hash tx), Some DUMMY)
                else (KH acct (tx_height tx) (tx_hash tx), Some DUMMY))])
           accounts.

Definition addBlock_ops (m : gmap Key Value) (tx : TX) : list Op :=
  match m !! Kb (tx_height tx) with
  | Some (VBlock b) =>
      match BlockRecord_add b (tx_hash tx) with
      | Some b' => [(Kb (tx_height tx), Some (VBlock b'))]
      | None => []
      end
  | _ =>
      [(Kb (tx_height tx),
        Some (VBlock (mkBlockRecord (default NULL_HASH (tx_block tx))
                                    (tx_height tx) (tx_ts tx) [tx_hash tx])))]
  end.

Definition insert_details (m : gmap Key Value) (paths : gmap Address Path)
    (tx : TX) : Details :=
  outputs_details paths 0 (tx_outputs tx)
    (if tx_coinbase tx then Details_new tx
     else insert_inputs_details m paths 0 (tx_inputs tx) (Details_new tx)).

(** Whether the transaction touches the wallet ([updated]). *)
Definition insert_touches (m : gmap Key Value) (paths : gmap Address Path)
    (tx : TX) : bool :=
  outputs_updated paths (tx_outputs tx)
    (if tx_coinbase tx then false
     else insert_inputs_updated m (tx_inputs tx) false).

Definition insert_body_ops (m : gmap Key Value) (paths : gmap Address Path)
    (tx : TX) : list Op :=
  (if tx_coinbase tx then []
   else insert_inputs_ops m paths tx 0 (tx_inputs tx)) ++
  insert_outputs_ops paths tx 0 (tx_outputs tx).

Definition insert_body_delta (m : gmap Key Value) (paths : gmap Address Path)
    (tx : TX) : Delta :=
  delta_plus (if tx_coinbase tx then delta0
              else insert_inputs_delta m tx (tx_inputs tx))
             (insert_outputs_delta paths tx (tx_outputs tx)).

Definition insert_delta (m : gmap Key Value) (paths : gmap Address Path)
    (tx : TX) : Delta :=
  delta_plus (insert_body_delta m paths tx) (mkDelta 1 0 0 0 true).

(** All that [insert] stages, [p] being the pending state it starts
    from. *)
Definition insert_ops (m : gmap Key Value) (paths : gmap Address Path)
    (tx : TX) (p : TXDBState) : list Op :=
  insert_body_ops m paths tx ++
  [(Kt (tx_hash tx), Some (TX_toExtended tx));
   (Km (tx_ps tx) (tx_hash tx), Some DUMMY);
   (if tx_height tx =? -1 then (Kp (tx_hash tx), Some DUMMY)
    else (Kh (tx_height tx) (tx_hash tx), Some DUMMY))] ++
  index_ops tx (dt_accounts (insert_details m paths tx)) ++
  (if tx_height tx =? -1 then [] else addBlock_ops m tx) ++
  [(KR, Some (TXDBState_toRaw (apply_delta (insert_delta m paths tx) p)))].

(** No spent marker is stored for a previous output of [tx]. *)
Definition no_conflicts (m : gmap Key Value) (tx : TX) : Prop :=
  forall input, input ∈ tx_inputs tx ->
    m !! Ks (op_hash (prevout input)) (op_index (prevout input)) = None.

(** All that [add] stages for a transaction it inserts. *)
Definition add_ops (m : gmap Key Value) (paths : gmap Address Path)
    (tx : TX) (p : TXDBState) : list Op :=
  (if tx_height tx =? -1 then [] else [(Kr (tx_hash tx), None)]) ++
  insert_ops m paths tx p.

(** ** The balance, entry by entry *)





(** The correspondence between the counters and the credits. *)
Definition balance_matches (m : gmap Key Value) (st : TXDBState) : Prop :=
  getWalletBalance m = TXDBState_toBalance st.

Definition is_credit_key (k : Key) : bool :=
  match k with Kc _ _ => true | _ => false end.

(** Every stored credit [tx] spends is not flagged spent and, when
    [tx] has a height, has one too. *)
Definition spends_ok (m : gmap Key Value) (tx : TX) (inputs : list Input) : Prop :=
  forall input r sp, input ∈ inputs ->
    credit_at m (prevout input) = Some (r, sp) ->
    sp = false /\ (tx_height tx <> -1 -> cr_height r <> -1).

(** ** Transactions [add] inserts *)

(** [tx] is new to the store, is not ignored as replace-by-fee,
    conflicts with no recorded spend, its outputs are not yet spent
    by anything recorded, the credits it spends resolve to paths of
    the wallet, and it touches the wallet. *)
Definition insertable (s : TXDB) (tx : TX) : Prop :=
  tx_mutable tx = false /\
  db s !! Kt (tx_hash tx) = None /\
  (tx_height tx = -1 -> ~ rbf_tainted (db s) tx) /\
  no_conflicts (db s) tx /\
  inputs_ok (db s) (wpaths (env s)) (tx_inputs tx) /\
  (forall k, db s !! Ks (tx_hash tx) k = None) /\
  (forall v, db s !! Kb (tx_height tx) = Some v -> exists b, v = VBlock b) /\
  insert_touches (db s) (wpaths (env s)) tx = true.

(** The keys a transaction hash owns in the spent-marker and credit
    indexes. *)
Definition marker_of (hash : Hash) (k : Key) : bool :=
  match k with Ks h _ => bool_decide (h = hash) | _ => false end.

Definition credit_of (hash : Hash) (k : Key) : bool :=
  match k with Kc h _ => bool_decide (h = hash) | _ => false end.

(** ** What erase stages, as a function of the store *)

(** The undo coin stored for input [i] of [tx]. *)
Definition undo_at (m : gmap Key Value) (tx : TX) (i : nat) : option CoinRaw :=
  match m !! Kd (tx_hash tx) (Z.of_nat i) with
  | Some (VCoin r) => Some r
  | _ => None
  end.

(** The array [getSpentCredits] returns, from input [i] on. *)
Fixpoint spent_credits (m : gmap Key Value) (tx : TX) (i : nat)
    (inputs : list Input) : list (option Credit) :=
  match inputs with
  | [] => []
  | input :: rest =>
      match undo_at m tx i with
      | Some r =>
          Some (mkCredit (Coin_fromRaw r (op_hash (prevout input))
                                       (op_index (prevout input))) false)
      | None => None
      end :: spent_credits m tx (S i) rest
  end.

(** Every undo coin stored under the hash of [tx] decodes and belongs
    to an input of [tx]. *)
Definition undo_ok (m : gmap Key Value) (tx : TX) : Prop :=
  forall j v, m !! Kd (tx_hash tx) j = Some v ->
    (exists r, v = VCoin r) /\ is_Some (tx_input tx j).

Definition erase_input_ops (m : gmap Key Value) (paths : gmap Address Path)
    (tx : TX) (i : nat) (input : Input) : list Op :=
  let p := prevout input in
  match undo_at m tx i with
  | None => [(Ks (op_hash p) (op_index p), None)]
  | Some r =>
      match path_of paths (cr_address r) with
      | None => []
      | Some path =>
          [(Ks (op_hash p) (op_index p), None);
           (Kd (tx_hash tx) (Z.of_nat i), None);
           (Kc (op_hash p) (op_index p), Some (VCredit r false));
           (KC (account path) (op_hash p) (op_index p), Some DUMMY)]
      end
  end.

Definition erase_input_delta (m : gmap Key Value) (tx : TX) (i : nat) : Delta :=
  match undo_at m tx i with
  | None => delta0
  | Some r =>
      mkDelta 0 1 (cr_value r)
              (if tx_height tx =? -1 then 0 else cr_value r) false
  end.

Definition erase_input_details (m : gmap Key Value) (paths : gmap Address Path)
    (tx : TX) (i : nat) (input : Input) (details : Details) : Details :=
  let p := prevout input in
  match undo_at m tx i with
  | None => details
  | Some r =>
      Details_setInput details i (path_of paths (cr_address r))
        (Some (Coin_fromRaw r (op_hash p) (op_index p)))
  end.

Fixpoint erase_inputs_ops (m : gmap Key Value) (paths : gmap Address Path)
    (tx : TX) (i : nat) (inputs : list Input) : list Op :=
  match inputs with
  | [] => []
  | input :: rest =>
      erase_input_ops m paths tx i input ++ erase_inputs_ops m paths tx (S i) rest
  end.

Fixpoint erase_inputs_delta (m : gmap Key Value) (tx : TX) (i : nat)
    (inputs : list Input) : Delta :=
  match inputs with
  | [] => delta0
  | input :: rest =>
      delta_plus (erase_input_delta m tx i) (erase_inputs_delta m tx (S i) rest)
  end.

Fixpoint erase_inputs_details (m : gmap Key Value) (paths : gmap Address Path)
    (tx : TX) (i : nat) (inputs : list Input) (details : Details) : Details :=
  match inputs with
  | [] => details
  | input :: rest =>
      erase_inputs_details m paths tx (S i) rest
        (erase_input_details m paths tx i input details)
  end.

(** Every undo coin of [tx] resolves to a path of the wallet. *)
Definition undo_paths_ok (m : gmap Key Value) (paths : gmap Address Path)
    (tx : TX) : Prop :=
  forall i r, undo_at m tx i = Some r -> is_Some (path_of paths (cr_address r)).

Definition erase_output_ops (paths : gmap Address Path) (tx : TX) (i : nat)
    (output : Output) : list Op :=
  match path_of paths (out_address output) with
  | None => []
  | Some path =>
      [(Kc (tx_hash tx) (Z.of_nat i), None);
       (KC (account path) (tx_hash tx) (Z.of_nat i), None)]
  end.

Definition erase_output_delta (paths : gmap Address Path) (tx : TX)
    (output : Output) : Delta :=
  match path_of paths (out_address output) with
  | None => delta0
  | Some _ =>
      mkDelta 0 (-1) (- out_value output)
              (if tx_height tx =? -1 then 0 else - out_value output) false
  end.

Fixpoint erase_outputs_ops (paths : gmap Address Path) (tx : TX) (i : nat)
    (outputs : list Output) : list Op :=
  match outputs with
  | [] => []
  | output :: rest =>
      erase_output_ops paths tx i output ++ erase_outputs_ops paths tx (S i) rest
  end.

Fixpoint erase_outputs_delta (paths : gmap Address Path) (tx : TX)
    (outputs : list Output) : Delta :=
  match outputs with
  | [] => delta0
  | output :: rest =>
      delta_plus (erase_output_delta paths tx output)
                 (erase_outputs_delta paths tx rest)
  end.

Definition unindex_ops (tx : TX) (accounts : list Z) : list Op :=
  flat_map (fun acct =>
              [(KT acct (tx_hash tx), None);
               (KM acct (tx_ps tx) (tx_hash tx), None);
               (if tx_height tx =? -1 then (KP acct (tx_hash tx), None)
                else (KH acct (tx_height tx) (tx_hash tx), None))])
           accounts.

Definition removeBlock_ops (m : gmap Key Value) (tx : TX) : list Op :=
  match m !! Kb (tx_height tx) with
  | Some (VBlock b) =>
      match BlockRecord_remove b (tx_hash tx) with
      | Some b' =>
          if bool_decide (br_hashes b' = []) then [(Kb (tx_height tx), None)]
          else [(Kb (tx_height tx), Some (VBlock b'))]
      | None => []
      end
  | _ => []
  end.

Definition erase_details (m : gmap Key Value) (paths : gmap Address Path)
    (tx : TX) : Details :=
  outputs_details paths 0 (tx_outputs tx)
    (if tx_coinbase tx then Details_new tx
     else erase_inputs_details m paths tx 0 (tx_inputs tx) (Details_new tx)).

Definition erase_body_ops (m : gmap Key Value) (paths : gmap Address Path)
    (tx : TX) : list Op :=
  (if tx_coinbase tx then []
   else erase_inputs_ops m paths tx 0 (tx_inputs tx)) ++
  erase_outputs_ops paths tx 0 (tx_outputs tx).

Definition erase_body_delta (m : gmap Key Value) (paths : gmap Address Path)
    (tx : TX) : Delta :=
  delta_plus (if tx_coinbase tx then delta0
              else erase_inputs_delta m tx 0 (tx_inputs tx))
             (erase_outputs_delta paths tx (tx_outputs tx)).

Definition erase_delta (m : gmap Key Value) (paths : gmap Address Path)
    (tx : TX) : Delta :=
  delta_plus (erase_body_delta m paths tx) (mkDelta (-1) 0 0 0 true).

(** All that [erase] stages, [p] being the pending state it starts
    from. *)
Definition erase_ops (m : gmap Key Value) (paths : gmap Address Path)
    (tx : TX) (p : TXDBState) : list Op :=
  erase_body_ops m paths tx ++
  [(Kr (tx_hash tx), None);
   (Kt (tx_hash tx), None);
   (Km (tx_ps tx) (tx_hash tx), None);
   (if tx_height tx =? -1 then (Kp (tx_hash tx), None)
    else (Kh (tx_height tx) (tx_hash tx), None))] ++
  unindex_ops tx (dt_accounts (erase_details m paths tx)) ++
  (if tx_height tx =? -1 then [] else removeBlock_ops m tx) ++
  [(KR, Some (TXDBState_toRaw (apply_delta (erase_delta m paths tx) p)))].

(** [tx] can be erased: its undo coins are well formed and resolve to
    paths, and the block record of its height decodes. *)
Definition erasable (s : TXDB) (tx : TX) : Prop :=
  undo_ok (db s) tx /\
  undo_paths_ok (db s) (wpaths (env s)) tx /\
  (forall v, db s !! Kb (tx_height tx) = Some v -> exists b, v = VBlock b).

(** [stages P m]: whenever [m] returns, it has left the store alone
    and has only added to the open batch, and only operations that
    satisfy [P]. *)
Definition stages (P : Op -> Prop) {A} (m : M A) : Prop :=
  forall s a s' ops,
    m s = (Ok a, s') -> current s = Some ops ->
    db s' = db s /\
    exists new, current s' = Some (ops ++ new) /\ Forall P new.




(** Every stored transaction is stored under its own hash. *)
Definition keyed (m : gmap Key Value) : Prop :=
  forall h tx, m !! Kt h = Some (VTX tx) -> tx_hash tx = h.

(** ** The balance after a batch, operation by operation *)






(** ** Transactions [erase] can take back *)

(** The credits [erase] touches are in the state [insert] or [confirm]
    left them in: a credit spent by [tx] is stored flagged spent while
    [tx] is in the mempool and is not stored once [tx] has a height,
    in which case the coin has one too; the credits of the outputs of
    [tx] are stored unspent; no input spends an output of [tx]
    itself or the same output twice. *)
Definition erase_consistent (m : gmap Key Value) (paths : gmap Address Path)
    (tx : TX) : Prop :=
  (tx_coinbase tx = false ->
   NoDup (map prevout (tx_inputs tx)) /\
   (forall input, input ∈ tx_inputs tx -> op_hash (prevout input) <> tx_hash tx) /\
   forall i input r,
     tx_inputs tx !! i = Some input -> undo_at m tx i = Some r ->
     m !! Kc (op_hash (prevout input)) (op_index (prevout input))
     = (if tx_height tx =? -1 then Some (VCredit r true) else None) /\
     (tx_height tx <> -1 -> cr_height r <> -1)) /\
  (forall i output path,
     tx_outputs tx !! i = Some output ->
     path_of paths (out_address output) = Some path ->
     m !! Kc (tx_hash tx) (Z.of_nat i)
     = Some (VCredit (output_raw tx output) false)).

(** The test [keyed] makes on one entry. *)
Definition keyed_entry (k : Key) (v : Value) : bool :=
  match k, v with
  | Kt h, VTX tx => bool_decide (tx_hash tx = h)
  | _, _ => true
  end.

(** ** add followed by erase *)

(** [erase] in a batch of its own, the way [removeRecursive] runs it
    once the spenders are gone. *)
Definition erase_in_batch (tx : TX) : M Details :=
  start ;;
  details <- erase tx ;;
  commit ;;
  ret details.

(** The keys that carry the hash of [tx]: its record, its indexes,
    its undo coins and the credits of its outputs. *)
Definition owned_by (tx : TX) (k : Key) : bool :=
  match k with
  | Kt h | Kp h | Kr h | Kc h _ | Kd h _ | Km _ h | Kh _ h
  | KT _ h | KP _ h | KM _ _ h | KH _ _ h | KC _ h _ =>
      bool_decide (h = tx_hash tx)
  | Ks _ _ | Kb _ | KR => false
  end.

(** Nothing is stored yet under the hash of [tx]. *)
Definition fresh (m : gmap Key Value) (tx : TX) : Prop :=
  forall k, owned_by tx k = true -> m !! k = None.

(** Every stored credit [tx] spends is not flagged spent and is listed
    in the index of its account. *)
Definition spends_unspent (m : gmap Key Value) (paths : gmap Address Path)
    (tx : TX) : Prop :=
  forall input r sp path, input ∈ tx_inputs tx ->
    credit_at m (prevout input) = Some (r, sp) ->
    path_of paths (cr_address r) = Some path ->
    sp = false /\
    m !! KC (account path) (op_hash (prevout input)) (op_index (prevout input))
    = Some DUMMY.

(** The block record of the height of [tx], when there is one, lists
    other transactions and not [tx]. *)
Definition block_ok (m : gmap Key Value) (tx : TX) : Prop :=
  forall b, m !! Kb (tx_height tx) = Some (VBlock b) ->
            (tx_hash tx ∉ br_hashes b) /\ br_hashes b <> [].

(** Two changes of the counters that cancel. *)
Definition opposite (a b : Delta) : Prop :=
  d_tx a + d_tx b = 0 /\ d_coin a + d_coin b = 0 /\
  d_unconfirmed a + d_unconfirmed b = 0 /\ d_confirmed a + d_confirmed b = 0.

(** ** What confirm stages, as a function of the store *)

(** The coin [_confirm] settles for input [i]: the undo coin when the
    spend was recorded, or else the stored credit, which it spends
    only now ([true]). *)
Definition confirm_credit (m : gmap Key Value) (tx : TX) (i : nat)
    (input : Input) : option (CoinRaw * bool) :=
  match undo_at m tx i with
  | Some r => Some (r, false)
  | None =>
      match credit_at m (prevout input) with
      | Some (r, _) => Some (r, true)
      | None => None
      end
  end.

Definition confirm_input_ops (m : gmap Key Value) (paths : gmap Address Path)
    (tx : TX) (i : nat) (input : Input) : list Op :=
  let p := prevout input in
  match confirm_credit m tx i input with
  | None => []
  | Some (r, late) =>
      (if late then
         [(Ks (op_hash p) (op_index p),
           Some (VOutpoint (mkOutpoint (tx_hash tx) (Z.of_nat i))));
          (Kd (tx_hash tx) (Z.of_nat i), Some (VCoin r))]
       else []) ++
      match path_of paths (cr_address r) with
      | Some path =>
          [(Kc (op_hash p) (op_index p), None);
           (KC (account path) (op_hash p) (op_index p), None)]
      | None => []
      end
  end.

Definition confirm_input_delta (m : gmap Key Value) (tx : TX) (i : nat)
    (input : Input) : Delta :=
  match confirm_credit m tx i input with
  | None => delta0
  | Some (r, late) =>
      mkDelta 0 (if late then -1 else 0)
              (if late then - cr_value r else 0) (- cr_value r) false
  end.

Definition confirm_input_details (m : gmap Key Value) (paths : gmap Address Path)
    (tx : TX) (i : nat) (input : Input) (details : Details) : Details :=
  let p := prevout input in
  match confirm_credit m tx i input with
  | None => details
  | Some (r, _) =>
      Details_setInput details i (path_of paths (cr_address r))
        (Some (Coin_fromRaw r (op_hash p) (op_index p)))
  end.

Fixpoint confirm_inputs_ops (m : gmap Key Value) (paths : gmap Address Path)
    (tx : TX) (i : nat) (inputs : list Input) : list Op :=
  match inputs with
  | [] => []
  | input :: rest =>
      confirm_input_ops m paths tx i input ++
      confirm_inputs_ops m paths tx (S i) rest
  end.

Fixpoint confirm_inputs_delta (m : gmap Key Value) (tx : TX) (i : nat)
    (inputs : list Input) : Delta :=
  match inputs with
  | [] => delta0
  | input :: rest =>
      delta_plus (confirm_input_delta m tx i input)
                 (confirm_inputs_delta m tx (S i) rest)
  end.

Fixpoint confirm_inputs_details (m : gmap Key Value) (paths : gmap Address Path)
    (tx : TX) (i : nat) (inputs : list Input) (details : Details) : Details :=
  match inputs with
  | [] => details
  | input :: rest =>
      confirm_inputs_details m paths tx (S i) rest
        (confirm_input_details m paths tx i input details)
  end.

(** A coin record with another height. *)
Definition raw_set_height (r : CoinRaw) (h : Z) : CoinRaw :=
  mkCoinRaw h (cr_value r) (cr_address r) (cr_coinbase r).

(** What [updateSpentCoin] stages for output [i] of [tx]. *)
Definition updateSpentCoin_ops (m : gmap Key Value) (tx : TX) (i : Z)
    : list Op :=
  match m !! Ks (tx_hash tx) i with
  | Some (VOutpoint spender) =>
      match m !! Kd (op_hash spender) (op_index spender) with
      | Some (VCoin c) =>
          [(Kd (op_hash spender) (op_index spender),
            Some (VCoin (raw_set_height c (tx_height tx))))]
      | _ => []
      end
  | _ => []
  end.

Definition confirm_output_ops (m : gmap Key Value) (paths : gmap Address Path)
    (tx : TX) (i : nat) (output : Output) : list Op :=
  match path_of paths (out_address output) with
  | None => []
  | Some path =>
      match credit_at m (mkOutpoint (tx_hash tx) (Z.of_nat i)) with
      | None => []
      | Some (r, sp) =>
          (if sp then updateSpentCoin_ops m tx (Z.of_nat i) else []) ++
          [(Kc (tx_hash tx) (Z.of_nat i),
            Some (VCredit (raw_set_height r (tx_height tx)) sp));
           (KC (account path) (tx_hash tx) (Z.of_nat i), Some DUMMY)]
      end
  end.

Definition confirm_output_delta (paths : gmap Address Path) (output : Output)
    : Delta :=
  match path_of paths (out_address output) with
  | None => delta0
  | Some _ => mkDelta 0 0 0 (out_value output) false
  end.

Fixpoint confirm_outputs_ops (m : gmap Key Value) (paths : gmap Address Path)
    (tx : TX) (i : nat) (outputs : list Output) : list Op :=
  match outputs with
  | [] => []
  | output :: rest =>
      confirm_output_ops m paths tx i output ++
      confirm_outputs_ops m paths tx (S i) rest
  end.

Fixpoint confirm_outputs_delta (paths : gmap Address Path)
    (outputs : list Output) : Delta :=
  match outputs with
  | [] => delta0
  | output :: rest =>
      delta_plus (confirm_output_delta paths output)
                 (confirm_outputs_delta paths rest)
  end.

Definition reindex_ops (tx : TX) (accounts : list Z) : list Op :=
  flat_map (fun acct =>
              [(KP acct (tx_hash tx), None);
               (KH acct (tx_height tx) (tx_hash tx), Some DUMMY)])
           accounts.

Definition confirm_details (m : gmap Key Value) (paths : gmap Address Path)
    (tx : TX) : Details :=
  outputs_details paths 0 (tx_outputs tx)
    (if tx_coinbase tx then Details_new tx
     else confirm_inputs_details m paths tx 0 (tx_inputs tx) (Details_new tx)).

Definition confirm_body_ops (m : gmap Key Value) (paths : gmap Address Path)
    (tx : TX) : list Op :=
  (if tx_coinbase tx then []
   else confirm_inputs_ops m paths tx 0 (tx_inputs tx)) ++
  confirm_outputs_ops m paths tx 0 (tx_outputs tx).

Definition confirm_body_delta (m : gmap Key Value) (paths : gmap Address Path)
    (tx : TX) : Delta :=
  delta_plus (if tx_coinbase tx then delta0
              else confirm_inputs_delta m tx 0 (tx_inputs tx))
             (confirm_outputs_delta paths (tx_outputs tx)).

Definition confirm_delta (m : gmap Key Value) (paths : gmap Address Path)
    (tx : TX) : Delta :=
  delta_plus (confirm_body_delta m paths tx) (mkDelta 0 0 0 0 true).

(** All that [_confirm] stages, [p] being the pending state it starts
    from. *)
Definition confirm_ops (m : gmap Key Value) (paths : gmap Address Path)
    (tx : TX) (p : TXDBState) : list Op :=
  confirm_body_ops m paths tx ++
  [(Kr (tx_hash tx), None);
   (Kt (tx_hash tx), Some (TX_toExtended tx));
   (Kp (tx_hash tx), None);
   (Kh (tx_height tx) (tx_hash tx), Some DUMMY)] ++
  reindex_ops tx (dt_accounts (confirm_details m paths tx)) ++
  (if tx_height tx =? -1 then [] else addBlock_ops m tx) ++
  [(KR, Some (TXDBState_toRaw (apply_delta (confirm_delta m paths tx) p)))].

(** [_confirm] runs to its end on [tx]: the undo coins are well
    formed, the coin of every input it settles has a height and
    resolves to a path, the credit of every output of the wallet is
    stored, and what it decodes on the way decodes. *)
Definition confirmable (m : gmap Key Value) (paths : gmap Address Path)
    (tx : TX) : Prop :=
  undo_ok m tx /\
  (forall i input v,
     tx_inputs tx !! i = Some input ->
     m !! Kc (op_hash (prevout input)) (op_index (prevout input)) = Some v ->
     exists r sp, v = VCredit r sp) /\
  (forall i input r late,
     tx_inputs tx !! i = Some input ->
     confirm_credit m tx i input = Some (r, late) ->
     cr_height r <> -1 /\ is_Some (path_of paths (cr_address r))) /\
  (forall i output path,
     tx_outputs tx !! i = Some output ->
     path_of paths (out_address output) = Some path ->
     exists r sp,
       m !! Kc (tx_hash tx) (Z.of_nat i) = Some (VCredit r sp) /\
       (sp = true ->
        forall v, m !! Ks (tx_hash tx) (Z.of_nat i) = Some v ->
          exists o, v = VOutpoint o /\
            forall v', m !! Kd (op_hash o) (op_index o) = Some v' ->
                       exists c, v' = VCoin c)) /\
  (forall v, m !! Kb (tx_height tx) = Some v -> exists b, v = VBlock b).

(** The credits [_confirm] touches are in the state [insert] left
    them in: a credit whose spend was recorded is stored flagged
    spent, one that is spent only now is not; the credits of the
    outputs are stored without a height and with the value of the
    output; the transaction gets a height. *)
Definition confirm_consistent (m : gmap Key Value) (paths : gmap Address Path)
    (tx : TX) : Prop :=
  tx_height tx <> -1 /\
  (tx_coinbase tx = false ->
   NoDup (map prevout (tx_inputs tx)) /\
   (forall input, input ∈ tx_inputs tx -> op_hash (prevout input) <> tx_hash tx) /\
   forall i input,
     tx_inputs tx !! i = Some input ->
     (forall r, undo_at m tx i = Some r ->
        m !! Kc (op_hash (prevout input)) (op_index (prevout input))
        = Some (VCredit r true)) /\
     (forall r sp, undo_at m tx i = None ->
        credit_at m (prevout input) = Some (r, sp) -> sp = false)) /\
  (forall i output path r sp,
     tx_outputs tx !! i = Some output ->
     path_of paths (out_address output) = Some path ->
     credit_at m (mkOutpoint (tx_hash tx) (Z.of_nat i)) = Some (r, sp) ->
     cr_height r = -1 /\ cr_value r = out_value output).

(** ** What disconnect stages, as a function of the store *)

Definition disconnect_input_ops (m : gmap Key Value) (paths : gmap Address Path)
    (tx : TX) (i : nat) (input : Input) : list Op :=
  let p := prevout input in
  match undo_at m tx i with
  | None => []
  | Some r =>
      match path_of paths (cr_address r) with
      | Some path =>
          [(Kc (op_hash p) (op_index p), Some (VCredit r true));
           (KC (account path) (op_hash p) (op_index p), Some DUMMY)]
      | None => []
      end
  end.

Definition disconnect_input_delta (m : gmap Key Value) (tx : TX) (i : nat)
    : Delta :=
  match undo_at m tx i with
  | None => delta0
  | Some r => mkDelta 0 0 0 (cr_value r) false
  end.

Fixpoint disconnect_inputs_ops (m : gmap Key Value) (paths : gmap Address Path)
    (tx : TX) (i : nat) (inputs : list Input) : list Op :=
  match inputs with
  | [] => []
  | input :: rest =>
      disconnect_input_ops m paths tx i input ++
      disconnect_inputs_ops m paths tx (S i) rest
  end.

Fixpoint disconnect_inputs_delta (m : gmap Key Value) (tx : TX) (i : nat)
    (inputs : list Input) : Delta :=
  match inputs with
  | [] => delta0
  | input :: rest =>
      delta_plus (disconnect_input_delta m tx i)
                 (disconnect_inputs_delta m tx (S i) rest)
  end.

Definition disconnect_output_ops (m : gmap Key Value) (paths : gmap Address Path)
    (tx : TX) (i : nat) (output : Output) : list Op :=
  match path_of paths (out_address output) with
  | None => []
  | Some path =>
      match credit_at m (mkOutpoint (tx_hash tx) (Z.of_nat i)) with
      | None => updateSpentCoin_ops m (tx_unset_block tx) (Z.of_nat i)
      | Some (r, sp) =>
          (if sp then updateSpentCoin_ops m (tx_unset_block tx) (Z.of_nat i)
           else []) ++
          [(Kc (tx_hash tx) (Z.of_nat i),
            Some (VCredit (raw_set_height r (-1)) sp));
           (KC (account path) (tx_hash tx) (Z.of_nat i), Some DUMMY)]
      end
  end.

Definition disconnect_output_delta (m : gmap Key Value) (paths : gmap Address Path)
    (tx : TX) (i : nat) (output : Output) : Delta :=
  match path_of paths (out_address output) with
  | None => delta0
  | Some _ =>
      match credit_at m (mkOutpoint (tx_hash tx) (Z.of_nat i)) with
      | None => delta0
      | Some _ => mkDelta 0 0 0 (- out_value output) false
      end
  end.

Definition disconnect_output_details (m : gmap Key Value)
    (paths : gmap Address Path) (tx : TX) (i : nat) (output : Output)
    (details : Details) : Details :=
  match path_of paths (out_address output) with
  | None => details
  | Some path =>
      match credit_at m (mkOutpoint (tx_hash tx) (Z.of_nat i)) with
      | None => details
      | Some _ => Details_setOutput details i (Some path)
      end
  end.

Fixpoint disconnect_outputs_ops (m : gmap Key Value) (paths : gmap Address Path)
    (tx : TX) (i : nat) (outputs : list Output) : list Op :=
  match outputs with
  | [] => []
  | output :: rest =>
      disconnect_output_ops m paths tx i output ++
      disconnect_outputs_ops m paths tx (S i) rest
  end.

Fixpoint disconnect_outputs_delta (m : gmap Key Value) (paths : gmap Address Path)
    (tx : TX) (i : nat) (outputs : list Output) : Delta :=
  match outputs with
  | [] => delta0
  | output :: rest =>
      delta_plus (disconnect_output_delta m paths tx i output)
                 (disconnect_outputs_delta m paths tx (S i) rest)
  end.

Fixpoint disconnect_outputs_details (m : gmap Key Value)
    (paths : gmap Address Path) (tx : TX) (i : nat) (outputs : list Output)
    (details : Details) : Details :=
  match outputs with
  | [] => details
  | output :: rest =>
      disconnect_outputs_details m paths tx (S i) rest
        (disconnect_output_details m paths tx i output details)
  end.

Definition unreindex_ops (tx : TX) (accounts : list Z) : list Op :=
  flat_map (fun acct =>
              [(KP acct (tx_hash tx), Some DUMMY);
               (KH acct (tx_height tx) (tx_hash tx), None)])
           accounts.

Definition disconnect_details (m : gmap Key Value) (paths : gmap Address Path)
    (tx : TX) : Details :=
  disconnect_outputs_details m paths tx 0 (tx_outputs tx)
    (if tx_coinbase tx then Details_new tx
     else erase_inputs_details m paths tx 0 (tx_inputs tx) (Details_new tx)).

Definition disconnect_body_ops (m : gmap Key Value) (paths : gmap Address Path)
    (tx : TX) : list Op :=
  (if tx_coinbase tx then []
   else disconnect_inputs_ops m paths tx 0 (tx_inputs tx)) ++
  disconnect_outputs_ops m paths tx 0 (tx_outputs tx).

Definition disconnect_body_delta (m : gmap Key Value) (paths : gmap Address Path)
    (tx : TX) : Delta :=
  delta_plus (if tx_coinbase tx then delta0
              else disconnect_inputs_delta m tx 0 (tx_inputs tx))
             (disconnect_outputs_delta m paths tx 0 (tx_outputs tx)).

Definition disconnect_delta (m : gmap Key Value) (paths : gmap Address Path)
    (tx : TX) : Delta :=
  delta_plus (disconnect_body_delta m paths tx) (mkDelta 0 0 0 0 true).

(** All that [disconnect] stages for the stored transaction [tx], [p]
    being the pending state it starts from. *)
Definition disconnect_ops (m : gmap Key Value) (paths : gmap Address Path)
    (tx : TX) (p : TXDBState) : list Op :=
  disconnect_body_ops m paths tx ++
  removeBlock_ops m tx ++
  [(Kt (tx_hash tx), Some (TX_toExtended (tx_unset_block tx)));
   (Kp (tx_hash tx), Some DUMMY);
   (Kh (tx_height tx) (tx_hash tx), None)] ++
  unreindex_ops tx (dt_accounts (disconnect_details m paths tx)) ++
  [(KR, Some (TXDBState_toRaw (apply_delta (disconnect_delta m paths tx) p)))].

(** What [updateSpentCoin] decodes for output [i] decodes. *)
Definition marker_typed (m : gmap Key Value) (tx : TX) (i : Z) : Prop :=
  forall v, m !! Ks (tx_hash tx) i = Some v ->
    exists o, v = VOutpoint o /\
      forall v', m !! Kd (op_hash o) (op_index o) = Some v' ->
                 exists c, v' = VCoin c.

(** [disconnect] runs to its end on [tx]: it has a height, its undo
    coins are well formed, have a height and resolve to a path, and
    what is decoded on the way decodes. *)
Definition disconnectable (m : gmap Key Value) (paths : gmap Address Path)
    (tx : TX) : Prop :=
  tx_height tx <> -1 /\
  undo_ok m tx /\
  (forall i r, undo_at m tx i = Some r ->
     cr_height r <> -1 /\ is_Some (path_of paths (cr_address r))) /\
  (forall i output path,
     tx_outputs tx !! i = Some output ->
     path_of paths (out_address output) = Some path ->
     (forall v, m !! Kc (tx_hash tx) (Z.of_nat i) = Some v ->
                exists r sp, v = VCredit r sp) /\
     marker_typed m tx (Z.of_nat i)) /\
  (forall v, m !! Kb (tx_height tx) = Some v -> exists b, v = VBlock b).

(** The credits [disconnect] touches are in the state [insert] or
    [confirm] left them in: a credit spent by [tx] is not stored; the
    credits of the outputs that are stored have a height and the
    value of the output. *)
Definition disconnect_consistent (m : gmap Key Value)
    (paths : gmap Address Path) (tx : TX) : Prop :=
  (tx_coinbase tx = false ->
   NoDup (map prevout (tx_inputs tx)) /\
   (forall input, input ∈ tx_inputs tx -> op_hash (prevout input) <> tx_hash tx) /\
   forall i input r,
     tx_inputs tx !! i = Some input -> undo_at m tx i = Some r ->
     m !! Kc (op_hash (prevout input)) (op_index (prevout input)) = None) /\
  (forall i output path r sp,
     tx_outputs tx !! i = Some output ->
     path_of paths (out_address output) = Some path ->
     credit_at m (mkOutpoint (tx_hash tx) (Z.of_nat i)) = Some (r, sp) ->
     cr_height r <> -1 /\ cr_value r = out_value output).

(** ** Coin locks *)

(** The lock table is keyed by [coin.hash + coin.index]; a hash being
    64 hex digits, the concatenation names the pair. *)
Definition lockCoin (o : Outpoint) : M unit :=
  modify (set_locked (fun l => l ∪ {[ (op_hash o, op_index o) ]})).

Fixpoint lock_inputs (inputs : list Input) : M unit :=
  match inputs with
  | [] => ret tt
  | input :: rest => lockCoin (prevout input) ;; lock_inputs rest
  end.

Definition lockTX (tx : TX) : M unit :=
  if tx_coinbase tx then ret tt else lock_inputs (tx_inputs tx).

Definition isLocked (o : Outpoint) : M bool :=
  gets (fun s => bool_decide ((op_hash o, op_index o) ∈ locked s)).

(** The loop of [filterLocked], [out] being the array built so far. *)
Fixpoint filterLocked_from (coins : list Outpoint) (out : list Outpoint)
    : M (list Outpoint) :=
  match coins with
  | [] => ret out
  | coin :: rest =>
      l <- isLocked coin ;;
      filterLocked_from rest (if l then out else out ++ [coin])
  end.

Definition filterLocked (coins : list Outpoint) : M (list Outpoint) :=
  filterLocked_from coins [].

(** The outpoints a transaction spends, as keys of the lock table. *)
Definition spent_keys (tx : TX) : gset (Hash * Z) :=
  list_to_set (map (fun input => (op_hash (prevout input),
                                  op_index (prevout input))) (tx_inputs tx)).

(** ** Bodies of a batch *)

(** [kept s s']: from [s] to [s'] the committed store, the committed
    state and the environment are the same, an open batch and a
    pending state are still there, and a coherent cache is still
    coherent. *)
Definition kept (s s' : TXDB) : Prop :=
  db s' = db s /\ state s' = state s /\ env s' = env s /\
  (is_Some (current s) -> is_Some (current s')) /\
  (is_Some (pending s) -> is_Some (pending s')) /\
  (cache_coherent s -> cache_coherent s').

(** [staging m]: whatever its outcome (a value, an exception), [m]
    only reads the store and stages on the batch. *)
Definition staging {A} (m : M A) : Prop :=
  forall s r s', m s = (r, s') -> kept s s'.

(** The spent markers recorded on the outpoints [tx] spends, if any,
    name [tx] itself: [removeConflicts] finds no other spender. *)
Definition no_other_spender (m : gmap Key Value) (tx : TX) : Prop :=
  forall input v, input ∈ tx_inputs tx ->
    m !! Ks (op_hash (prevout input)) (op_index (prevout input)) = Some v ->
    exists i, v = VOutpoint (mkOutpoint (tx_hash tx) i).

(** ** Reading the state and the details back *)




(** fillHistory: the coins of the undo records of [tx], aligned with
    its inputs; the empty array for a coinbase. *)
Definition fillHistory (tx : TX) : M (list (option Coin)) :=
  if tx_coinbase tx then ret []
  else
    credits <- getSpentCredits tx ;;
    ret (map (fun credit => coin <$> credit) credits).

(** The two loops of [_toDetails]; [coins[i]] is undefined past the
    end of the array, and [getPath] of no coin resolves to nothing. *)
Fixpoint toDetails_inputs (i : nat) (inputs : list Input)
    (coins : list (option Coin)) (details : Details) : M Details :=
  match inputs with
  | [] => ret details
  | _ :: rest =>
      let c := mjoin (coins !! i) in
      path <- match c with
              | Some c => getPath (coin_address c)
              | None => ret None
              end ;;
      toDetails_inputs (S i) rest coins (Details_setInput details i path c)
  end.

Fixpoint toDetails_outputs (i : nat) (outputs : list Output)
    (details : Details) : M Details :=
  match outputs with
  | [] => ret details
  | output :: rest =>
      path <- getPath (out_address output) ;;
      toDetails_outputs (S i) rest (Details_setOutput details i path)
  end.

Definition _toDetails (tx : TX) : M Details :=
  let details := Details_new tx in
  coins <- fillHistory tx ;;
  details <- toDetails_inputs 0 (tx_inputs tx) coins details ;;
  toDetails_outputs 0 (tx_outputs tx) details.

Definition getDetails (hash : Hash) : M (option Details) :=
  tx <- getTX hash ;;
  match tx with
  | None => ret None
  | Some tx => details <- _toDetails tx ;; ret (Some details)
  end.

(** isDoubleSpend: some outpoint the transaction spends carries a
    spent marker. *)
Fixpoint isDoubleSpend_inputs (inputs : list Input) : M bool :=
  match inputs with
  | [] => ret false
  | input :: rest =>
      spent <- isSpent (op_hash (prevout input)) (op_index (prevout input)) ;;
      if spent then ret true else isDoubleSpend_inputs rest
  end.

Definition isDoubleSpend (tx : TX) : M bool :=
  isDoubleSpend_inputs (tx_inputs tx).

(** hasCoin answers from the cache when it can. *)
Definition hasCoin (hash : Hash) (index : Z) : M bool :=
  cached <- gets (fun s => bool_decide (is_Some (LRU_get (coinCache s) (hash, index)))) ;;
  if cached then ret true else has (Kc hash index).

(** The index keys of a transaction: record, time, pending, height,
    replace-by-fee marker and state. *)
Definition is_index_key (k : Key) : bool :=
  match k with
  | Kt _ | Km _ _ | Kp _ | Kh _ _ | Kr _ | KR => true
  | _ => false
  end.

(** The flags of a transaction: its record, its pending or height
    flag and its replace-by-fee marker. *)
Definition is_flag_key (k : Key) : bool :=
  match k with
  | Kt _ | Kp _ | Kh _ _ | Kr _ => true
  | _ => false
  end.

(** ** The pending flag and the height flag *)

(** The transaction hash a record key or a flag key belongs to. *)
Definition flag_hash (k : Key) : option Hash :=
  match k with
  | Kt h | Kp h | Kh _ h => Some h
  | _ => None
  end.

(** The flags stored for [hash] agree with the record stored for it:
    a stored transaction is keyed by its own hash and has the pending
    flag [p[hash]] when it has no height, the height flag
    [h[height, hash]] and no other when it has one, never both; a
    hash without a record has no flag. *)
Definition flags_at (m : gmap Key Value) (hash : Hash) : Prop :=
  match m !! Kt hash with
  | Some (VTX tx) =>
      tx_hash tx = hash /\
      (if tx_height tx =? -1
       then m !! Kp hash = Some DUMMY /\ forall h, m !! Kh h hash = None
       else m !! Kp hash = None /\
            forall h, m !! Kh h hash
                      = (if h =? tx_height tx then Some DUMMY else None))
  | Some _ => False
  | None => m !! Kp hash = None /\ forall h, m !! Kh h hash = None
  end.

Definition flags_ok (m : gmap Key Value) : Prop :=
  forall hash, flags_at m hash.

(** An operation that writes no record and no flag, and one that
    writes those of [hash] only. *)
Definition no_flag (o : Op) : Prop := flag_hash o.1 = None.

Definition flag_about (hash : Hash) (o : Op) : Prop :=
  forall h, flag_hash o.1 = Some h -> h = hash.

(** The check of one entry of a store that decides [flags_ok]. *)
Definition flags_entry (m : gmap Key Value) (k : Key) (v : Value) : bool :=
  match k with
  | Kt hash =>
      match v with
      | VTX tx =>
          bool_decide (tx_hash tx = hash) &&
          (if tx_height tx =? -1
           then bool_decide (m !! Kp hash = Some DUMMY)
           else bool_decide (m !! Kp hash = None) &&
                bool_decide (m !! Kh (tx_height tx) hash = Some DUMMY))
      | _ => false
      end
  | Kp hash =>
      match m !! Kt hash with
      | Some (VTX tx) => tx_height tx =? -1
      | _ => false
      end
  | Kh h hash =>
      match m !! Kt hash with
      | Some (VTX tx) => negb (tx_height tx =? -1) && (h =? tx_height tx)
      | _ => false
      end
  | _ => true
  end.

(** ** The coin cache and the batch *)

(** The operations of a batch on credit keys, and the operation on the
    store a pending operation of the cache stands for. *)
Definition credit_ops (ops : list Op) : list Op :=
  List.filter (fun o => is_credit_key o.1) ops.

Definition cache_op (o : (Hash * Z) * option Value) : Op :=
  (Kc o.1.1 o.1.2, o.2).

(** The batch and the pending list of the cache are open together,
    with a pending state, and the cache has pending exactly what the
    batch writes under credit keys, in the same order. *)
Definition mirrored (s : TXDB) : Prop :=
  match current s, lru_pending (coinCache s) with
  | Some ops, Some cops =>
      is_Some (pending s) /\ credit_ops ops = cache_op <$> cops
  | None, None => pending s = None
  | _, _ => False
  end.

Definition sound (s : TXDB) : Prop := cache_coherent s /\ mirrored s.

(** [careful m]: whatever its outcome, [m] takes a sound state to a
    sound state. *)
Definition careful {A} (m : M A) : Prop :=
  forall s r s', m s = (r, s') -> sound s -> sound s'.

(** ** The key layout, byte by byte *)

(** Node's Buffer, as far as [layout] uses it (lib/buffer.js of Node
    is not part of the sources).  A buffer is the list of its bytes. *)
Definition Buffer := list Z.

(** new Buffer(n) is not zero-filled: [mem] stands for what the
    allocated memory happens to hold. *)
Definition Buffer_alloc (mem : Buffer) (n : nat) : Buffer := resize n 0 mem.

(** buf[i] = v: the value is reduced to eight bits, and a write past
    the end is ignored. *)
Definition Buffer_set (buf : Buffer) (i : nat) (v : Z) : Buffer :=
  <[i := v mod 256]> buf.

(** value >>> n *)
Definition ushr (value n : Z) : Z := Z.shiftr (value mod 2 ^ 32) n.

(** buf.writeUInt32BE(value, offset, true): no check, four byte
    assignments. *)
Definition writeUInt32BE (buf : Buffer) (value : Z) (offset : nat) : Buffer :=
  let buf := Buffer_set buf offset (ushr value 24) in
  let buf := Buffer_set buf (offset + 1)%nat (ushr value 16) in
  let buf := Buffer_set buf (offset + 2)%nat (ushr value 8) in
  Buffer_set buf (offset + 3)%nat value.

(** The four bytes of an unsigned 32-bit integer, big end first. *)
Definition be32 (v : Z) : list Z :=
  [ushr v 24 mod 256; ushr v 16 mod 256; ushr v 8 mod 256; v mod 256].

(** buf.writeUInt32BE(value, offset): the checked form throws when the
    value is not an unsigned 32-bit integer or does not fit. *)
Definition writeUInt32BE_checked (buf : Buffer) (value : Z) (offset : nat)
    : option Buffer :=
  if (value <? 0) || (4294967295 <? value)
     || (length buf <? offset + 4)%nat
  then None
  else Some (writeUInt32BE buf value offset).

(** buf.readUInt32BE(offset, true):
    this[offset] * 0x1000000 +
    ((this[offset + 1] << 16) | (this[offset + 2] << 8) | this[offset + 3]);
    [None] is NaN, what a missing first byte gives; a missing later
    byte counts as 0. *)
Definition readUInt32BE (buf : Buffer) (offset : nat) : option Z :=
  match buf !! offset with
  | None => None
  | Some b0 =>
      Some (b0 * 16777216 +
            Z.lor (Z.lor (Z.shiftl (default 0 (buf !! (offset + 1)%nat)) 16)
                         (Z.shiftl (default 0 (buf !! (offset + 2)%nat)) 8))
                  (default 0 (buf !! (offset + 3)%nat)))
  end.

(** source.copy(target, targetStart), for a start inside the target:
    as many bytes as fit. *)
Definition Buffer_copy (source target : Buffer) (targetStart : nat) : Buffer :=
  let bytes := take (length target - targetStart)%nat source in
  take targetStart target ++ bytes ++
  skipn (targetStart + length bytes)%nat target.

(** A hex digit and its value; [unhex] takes both cases, as Node's
    decoder does. *)
Definition hex_char (n : Z) : Ascii.ascii :=
  ascii_of_nat (Z.to_nat (if n <? 10 then 48 + n else 87 + n)).

Definition unhex (c : Ascii.ascii) : option Z :=
  let x := Z.of_nat (nat_of_ascii c) in
  if (48 <=? x) && (x <=? 57) then Some (x - 48)
  else if (65 <=? x) && (x <=? 70) then Some (x - 55)
  else if (97 <=? x) && (x <=? 102) then Some (x - 87)
  else None.

(** The hex string of a sequence of bytes, in lower case. *)
Fixpoint toHex (bytes : list Z) : string :=
  match bytes with
  | [] => EmptyString
  | b :: rest =>
      String (hex_char (b / 16)) (String (hex_char (b mod 16)) (toHex rest))
  end.

(** The bytes of a hex string, up to the first pair that is not hex. *)
Fixpoint hex_decode (s : string) : list Z :=
  match s with
  | String a (String b rest) =>
      match unhex a, unhex b with
      | Some x, Some y => (x * 16 + y) :: hex_decode rest
      | _, _ => []
      end
  | _ => []
  end.

(** buf.write(string, offset, 'hex'): a string of odd length throws
    ('Invalid hex string'); otherwise the decoded bytes that fit are
    written. *)
Definition hexWrite (buf : Buffer) (s : string) (offset : nat) : option Buffer :=
  if Nat.odd (String.length s) then None
  else
    let bytes := take (length buf - offset)%nat (hex_decode s) in
    Some (take offset buf ++ bytes ++ skipn (offset + length bytes)%nat buf).

(** buf.toString('hex', start, end) and buf.toString('hex', start) *)
Definition toString_hex (buf : Buffer) (start end_ : nat) : string :=
  toHex (skipn start (take end_ buf)).

Definition toString_hex_from (buf : Buffer) (start : nat) : string :=
  toHex (skipn start buf).

Module layout.

Definition prefix (mem : Buffer) (wid : Z) (key : Buffer) : option Buffer :=
  let out := Buffer_alloc mem (5 + length key)%nat in
  let out := Buffer_set out 0 116 in
  out ← writeUInt32BE_checked out wid 1;
  Some (Buffer_copy key out 5).

Definition pre (key : Buffer) : option Z := readUInt32BE key 1.

Definition R : Buffer := [82].

Definition hi (mem : Buffer) (ch : Z) (hash : string) (index : Z)
    : option Buffer :=
  let key := Buffer_alloc mem 37 in
  let key := Buffer_set key 0 ch in
  key ← hexWrite key hash 1;
  Some (writeUInt32BE key index 33).

Definition hii (key : Buffer) : string * option Z :=
  let key := skipn 6 key in
  (toString_hex key 0 32, readUInt32BE key 32).

Definition ih (mem : Buffer) (ch : Z) (index : Z) (hash : string)
    : option Buffer :=
  let key := Buffer_alloc mem 37 in
  let key := Buffer_set key 0 ch in
  let key := writeUInt32BE key index 1 in
  hexWrite key hash 5.

Definition ihh (key : Buffer) : option Z * string :=
  let key := skipn 6 key in
  (readUInt32BE key 0, toString_hex key 4 36).

Definition iih (mem : Buffer) (ch : Z) (index num : Z) (hash : string)
    : option Buffer :=
  let key := Buffer_alloc mem 41 in
  let key := Buffer_set key 0 ch in
  let key := writeUInt32BE key index 1 in
  let key := writeUInt32BE key num 5 in
  hexWrite key hash 9.

Definition iihh (key : Buffer) : option Z * option Z * string :=
  let key := skipn 6 key in
  (readUInt32BE key 0, readUInt32BE key 4, toString_hex key 8 40).

Definition ihi (mem : Buffer) (ch : Z) (index : Z) (hash : string) (num : Z)
    : option Buffer :=
  let key := Buffer_alloc mem 41 in
  let key := Buffer_set key 0 ch in
  let key := writeUInt32BE key index 1 in
  key ← hexWrite key hash 5;
  Some (writeUInt32BE key num 37).

Definition ihii (key : Buffer) : option Z * string * option Z :=
  let key := skipn 6 key in
  (readUInt32BE key 0, toString_hex key 4 36, readUInt32BE key 36).

Definition ha (mem : Buffer) (ch : Z) (hash : string) : option Buffer :=
  let key := Buffer_alloc mem 33 in
  let key := Buffer_set key 0 ch in
  hexWrite key hash 1.

Definition haa (key : Buffer) : string :=
  let key := skipn 6 key in
  toString_hex_from key 0.

Definition t mem hash := ha mem 116 hash.
Definition tt key := haa key.
Definition c mem hash index := hi mem 99 hash index.
Definition cc key := hii key.
Definition d mem hash index := hi mem 100 hash index.
Definition dd key := hii key.
Definition s mem hash index := hi mem 115 hash index.
Definition ss key := hii key.
Definition p mem hash := ha mem 112 hash.
Definition pp key := haa key.
Definition m mem time hash := ih mem 109 time hash.
Definition mm key := ihh key.
Definition h mem height hash := ih mem 104 height hash.
Definition hh key := ihh key.
Definition T mem account hash := ih mem 84 account hash.
Definition Tt key := ihh key.
Definition P mem account hash := ih mem 80 account hash.
Definition Pp key := ihh key.
Definition M mem account time hash := iih mem 77 account time hash.
Definition Mm key := iihh key.
Definition H mem account height hash := iih mem 72 account height hash.
Definition Hh key := iihh key.
Definition C mem account hash index := ihi mem 67 account hash index.
Definition Cc key := ihii key.
Definition r mem hash := ha mem 114 hash.

Definition b (mem : Buffer) (height : Z) : Buffer :=
  let key := Buffer_alloc mem 5 in
  let key := Buffer_set key 0 98 in
  writeUInt32BE key height 1.

Definition bb (key : Buffer) : option Z :=
  let key := skipn 6 key in
  readUInt32BE key 0.

End layout.

(** TXDB.prototype.prefix: assert(this.wallet.wid), then the prefix of
    the layout. *)
Definition TXDB_prefix (mem : Buffer) (wid : Z) (key : Buffer) : option Buffer :=
  if wid =? 0 then None else layout.prefix mem wid key.

(** The bytes the code builds for a key of the schema, and the key
    under which the store holds it; [mem] and [mem'] are the two
    allocations. *)
Definition key_bytes (mem : Buffer) (k : Key) : option Buffer :=
  match k with
  | Kt hash => layout.t mem hash
  | Kc hash index => layout.c mem hash index
  | Kd hash index => layout.d mem hash index
  | Ks hash index => layout.s mem hash index
  | Kp hash => layout.p mem hash
  | Km time hash => layout.m mem time hash
  | Kh height hash => layout.h mem height hash
  | KT account hash => layout.T mem account hash
  | KP account hash => layout.P mem account hash
  | KM account time hash => layout.M mem account time hash
  | KH account height hash => layout.H mem account height hash
  | KC account hash index => layout.C mem account hash index
  | Kr hash => layout.r mem hash
  | Kb height => Some (layout.b mem height)
  | KR => Some layout.R
  end.

Definition stored_key (mem mem' : Buffer) (wid : Z) (k : Key) : option Buffer :=
  key ← key_bytes mem k; TXDB_prefix mem' wid key.

(** A transaction hash as the code passes it around: the hex string
    of 32 bytes. *)
Definition is_byte (b : Z) : Prop := 0 <= b < 256.

Definition is_hash (hash : string) : Prop :=
  exists bytes, hash = toHex bytes /\ length bytes = 32%nat /\
                Forall is_byte bytes.

Definition is_u32 (n : Z) : Prop := 0 <= n < 4294967296.

(** The fields of a key are a hash and unsigned 32-bit integers. *)
Definition key_valid (k : Key) : Prop :=
  match k with
  | Kt hash | Kp hash | Kr hash => is_hash hash
  | Kc hash index | Kd hash index | Ks hash index =>
      is_hash hash /\ is_u32 index
  | Km n hash | Kh n hash | KT n hash | KP n hash => is_u32 n /\ is_hash hash
  | KM a n hash | KH a n hash => is_u32 a /\ is_u32 n /\ is_hash hash
  | KC a hash index => is_u32 a /\ is_hash hash /\ is_u32 index
  | Kb height => is_u32 height
  | KR => True
  end.

(** The bytes of a key whose fields are valid, whatever the allocated
    memory held. *)
Definition key_canon (k : Key) : Buffer :=
  match k with
  | Kt hash => [116] ++ hex_decode hash
  | Kc hash index => [99] ++ hex_decode hash ++ be32 index
  | Kd hash index => [100] ++ hex_decode hash ++ be32 index
  | Ks hash index => [115] ++ hex_decode hash ++ be32 index
  | Kp hash => [112] ++ hex_decode hash
  | Km time hash => [109] ++ be32 time ++ hex_decode hash
  | Kh height hash => [104] ++ be32 height ++ hex_decode hash
  | KT account hash => [84] ++ be32 account ++ hex_decode hash
  | KP account hash => [80] ++ be32 account ++ hex_decode hash
  | KM account time hash =>
      [77] ++ be32 account ++ be32 time ++ hex_decode hash
  | KH account height hash =>
      [72] ++ be32 account ++ be32 height ++ hex_decode hash
  | KC account hash index =>
      [67] ++ be32 account ++ hex_decode hash ++ be32 index
  | Kr hash => [114] ++ hex_decode hash
  | Kb height => [98] ++ be32 height
  | KR => [82]
  end.

(** constants.HIGH_HASH *)
Definition HIGH_HASH : Hash :=
  "ffffffffffffffffffffffffffffffffffffffffffffffffffffffffffffffff".

(** The order of the store on keys: byte by byte, a proper prefix
    first (the backend is not part of the sources). *)
Fixpoint Buffer_le (a b : Buffer) : bool :=
  match a, b with
  | [], _ => true
  | _ :: _, [] => false
  | x :: a, y :: b => (x <? y) || ((x =? y) && Buffer_le a b)
  end.

(** The bounds of the scan of getHeightRangeHashes, without account,
    and whether a stored key falls between them. *)
Definition height_range_has (lo hi key : Buffer) : bool :=
  Buffer_le lo key && Buffer_le key hi.

(** ** A record that is gone *)

(** An operation that writes no record under [hash], though it may
    delete one. *)
Definition no_record_write (hash : Hash) (o : Op) : Prop :=
  o.1 = Kt hash -> o.2 = None.

(** No transaction is stored under [hash], and the open batch, if
    any, stages none. *)
Definition gone (hash : Hash) (s : TXDB) : Prop :=
  db s !! Kt hash = None /\
  forall ops, current s = Some ops -> Forall (no_record_write hash) ops.

Definition keeps_gone (hash : Hash) {A} (m : M A) : Prop :=
  forall s r s', m s = (r, s') -> gone hash s -> gone hash s'.

(** ** The transaction counter *)




(** ** Writes and the lock table *)

(** [keeps_locks m]: whatever its outcome, [m] leaves the lock table
    as it is. *)
Definition keeps_locks {A} (m : M A) : Prop :=
  forall s r s', m s = (r, s') -> locked s' = locked s.

(** ** Concrete wallets used as witnesses and counterexamples *)

Module Examples.

(** A wallet owning the two addresses "addrA" and "addrB" of
    account 0, with an empty database. *)
Definition env0 : Env :=
  mkEnv {[ "addrA" := mkPath 0; "addrB" := mkPath 0 ]} true false
        (fun _ _ _ => true).

Definition empty : TXDB :=
  mkTXDB env0 ∅ None (mkState 0 0 0 0 false) None [] (mkLRU ∅ None)
         ∅ ∅ ∅ 0.

Definition blk5 : BlockMeta := mkBlockMeta "b5" 5 50.
Definition blk6 : BlockMeta := mkBlockMeta "b6" 6 60.

(** A mempool transaction paying 10 to the wallet. *)
Definition txP : TX :=
  mkTX "aa" [mkInput (mkOutpoint "ff" 0) None]
       [mkOutput 10 (Some "addrA")] (-1) None 0 0 100 false false false.

(** A mempool transaction spending that output, 9 back to the wallet. *)
Definition txC : TX :=
  mkTX "cc" [mkInput (mkOutpoint "aa" 0) None]
       [mkOutput 9 (Some "addrB")] (-1) None 0 0 101 false false false.

(** The same two transactions as they appear in a block. *)
Definition txP5 : TX := tx_set_block txP 5 (Some "b5") 50 0.
Definition txC6 : TX := tx_set_block txC 6 (Some "b6") 60 0.

Definition make_mutable (tx : TX) : TX :=
  mkTX (tx_hash tx) (tx_inputs tx) (tx_outputs tx) (tx_height tx)
       (tx_block tx) (tx_ts tx) (tx_index tx) (tx_ps tx) true
       (tx_coinbase tx) (tx_rbf tx).

Definition make_rbf (tx : TX) : TX :=
  mkTX (tx_hash tx) (tx_inputs tx) (tx_outputs tx) (tx_height tx)
       (tx_block tx) (tx_ts tx) (tx_index tx) (tx_ps tx) (tx_mutable tx)
       (tx_coinbase tx) true.

(** The wallet after [add(txP)], and after [add(txP); add(txC)]. *)
Definition withP : TXDB := (add 2 txP None empty).2.
Definition withPC : TXDB := (add 2 txC None withP).2.
(** The wallet after [add(txP)] at height 5. *)
Definition withP5 : TXDB := (add 2 txP5 (Some blk5) empty).2.

(** A transaction of block 5 paying the wallet, one of whose two
    inputs carries the null outpoint (it is not a coinbase: a coinbase
    has that input alone), and a coinbase. *)
Definition txX : TX :=
  mkTX "dd" [mkInput (mkOutpoint NULL_HASH 4294967295) None;
             mkInput (mkOutpoint "ee" 1) None]
       [mkOutput 7 (Some "addrA")] 5 (Some "b5") 50 0 102 false false false.

Definition txCB : TX :=
  mkTX "cb" [mkInput (mkOutpoint NULL_HASH 4294967295) None]
       [mkOutput 50 (Some "addrB")] (-1) None 0 0 103 false true false.

(** A second spender of the output txC spends. *)
Definition txC' : TX :=
  mkTX "c2" [mkInput (mkOutpoint "aa" 0) None]
       [mkOutput 8 (Some "addrA")] (-1) None 0 0 104 false false false.

Definition withX : TXDB := (add 2 txX (Some blk5) empty).2.
(** The wallet after [add(txP5); add(txC6)], both confirmed. *)
Definition withP5C6 : TXDB := (add 2 txC6 (Some blk6) withP5).2.

(** The wallet after [add(txC)] alone: the spender is known before the
    transaction it spends. *)
Definition withC : TXDB := (add 2 txC None empty).2.

(** The wallet after [add(txC); add(txP)]: the output of txP is
    stored spent from the start. *)
Definition withCP : TXDB := (add 2 txP None withC).2.

(** The wallet after [add(txP5); add(txC)]: txP confirmed, its
    spender in the mempool. *)
Definition withP5C : TXDB := (add 2 txC None withP5).2.

(** A mempool transaction spending the output of txC. *)
Definition txQ : TX :=
  mkTX "qq" [mkInput (mkOutpoint "cc" 0) None]
       [mkOutput 8 (Some "addrA")] (-1) None 0 0 105 false false false.

End Examples.

(** * Properties *)

(** ** Basic facts about the monad and the batch *)

Lemma bind_ok {A B} (m : M A) (k : A -> M B) s a s' :
  m s = (Ok a, s') -> bind m k s = k a s'.
Proof. intros H. unfold bind. by rewrite H. Qed.

Lemma bind_ret_l {A B} (a : A) (k : A -> M B) s : bind (ret a) k s = k a s.
Proof. reflexivity. Qed.

Lemma bind_throw {A B} (m : M A) (k : A -> M B) s e s' :
  m s = (Throw e, s') -> bind m k s = (Throw e, s').
Proof. intros H. unfold bind. by rewrite H. Qed.

Lemma bind_inv_ok {A B} (m : M A) (k : A -> M B) s b s' :
  bind m k s = (Ok b, s') ->
  exists a s1, m s = (Ok a, s1) /\ k a s1 = (Ok b, s').
Proof.
  unfold bind. destruct (m s) as [[a| |] s1]; intros H; try discriminate.
  eauto.
Qed.

Lemma try_rethrow_ext {A} (m1 m2 : M A) (h : M unit) s :
  m1 s = m2 s -> try_rethrow m1 h s = try_rethrow m2 h s.
Proof. intros H. unfold try_rethrow. by rewrite H. Qed.

Lemma try_rethrow_map {A B} (m : M A) (f : A -> B) (h : M unit) s :
  try_rethrow (bind m (fun x => ret (f x))) h s
  = bind (try_rethrow m h) (fun x => ret (f x)) s.
Proof.
  unfold try_rethrow, bind, ret. destruct (m s) as [[a| |] s1]; try done.
  by destruct (h s1) as [[[]| |] s2].
Qed.

Lemma well_typed_tx m hash v :
  well_typed m -> m !! Kt hash = Some v -> exists tx, v = VTX tx.
Proof.
  intros Hwt Hl. specialize (Hwt _ _ Hl). destruct v; try discriminate. eauto.
Qed.

Lemma getTX_None s hash :
  db s !! Kt hash = None -> getTX hash s = (Ok None, s).
Proof. intros H. unfold getTX, bind, get, gets. by rewrite H. Qed.

Lemma getTX_Some s hash tx :
  db s !! Kt hash = Some (VTX tx) -> getTX hash s = (Ok (Some tx), s).
Proof. intros H. unfold getTX, bind, get, gets. by rewrite H. Qed.

Lemma getTX_typed s hash :
  well_typed (db s) ->
  exists r, getTX hash s = (Ok r, s) /\
            (r = None /\ db s !! Kt hash = None \/
             exists tx, r = Some tx /\ db s !! Kt hash = Some (VTX tx)).
Proof.
  intros Hwt. destruct (db s !! Kt hash) as [v|] eqn:E.
  - destruct (well_typed_tx _ _ _ Hwt E) as [tx ->].
    exists (Some tx). split; [by apply getTX_Some | right; eauto].
  - exists None. split; [by apply getTX_None | left; eauto].
Qed.

Lemma start_eq s : start s = (Ok tt, started s).
Proof. reflexivity. Qed.

(** Opening a batch on a quiescent object and dropping it, or
    committing it with nothing staged, gives the object back. *)
Lemma drop_started s : quiescent s -> drop (started s) = (Ok tt, s).
Proof.
  intros (Hc & Hp & He & Hl). destruct s as [e d c st p ev cc lk o ct t].
  destruct cc as [items lp]. simpl in *. by subst.
Qed.

Lemma commit_started s : quiescent s -> commit (started s) = (Ok tt, s).
Proof.
  intros (Hc & Hp & He & Hl). destruct s as [e d c st p ev cc lk o ct t].
  destruct cc as [items lp]. simpl in *. by subst.
Qed.

Lemma getTX_started s hash r :
  getTX hash s = (Ok r, s) -> getTX hash (started s) = (Ok r, started s).
Proof.
  unfold getTX, bind, get, gets. simpl.
  destruct (db s !! Kt hash) as [v|]; [|by intros [= <-]].
  unfold decode. destruct (TX_fromExtended v); simpl; [by intros [= <-]|done].
Qed.

(** ** Adding a mutable transaction *)

(** C10. For a transaction whose mutable flag is set, [add] throws
    the assertion error "Cannot add mutable TX to wallet." and, the
    batch being dropped, gives back the object it started from: the
    committed store and state, the coin cache and the event buffer
    are unchanged. *)
Theorem add_mutable_throws (fuel : nat) (tx : TX) (block : option BlockMeta)
    (s : TXDB) :
  quiescent s ->
  well_typed (db s) ->
  tx_mutable tx = true ->
  add fuel tx block s = (Throw "Cannot add mutable TX to wallet.", s).
Proof.
  intros Hq Hwt Hmut.
  destruct (getTX_typed s (tx_hash tx) Hwt) as (r & Hget & _).
  apply getTX_started in Hget.
  unfold add. rewrite (bind_ok _ _ _ _ _ (start_eq s)).
  assert (H_add : _add fuel tx block (started s)
                  = (Throw "Cannot add mutable TX to wallet.", started s)).
  { unfold _add. rewrite (bind_ok _ _ _ _ _ Hget).
    rewrite Hmut. reflexivity. }
  apply bind_throw. unfold try_rethrow. rewrite H_add.
  by rewrite (drop_started s Hq).
Qed.

Lemma well_typed_by_decide (m : gmap Key Value) :
  bool_decide (well_typed m) = true -> well_typed m.
Proof. apply bool_decide_eq_true_1. Qed.

Lemma add_mutable_throws_witness :
  quiescent Examples.withP /\ well_typed (db Examples.withP) /\
  tx_mutable (Examples.make_mutable Examples.txC) = true /\
  add 1 (Examples.make_mutable Examples.txC) None Examples.withP
  = (Throw "Cannot add mutable TX to wallet.", Examples.withP).
Proof.
  assert (Hq : quiescent Examples.withP).
  { split; [|split; [|split]]; vm_compute; reflexivity. }
  assert (Hw : well_typed (db Examples.withP)).
  { apply well_typed_by_decide. vm_compute. reflexivity. }
  split; [exact Hq|]. split; [exact Hw|]. split; [reflexivity|].
  apply (add_mutable_throws 1 (Examples.make_mutable Examples.txC) None
           Examples.withP Hq Hw).
  reflexivity.
Defined.

(** ** confirm on an unknown or already confirmed hash *)

(** C9 (amended). When no transaction is stored under [t[hash]],
    [confirm] returns nothing and leaves the object as it is: no
    batch is opened, no key, counter or state is touched.  When the
    stored transaction already has a height, it throws
    "TX is already confirmed.", again without touching anything. *)
Theorem confirm_unknown_or_confirmed (hash : Hash) (block : option BlockMeta)
    (s : TXDB) :
  (db s !! Kt hash = None -> confirm hash block s = (Ok None, s)) /\
  (forall tx, db s !! Kt hash = Some (VTX tx) -> tx_height tx <> -1 ->
              confirm hash block s = (Throw "TX is already confirmed.", s)).
Proof.
  split.
  - intros H. unfold confirm. by rewrite (bind_ok _ _ _ _ _ (getTX_None _ _ H)).
  - intros tx H Hh. unfold confirm.
    rewrite (bind_ok _ _ _ _ _ (getTX_Some _ _ _ H)).
    apply Z.eqb_neq in Hh. by rewrite Hh.
Qed.

Lemma confirm_unknown_or_confirmed_witness :
  (db Examples.withP5 !! Kt "zz" = None ->
   confirm "zz" (Some Examples.blk6) Examples.withP5 = (Ok None, Examples.withP5)) /\
  (db Examples.withP5 !! Kt "aa" = Some (VTX Examples.txP5) /\
   tx_height Examples.txP5 <> -1 /\
   confirm "aa" (Some Examples.blk6) Examples.withP5
   = (Throw "TX is already confirmed.", Examples.withP5)).
Proof.
  destruct (confirm_unknown_or_confirmed "zz" (Some Examples.blk6) Examples.withP5)
    as [H1 _].
  destruct (confirm_unknown_or_confirmed "aa" (Some Examples.blk6) Examples.withP5)
    as [_ H2].
  assert (Hl : db Examples.withP5 !! Kt "aa" = Some (VTX Examples.txP5))
    by (vm_compute; reflexivity).
  assert (Hh : tx_height Examples.txP5 <> -1) by (vm_compute; discriminate).
  split; [exact H1|]. split; [exact Hl|]. split; [exact Hh|].
  exact (H2 _ Hl Hh).
Defined.

(** C9 as stated fails: [confirm] also throws on a stored transaction
    whose height is -1.  After [add(txP); add(txC)], both in the
    mempool, confirming the child first trips the assertion on the
    height of its undo coin. *)
Lemma confirm_throws_on_mempool_tx :
  ~ (forall hash block s msg,
       (confirm hash block s).1 = Throw msg ->
       exists tx, db s !! Kt hash = Some (VTX tx) /\ tx_height tx <> -1).
Proof.
  intros H.
  destruct (H "cc" (Some Examples.blk6) Examples.withPC "AssertionError")
    as (tx & Hl & Hh).
  - vm_compute. reflexivity.
  - vm_compute in Hl. injection Hl as <-. apply Hh. reflexivity.
Qed.

(** ** add on an indexed transaction *)

Lemma add_noop fuel tx block s :
  quiescent s ->
  _add fuel tx block (started s) = (Ok None, started s) ->
  add fuel tx block s = (Ok None, s).
Proof.
  intros Hq H. unfold add. rewrite (bind_ok _ _ _ _ _ (start_eq s)).
  unfold try_rethrow. unfold bind at 1. rewrite H.
  by rewrite (bind_ok _ _ _ _ _ (commit_started s Hq)).
Qed.

Lemma _add_existing fuel tx block s ex :
  tx_mutable tx = false ->
  db s !! Kt (tx_hash tx) = Some (VTX ex) ->
  _add fuel tx block s =
    (if negb (tx_height ex =? -1) then ret None
     else if tx_height tx =? -1 then ret None
     else
       details <- _confirm (tx_set_block ex (tx_height tx) (tx_block tx)
                                         (tx_ts tx) (tx_index tx)) block ;;
       ret (Some details)) s.
Proof.
  intros Hm Hl. unfold _add.
  rewrite (bind_ok _ _ _ _ _ (getTX_Some _ _ _ Hl)).
  rewrite Hm. reflexivity.
Qed.

(** C3 (amended). For a transaction whose mutable flag is clear and
    that is already indexed under [t[hash]]: if the stored copy has a
    height, [add] changes nothing; if neither the stored copy nor the
    incoming transaction has one, [add] changes nothing; otherwise
    [add] copies the incoming block fields onto the stored copy and
    runs the confirm transition on it. *)
Theorem add_existing (fuel : nat) (tx : TX) (block : option BlockMeta)
    (s : TXDB) (ex : TX) :
  quiescent s ->
  tx_mutable tx = false ->
  db s !! Kt (tx_hash tx) = Some (VTX ex) ->
  (tx_height ex <> -1 -> add fuel tx block s = (Ok None, s)) /\
  (tx_height ex = -1 -> tx_height tx = -1 ->
   add fuel tx block s = (Ok None, s)) /\
  (tx_height ex = -1 -> tx_height tx <> -1 ->
   add fuel tx block s =
   confirm_transition
     (tx_set_block ex (tx_height tx) (tx_block tx) (tx_ts tx) (tx_index tx))
     block s).
Proof.
  intros Hq Hm Hl.
  assert (Hl' : db (started s) !! Kt (tx_hash tx) = Some (VTX ex)) by exact Hl.
  pose proof (_add_existing fuel tx block (started s) ex Hm Hl') as Hadd.
  split; [|split].
  - intros Hh. apply add_noop; [done|]. rewrite Hadd.
    apply Z.eqb_neq in Hh. by rewrite Hh.
  - intros Hh Ht. apply add_noop; [done|]. rewrite Hadd.
    apply Z.eqb_eq in Hh, Ht. by rewrite Hh, Ht.
  - intros Hh Ht. unfold add, confirm_transition.
    rewrite !(bind_ok _ _ _ _ _ (start_eq s)).
    apply Z.eqb_eq in Hh. apply Z.eqb_neq in Ht.
    rewrite Hh, Ht in Hadd. simpl in Hadd.
    unfold bind at 1. rewrite (try_rethrow_ext _ _ _ _ Hadd).
    rewrite try_rethrow_map. unfold bind, ret.
    by destruct (try_rethrow _ drop (started s)) as [[d| |] s1].
Qed.

Lemma add_existing_witness :
  quiescent Examples.withP /\
  tx_mutable Examples.txP5 = false /\
  db Examples.withP !! Kt (tx_hash Examples.txP5) = Some (VTX Examples.txP) /\
  tx_height Examples.txP = -1 /\ tx_height Examples.txP5 <> -1 /\
  add 1 Examples.txP5 (Some Examples.blk5) Examples.withP =
  confirm_transition
    (tx_set_block Examples.txP 5 (Some "b5") 50 0) (Some Examples.blk5)
    Examples.withP.
Proof.
  assert (Hq : quiescent Examples.withP).
  { split; [|split; [|split]]; vm_compute; reflexivity. }
  assert (Hl : db Examples.withP !! Kt (tx_hash Examples.txP5)
               = Some (VTX Examples.txP)) by (vm_compute; reflexivity).
  assert (Hh : tx_height Examples.txP5 <> -1) by (vm_compute; discriminate).
  split; [exact Hq|]. split; [reflexivity|]. split; [exact Hl|].
  split; [reflexivity|]. split; [exact Hh|].
  destruct (add_existing 1 Examples.txP5 (Some Examples.blk5) Examples.withP
              Examples.txP Hq eq_refl Hl) as (_ & _ & H3).
  exact (H3 eq_refl Hh).
Defined.

(** C3 as stated fails on a mutable transaction: the assertion on the
    mutable flag comes before the test on the stored copy, so [add]
    throws where the claim has it run the confirm transition. *)
Lemma add_existing_mutable_throws :
  ~ (forall fuel tx block s ex,
       quiescent s ->
       db s !! Kt (tx_hash tx) = Some (VTX ex) ->
       tx_height ex = -1 -> tx_height tx <> -1 ->
       (add fuel tx block s).1 =
       (confirm_transition
          (tx_set_block ex (tx_height tx) (tx_block tx) (tx_ts tx) (tx_index tx))
          block s).1).
Proof.
  intros H.
  specialize (H 1%nat (Examples.make_mutable Examples.txP5) (Some Examples.blk5)
                Examples.withP Examples.txP).
  assert (Hq : quiescent Examples.withP).
  { split; [|split; [|split]]; vm_compute; reflexivity. }
  specialize (H Hq).
  assert (Hl : db Examples.withP !! Kt (tx_hash (Examples.make_mutable Examples.txP5))
               = Some (VTX Examples.txP)) by (vm_compute; reflexivity).
  specialize (H Hl eq_refl).
  assert (Hh : tx_height (Examples.make_mutable Examples.txP5) <> -1)
    by (vm_compute; discriminate).
  specialize (H Hh). vm_compute in H. discriminate H.
Qed.

(** ** add on a replace-by-fee transaction *)

Lemma isRBF_inputs_true s inputs :
  (exists input, input ∈ inputs /\ is_Some (db s !! Kr (op_hash (prevout input)))) ->
  isRBF_inputs inputs s = (Ok true, s).
Proof.
  induction inputs as [|i rest IH]; intros (input & Hin & Hs).
  - by apply elem_of_nil in Hin.
  - simpl. unfold bind, has, gets.
    destruct (bool_decide (is_Some (db s !! Kr (op_hash (prevout i))))) eqn:E;
      [done|].
    apply elem_of_cons in Hin as [->|Hin].
    + apply bool_decide_eq_false in E. contradiction.
    + apply IH. eauto.
Qed.

Lemma isRBF_true s tx : rbf_tainted (db s) tx -> isRBF tx s = (Ok true, s).
Proof.
  intros [H|H]; unfold isRBF.
  - by rewrite H.
  - destruct (tx_rbf tx); [done|]. by apply isRBF_inputs_true.
Qed.

(** C4 (amended). For a transaction whose mutable flag is clear, that
    is not indexed, has height -1 and for which [isRBF] holds, [add]
    returns nothing and writes the marker [r[hash]] and nothing else:
    every other key, the counters and the balance are as before. *)
Theorem add_rbf_marks (fuel : nat) (tx : TX) (block : option BlockMeta)
    (s : TXDB) :
  quiescent s ->
  tx_mutable tx = false ->
  db s !! Kt (tx_hash tx) = None ->
  tx_height tx = -1 ->
  rbf_tainted (db s) tx ->
  add fuel tx block s
  = (Ok None, set_db (fun m => <[Kr (tx_hash tx) := DUMMY]> m) s).
Proof.
  intros Hq Hm Hl Hh Hr.
  assert (Hl' : db (started s) !! Kt (tx_hash tx) = None) by exact Hl.
  assert (Hr' : rbf_tainted (db (started s)) tx) by exact Hr.
  unfold add. rewrite (bind_ok _ _ _ _ _ (start_eq s)).
  assert (H_add : _add fuel tx block (started s)
                  = (Ok None,
                     set_current (fun _ => Some [(Kr (tx_hash tx), Some DUMMY)])
                                 (started s))).
  { unfold _add. rewrite (bind_ok _ _ _ _ _ (getTX_None _ _ Hl')).
    rewrite Hm. simpl. apply Z.eqb_eq in Hh. rewrite Hh.
    unfold bind at 1. simpl.
    rewrite (bind_ok _ _ _ _ _ (isRBF_true _ _ Hr')). reflexivity. }
  unfold try_rethrow, bind at 1. rewrite H_add.
  destruct Hq as (Hc & Hp & He & Hlp).
  destruct s as [e d c st p ev cc lk o ct t]. destruct cc as [items lp].
  simpl in *. subst. reflexivity.
Qed.

Lemma add_rbf_marks_witness :
  quiescent Examples.withP /\
  tx_mutable (Examples.make_rbf Examples.txC) = false /\
  db Examples.withP !! Kt (tx_hash (Examples.make_rbf Examples.txC)) = None /\
  tx_height (Examples.make_rbf Examples.txC) = -1 /\
  rbf_tainted (db Examples.withP) (Examples.make_rbf Examples.txC) /\
  add 1 (Examples.make_rbf Examples.txC) None Examples.withP
  = (Ok None, set_db (fun m => <[Kr "cc" := DUMMY]> m) Examples.withP).
Proof.
  assert (Hq : quiescent Examples.withP).
  { split; [|split; [|split]]; vm_compute; reflexivity. }
  assert (Hl : db Examples.withP !! Kt (tx_hash (Examples.make_rbf Examples.txC))
               = None) by (vm_compute; reflexivity).
  assert (Hr : rbf_tainted (db Examples.withP) (Examples.make_rbf Examples.txC))
    by (left; reflexivity).
  split; [exact Hq|]. split; [reflexivity|]. split; [exact Hl|].
  split; [reflexivity|]. split; [exact Hr|].
  exact (add_rbf_marks 1 (Examples.make_rbf Examples.txC) None Examples.withP
           Hq eq_refl Hl eq_refl Hr).
Defined.

(** C4 as stated fails on a mutable transaction: [add] throws before
    it looks at replace-by-fee, and the marker is not written. *)
Lemma add_rbf_mutable_throws :
  ~ (forall fuel tx block s,
       quiescent s ->
       db s !! Kt (tx_hash tx) = None ->
       tx_height tx = -1 ->
       rbf_tainted (db s) tx ->
       (add fuel tx block s).1 = Ok None /\
       db (add fuel tx block s).2 !! Kr (tx_hash tx) = Some DUMMY).
Proof.
  intros H.
  specialize (H 1%nat (Examples.make_mutable (Examples.make_rbf Examples.txC))
                None Examples.withP).
  assert (Hq : quiescent Examples.withP).
  { split; [|split; [|split]]; vm_compute; reflexivity. }
  assert (Hl : db Examples.withP
               !! Kt (tx_hash (Examples.make_mutable (Examples.make_rbf Examples.txC)))
               = None) by (vm_compute; reflexivity).
  destruct (H Hq Hl eq_refl (or_introl eq_refl)) as [H1 _].
  vm_compute in H1. discriminate H1.
Qed.

(** ** Spent markers *)

Lemma put_ok k v s ops :
  current s = Some ops ->
  put k v s = (Ok tt, set_current (fun _ => Some (ops ++ [(k, Some v)])) s).
Proof. intros H. unfold put, bind, gets, modify. by rewrite H. Qed.

Lemma del_ok k s ops :
  current s = Some ops ->
  del k s = (Ok tt, set_current (fun _ => Some (ops ++ [(k, None)])) s).
Proof. intros H. unfold del, bind, gets, modify. by rewrite H. Qed.

Lemma apply_ops_app ops1 ops2 m :
  apply_ops (ops1 ++ ops2) m = apply_ops ops2 (apply_ops ops1 m).
Proof. unfold apply_ops. apply fold_left_app. Qed.

(** C7. Whenever a spend is recorded, by [spendCredit] or by
    [writeInput], the value staged under the spent marker
    [s[prevout.hash, prevout.index]] is the spender outpoint: the
    hash of the spending transaction and the index of the consuming
    input, which is what a flush of the batch stores; it is the
    previous outpoint only if the two coincide. *)
Theorem spent_marker_names_spender (credit : Credit) (tx : TX) (index : Z)
    (input : Input) (s : TXDB) (ops : list Op) :
  current s = Some ops ->
  tx_input tx index = Some input ->
  let key := Ks (op_hash (prevout input)) (op_index (prevout input)) in
  let spender := mkOutpoint (tx_hash tx) index in
  Outpoint_fromTX tx index = spender /\
  (exists s1 ops1,
     spendCredit credit tx index s = (Ok tt, s1) /\
     current s1 = Some ops1 /\ db s1 = db s /\
     apply_ops ops1 (db s1) !! key = Some (VOutpoint spender) /\
     (prevout input <> spender ->
      apply_ops ops1 (db s1) !! key <> Some (VOutpoint (prevout input)))) /\
  (exists s1 ops1,
     writeInput tx index s = (Ok tt, s1) /\
     current s1 = Some ops1 /\ db s1 = db s /\
     apply_ops ops1 (db s1) !! key = Some (VOutpoint spender) /\
     (prevout input <> spender ->
      apply_ops ops1 (db s1) !! key <> Some (VOutpoint (prevout input)))).
Proof.
  intros Hc Hi key spender. split; [reflexivity|]. split.
  - eexists _, _. split.
    { unfold spendCredit, input_prevout. rewrite Hi.
      rewrite bind_ret_l.
      rewrite (bind_ok _ _ _ _ _ (put_ok _ _ _ _ Hc)).
      apply put_ok. reflexivity. }
    simpl. split; [reflexivity|]. split; [reflexivity|].
    assert (E : apply_ops
                  ((ops ++ [(key, Some (VOutpoint spender))]) ++
                   [(Kd (tx_hash tx) index, Some (VCoin (Coin_toRaw (coin credit))))])
                  (db s) !! key = Some (VOutpoint spender)).
    { rewrite !apply_ops_app. simpl. unfold apply_op. simpl.
      rewrite lookup_insert_ne by done. apply lookup_insert_eq. }
    split; [exact E|]. intros Hne. unfold Outpoint_toRaw, Outpoint_fromTX.
    fold key spender. rewrite E. congruence.
  - eexists _, _. split.
    { unfold writeInput, input_prevout. rewrite Hi.
      rewrite bind_ret_l.
      apply put_ok. exact Hc. }
    simpl. split; [reflexivity|]. split; [reflexivity|].
    assert (E : apply_ops (ops ++ [(key, Some (VOutpoint spender))]) (db s)
                !! key = Some (VOutpoint spender)).
    { rewrite apply_ops_app. simpl. unfold apply_op. simpl.
      apply lookup_insert_eq. }
    split; [exact E|]. intros Hne. unfold Outpoint_toRaw, Outpoint_fromTX.
    fold key spender. rewrite E. congruence.
Qed.

Lemma spent_marker_names_spender_witness :
  current (started Examples.withP) = Some [] /\
  tx_input Examples.txC 0 = Some (mkInput (mkOutpoint "aa" 0) None) /\
  exists s1 ops1,
    writeInput Examples.txC 0 (started Examples.withP) = (Ok tt, s1) /\
    current s1 = Some ops1 /\
    apply_ops ops1 (db s1) !! Ks "aa" 0 = Some (VOutpoint (mkOutpoint "cc" 0)).
Proof.
  split; [reflexivity|]. split; [reflexivity|].
  destruct (spent_marker_names_spender
              (mkCredit (mkCoin (-1) 10 (Some "addrA") false "aa" 0) false)
              Examples.txC 0 (mkInput (mkOutpoint "aa" 0) None)
              (started Examples.withP) [] eq_refl eq_refl)
    as (_ & _ & s1 & ops1 & H1 & H2 & _ & H3 & _).
  exists s1, ops1. split; [exact H1|]. split; [exact H2|]. exact H3.
Defined.

(** ** The orphan cap *)

(** What one pass of the second loop of [verifyInputs] does to the
    tracker: with more than 20 orphans counted it purges both maps and
    restarts the count at the new orphan; otherwise it stashes the
    orphan and counts one more. *)
Lemma stash_orphan_spec tx i input block s :
  exists s',
    stash_orphan tx i input block s = (Ok tt, s') /\
    let key := (op_hash (prevout input), op_index (prevout input)) in
    let o := mkOrphan tx (tx_hash tx) (Z.of_nat i) block in
    (20 < totalOrphans s ->
     totalOrphans s' = 1 /\ orphans s' = {[ key := [o] ]} /\
     count s' = {[ tx_hash tx := 1 ]}) /\
    (totalOrphans s <= 20 ->
     totalOrphans s' = totalOrphans s + 1 /\
     orphans s' = <[key := default [] (orphans s !! key) ++ [o]]> (orphans s) /\
     count s' = <[tx_hash tx := default 0 (count s !! tx_hash tx) + 1]> (count s)).
Proof.
  eexists. split; [reflexivity|]. simpl. split; intros H.
  - assert (E : (totalOrphans s >? 20) = true) by (apply Z.gtb_lt; lia).
    rewrite E. simpl. rewrite !lookup_empty. simpl.
    split; [reflexivity|]. split; reflexivity.
  - assert (E : (totalOrphans s >? 20) = false).
    { destruct (totalOrphans s >? 20) eqn:E'; [|done].
      apply Z.gtb_lt in E'. lia. }
    rewrite E. split; [reflexivity|]. split; reflexivity.
Qed.

(** C8, at the failing input: after twenty orphans have been stashed
    the twenty-first is stashed too, without a purge, and the counter
    reaches 21; only the twenty-second triggers the purge. *)
Theorem orphan_counter_reaches_21 :
  let s20 := feed_orphans 20 Examples.empty in
  let s21 := (verifyInputs (orphan_tx 20) None s20).2 in
  let s22 := (verifyInputs (orphan_tx 21) None s21).2 in
  totalOrphans s20 = 20 /\ size (orphans s20) = 20%nat /\
  totalOrphans s21 = 21 /\ size (orphans s21) = 21%nat /\
  totalOrphans s22 = 1 /\ size (orphans s22) = 1%nat.
Proof. vm_compute. repeat split; reflexivity. Qed.

(** ** Conflicts with a confirmed spender *)

Lemma getSpent_None s hash index :
  db s !! Ks hash index = None -> getSpent hash index s = (Ok None, s).
Proof. intros H. unfold getSpent, bind, get, gets. by rewrite H. Qed.

Lemma getSpent_Some s hash index o :
  db s !! Ks hash index = Some (VOutpoint o) ->
  getSpent hash index s = (Ok (Some o), s).
Proof. intros H. unfold getSpent, bind, get, gets. by rewrite H. Qed.

Lemma well_typed_outpoint m hash index v :
  well_typed m -> m !! Ks hash index = Some v -> exists o, v = VOutpoint o.
Proof.
  intros Hwt Hl. specialize (Hwt _ _ Hl). destruct v; try discriminate. eauto.
Qed.

(** The first loop returns false at the first confirmed foreign
    spender, the store being untouched. *)
Lemma gather_spends_confirmed s hash inputs :
  well_typed (db s) ->
  (forall input sp, input ∈ inputs ->
     db s !! Ks (op_hash (prevout input)) (op_index (prevout input))
       = Some (VOutpoint sp) ->
     op_hash sp <> hash -> is_Some (db s !! Kt (op_hash sp))) ->
  (exists input sp stx, input ∈ inputs /\
     db s !! Ks (op_hash (prevout input)) (op_index (prevout input))
       = Some (VOutpoint sp) /\
     op_hash sp <> hash /\
     db s !! Kt (op_hash sp) = Some (VTX stx) /\ tx_height stx <> -1) ->
  gather_spends hash true inputs s = (Ok None, s).
Proof.
  intros Hwt. induction inputs as [|i rest IH]; intros Hall (input & sp & stx & Hin & Hs & Hne & Ht & Hh).
  - by apply elem_of_nil in Hin.
  - assert (IH' : input ∈ rest -> gather_spends hash true rest s = (Ok None, s)).
    { intros Hin'. apply IH.
      - intros i' sp' Hi'. apply Hall. by apply elem_of_cons; right.
      - exists input, sp, stx. auto. }
    simpl.
    destruct (db s !! Ks (op_hash (prevout i)) (op_index (prevout i))) as [v|] eqn:E.
    + destruct (well_typed_outpoint _ _ _ _ Hwt E) as [o ->].
      rewrite (bind_ok _ _ _ _ _ (getSpent_Some _ _ _ _ E)).
      destruct (bool_decide (op_hash o = hash)) eqn:Eo.
      * apply bool_decide_eq_true in Eo.
        apply elem_of_cons in Hin as [->|Hin].
        { rewrite E in Hs. injection Hs as ->. contradiction. }
        by rewrite (bind_ok _ _ _ _ _ (IH' Hin)).
      * apply bool_decide_eq_false in Eo.
        destruct (Hall i o (list_elem_of_here _ _) E Eo) as [v Hv].
        destruct (well_typed_tx _ _ _ Hwt Hv) as [spender ->].
        rewrite (bind_ok _ _ _ _ _ (getTX_Some _ _ _ Hv)).
        destruct (tx_height spender =? -1) eqn:Eh; simpl; [|done].
        apply elem_of_cons in Hin as [->|Hin].
        { rewrite E in Hs. injection Hs as ->. rewrite Hv in Ht.
          injection Ht as ->. apply Z.eqb_eq in Eh. contradiction. }
        by rewrite (bind_ok _ _ _ _ _ (IH' Hin)).
    + rewrite (bind_ok _ _ _ _ _ (getSpent_None _ _ _ E)).
      apply elem_of_cons in Hin as [->|Hin].
      { rewrite E in Hs. discriminate. }
      by rewrite (bind_ok _ _ _ _ _ (IH' Hin)).
Qed.

(** Markers that name the transaction itself are skipped. *)
Lemma gather_spends_own s hash conf inputs :
  (forall input v, input ∈ inputs ->
     db s !! Ks (op_hash (prevout input)) (op_index (prevout input)) = Some v ->
     exists i, v = VOutpoint (mkOutpoint hash i)) ->
  gather_spends hash conf inputs s = (Ok (Some (map (fun _ => None) inputs)), s).
Proof.
  induction inputs as [|i rest IH]; intros Hall; [done|].
  assert (IH' : gather_spends hash conf rest s
                = (Ok (Some (map (fun _ => None) rest)), s)).
  { apply IH. intros i' v Hi'. apply Hall. by apply elem_of_cons; right. }
  simpl.
  destruct (db s !! Ks (op_hash (prevout i)) (op_index (prevout i))) as [v|] eqn:E.
  - destruct (Hall i v (list_elem_of_here _ _) E) as [j ->].
    rewrite (bind_ok _ _ _ _ _ (getSpent_Some _ _ _ _ E)). simpl.
    rewrite bool_decide_eq_true_2 by done.
    by rewrite (bind_ok _ _ _ _ _ IH').
  - rewrite (bind_ok _ _ _ _ _ (getSpent_None _ _ _ E)).
    by rewrite (bind_ok _ _ _ _ _ IH').
Qed.

Lemma remove_spends_none fuel (inputs : list Input) s :
  remove_spends fuel (map (fun _ => None) inputs) s = (Ok tt, s).
Proof. induction inputs as [|i rest IH]; [done|]. simpl. exact IH. Qed.

(** C5 (amended). For a transaction that is not a coinbase, in a
    store where every spent marker on its inputs names a stored
    transaction, [removeConflicts(tx, true)] returns false as soon as
    the marker of some input names a spender other than [tx] whose
    stored transaction has a height, and nothing is removed: the
    object is as before.  Markers whose spender is [tx] itself are
    ignored: when the inputs carry no other marker, the call returns
    true and removes nothing. *)
Theorem removeConflicts_confirmed_spender (fuel : nat) (tx : TX) (s : TXDB) :
  (tx_coinbase tx = false ->
   well_typed (db s) ->
   (forall input sp, input ∈ tx_inputs tx ->
      db s !! Ks (op_hash (prevout input)) (op_index (prevout input))
        = Some (VOutpoint sp) ->
      op_hash sp <> tx_hash tx -> is_Some (db s !! Kt (op_hash sp))) ->
   (exists input sp stx, input ∈ tx_inputs tx /\
      db s !! Ks (op_hash (prevout input)) (op_index (prevout input))
        = Some (VOutpoint sp) /\
      op_hash sp <> tx_hash tx /\
      db s !! Kt (op_hash sp) = Some (VTX stx) /\ tx_height stx <> -1) ->
   removeConflicts fuel tx true s = (Ok false, s)) /\
  (forall conf,
     (forall input v, input ∈ tx_inputs tx ->
        db s !! Ks (op_hash (prevout input)) (op_index (prevout input)) = Some v ->
        exists i, v = VOutpoint (mkOutpoint (tx_hash tx) i)) ->
     removeConflicts fuel tx conf s = (Ok true, s)).
Proof.
  split.
  - intros Hcb Hwt Hall Hex. unfold removeConflicts. rewrite Hcb.
    by rewrite (bind_ok _ _ _ _ _ (gather_spends_confirmed _ _ _ Hwt Hall Hex)).
  - intros conf Hown. unfold removeConflicts.
    destruct (tx_coinbase tx); [done|].
    rewrite (bind_ok _ _ _ _ _ (gather_spends_own _ _ conf _ Hown)).
    by rewrite (bind_ok _ _ _ _ _ (remove_spends_none _ _ _)).
Qed.

Lemma removeConflicts_confirmed_spender_witness :
  tx_coinbase Examples.txC' = false /\
  well_typed (db Examples.withP5C6) /\
  (exists input sp stx, input ∈ tx_inputs Examples.txC' /\
     db Examples.withP5C6 !! Ks (op_hash (prevout input)) (op_index (prevout input))
       = Some (VOutpoint sp) /\
     op_hash sp <> tx_hash Examples.txC' /\
     db Examples.withP5C6 !! Kt (op_hash sp) = Some (VTX stx) /\
     tx_height stx <> -1) /\
  removeConflicts 1 Examples.txC' true Examples.withP5C6
  = (Ok false, Examples.withP5C6) /\
  removeConflicts 1 Examples.txC false Examples.withPC
  = (Ok true, Examples.withPC).
Proof.
  assert (Hw : well_typed (db Examples.withP5C6)).
  { apply well_typed_by_decide. vm_compute. reflexivity. }
  assert (Hall : forall input sp, input ∈ tx_inputs Examples.txC' ->
            db Examples.withP5C6
               !! Ks (op_hash (prevout input)) (op_index (prevout input))
              = Some (VOutpoint sp) ->
            op_hash sp <> tx_hash Examples.txC' ->
            is_Some (db Examples.withP5C6 !! Kt (op_hash sp))).
  { intros input sp Hin Hs _. apply list_elem_of_singleton in Hin as ->.
    vm_compute in Hs. injection Hs as <-. vm_compute. eauto. }
  assert (Hex : exists input sp stx, input ∈ tx_inputs Examples.txC' /\
            db Examples.withP5C6
               !! Ks (op_hash (prevout input)) (op_index (prevout input))
              = Some (VOutpoint sp) /\
            op_hash sp <> tx_hash Examples.txC' /\
            db Examples.withP5C6 !! Kt (op_hash sp) = Some (VTX stx) /\
            tx_height stx <> -1).
  { exists (mkInput (mkOutpoint "aa" 0) None), (mkOutpoint "cc" 0), Examples.txC6.
    split; [apply list_elem_of_here|].
    split; [vm_compute; reflexivity|].
    split; [vm_compute; discriminate|].
    split; [vm_compute; reflexivity|vm_compute; discriminate]. }
  assert (Hown : forall input v, input ∈ tx_inputs Examples.txC ->
            db Examples.withPC
               !! Ks (op_hash (prevout input)) (op_index (prevout input)) = Some v ->
            exists i, v = VOutpoint (mkOutpoint (tx_hash Examples.txC) i)).
  { intros input v Hin Hs. apply list_elem_of_singleton in Hin as ->.
    vm_compute in Hs. injection Hs as <-. exists 0. reflexivity. }
  destruct (removeConflicts_confirmed_spender 1 Examples.txC' Examples.withP5C6)
    as [H1 _].
  destruct (removeConflicts_confirmed_spender 1 Examples.txC Examples.withPC)
    as [_ H2].
  split; [reflexivity|]. split; [exact Hw|]. split; [exact Hex|].
  split; [exact (H1 eq_refl Hw Hall Hex) | exact (H2 false Hown)].
Defined.

(** C5 as stated fails on a coinbase: [removeConflicts] returns true
    at once, whatever the spent markers say.  In the wallet that
    indexed txX in block 5, the marker of the null outpoint names txX;
    for the coinbase txCB, whose only input carries the null outpoint,
    the call returns true. *)
Lemma removeConflicts_coinbase_true :
  ~ (forall fuel tx s,
       (exists input sp stx, input ∈ tx_inputs tx /\
          db s !! Ks (op_hash (prevout input)) (op_index (prevout input))
            = Some (VOutpoint sp) /\
          op_hash sp <> tx_hash tx /\
          db s !! Kt (op_hash sp) = Some (VTX stx) /\ tx_height stx <> -1) ->
       (removeConflicts fuel tx true s).1 = Ok false).
Proof.
  intros H.
  specialize (H 1%nat Examples.txCB Examples.withX).
  assert (Hex : exists input sp stx, input ∈ tx_inputs Examples.txCB /\
            db Examples.withX
               !! Ks (op_hash (prevout input)) (op_index (prevout input))
              = Some (VOutpoint sp) /\
            op_hash sp <> tx_hash Examples.txCB /\
            db Examples.withX !! Kt (op_hash sp) = Some (VTX stx) /\
            tx_height stx <> -1).
  { exists (mkInput (mkOutpoint NULL_HASH 4294967295) None),
           (mkOutpoint "dd" 0), Examples.txX.
    split; [apply list_elem_of_here|].
    split; [vm_compute; reflexivity|].
    split; [vm_compute; discriminate|].
    split; [vm_compute; reflexivity|vm_compute; discriminate]. }
  specialize (H Hex). vm_compute in H. discriminate H.
Qed.

(** ** Effects of the primitive steps *)

Lemma apply_delta0 p : apply_delta delta0 p = p.
Proof.
  destruct p. unfold apply_delta, delta0. simpl.
  rewrite !Z.add_0_r, orb_false_r. reflexivity.
Qed.

Lemma apply_delta_plus a b p :
  apply_delta (delta_plus a b) p = apply_delta b (apply_delta a p).
Proof.
  unfold apply_delta, delta_plus. simpl.
  rewrite !Z.add_assoc, orb_assoc. reflexivity.
Qed.

Lemma step_refl s : step s s [] delta0.
Proof.
  unfold step. repeat split; auto.
  - destruct (current s); simpl; [by rewrite app_nil_r|done].
  - destruct (pending s); simpl; [by rewrite apply_delta0|done].
Qed.

Lemma step_trans s s1 s2 n1 n2 d1 d2 :
  step s s1 n1 d1 -> step s1 s2 n2 d2 ->
  step s s2 (n1 ++ n2) (delta_plus d1 d2).
Proof.
  intros (H1 & H2 & H3 & H4 & H5 & H6) (G1 & G2 & G3 & G4 & G5 & G6).
  unfold step. repeat split; try congruence; auto.
  - rewrite G4, H4. destruct (current s); simpl; [by rewrite app_assoc|done].
  - rewrite G5, H5. destruct (pending s); simpl; [by rewrite apply_delta_plus|done].
Qed.

Lemma step_batch_open s s' n d : step s s' n d -> batch_open s -> batch_open s'.
Proof.
  intros (_ & _ & _ & H4 & H5 & _) [[ops Hc] [p Hp]].
  split; [rewrite H4, Hc | rewrite H5, Hp]; simpl; eauto.
Qed.

Lemma runs_ret {A} (a : A) s : runs (ret a) s a [] delta0.
Proof. exists s. split; [done|apply step_refl]. Qed.

Lemma runs_bind {A B} (m : M A) (k : A -> M B) s a b n1 n2 d1 d2 :
  runs m s a n1 d1 ->
  (forall s1, step s s1 n1 d1 -> runs (k a) s1 b n2 d2) ->
  runs (bind m k) s b (n1 ++ n2) (delta_plus d1 d2).
Proof.
  intros (s1 & Hm & Hs1) Hk. destruct (Hk s1 Hs1) as (s2 & Hk2 & Hs2).
  exists s2. split; [by rewrite (bind_ok _ _ _ _ _ Hm)|].
  eapply step_trans; eauto.
Qed.

(** The same, for a first step that stages nothing and leaves the
    counters alone. *)
Lemma runs_bind_pure {A B} (m : M A) (k : A -> M B) s a b n d :
  runs m s a [] delta0 ->
  (forall s1, step s s1 [] delta0 -> runs (k a) s1 b n d) ->
  runs (bind m k) s b n d.
Proof.
  intros Hm Hk. pose proof (runs_bind m k s a b [] n delta0 d Hm Hk) as H.
  simpl in H. destruct H as (s' & H1 & H2). exists s'. split; [done|].
  destruct H2 as (G1 & G2 & G3 & G4 & G5 & G6).
  unfold step. repeat split; auto.
Qed.

Lemma runs_gets {A} (f : TXDB -> A) s : runs (gets f) s (f s) [] delta0.
Proof. exists s. split; [done|apply step_refl]. Qed.

Lemma runs_get k s : runs (get k) s (db s !! k) [] delta0.
Proof. apply (runs_gets (fun s => db s !! k)). Qed.

Lemma runs_has k s : runs (has k) s (bool_decide (is_Some (db s !! k))) [] delta0.
Proof. apply (runs_gets (fun s => bool_decide (is_Some (db s !! k)))). Qed.

Lemma runs_getPath addr s :
  runs (getPath addr) s (path_of (wpaths (env s)) addr) [] delta0.
Proof. apply (runs_gets (fun s => path_of (wpaths (env s)) addr)). Qed.

Lemma runs_put k v s :
  is_Some (current s) -> runs (put k v) s tt [(k, Some v)] delta0.
Proof.
  intros [ops Hc]. eexists. split; [by apply put_ok|].
  unfold step. simpl. rewrite Hc. repeat split; auto.
  destruct (pending s); simpl; [by rewrite apply_delta0|done].
Qed.

Lemma runs_del k s :
  is_Some (current s) -> runs (del k) s tt [(k, None)] delta0.
Proof.
  intros [ops Hc]. eexists. split; [by apply del_ok|].
  unfold step. simpl. rewrite Hc. repeat split; auto.
  destruct (pending s); simpl; [by rewrite apply_delta0|done].
Qed.

(** A change of the pending counters by [d]. *)
Lemma runs_update_pending (g : TXDBState -> TXDBState) d s :
  (forall p, g p = apply_delta d p) ->
  is_Some (pending s) -> runs (update_pending g) s tt [] d.
Proof.
  intros Hg [p Hp]. eexists. split.
  { unfold update_pending, bind, gets, modify. rewrite Hp. reflexivity. }
  unfold step. simpl. rewrite Hp. simpl. rewrite Hg. repeat split; auto.
  destruct (current s); simpl; [by rewrite app_nil_r|done].
Qed.

Lemma add_tx_delta n p : add_tx n p = apply_delta (mkDelta n 0 0 0 false) p.
Proof.
  unfold add_tx, apply_delta. simpl. by rewrite !Z.add_0_r, orb_false_r.
Qed.
Lemma add_coin_delta n p : add_coin n p = apply_delta (mkDelta 0 n 0 0 false) p.
Proof.
  unfold add_coin, apply_delta. simpl. by rewrite !Z.add_0_r, orb_false_r.
Qed.
Lemma add_unconfirmed_delta n p :
  add_unconfirmed n p = apply_delta (mkDelta 0 0 n 0 false) p.
Proof.
  unfold add_unconfirmed, apply_delta. simpl. by rewrite !Z.add_0_r, orb_false_r.
Qed.
Lemma add_confirmed_delta n p :
  add_confirmed n p = apply_delta (mkDelta 0 0 0 n false) p.
Proof.
  unfold add_confirmed, apply_delta. simpl. by rewrite !Z.add_0_r, orb_false_r.
Qed.
Lemma mark_committed_delta p :
  mark_committed p = apply_delta (mkDelta 0 0 0 0 true) p.
Proof.
  unfold mark_committed, apply_delta. simpl. by rewrite !Z.add_0_r, orb_true_r.
Qed.

(** Steps that only touch the cache's pending list, the event buffer
    or the locks. *)
Lemma runs_modify (f : TXDB -> TXDB) s :
  (forall s, db (f s) = db s /\ env (f s) = env s /\ state (f s) = state s /\
             current (f s) = current s /\ pending (f s) = pending s /\
             lru_items (coinCache (f s)) = lru_items (coinCache s)) ->
  runs (modify f) s tt [] delta0.
Proof.
  intros Hf. exists (f s). split; [done|].
  destruct (Hf s) as (H1 & H2 & H3 & H4 & H5 & H6).
  unfold step. repeat split; auto.
  - rewrite H4. destruct (current s); simpl; [by rewrite app_nil_r|done].
  - rewrite H5. destruct (pending s); simpl; [by rewrite apply_delta0|done].
  - intros Hc h i v Hl. rewrite H6 in Hl. rewrite H1. by apply Hc.
Qed.

Lemma runs_emit ev data details s : runs (emit ev data details) s tt [] delta0.
Proof. apply runs_modify. intros []. simpl. auto 10. Qed.

Lemma runs_cache_push k v s :
  runs (modify (set_coinCache (fun l => LRU_push l k v))) s tt [] delta0.
Proof. apply runs_modify. intros []. simpl. auto 10. Qed.

Lemma runs_cache_unpush k s :
  runs (modify (set_coinCache (fun l => LRU_unpush l k))) s tt [] delta0.
Proof. apply runs_modify. intros []. simpl. auto 10. Qed.

Lemma runs_unlock_inputs inputs s : runs (unlock_inputs inputs) s tt [] delta0.
Proof.
  revert s. induction inputs as [|i rest IH]; intros s; [apply runs_ret|].
  simpl. apply runs_bind_pure with (a := tt).
  - apply runs_modify. intros []. simpl. auto 10.
  - intros s1 _. apply IH.
Qed.

Lemma runs_unlockTX tx s : runs (unlockTX tx) s tt [] delta0.
Proof.
  unfold unlockTX. destruct (tx_coinbase tx);
    [apply runs_ret | apply runs_unlock_inputs].
Qed.

(** Reading a credit through a coherent cache gives what the store
    holds. *)
Lemma runs_getCredit h i s :
  cache_coherent s ->
  (forall v, db s !! Kc h i = Some v -> exists r sp, v = VCredit r sp) ->
  runs (getCredit h i) s
       (match credit_at (db s) (mkOutpoint h i) with
        | Some (r, sp) => Some (mkCredit (Coin_fromRaw r h i) sp)
        | None => None
        end) [] delta0.
Proof.
  intros Hcoh Hty. unfold runs, credit_at. simpl.
  unfold getCredit. unfold bind at 1. unfold gets at 1.
  destruct (LRU_get (coinCache s) (h, i)) as [data|] eqn:Ec.
  - pose proof (Hcoh h i data Ec) as Hl. destruct (Hty _ Hl) as (r & sp & ->).
    rewrite Hl. simpl. exists s. split; [done|apply step_refl].
  - unfold bind at 1. unfold get, gets at 1.
    destruct (db s !! Kc h i) as [v|] eqn:El.
    + destruct (Hty _ eq_refl) as (r & sp & ->). simpl.
      eexists. split; [reflexivity|].
      unfold step. simpl. repeat split; auto.
      * destruct (current s); simpl; [by rewrite app_nil_r|done].
      * destruct (pending s); simpl; [by rewrite apply_delta0|done].
      * intros _ h' i' v' Hl'. unfold LRU_set in Hl'. simpl in Hl'.
        destruct (decide ((h, i) = (h', i'))) as [[= <- <-]|Hne].
        -- rewrite lookup_insert_eq in Hl'. simpl. congruence.
        -- rewrite lookup_insert_ne in Hl' by done. simpl. by apply Hcoh.
    + exists s. split; [done|apply step_refl].
Qed.

(** ** The loops of insert *)

Lemma runs_conv {A} (m : M A) s a n n' d d' :
  runs m s a n d -> n = n' -> d = d' -> runs m s a n' d'.
Proof. by intros H <- <-. Qed.

Lemma delta_eq a b :
  d_tx a = d_tx b -> d_coin a = d_coin b ->
  d_unconfirmed a = d_unconfirmed b -> d_confirmed a = d_confirmed b ->
  d_commit a = d_commit b -> a = b.
Proof. destruct a, b. simpl. by intros -> -> -> -> ->. Qed.

Lemma delta_plus_0_l d : delta_plus delta0 d = d.
Proof. by destruct d. Qed.

Lemma delta_plus_0_r d : delta_plus d delta0 = d.
Proof.
  destruct d. unfold delta_plus. simpl.
  by rewrite !Z.add_0_r, orb_false_r.
Qed.

Lemma delta_plus_assoc a b c :
  delta_plus a (delta_plus b c) = delta_plus (delta_plus a b) c.
Proof.
  unfold delta_plus. simpl. by rewrite !Z.add_assoc, orb_assoc.
Qed.

(** What a step leaves in place. *)
Lemma step_keeps s s1 n d :
  step s s1 n d -> batch_open s -> cache_coherent s ->
  batch_open s1 /\ cache_coherent s1 /\ db s1 = db s /\ env s1 = env s.
Proof.
  intros Hs Hb Hc. split; [by eapply step_batch_open|].
  destruct Hs as (H1 & H2 & _ & _ & _ & H6). auto.
Qed.

Lemma runs_input_prevout tx i input s :
  tx_input tx i = Some input ->
  runs (input_prevout tx i) s (prevout input) [] delta0.
Proof. intros H. unfold input_prevout. rewrite H. apply runs_ret. Qed.

Lemma tx_input_of_nat tx i input :
  tx_inputs tx !! i = Some input -> tx_input tx (Z.of_nat i) = Some input.
Proof.
  intros H. unfold tx_input.
  destruct (Z.of_nat i <? 0) eqn:E; [apply Z.ltb_lt in E; lia|].
  by rewrite Nat2Z.id.
Qed.

Lemma tx_output_of_nat tx i output :
  tx_outputs tx !! i = Some output -> tx_output tx (Z.of_nat i) = Some output.
Proof.
  intros H. unfold tx_output.
  destruct (Z.of_nat i <? 0) eqn:E; [apply Z.ltb_lt in E; lia|].
  by rewrite Nat2Z.id.
Qed.

Lemma suffix_at_head {A} (whole : list A) i x l :
  suffix_at whole i (x :: l) -> whole !! i = Some x.
Proof. intros H. specialize (H 0%nat x eq_refl). by rewrite Nat.add_0_r in H. Qed.

Lemma suffix_at_tail {A} (whole : list A) i x l :
  suffix_at whole i (x :: l) -> suffix_at whole (S i) l.
Proof.
  intros H k y Hk. specialize (H (S k) y Hk).
  by replace (S i + k)%nat with (i + S k)%nat by lia.
Qed.

Lemma suffix_at_whole {A} (whole : list A) : suffix_at whole 0 whole.
Proof. by intros k x H. Qed.

Lemma runs_writeInput tx i input s :
  is_Some (current s) ->
  tx_inputs tx !! i = Some input ->
  runs (writeInput tx (Z.of_nat i)) s tt
       [(Ks (op_hash (prevout input)) (op_index (prevout input)),
         Some (VOutpoint (mkOutpoint (tx_hash tx) (Z.of_nat i))))] delta0.
Proof.
  intros Hc Hi. unfold writeInput.
  eapply runs_bind_pure.
  - apply runs_input_prevout. by apply tx_input_of_nat.
  - intros s1 Hs1. apply runs_put.
    destruct Hs1 as (_ & _ & _ & H4 & _). rewrite H4.
    destruct Hc as [ops ->]. simpl. eauto.
Qed.

Lemma step_current s s1 n d :
  step s s1 n d -> is_Some (current s) -> is_Some (current s1).
Proof. intros (_ & _ & _ & H4 & _) [ops Hc]. rewrite H4, Hc. simpl. eauto. Qed.

Lemma step_pending s s1 n d :
  step s s1 n d -> is_Some (pending s) -> is_Some (pending s1).
Proof. intros (_ & _ & _ & _ & H5 & _) [p Hp]. rewrite H5, Hp. simpl. eauto. Qed.

Lemma runs_spendCredit credit tx i input s :
  is_Some (current s) ->
  tx_inputs tx !! i = Some input ->
  runs (spendCredit credit tx (Z.of_nat i)) s tt
       [(Ks (op_hash (prevout input)) (op_index (prevout input)),
         Some (VOutpoint (mkOutpoint (tx_hash tx) (Z.of_nat i))));
        (Kd (tx_hash tx) (Z.of_nat i), Some (VCoin (Coin_toRaw (coin credit))))]
       delta0.
Proof.
  intros Hc Hi. unfold spendCredit.
  eapply runs_bind_pure.
  - apply runs_input_prevout. by apply tx_input_of_nat.
  - intros s1 Hs1. eapply runs_conv.
    + eapply runs_bind.
      * apply runs_put. by eapply step_current.
      * intros s2 Hs2. apply runs_put.
        eapply step_current; [exact Hs2|]. by eapply step_current.
    + reflexivity.
    + reflexivity.
Qed.

Lemma runs_saveCredit credit path s :
  is_Some (current s) ->
  runs (saveCredit credit path) s tt
       [(Kc (coin_hash (coin credit)) (coin_index (coin credit)),
         Some (Credit_toRaw credit));
        (KC (account path) (coin_hash (coin credit)) (coin_index (coin credit)),
         Some DUMMY)] delta0.
Proof.
  intros Hc. unfold saveCredit. eapply runs_conv.
  - eapply runs_bind; [by apply runs_put|].
    intros s1 Hs1. eapply runs_bind.
    + apply runs_put. by eapply step_current.
    + intros s2 Hs2. apply runs_cache_push.
  - reflexivity.
  - reflexivity.
Qed.

Lemma runs_removeCredit credit path s :
  is_Some (current s) ->
  runs (removeCredit credit path) s tt
       [(Kc (coin_hash (coin credit)) (coin_index (coin credit)), None);
        (KC (account path) (coin_hash (coin credit)) (coin_index (coin credit)),
         None)] delta0.
Proof.
  intros Hc. unfold removeCredit. eapply runs_conv.
  - eapply runs_bind; [by apply runs_del|].
    intros s1 Hs1. eapply runs_bind.
    + apply runs_del. by eapply step_current.
    + intros s2 Hs2. apply runs_cache_unpush.
  - reflexivity.
  - reflexivity.
Qed.

Lemma Coin_toRaw_fromRaw r h i : Coin_toRaw (Coin_fromRaw r h i) = r.
Proof. by destruct r. Qed.

Lemma credit_at_outpoint m p :
  credit_at m (mkOutpoint (op_hash p) (op_index p)) = credit_at m p.
Proof. reflexivity. Qed.

Lemma insert_inputs_runs tx inputs :
  forall i details updated s,
  batch_open s -> cache_coherent s ->
  inputs_ok (db s) (wpaths (env s)) inputs ->
  suffix_at (tx_inputs tx) i inputs ->
  runs (insert_inputs tx i inputs details updated) s
       (insert_inputs_details (db s) (wpaths (env s)) i inputs details,
        insert_inputs_updated (db s) inputs updated)
       (insert_inputs_ops (db s) (wpaths (env s)) tx i inputs)
       (insert_inputs_delta (db s) tx inputs).
Proof.
  induction inputs as [|input rest IH]; intros i details updated s Hb Hcoh Hok Hsuf.
  { simpl. unfold insert_inputs_updated. simpl. rewrite orb_false_r.
    apply runs_ret. }
  pose proof (suffix_at_head _ _ _ _ Hsuf) as Hi.
  pose proof (suffix_at_tail _ _ _ _ Hsuf) as Hsuf'.
  assert (Hok' : inputs_ok (db s) (wpaths (env s)) rest).
  { intros x v Hx. apply Hok. by apply elem_of_cons; right. }
  assert (Hty : forall v,
             db s !! Kc (op_hash (prevout input)) (op_index (prevout input)) = Some v ->
             exists r sp, v = VCredit r sp).
  { intros v Hv. destruct (Hok input v (list_elem_of_here _ _) Hv) as (r & sp & _ & -> & _).
    eauto. }
  pose proof (runs_getCredit _ _ s Hcoh Hty) as Hg.
  rewrite credit_at_outpoint in Hg.
  simpl. unfold insert_inputs_updated, insert_input_ops, insert_input_delta,
    insert_input_details. simpl.
  destruct (credit_at (db s) (prevout input)) as [[r sp]|] eqn:Ecr.
  - (* the input spends a stored credit *)
    assert (Hpath : exists path, path_of (wpaths (env s)) (cr_address r) = Some path).
    { unfold credit_at in Ecr.
      destruct (db s !! Kc (op_hash (prevout input)) (op_index (prevout input)))
        as [v|] eqn:Ev; [|done].
      destruct (Hok input v (list_elem_of_here _ _) Ev) as (r' & sp' & path & -> & Hp).
      injection Ecr as <- <-. eauto. }
    destruct Hpath as [path Hpath]. rewrite Hpath.
    rewrite bool_decide_eq_true_2 by eauto. rewrite orb_true_r.
    destruct (tx_height tx =? -1) eqn:Eh.
    + eapply runs_conv.
      * eapply runs_bind_pure; [exact Hg|]. intros s1 Hs1.
        destruct (step_keeps _ _ _ _ Hs1 Hb Hcoh) as (Hb1 & Hc1 & Hdb1 & Henv1).
        eapply runs_bind_pure; [apply runs_getPath|]. intros s2 Hs2.
        destruct (step_keeps _ _ _ _ Hs2 Hb1 Hc1) as (Hb2 & Hc2 & Hdb2 & Henv2).
        simpl. rewrite Henv1, Hpath.
        eapply runs_bind.
        { apply runs_spendCredit; [apply Hb2|exact Hi]. }
        intros s3 Hs3.
        destruct (step_keeps _ _ _ _ Hs3 Hb2 Hc2) as (Hb3 & Hc3 & Hdb3 & Henv3).
        eapply runs_bind.
        { apply (runs_update_pending _ _ _ (add_coin_delta (-1))). apply Hb3. }
        intros s4 Hs4.
        destruct (step_keeps _ _ _ _ Hs4 Hb3 Hc3) as (Hb4 & Hc4 & Hdb4 & Henv4).
        eapply runs_bind.
        { apply (runs_update_pending _ _ _ (add_unconfirmed_delta _)). apply Hb4. }
        intros s5 Hs5.
        destruct (step_keeps _ _ _ _ Hs5 Hb4 Hc4) as (Hb5 & Hc5 & Hdb5 & Henv5).
        eapply runs_bind.
        { apply runs_saveCredit. apply Hb5. }
        intros s6 Hs6.
        destruct (step_keeps _ _ _ _ Hs6 Hb5 Hc5) as (Hb6 & Hc6 & Hdb6 & Henv6).
        assert (Edb : db s6 = db s) by congruence.
        assert (Eenv : env s6 = env s) by congruence.
        pose proof (IH (S i) (Details_setInput details i (Some path)
                                (Some (Coin_fromRaw r (op_hash (prevout input))
                                                    (op_index (prevout input)))))
                       true s6 Hb6 Hc6) as IH'.
        rewrite Edb, Eenv in IH'. apply IH'; assumption.
      * simpl. unfold Credit_toRaw. simpl. by rewrite ?Coin_toRaw_fromRaw.
      * unfold insert_inputs_updated. simpl.
        apply delta_eq; simpl; try lia; reflexivity.
    + eapply runs_conv.
      * eapply runs_bind_pure; [exact Hg|]. intros s1 Hs1.
        destruct (step_keeps _ _ _ _ Hs1 Hb Hcoh) as (Hb1 & Hc1 & Hdb1 & Henv1).
        eapply runs_bind_pure; [apply runs_getPath|]. intros s2 Hs2.
        destruct (step_keeps _ _ _ _ Hs2 Hb1 Hc1) as (Hb2 & Hc2 & Hdb2 & Henv2).
        simpl. rewrite Henv1, Hpath.
        eapply runs_bind.
        { apply runs_spendCredit; [apply Hb2|exact Hi]. }
        intros s3 Hs3.
        destruct (step_keeps _ _ _ _ Hs3 Hb2 Hc2) as (Hb3 & Hc3 & Hdb3 & Henv3).
        eapply runs_bind.
        { apply (runs_update_pending _ _ _ (add_coin_delta (-1))). apply Hb3. }
        intros s4 Hs4.
        destruct (step_keeps _ _ _ _ Hs4 Hb3 Hc3) as (Hb4 & Hc4 & Hdb4 & Henv4).
        eapply runs_bind.
        { apply (runs_update_pending _ _ _ (add_unconfirmed_delta _)). apply Hb4. }
        intros s5 Hs5.
        destruct (step_keeps _ _ _ _ Hs5 Hb4 Hc4) as (Hb5 & Hc5 & Hdb5 & Henv5).
        eapply runs_bind.
        { eapply runs_bind.
          - apply (runs_update_pending _ _ _ (add_confirmed_delta _)). apply Hb5.
          - intros s6 Hs6. apply runs_removeCredit.
            eapply step_current; [exact Hs6|apply Hb5]. }
        intros s6 Hs6.
        destruct (step_keeps _ _ _ _ Hs6 Hb5 Hc5) as (Hb6 & Hc6 & Hdb6 & Henv6).
        assert (Edb : db s6 = db s) by congruence.
        assert (Eenv : env s6 = env s) by congruence.
        pose proof (IH (S i) (Details_setInput details i (Some path)
                                (Some (Coin_fromRaw r (op_hash (prevout input))
                                                    (op_index (prevout input)))))
                       true s6 Hb6 Hc6) as IH'.
        rewrite Edb, Eenv in IH'. apply IH'; assumption.
      * simpl. unfold Credit_toRaw. simpl. by rewrite ?Coin_toRaw_fromRaw.
      * unfold insert_inputs_updated. simpl.
        apply delta_eq; simpl; try lia; reflexivity.
  - (* the previous output is unknown *)
    eapply runs_conv.
    + eapply runs_bind_pure; [exact Hg|]. intros s1 Hs1.
      destruct (step_keeps _ _ _ _ Hs1 Hb Hcoh) as (Hb1 & Hc1 & Hdb1 & Henv1).
      eapply runs_bind.
      { apply runs_writeInput; [apply Hb1|exact Hi]. }
      intros s2 Hs2.
      destruct (step_keeps _ _ _ _ Hs2 Hb1 Hc1) as (Hb2 & Hc2 & Hdb2 & Henv2).
      assert (Edb : db s2 = db s) by congruence.
      assert (Eenv : env s2 = env s) by congruence.
      pose proof (IH (S i) details updated s2 Hb2 Hc2) as IH'.
      rewrite Edb, Eenv in IH'. apply IH'; assumption.
    + reflexivity.
    + rewrite delta_plus_0_l. reflexivity.
Qed.

Lemma step_open s s1 n d :
  step s s1 n d -> batch_open s ->
  batch_open s1 /\ db s1 = db s /\ env s1 = env s.
Proof.
  intros Hs Hb. split; [by eapply step_batch_open|].
  destruct Hs as (H1 & H2 & _). auto.
Qed.

Lemma runs_resolveInput_unspent tx i path s :
  db s !! Ks (tx_hash tx) i = None ->
  runs (resolveInput tx i path) s false [] delta0.
Proof.
  intros H. unfold resolveInput. exists s. split; [|apply step_refl].
  by rewrite (bind_ok _ _ _ _ _ (getSpent_None _ _ _ H)).
Qed.

Lemma Credit_fromTX_of_nat tx i output :
  tx_outputs tx !! i = Some output ->
  Credit_fromTX tx (Z.of_nat i)
  = Some (mkCredit (mkCoin (tx_height tx) (out_value output) (out_address output)
                           (tx_coinbase tx) (tx_hash tx) (Z.of_nat i)) false).
Proof.
  intros H. unfold Credit_fromTX. by rewrite (tx_output_of_nat _ _ _ H).
Qed.

Lemma insert_outputs_runs tx outputs :
  forall i details updated s,
  batch_open s ->
  (forall k, db s !! Ks (tx_hash tx) k = None) ->
  suffix_at (tx_outputs tx) i outputs ->
  runs (insert_outputs tx i outputs details updated) s
       (outputs_details (wpaths (env s)) i outputs details,
        outputs_updated (wpaths (env s)) outputs updated)
       (insert_outputs_ops (wpaths (env s)) tx i outputs)
       (insert_outputs_delta (wpaths (env s)) tx outputs).
Proof.
  induction outputs as [|output rest IH]; intros i details updated s Hb Hfree Hsuf.
  { simpl. unfold outputs_updated. simpl. rewrite orb_false_r. apply runs_ret. }
  pose proof (suffix_at_head _ _ _ _ Hsuf) as Hi.
  pose proof (suffix_at_tail _ _ _ _ Hsuf) as Hsuf'.
  simpl. unfold outputs_updated, insert_output_ops, insert_output_delta. simpl.
  destruct (path_of (wpaths (env s)) (out_address output)) as [path|] eqn:Ep.
  - rewrite bool_decide_eq_true_2 by eauto. rewrite orb_true_r.
    destruct (tx_height tx =? -1) eqn:Eh.
    + eapply runs_conv.
      * eapply runs_bind_pure; [apply runs_getPath|]. intros s1 Hs1.
        destruct (step_open _ _ _ _ Hs1 Hb) as (Hb1 & Hdb1 & Henv1).
        rewrite Ep. simpl.
        eapply runs_bind_pure.
        { apply runs_resolveInput_unspent. rewrite Hdb1. apply Hfree. }
        intros s2 Hs2.
        destruct (step_open _ _ _ _ Hs2 Hb1) as (Hb2 & Hdb2 & Henv2).
        simpl. rewrite (Credit_fromTX_of_nat _ _ _ Hi).
        eapply runs_bind.
        { apply (runs_update_pending _ _ _ (add_coin_delta 1)). apply Hb2. }
        intros s3 Hs3.
        destruct (step_open _ _ _ _ Hs3 Hb2) as (Hb3 & Hdb3 & Henv3).
        eapply runs_bind.
        { apply (runs_update_pending _ _ _ (add_unconfirmed_delta _)). apply Hb3. }
        intros s4 Hs4.
        destruct (step_open _ _ _ _ Hs4 Hb3) as (Hb4 & Hdb4 & Henv4).
        eapply runs_bind_pure; [apply runs_ret|].
        intros s5 Hs5.
        destruct (step_open _ _ _ _ Hs5 Hb4) as (Hb5 & Hdb5 & Henv5).
        eapply runs_bind.
        { apply runs_saveCredit. apply Hb5. }
        intros s6 Hs6.
        destruct (step_open _ _ _ _ Hs6 Hb5) as (Hb6 & Hdb6 & Henv6).
        assert (Eenv : env s6 = env s) by congruence.
        pose proof (IH (S i) (Details_setOutput details i (Some path)) true s6 Hb6)
          as IH'.
        rewrite Eenv in IH'. apply IH'; [|assumption].
        intros k. replace (db s6) with (db s) by congruence. apply Hfree.
      * reflexivity.
      * apply delta_eq; simpl; try lia; reflexivity.
    + eapply runs_conv.
      * eapply runs_bind_pure; [apply runs_getPath|]. intros s1 Hs1.
        destruct (step_open _ _ _ _ Hs1 Hb) as (Hb1 & Hdb1 & Henv1).
        rewrite Ep. simpl.
        eapply runs_bind_pure.
        { apply runs_resolveInput_unspent. rewrite Hdb1. apply Hfree. }
        intros s2 Hs2.
        destruct (step_open _ _ _ _ Hs2 Hb1) as (Hb2 & Hdb2 & Henv2).
        simpl. rewrite (Credit_fromTX_of_nat _ _ _ Hi).
        eapply runs_bind.
        { apply (runs_update_pending _ _ _ (add_coin_delta 1)). apply Hb2. }
        intros s3 Hs3.
        destruct (step_open _ _ _ _ Hs3 Hb2) as (Hb3 & Hdb3 & Henv3).
        eapply runs_bind.
        { apply (runs_update_pending _ _ _ (add_unconfirmed_delta _)). apply Hb3. }
        intros s4 Hs4.
        destruct (step_open _ _ _ _ Hs4 Hb3) as (Hb4 & Hdb4 & Henv4).
        eapply runs_bind.
        { apply (runs_update_pending _ _ _ (add_confirmed_delta _)). apply Hb4. }
        intros s5 Hs5.
        destruct (step_open _ _ _ _ Hs5 Hb4) as (Hb5 & Hdb5 & Henv5).
        eapply runs_bind.
        { apply runs_saveCredit. apply Hb5. }
        intros s6 Hs6.
        destruct (step_open _ _ _ _ Hs6 Hb5) as (Hb6 & Hdb6 & Henv6).
        assert (Eenv : env s6 = env s) by congruence.
        pose proof (IH (S i) (Details_setOutput details i (Some path)) true s6 Hb6)
          as IH'.
        rewrite Eenv in IH'. apply IH'; [|assumption].
        intros k. replace (db s6) with (db s) by congruence. apply Hfree.
      * reflexivity.
      * apply delta_eq; simpl; try lia; reflexivity.
  - rewrite bool_decide_eq_false_2 by (intros [? ?]; done). simpl.
    eapply runs_conv.
    + eapply runs_bind_pure; [apply runs_getPath|]. intros s1 Hs1.
      destruct (step_open _ _ _ _ Hs1 Hb) as (Hb1 & Hdb1 & Henv1).
      rewrite Ep.
      pose proof (IH (S i) details updated s1 Hb1) as IH'.
      rewrite Henv1 in IH'. apply IH'; [|assumption].
      intros k. rewrite Hdb1. apply Hfree.
    + reflexivity.
    + by rewrite delta_plus_0_l.
Qed.

Lemma step_pending_val s s1 n d p :
  step s s1 n d -> pending s = Some p -> pending s1 = Some (apply_delta d p).
Proof. intros (_ & _ & _ & _ & H5 & _) Hp. by rewrite H5, Hp. Qed.

Lemma index_accounts_runs tx accounts :
  forall s, is_Some (current s) ->
  runs (index_accounts tx accounts) s tt (index_ops tx accounts) delta0.
Proof.
  induction accounts as [|a rest IH]; intros s Hc; [apply runs_ret|].
  simpl. eapply runs_conv.
  - eapply runs_bind; [by apply runs_put|]. intros s1 Hs1.
    pose proof (step_current _ _ _ _ Hs1 Hc) as Hc1.
    eapply runs_bind; [by apply runs_put|]. intros s2 Hs2.
    pose proof (step_current _ _ _ _ Hs2 Hc1) as Hc2.
    eapply runs_bind.
    { instantiate (2 := [if tx_height tx =? -1 then _ else _]).
      destruct (tx_height tx =? -1); by apply runs_put. }
    intros s3 Hs3. apply IH. by eapply step_current.
  - reflexivity.
  - reflexivity.
Qed.

Lemma getBlock_typed s height :
  (forall v, db s !! Kb height = Some v -> exists b, v = VBlock b) ->
  getBlock height s
  = (Ok (match db s !! Kb height with Some (VBlock b) => Some b | _ => None end), s).
Proof.
  intros Hty. unfold getBlock, bind, get, gets.
  destruct (db s !! Kb height) as [v|]; [|done].
  by destruct (Hty v eq_refl) as [b ->].
Qed.

Lemma addBlock_runs tx block s :
  is_Some (current s) ->
  (forall v, db s !! Kb (tx_height tx) = Some v -> exists b, v = VBlock b) ->
  runs (addBlock tx block) s tt (addBlock_ops (db s) tx) delta0.
Proof.
  intros Hc Hty. unfold addBlock, addBlock_ops.
  eapply runs_bind_pure.
  { exists s. split; [by apply getBlock_typed|apply step_refl]. }
  intros s1 Hs1. pose proof (step_current _ _ _ _ Hs1 Hc) as Hc1.
  destruct (db s !! Kb (tx_height tx)) as [v|] eqn:E.
  - destruct (Hty v eq_refl) as [b ->].
    destruct (BlockRecord_add b (tx_hash tx)); [by apply runs_put|apply runs_ret].
  - unfold BlockRecord_add. simpl. by apply runs_put.
Qed.

Lemma commit_state_runs s p :
  is_Some (current s) -> pending s = Some p ->
  runs commit_state s tt
       [(KR, Some (TXDBState_toRaw (mark_committed p)))]
       (mkDelta 0 0 0 0 true).
Proof.
  intros Hc Hp. unfold commit_state. eapply runs_conv.
  - eapply runs_bind.
    { apply (runs_update_pending _ _ _ mark_committed_delta). rewrite Hp. eauto. }
    intros s1 Hs1. pose proof (step_current _ _ _ _ Hs1 Hc) as Hc1.
    pose proof (step_pending_val _ _ _ _ _ Hs1 Hp) as Hp1.
    eapply runs_bind_pure; [apply (runs_gets pending)|].
    intros s2 Hs2. rewrite Hp1.
    apply runs_put. by eapply step_current.
  - simpl. by rewrite <- mark_committed_delta.
  - reflexivity.
Qed.

Lemma toRaw_commit_tx n d p :
  TXDBState_toRaw
    (mark_committed (apply_delta (mkDelta n 0 0 0 false) (apply_delta d p)))
  = TXDBState_toRaw (apply_delta (delta_plus d (mkDelta n 0 0 0 true)) p).
Proof.
  unfold TXDBState_toRaw, mark_committed, apply_delta, delta_plus. simpl.
  f_equal; lia.
Qed.

(** The two loops of [insert]. *)
Lemma insert_body_runs tx s :
  batch_open s -> cache_coherent s ->
  inputs_ok (db s) (wpaths (env s)) (tx_inputs tx) ->
  (forall k, db s !! Ks (tx_hash tx) k = None) ->
  runs (r <- (if negb (tx_coinbase tx)
              then insert_inputs tx 0 (tx_inputs tx) (Details_new tx) false
              else ret (Details_new tx, false)) ;;
        insert_outputs tx 0 (tx_outputs tx) r.1 r.2) s
       (insert_details (db s) (wpaths (env s)) tx,
        insert_touches (db s) (wpaths (env s)) tx)
       (insert_body_ops (db s) (wpaths (env s)) tx)
       (insert_body_delta (db s) (wpaths (env s)) tx).
Proof.
  intros Hb Hcoh Hok Hfree.
  unfold insert_details, insert_touches, insert_body_ops, insert_body_delta.
  destruct (tx_coinbase tx); simpl.
  - eapply runs_conv.
    + eapply runs_bind_pure; [apply runs_ret|]. intros s1 Hs1.
      destruct (step_open _ _ _ _ Hs1 Hb) as (Hb1 & Hdb1 & Henv1).
      pose proof (insert_outputs_runs tx (tx_outputs tx) 0 (Details_new tx) false
                    s1 Hb1) as H.
      rewrite Henv1 in H. apply H; [|apply suffix_at_whole].
      intros k. rewrite Hdb1. apply Hfree.
    + reflexivity.
    + by rewrite delta_plus_0_l.
  - eapply runs_bind.
    + apply insert_inputs_runs; auto. apply suffix_at_whole.
    + intros s1 Hs1.
      destruct (step_open _ _ _ _ Hs1 Hb) as (Hb1 & Hdb1 & Henv1).
      pose proof (insert_outputs_runs tx (tx_outputs tx) 0
                    (insert_inputs_details (db s) (wpaths (env s)) 0
                       (tx_inputs tx) (Details_new tx))
                    (insert_inputs_updated (db s) (tx_inputs tx) false)
                    s1 Hb1) as H.
      rewrite Henv1 in H. apply H; [|apply suffix_at_whole].
      intros k. rewrite Hdb1. apply Hfree.
Qed.

Lemma bind_assoc {A B C} (m : M A) (k : A -> M B) (h : B -> M C) s :
  bind (bind m k) h s = bind m (fun a => bind (k a) h) s.
Proof. unfold bind. by destruct (m s) as [[a| |] s1]. Qed.

(** [insert] on a transaction that touches the wallet. *)
Lemma insert_runs tx block s p :
  batch_open s -> cache_coherent s -> pending s = Some p ->
  inputs_ok (db s) (wpaths (env s)) (tx_inputs tx) ->
  (forall k, db s !! Ks (tx_hash tx) k = None) ->
  (forall v, db s !! Kb (tx_height tx) = Some v -> exists b, v = VBlock b) ->
  insert_touches (db s) (wpaths (env s)) tx = true ->
  runs (insert tx block) s
       (Some (insert_details (db s) (wpaths (env s)) tx))
       (insert_ops (db s) (wpaths (env s)) tx p)
       (insert_delta (db s) (wpaths (env s)) tx).
Proof.
  intros Hb Hcoh Hp Hok Hfree Hblk Htouch.
  pose proof (insert_body_runs tx s Hb Hcoh Hok Hfree) as Hbody.
  unfold insert.
  assert (E : forall st,
    (r <- (if negb (tx_coinbase tx)
           then insert_inputs tx 0 (tx_inputs tx) (Details_new tx) false
           else ret (Details_new tx, false)) ;;
     r0 <- insert_outputs tx 0 (tx_outputs tx) r.1 r.2 ;;
     (fun r0 : Details * bool =>
        if negb r0.2 then clear ;; ret None
        else
          put (Kt (tx_hash tx)) (TX_toExtended tx) ;;
          put (Km (tx_ps tx) (tx_hash tx)) DUMMY ;;
          (if tx_height tx =? -1 then put (Kp (tx_hash tx)) DUMMY
           else put (Kh (tx_height tx) (tx_hash tx)) DUMMY) ;;
          index_accounts tx (dt_accounts r0.1) ;;
          (if negb (tx_height tx =? -1) then addBlock tx block else ret tt) ;;
          update_pending (add_tx 1) ;;
          commit_state ;;
          unlockTX tx ;;
          emit "tx" (EvTX tx) r0.1 ;;
          p <- gets pending ;;
          match p with
          | None => throw "TypeError"
          | Some p =>
              emit "balance" (EvBalance (TXDBState_toBalance p)) r0.1 ;;
              ret (Some r0.1)
          end) r0) st
    = (r0 <- (r <- (if negb (tx_coinbase tx)
                    then insert_inputs tx 0 (tx_inputs tx) (Details_new tx) false
                    else ret (Details_new tx, false)) ;;
              insert_outputs tx 0 (tx_outputs tx) r.1 r.2) ;;
       (fun r0 : Details * bool =>
        if negb r0.2 then clear ;; ret None
        else
          put (Kt (tx_hash tx)) (TX_toExtended tx) ;;
          put (Km (tx_ps tx) (tx_hash tx)) DUMMY ;;
          (if tx_height tx =? -1 then put (Kp (tx_hash tx)) DUMMY
           else put (Kh (tx_height tx) (tx_hash tx)) DUMMY) ;;
          index_accounts tx (dt_accounts r0.1) ;;
          (if negb (tx_height tx =? -1) then addBlock tx block else ret tt) ;;
          update_pending (add_tx 1) ;;
          commit_state ;;
          unlockTX tx ;;
          emit "tx" (EvTX tx) r0.1 ;;
          p <- gets pending ;;
          match p with
          | None => throw "TypeError"
          | Some p =>
              emit "balance" (EvBalance (TXDBState_toBalance p)) r0.1 ;;
              ret (Some r0.1)
          end) r0) st).
  { intros st. symmetry. apply bind_assoc. }
  unfold runs. rewrite E. fold (runs (A := option Details)).
  clear E. eapply runs_conv.
  - eapply runs_bind; [exact Hbody|]. intros s1 Hs1.
    destruct (step_open _ _ _ _ Hs1 Hb) as (Hb1 & Hdb1 & Henv1).
    pose proof (step_pending_val _ _ _ _ _ Hs1 Hp) as Hp1.
    simpl. rewrite Htouch. simpl.
    eapply runs_bind; [apply runs_put; apply Hb1|]. intros s2 Hs2.
    destruct (step_open _ _ _ _ Hs2 Hb1) as (Hb2 & Hdb2 & Henv2).
    pose proof (step_pending_val _ _ _ _ _ Hs2 Hp1) as Hp2.
    eapply runs_bind; [apply runs_put; apply Hb2|]. intros s3 Hs3.
    destruct (step_open _ _ _ _ Hs3 Hb2) as (Hb3 & Hdb3 & Henv3).
    pose proof (step_pending_val _ _ _ _ _ Hs3 Hp2) as Hp3.
    eapply runs_bind.
    { instantiate (2 := [if tx_height tx =? -1 then _ else _]).
      destruct (tx_height tx =? -1); apply runs_put; apply Hb3. }
    intros s4 Hs4.
    destruct (step_open _ _ _ _ Hs4 Hb3) as (Hb4 & Hdb4 & Henv4).
    pose proof (step_pending_val _ _ _ _ _ Hs4 Hp3) as Hp4.
    eapply runs_bind; [apply index_accounts_runs; apply Hb4|]. intros s5 Hs5.
    destruct (step_open _ _ _ _ Hs5 Hb4) as (Hb5 & Hdb5 & Henv5).
    pose proof (step_pending_val _ _ _ _ _ Hs5 Hp4) as Hp5.
    eapply runs_bind.
    { instantiate (2 := if tx_height tx =? -1 then [] else addBlock_ops (db s) tx).
      instantiate (1 := delta0).
      destruct (tx_height tx =? -1) eqn:Eh; simpl; [apply runs_ret|].
      replace (db s) with (db s5) by congruence.
      apply addBlock_runs; [apply Hb5|].
      replace (db s5) with (db s) by congruence. exact Hblk. }
    intros s6 Hs6.
    destruct (step_open _ _ _ _ Hs6 Hb5) as (Hb6 & Hdb6 & Henv6).
    pose proof (step_pending_val _ _ _ _ _ Hs6 Hp5) as Hp6.
    eapply runs_bind.
    { apply (runs_update_pending _ _ _ (add_tx_delta 1)). apply Hb6. }
    intros s7 Hs7.
    destruct (step_open _ _ _ _ Hs7 Hb6) as (Hb7 & Hdb7 & Henv7).
    pose proof (step_pending_val _ _ _ _ _ Hs7 Hp6) as Hp7.
    eapply runs_bind; [apply (commit_state_runs _ _ (proj1 Hb7) Hp7)|].
    intros s8 Hs8.
    destruct (step_open _ _ _ _ Hs8 Hb7) as (Hb8 & Hdb8 & Henv8).
    pose proof (step_pending_val _ _ _ _ _ Hs8 Hp7) as Hp8.
    eapply runs_bind_pure; [apply runs_unlockTX|]. intros s9 Hs9.
    pose proof (step_pending_val _ _ _ _ _ Hs9 Hp8) as Hp9.
    eapply runs_bind_pure; [apply runs_emit|]. intros s10 Hs10.
    pose proof (step_pending_val _ _ _ _ _ Hs10 Hp9) as Hp10.
    eapply runs_bind_pure; [apply (runs_gets pending)|]. intros s11 Hs11.
    rewrite Hp10.
    eapply runs_bind_pure; [apply runs_emit|]. intros s12 Hs12.
    apply runs_ret.
  - unfold insert_ops. simpl.
    by rewrite !apply_delta0, toRaw_commit_tx.
  - unfold insert_delta. simpl.
    rewrite ?delta_plus_0_l, ?delta_plus_0_r.
    apply delta_eq; simpl; try lia.
Qed.

(** ** add of a transaction that is inserted *)

Lemma isRBF_inputs_false s inputs :
  (forall input, input ∈ inputs -> db s !! Kr (op_hash (prevout input)) = None) ->
  isRBF_inputs inputs s = (Ok false, s).
Proof.
  induction inputs as [|i rest IH]; intros H; [done|].
  simpl. unfold bind, has, gets.
  rewrite (H i (list_elem_of_here _ _)).
  rewrite bool_decide_eq_false_2 by (intros [? ?]; done).
  apply IH. intros x Hx. apply H. by apply elem_of_cons; right.
Qed.

Lemma isRBF_false s tx : ~ rbf_tainted (db s) tx -> isRBF tx s = (Ok false, s).
Proof.
  intros H. unfold isRBF.
  destruct (tx_rbf tx) eqn:E; [exfalso; apply H; by left|].
  apply isRBF_inputs_false. intros input Hin.
  destruct (db s !! Kr (op_hash (prevout input))) eqn:E'; [|done].
  exfalso. apply H. right. exists input. split; [done|]. rewrite E'. eauto.
Qed.

Lemma removeConflicts_none fuel tx conf s :
  no_conflicts (db s) tx -> removeConflicts fuel tx conf s = (Ok true, s).
Proof.
  intros H.
  destruct (removeConflicts_confirmed_spender fuel tx s) as [_ H2].
  apply H2. intros input v Hin Hv. rewrite (H input Hin) in Hv. discriminate.
Qed.

Lemma commit_ok s ops p :
  current s = Some ops -> pending s = Some p -> st_committed p = true ->
  exists s', commit s = (Ok tt, s') /\
             db s' = apply_ops ops (db s) /\ state s' = p /\
             env s' = env s /\ quiescent s'.
Proof.
  intros Hc Hp Hcm. destruct s as [e d c st pe ev cc lk o ct t].
  simpl in *. subst. eexists. split.
  { unfold commit, wallet_commit, bind, gets, modify. simpl. rewrite Hcm.
    reflexivity. }
  simpl. repeat split; reflexivity.
Qed.

Lemma started_open s : batch_open (started s).
Proof. split; simpl; eauto. Qed.

Lemma started_coherent s : cache_coherent s -> cache_coherent (started s).
Proof. intros H h i v Hl. apply H. exact Hl. Qed.

(** [add] of a transaction that is not indexed, is not ignored as
    replace-by-fee, conflicts with nothing and touches the wallet:
    it is inserted, and the commit flushes what [insert] staged. *)
Lemma add_inserts fuel tx block s :
  quiescent s -> cache_coherent s ->
  tx_mutable tx = false ->
  db s !! Kt (tx_hash tx) = None ->
  (tx_height tx = -1 -> ~ rbf_tainted (db s) tx) ->
  no_conflicts (db s) tx ->
  inputs_ok (db s) (wpaths (env s)) (tx_inputs tx) ->
  (forall k, db s !! Ks (tx_hash tx) k = None) ->
  (forall v, db s !! Kb (tx_height tx) = Some v -> exists b, v = VBlock b) ->
  insert_touches (db s) (wpaths (env s)) tx = true ->
  exists s',
    add fuel tx block s
    = (Ok (Some (insert_details (db s) (wpaths (env s)) tx)), s') /\
    db s' = apply_ops
              (add_ops (db s) (wpaths (env s)) tx (TXDBState_clone (state s)))
              (db s) /\
    state s' = apply_delta (insert_delta (db s) (wpaths (env s)) tx)
                           (TXDBState_clone (state s)) /\
    env s' = env s /\ quiescent s'.
Proof.
  intros Hq Hcoh Hm Hl Hrbf Hnc Hok Hfree Hblk Htouch.
  set (s0 := started s).
  assert (Hl0 : db s0 !! Kt (tx_hash tx) = None) by exact Hl.
  (* the state in which insert starts, and what is staged before it *)
  assert (Hpre : exists s1,
     step s0 s1 (if tx_height tx =? -1 then [] else [(Kr (tx_hash tx), None)])
          delta0 /\
     forall st, _add fuel tx block s0 = st ->
                st = insert tx block s1).
  { destruct (tx_height tx =? -1) eqn:Eh.
    - exists s0. split; [apply step_refl|]. intros st <-.
      unfold _add. rewrite (bind_ok _ _ _ _ _ (getTX_None _ _ Hl0)).
      rewrite Hm. simpl. unfold bind at 1. simpl. rewrite Eh.
      apply Z.eqb_eq in Eh.
      rewrite (bind_ok _ _ _ _ _ (isRBF_false s0 tx (Hrbf Eh))).
      by rewrite (bind_ok _ _ _ _ _ (removeConflicts_none fuel tx true s0 Hnc)).
    - destruct (runs_del (Kr (tx_hash tx)) s0 (proj1 (started_open s)))
        as (s1 & Hdel & Hs1).
      exists s1. split; [exact Hs1|]. intros st <-.
      unfold _add. rewrite (bind_ok _ _ _ _ _ (getTX_None _ _ Hl0)).
      rewrite Hm. simpl. unfold bind at 1. simpl. rewrite Eh.
      rewrite (bind_ok _ _ _ _ _ (removeConflicts_none fuel tx false s0 Hnc)).
      by rewrite (bind_ok _ _ _ _ _ Hdel). }
  destruct Hpre as (s1 & Hs1 & Hadd). specialize (Hadd _ eq_refl).
  destruct (step_keeps _ _ _ _ Hs1 (started_open s) (started_coherent s Hcoh))
    as (Hb1 & Hc1 & Hdb1 & Henv1).
  assert (Hp1 : pending s1 = Some (TXDBState_clone (state s))).
  { rewrite (step_pending_val _ _ _ _ _ Hs1 eq_refl). by rewrite apply_delta0. }
  assert (Edb : db s1 = db s) by exact Hdb1.
  assert (Eenv : env s1 = env s) by exact Henv1.
  destruct (insert_runs tx block s1 (TXDBState_clone (state s)) Hb1 Hc1 Hp1)
    as (s2 & Hins & Hs2); try (rewrite ?Edb, ?Eenv; assumption).
  rewrite Edb, Eenv in Hins, Hs2.
  pose proof (step_trans _ _ _ _ _ _ _ Hs1 Hs2) as Hs02.
  destruct Hs02 as (G1 & G2 & G3 & G4 & G5 & _).
  simpl in G4, G5. rewrite delta_plus_0_l in G5.
  destruct (commit_ok s2 _ _ G4 G5) as (s3 & Hcommit & Hdb3 & Hst3 & Henv3 & Hq3).
  { unfold apply_delta, insert_delta, delta_plus. simpl. apply orb_true_r. }
  exists s3. split.
  { unfold add. rewrite (bind_ok _ _ _ _ _ (start_eq s)). fold s0.
    unfold bind at 1. unfold try_rethrow. rewrite Hadd, Hins.
    by rewrite (bind_ok _ _ _ _ _ Hcommit). }
  split; [rewrite Hdb3, G1; reflexivity|].
  split; [exact Hst3|]. split; [congruence|exact Hq3].
Qed.

(** ** The balance under a batch *)











Lemma lookup_apply_op_ne m o k : o.1 <> k -> apply_op m o !! k = m !! k.
Proof.
  intros H. destruct o as [k' [v|]]; unfold apply_op; simpl in *.
  - by apply lookup_insert_ne.
  - by apply lookup_delete_ne.
Qed.

Lemma lookup_apply_op_eq m k o : apply_op m (k, o) !! k = o.
Proof.
  destruct o as [v|]; unfold apply_op; simpl.
  - apply lookup_insert_eq.
  - apply lookup_delete_eq.
Qed.


Lemma outpoint_eq (p q : Outpoint) :
  op_hash p = op_hash q -> op_index p = op_index q -> p = q.
Proof. destruct p, q. simpl. by intros -> ->. Qed.


Lemma credit_at_Some m p r sp :
  credit_at m p = Some (r, sp) ->
  m !! Kc (op_hash p) (op_index p) = Some (VCredit r sp).
Proof.
  unfold credit_at.
  destruct (m !! Kc (op_hash p) (op_index p)) as [[]|]; try discriminate.
  by intros [= -> ->].
Qed.

Lemma apply_ops_cons o ops m : apply_ops (o :: ops) m = apply_ops ops (apply_op m o).
Proof. reflexivity. Qed.






(** ** The balance correspondence under add *)

(** Facts about a concrete store, by a scan of its keys. *)
Lemma absent_by_scan (m : gmap Key Value) (Q : Key -> bool) :
  bool_decide (map_Forall (fun k _ => Q k = false) m) = true ->
  forall k, Q k = true -> m !! k = None.
Proof.
  intros H k Hk. apply bool_decide_eq_true_1 in H.
  destruct (m !! k) as [v|] eqn:E; [|done].
  specialize (H k v E). simpl in H. congruence.
Qed.

Lemma cache_coherent_by_scan s :
  bool_decide (map_Forall (fun k v => db s !! Kc k.1 k.2 = Some v)
                          (lru_items (coinCache s))) = true ->
  cache_coherent s.
Proof.
  intros H h i v Hl. apply bool_decide_eq_true_1 in H. exact (H (h, i) v Hl).
Qed.



(** ** The loops of erase *)

Lemma forallb_true_intro {A} (f : A -> bool) (l : list A) :
  (forall x, x ∈ l -> f x = true) -> forallb f l = true.
Proof.
  induction l as [|x rest IH]; intros H; [done|].
  simpl. rewrite (H x (list_elem_of_here _ _)). simpl.
  apply IH. intros y Hy. apply H. by apply elem_of_cons; right.
Qed.

Lemma scan_d_elem m hash e :
  e ∈ scan_d m hash -> m !! Kd hash e.1 = Some e.2.
Proof.
  unfold scan_d. intros H. apply list_elem_of_omap in H as ([k v] & Hin & Hf).
  apply elem_of_map_to_list in Hin. simpl in Hf.
  destruct k; try discriminate.
  destruct (bool_decide (hash0 = hash)) eqn:E; simpl in Hf; [|discriminate].
  apply bool_decide_eq_true in E. subst hash0.
  destruct ((0 <=? index) && (index <=? 4294967295)); [|discriminate].
  injection Hf as <-. exact Hin.
Qed.

Lemma imap_spent_credits m tx inputs :
  forall i,
  imap (fun k input =>
          match m !! Kd (tx_hash tx) (Z.of_nat (i + k)) with
          | Some (VCoin r) =>
              Some (mkCredit (Coin_fromRaw r (op_hash (prevout input))
                                           (op_index (prevout input))) false)
          | _ => None
          end) inputs
  = spent_credits m tx i inputs.
Proof.
  induction inputs as [|input rest IH]; intros i; [done|].
  rewrite imap_cons. simpl. unfold undo_at. rewrite Nat.add_0_r.
  f_equal.
  - by destruct (m !! Kd (tx_hash tx) (Z.of_nat i)) as [[]|].
  - rewrite <- IH. apply imap_ext. intros k x _. simpl.
    by replace (i + S k)%nat with (S i + k)%nat by lia.
Qed.

Lemma getSpentCredits_runs tx s :
  tx_coinbase tx = false ->
  undo_ok (db s) tx ->
  runs (getSpentCredits tx) s (spent_credits (db s) tx 0 (tx_inputs tx)) []
       delta0.
Proof.
  intros Hcb Hok. unfold getSpentCredits. rewrite Hcb.
  eapply runs_bind_pure; [apply (runs_gets db)|]. intros s1 Hs1.
  rewrite forallb_true_intro.
  2:{ intros e He. apply scan_d_elem in He.
      destruct (Hok _ _ He) as [_ Hi]. by apply bool_decide_eq_true_2. }
  rewrite forallb_true_intro.
  2:{ intros e He. apply scan_d_elem in He.
      destruct (Hok _ _ He) as [[r ->] _]. done. }
  simpl. rewrite <- (imap_spent_credits (db s) tx (tx_inputs tx) 0).
  apply runs_ret.
Qed.

Lemma runs_removeInput tx i input s :
  is_Some (current s) ->
  tx_inputs tx !! i = Some input ->
  runs (removeInput tx (Z.of_nat i)) s tt
       [(Ks (op_hash (prevout input)) (op_index (prevout input)), None)] delta0.
Proof.
  intros Hc Hi. unfold removeInput.
  eapply runs_bind_pure.
  - apply runs_input_prevout. by apply tx_input_of_nat.
  - intros s1 Hs1. apply runs_del. by eapply step_current.
Qed.

Lemma runs_unspendCredit tx i input s :
  is_Some (current s) ->
  tx_inputs tx !! i = Some input ->
  runs (unspendCredit tx (Z.of_nat i)) s tt
       [(Ks (op_hash (prevout input)) (op_index (prevout input)), None);
        (Kd (tx_hash tx) (Z.of_nat i), None)] delta0.
Proof.
  intros Hc Hi. unfold unspendCredit.
  eapply runs_bind_pure.
  - apply runs_input_prevout. by apply tx_input_of_nat.
  - intros s1 Hs1. eapply runs_conv.
    + eapply runs_bind.
      * apply runs_del. by eapply step_current.
      * intros s2 Hs2. apply runs_del.
        eapply step_current; [exact Hs2|]. by eapply step_current.
    + reflexivity.
    + reflexivity.
Qed.

Lemma erase_inputs_runs tx inputs :
  forall i details s,
  batch_open s ->
  undo_paths_ok (db s) (wpaths (env s)) tx ->
  suffix_at (tx_inputs tx) i inputs ->
  runs (erase_inputs tx i (spent_credits (db s) tx i inputs) details) s
       (erase_inputs_details (db s) (wpaths (env s)) tx i inputs details)
       (erase_inputs_ops (db s) (wpaths (env s)) tx i inputs)
       (erase_inputs_delta (db s) tx i inputs).
Proof.
  induction inputs as [|input rest IH]; intros i details s Hb Hpaths Hsuf.
  { simpl. apply runs_ret. }
  pose proof (suffix_at_head _ _ _ _ Hsuf) as Hi.
  pose proof (suffix_at_tail _ _ _ _ Hsuf) as Hsuf'.
  simpl. unfold erase_input_ops, erase_input_delta, erase_input_details.
  destruct (undo_at (db s) tx i) as [r|] eqn:Eu.
  - destruct (Hpaths i r Eu) as [path Hpath]. rewrite Hpath. simpl.
    destruct (tx_height tx =? -1) eqn:Eh; simpl.
    + eapply runs_conv.
      * eapply runs_bind_pure; [apply runs_getPath|]. intros s1 Hs1.
        destruct (step_open _ _ _ _ Hs1 Hb) as (Hb1 & Hdb1 & Henv1).
        rewrite Hpath.
        eapply runs_bind.
        { apply (runs_update_pending _ _ _ (add_coin_delta 1)). apply Hb1. }
        intros s2 Hs2.
        destruct (step_open _ _ _ _ Hs2 Hb1) as (Hb2 & Hdb2 & Henv2).
        eapply runs_bind.
        { apply (runs_update_pending _ _ _ (add_unconfirmed_delta _)). apply Hb2. }
        intros s3 Hs3.
        destruct (step_open _ _ _ _ Hs3 Hb2) as (Hb3 & Hdb3 & Henv3).
        eapply runs_bind_pure; [apply runs_ret|]. intros s4 Hs4.
        destruct (step_open _ _ _ _ Hs4 Hb3) as (Hb4 & Hdb4 & Henv4).
        eapply runs_bind.
        { apply runs_unspendCredit; [apply Hb4|exact Hi]. }
        intros s5 Hs5.
        destruct (step_open _ _ _ _ Hs5 Hb4) as (Hb5 & Hdb5 & Henv5).
        eapply runs_bind.
        { apply runs_saveCredit. apply Hb5. }
        intros s6 Hs6.
        destruct (step_open _ _ _ _ Hs6 Hb5) as (Hb6 & Hdb6 & Henv6).
        assert (Edb : db s6 = db s) by congruence.
        assert (Eenv : env s6 = env s) by congruence.
        pose proof (IH (S i) (Details_setInput details i (Some path)
                                (Some (Coin_fromRaw r (op_hash (prevout input))
                                                    (op_index (prevout input)))))
                       s6 Hb6) as IH'.
        rewrite Edb, Eenv in IH'. apply IH'; assumption.
      * simpl. unfold Credit_toRaw. simpl. by rewrite Coin_toRaw_fromRaw.
      * apply delta_eq; simpl; try lia; reflexivity.
    + eapply runs_conv.
      * eapply runs_bind_pure; [apply runs_getPath|]. intros s1 Hs1.
        destruct (step_open _ _ _ _ Hs1 Hb) as (Hb1 & Hdb1 & Henv1).
        rewrite Hpath.
        eapply runs_bind.
        { apply (runs_update_pending _ _ _ (add_coin_delta 1)). apply Hb1. }
        intros s2 Hs2.
        destruct (step_open _ _ _ _ Hs2 Hb1) as (Hb2 & Hdb2 & Henv2).
        eapply runs_bind.
        { apply (runs_update_pending _ _ _ (add_unconfirmed_delta _)). apply Hb2. }
        intros s3 Hs3.
        destruct (step_open _ _ _ _ Hs3 Hb2) as (Hb3 & Hdb3 & Henv3).
        eapply runs_bind.
        { apply (runs_update_pending _ _ _ (add_confirmed_delta _)). apply Hb3. }
        intros s4 Hs4.
        destruct (step_open _ _ _ _ Hs4 Hb3) as (Hb4 & Hdb4 & Henv4).
        eapply runs_bind.
        { apply runs_unspendCredit; [apply Hb4|exact Hi]. }
        intros s5 Hs5.
        destruct (step_open _ _ _ _ Hs5 Hb4) as (Hb5 & Hdb5 & Henv5).
        eapply runs_bind.
        { apply runs_saveCredit. apply Hb5. }
        intros s6 Hs6.
        destruct (step_open _ _ _ _ Hs6 Hb5) as (Hb6 & Hdb6 & Henv6).
        assert (Edb : db s6 = db s) by congruence.
        assert (Eenv : env s6 = env s) by congruence.
        pose proof (IH (S i) (Details_setInput details i (Some path)
                                (Some (Coin_fromRaw r (op_hash (prevout input))
                                                    (op_index (prevout input)))))
                       s6 Hb6) as IH'.
        rewrite Edb, Eenv in IH'. apply IH'; assumption.
      * simpl. unfold Credit_toRaw. simpl. by rewrite Coin_toRaw_fromRaw.
      * apply delta_eq; simpl; try lia; reflexivity.
  - eapply runs_conv.
    + eapply runs_bind.
      { apply runs_removeInput; [apply Hb|exact Hi]. }
      intros s1 Hs1.
      destruct (step_open _ _ _ _ Hs1 Hb) as (Hb1 & Hdb1 & Henv1).
      pose proof (IH (S i) details s1 Hb1) as IH'.
      rewrite Hdb1, Henv1 in IH'. apply IH'; assumption.
    + reflexivity.
    + by rewrite delta_plus_0_l.
Qed.

Lemma erase_outputs_runs tx outputs :
  forall i details s,
  batch_open s ->
  suffix_at (tx_outputs tx) i outputs ->
  runs (erase_outputs tx i outputs details) s
       (outputs_details (wpaths (env s)) i outputs details)
       (erase_outputs_ops (wpaths (env s)) tx i outputs)
       (erase_outputs_delta (wpaths (env s)) tx outputs).
Proof.
  induction outputs as [|output rest IH]; intros i details s Hb Hsuf.
  { simpl. apply runs_ret. }
  pose proof (suffix_at_head _ _ _ _ Hsuf) as Hi.
  pose proof (suffix_at_tail _ _ _ _ Hsuf) as Hsuf'.
  simpl. unfold erase_output_ops, erase_output_delta.
  destruct (path_of (wpaths (env s)) (out_address output)) as [path|] eqn:Ep.
  - destruct (tx_height tx =? -1) eqn:Eh.
    + eapply runs_conv.
      * eapply runs_bind_pure; [apply runs_getPath|]. intros s1 Hs1.
        destruct (step_open _ _ _ _ Hs1 Hb) as (Hb1 & Hdb1 & Henv1).
        rewrite Ep. simpl. rewrite (Credit_fromTX_of_nat _ _ _ Hi).
        eapply runs_bind.
        { apply (runs_update_pending _ _ _ (add_coin_delta (-1))). apply Hb1. }
        intros s2 Hs2.
        destruct (step_open _ _ _ _ Hs2 Hb1) as (Hb2 & Hdb2 & Henv2).
        eapply runs_bind.
        { apply (runs_update_pending _ _ _ (add_unconfirmed_delta _)). apply Hb2. }
        intros s3 Hs3.
        destruct (step_open _ _ _ _ Hs3 Hb2) as (Hb3 & Hdb3 & Henv3).
        eapply runs_bind_pure; [apply runs_ret|]. intros s4 Hs4.
        destruct (step_open _ _ _ _ Hs4 Hb3) as (Hb4 & Hdb4 & Henv4).
        eapply runs_bind.
        { apply runs_removeCredit. apply Hb4. }
        intros s5 Hs5.
        destruct (step_open _ _ _ _ Hs5 Hb4) as (Hb5 & Hdb5 & Henv5).
        assert (Eenv : env s5 = env s) by congruence.
        pose proof (IH (S i) (Details_setOutput details i (Some path)) s5 Hb5)
          as IH'.
        rewrite Eenv in IH'. apply IH'; assumption.
      * reflexivity.
      * apply delta_eq; simpl; try lia; reflexivity.
    + eapply runs_conv.
      * eapply runs_bind_pure; [apply runs_getPath|]. intros s1 Hs1.
        destruct (step_open _ _ _ _ Hs1 Hb) as (Hb1 & Hdb1 & Henv1).
        rewrite Ep. simpl. rewrite (Credit_fromTX_of_nat _ _ _ Hi).
        eapply runs_bind.
        { apply (runs_update_pending _ _ _ (add_coin_delta (-1))). apply Hb1. }
        intros s2 Hs2.
        destruct (step_open _ _ _ _ Hs2 Hb1) as (Hb2 & Hdb2 & Henv2).
        eapply runs_bind.
        { apply (runs_update_pending _ _ _ (add_unconfirmed_delta _)). apply Hb2. }
        intros s3 Hs3.
        destruct (step_open _ _ _ _ Hs3 Hb2) as (Hb3 & Hdb3 & Henv3).
        eapply runs_bind.
        { apply (runs_update_pending _ _ _ (add_confirmed_delta _)). apply Hb3. }
        intros s4 Hs4.
        destruct (step_open _ _ _ _ Hs4 Hb3) as (Hb4 & Hdb4 & Henv4).
        eapply runs_bind.
        { apply runs_removeCredit. apply Hb4. }
        intros s5 Hs5.
        destruct (step_open _ _ _ _ Hs5 Hb4) as (Hb5 & Hdb5 & Henv5).
        assert (Eenv : env s5 = env s) by congruence.
        pose proof (IH (S i) (Details_setOutput details i (Some path)) s5 Hb5)
          as IH'.
        rewrite Eenv in IH'. apply IH'; assumption.
      * reflexivity.
      * apply delta_eq; simpl; try lia; reflexivity.
  - eapply runs_conv.
    + eapply runs_bind_pure; [apply runs_getPath|]. intros s1 Hs1.
      destruct (step_open _ _ _ _ Hs1 Hb) as (Hb1 & Hdb1 & Henv1).
      rewrite Ep.
      pose proof (IH (S i) details s1 Hb1) as IH'.
      rewrite Henv1 in IH'. apply IH'; assumption.
    + reflexivity.
    + by rewrite delta_plus_0_l.
Qed.

Lemma unindex_accounts_runs tx accounts :
  forall s, is_Some (current s) ->
  runs (unindex_accounts tx accounts) s tt (unindex_ops tx accounts) delta0.
Proof.
  induction accounts as [|a rest IH]; intros s Hc; [apply runs_ret|].
  simpl. eapply runs_conv.
  - eapply runs_bind; [by apply runs_del|]. intros s1 Hs1.
    pose proof (step_current _ _ _ _ Hs1 Hc) as Hc1.
    eapply runs_bind; [by apply runs_del|]. intros s2 Hs2.
    pose proof (step_current _ _ _ _ Hs2 Hc1) as Hc2.
    eapply runs_bind.
    { instantiate (2 := [if tx_height tx =? -1 then _ else _]).
      destruct (tx_height tx =? -1); by apply runs_del. }
    intros s3 Hs3. apply IH. by eapply step_current.
  - reflexivity.
  - reflexivity.
Qed.

Lemma removeBlock_runs tx s :
  is_Some (current s) ->
  (forall v, db s !! Kb (tx_height tx) = Some v -> exists b, v = VBlock b) ->
  runs (removeBlock tx (tx_height tx)) s tt (removeBlock_ops (db s) tx) delta0.
Proof.
  intros Hc Hty. unfold removeBlock, removeBlock_ops.
  eapply runs_bind_pure.
  { exists s. split; [by apply getBlock_typed|apply step_refl]. }
  intros s1 Hs1. pose proof (step_current _ _ _ _ Hs1 Hc) as Hc1.
  destruct (db s !! Kb (tx_height tx)) as [v|] eqn:E; [|apply runs_ret].
  destruct (Hty v eq_refl) as [b ->].
  destruct (BlockRecord_remove b (tx_hash tx)) as [b'|]; [|apply runs_ret].
  destruct (bool_decide (br_hashes b' = [])); [by apply runs_del|by apply runs_put].
Qed.

(** The two loops of [erase]. *)
Lemma erase_body_runs tx s :
  batch_open s ->
  undo_ok (db s) tx ->
  undo_paths_ok (db s) (wpaths (env s)) tx ->
  runs (details <- (if negb (tx_coinbase tx) then
                      credits <- getSpentCredits tx ;;
                      erase_inputs tx 0 credits (Details_new tx)
                    else ret (Details_new tx)) ;;
        erase_outputs tx 0 (tx_outputs tx) details) s
       (erase_details (db s) (wpaths (env s)) tx)
       (erase_body_ops (db s) (wpaths (env s)) tx)
       (erase_body_delta (db s) (wpaths (env s)) tx).
Proof.
  intros Hb Hundo Hpaths.
  unfold erase_details, erase_body_ops, erase_body_delta.
  destruct (tx_coinbase tx) eqn:Ecb; simpl.
  - eapply runs_conv.
    + eapply runs_bind_pure; [apply runs_ret|]. intros s1 Hs1.
      destruct (step_open _ _ _ _ Hs1 Hb) as (Hb1 & Hdb1 & Henv1).
      pose proof (erase_outputs_runs tx (tx_outputs tx) 0 (Details_new tx) s1 Hb1)
        as H.
      rewrite Henv1 in H. apply H. apply suffix_at_whole.
    + reflexivity.
    + by rewrite delta_plus_0_l.
  - eapply runs_bind.
    + eapply runs_bind_pure; [by apply getSpentCredits_runs|].
      intros s1 Hs1.
      destruct (step_open _ _ _ _ Hs1 Hb) as (Hb1 & Hdb1 & Henv1).
      pose proof (erase_inputs_runs tx (tx_inputs tx) 0 (Details_new tx) s1 Hb1)
        as H.
      rewrite Hdb1, Henv1 in H. apply H; [assumption|apply suffix_at_whole].
    + intros s1 Hs1.
      destruct (step_open _ _ _ _ Hs1 Hb) as (Hb1 & Hdb1 & Henv1).
      pose proof (erase_outputs_runs tx (tx_outputs tx) 0
                    (erase_inputs_details (db s) (wpaths (env s)) tx 0
                       (tx_inputs tx) (Details_new tx)) s1 Hb1) as H.
      rewrite Henv1 in H. apply H. apply suffix_at_whole.
Qed.

(** [erase] of a transaction whose undo coins are in order. *)
Lemma erase_runs tx s p :
  batch_open s -> pending s = Some p ->
  erasable s tx ->
  runs (erase tx) s
       (erase_details (db s) (wpaths (env s)) tx)
       (erase_ops (db s) (wpaths (env s)) tx p)
       (erase_delta (db s) (wpaths (env s)) tx).
Proof.
  intros Hb Hp (Hundo & Hpaths & Hblk).
  pose proof (erase_body_runs tx s Hb Hundo Hpaths) as Hbody.
  unfold erase. unfold runs.
  rewrite <- (bind_assoc
    (if negb (tx_coinbase tx) then
       credits <- getSpentCredits tx ;;
       erase_inputs tx 0 credits (Details_new tx)
     else ret (Details_new tx))
    (fun details => erase_outputs tx 0 (tx_outputs tx) details)).
  fold (runs (A := Details)).
  eapply runs_conv.
  - eapply runs_bind; [exact Hbody|]. intros s1 Hs1.
    destruct (step_open _ _ _ _ Hs1 Hb) as (Hb1 & Hdb1 & Henv1).
    pose proof (step_pending_val _ _ _ _ _ Hs1 Hp) as Hp1.
    eapply runs_bind; [apply runs_del; apply Hb1|]. intros s2 Hs2.
    destruct (step_open _ _ _ _ Hs2 Hb1) as (Hb2 & Hdb2 & Henv2).
    pose proof (step_pending_val _ _ _ _ _ Hs2 Hp1) as Hp2.
    eapply runs_bind; [apply runs_del; apply Hb2|]. intros s3 Hs3.
    destruct (step_open _ _ _ _ Hs3 Hb2) as (Hb3 & Hdb3 & Henv3).
    pose proof (step_pending_val _ _ _ _ _ Hs3 Hp2) as Hp3.
    eapply runs_bind; [apply runs_del; apply Hb3|]. intros s4 Hs4.
    destruct (step_open _ _ _ _ Hs4 Hb3) as (Hb4 & Hdb4 & Henv4).
    pose proof (step_pending_val _ _ _ _ _ Hs4 Hp3) as Hp4.
    eapply runs_bind.
    { instantiate (2 := [if tx_height tx =? -1 then _ else _]).
      destruct (tx_height tx =? -1); apply runs_del; apply Hb4. }
    intros s5 Hs5.
    destruct (step_open _ _ _ _ Hs5 Hb4) as (Hb5 & Hdb5 & Henv5).
    pose proof (step_pending_val _ _ _ _ _ Hs5 Hp4) as Hp5.
    eapply runs_bind; [apply unindex_accounts_runs; apply Hb5|]. intros s6 Hs6.
    destruct (step_open _ _ _ _ Hs6 Hb5) as (Hb6 & Hdb6 & Henv6).
    pose proof (step_pending_val _ _ _ _ _ Hs6 Hp5) as Hp6.
    eapply runs_bind.
    { instantiate (2 := if tx_height tx =? -1 then [] else removeBlock_ops (db s) tx).
      instantiate (1 := delta0).
      destruct (tx_height tx =? -1) eqn:Eh; simpl; [apply runs_ret|].
      replace (db s) with (db s6) by congruence.
      apply removeBlock_runs; [apply Hb6|].
      replace (db s6) with (db s) by congruence. exact Hblk. }
    intros s7 Hs7.
    destruct (step_open _ _ _ _ Hs7 Hb6) as (Hb7 & Hdb7 & Henv7).
    pose proof (step_pending_val _ _ _ _ _ Hs7 Hp6) as Hp7.
    eapply runs_bind.
    { apply (runs_update_pending _ _ _ (add_tx_delta (-1))). apply Hb7. }
    intros s8 Hs8.
    destruct (step_open _ _ _ _ Hs8 Hb7) as (Hb8 & Hdb8 & Henv8).
    pose proof (step_pending_val _ _ _ _ _ Hs8 Hp7) as Hp8.
    eapply runs_bind; [apply (commit_state_runs _ _ (proj1 Hb8) Hp8)|].
    intros s9 Hs9.
    pose proof (step_pending_val _ _ _ _ _ Hs9 Hp8) as Hp9.
    eapply runs_bind_pure; [apply runs_emit|]. intros s10 Hs10.
    pose proof (step_pending_val _ _ _ _ _ Hs10 Hp9) as Hp10.
    eapply runs_bind_pure; [apply (runs_gets pending)|]. intros s11 Hs11.
    rewrite Hp10.
    eapply runs_bind_pure; [apply runs_emit|]. intros s12 Hs12.
    apply runs_ret.
  - unfold erase_ops. simpl.
    by rewrite !apply_delta0, toRaw_commit_tx.
  - unfold erase_delta. simpl.
    rewrite ?delta_plus_0_l, ?delta_plus_0_r.
    apply delta_eq; simpl; try lia.
Qed.



(** ** What a successful erase has staged *)

Lemma stages_ret P {A} (a : A) : stages P (ret a).
Proof.
  intros s a' s' ops [= <- <-] Hc. split; [done|].
  exists []. rewrite app_nil_r. auto.
Qed.

Lemma stages_throw P {A} msg : stages P (throw (A := A) msg).
Proof. intros s a s' ops H. discriminate H. Qed.

Lemma stages_bind P {A B} (m : M A) (k : A -> M B) :
  stages P m -> (forall a, stages P (k a)) -> stages P (bind m k).
Proof.
  intros Hm Hk s b s' ops H Hc.
  apply bind_inv_ok in H as (a & s1 & H1 & H2).
  destruct (Hm _ _ _ _ H1 Hc) as (D1 & n1 & Hc1 & F1).
  destruct (Hk a _ _ _ _ H2 Hc1) as (D2 & n2 & Hc2 & F2).
  split; [congruence|].
  exists (n1 ++ n2). rewrite app_assoc. split; [done|].
  by apply Forall_app.
Qed.

Lemma stages_gets P {A} (f : TXDB -> A) : stages P (gets f).
Proof.
  intros s a s' ops [= <- <-] Hc. split; [done|].
  exists []. rewrite app_nil_r. auto.
Qed.

Lemma stages_modify P (f : TXDB -> TXDB) :
  (forall s, current (f s) = current s /\ db (f s) = db s) ->
  stages P (modify f).
Proof.
  intros Hf s a s' ops [= <- <-] Hc. destruct (Hf s) as [H1 H2].
  split; [done|]. exists []. rewrite app_nil_r, H1. auto.
Qed.

Lemma stages_put (P : Op -> Prop) k v : P (k, Some v) -> stages P (put k v).
Proof.
  intros HP s a s' ops H Hc. rewrite (put_ok _ _ _ _ Hc) in H.
  injection H as <- <-. split; [done|].
  exists [(k, Some v)]. simpl. split; [done|]. by repeat constructor.
Qed.

Lemma stages_del (P : Op -> Prop) k : P (k, None) -> stages P (del k).
Proof.
  intros HP s a s' ops H Hc. rewrite (del_ok _ _ _ Hc) in H.
  injection H as <- <-. split; [done|].
  exists [(k, None)]. simpl. split; [done|]. by repeat constructor.
Qed.

Lemma stages_update_pending P f : stages P (update_pending f).
Proof.
  unfold update_pending. apply stages_bind; [apply stages_gets|].
  intros [p|]; [|apply stages_throw].
  apply stages_modify. by intros [].
Qed.

Lemma stages_commit_state (P : Op -> Prop) :
  (forall v, P (KR, Some v)) -> stages P commit_state.
Proof.
  intros HP. unfold commit_state.
  apply stages_bind; [apply stages_update_pending|]. intros _.
  apply stages_bind; [apply stages_gets|].
  intros [p|]; [by apply stages_put|apply stages_throw].
Qed.

Lemma stages_emit P ev data details : stages P (emit ev data details).
Proof. apply stages_modify. by intros []. Qed.

Lemma stages_unindex (P : Op -> Prop) tx accounts :
  (forall a, P (KT a (tx_hash tx), None) /\
             P (KM a (tx_ps tx) (tx_hash tx), None) /\
             P (KP a (tx_hash tx), None) /\
             P (KH a (tx_height tx) (tx_hash tx), None)) ->
  stages P (unindex_accounts tx accounts).
Proof.
  intros HP. induction accounts as [|a rest IH]; [apply stages_ret|].
  destruct (HP a) as (H1 & H2 & H3 & H4). simpl.
  apply stages_bind; [by apply stages_del|]. intros _.
  apply stages_bind; [by apply stages_del|]. intros _.
  apply stages_bind; [|intros _; exact IH].
  destruct (tx_height tx =? -1); by apply stages_del.
Qed.

Lemma stages_removeBlock (P : Op -> Prop) tx height :
  P (Kb height, None) -> (forall v, P (Kb height, Some v)) ->
  stages P (removeBlock tx height).
Proof.
  intros HP HP'. unfold removeBlock.
  apply stages_bind.
  { unfold getBlock. apply stages_bind; [apply stages_gets|].
    intros [v|]; [|apply stages_ret].
    apply stages_bind; [|intros b; apply stages_ret].
    unfold decode. destruct (BlockRecord_fromRaw v);
      [apply stages_ret|apply stages_throw]. }
  intros [b|]; [|apply stages_ret].
  destruct (BlockRecord_remove b (tx_hash tx)) as [b'|]; [|apply stages_ret].
  destruct (bool_decide (br_hashes b' = []));
    [by apply stages_del|by apply stages_put].
Qed.

(** What follows the deletion of [p[hash]] (or [h[height, hash]]) in
    [erase]. *)
Lemma stages_erase_rest (P : Op -> Prop) tx details :
  (forall a, P (KT a (tx_hash tx), None) /\
             P (KM a (tx_ps tx) (tx_hash tx), None) /\
             P (KP a (tx_hash tx), None) /\
             P (KH a (tx_height tx) (tx_hash tx), None)) ->
  P (Kb (tx_height tx), None) -> (forall v, P (Kb (tx_height tx), Some v)) ->
  (forall v, P (KR, Some v)) ->
  stages P
    (unindex_accounts tx (dt_accounts details) ;;
     (if negb (tx_height tx =? -1) then removeBlock tx (tx_height tx) else ret tt) ;;
     update_pending (add_tx (-1)) ;;
     commit_state ;;
     emit "remove tx" (EvTX tx) details ;;
     p <- gets pending ;;
     match p with
     | None => throw "TypeError"
     | Some p =>
         emit "balance" (EvBalance (TXDBState_toBalance p)) details ;;
         ret details
     end).
Proof.
  intros HA HB HB' HR.
  apply stages_bind; [by apply stages_unindex|]. intros _.
  apply stages_bind.
  { destruct (negb (tx_height tx =? -1));
      [by apply stages_removeBlock|apply stages_ret]. }
  intros _.
  apply stages_bind; [apply stages_update_pending|]. intros _.
  apply stages_bind; [by apply stages_commit_state|]. intros _.
  apply stages_bind; [apply stages_emit|]. intros _.
  apply stages_bind; [apply stages_gets|].
  intros [p|]; [|apply stages_throw].
  apply stages_bind; [apply stages_emit|]. intros _. apply stages_ret.
Qed.

Lemma lookup_apply_ops_other ops m k :
  Forall (fun o => o.1 <> k) ops -> apply_ops ops m !! k = m !! k.
Proof.
  revert m. induction ops as [|o rest IH]; intros m H; [done|].
  apply Forall_cons in H as [Ho Hrest]. simpl.
  rewrite (IH _ Hrest). by apply lookup_apply_op_ne.
Qed.

Lemma del_inv k s u s' :
  del k s = (Ok u, s') ->
  exists ops, current s = Some ops /\
              current s' = Some (ops ++ [(k, None)]).
Proof.
  unfold del, bind, gets, modify. destruct (current s) as [ops|] eqn:E;
    [|discriminate].
  intros [= <- <-]. exists ops. split; [done|]. simpl. done.
Qed.

(** A successful [erase] has staged the deletion of [t[hash]] (and of
    [p[hash]] for a mempool transaction) with nothing after it that
    writes the key again. *)
Lemma erase_deletes tx s d s' :
  erase tx s = (Ok d, s') ->
  exists ops, current s' = Some ops /\
    forall m, apply_ops ops m !! Kt (tx_hash tx) = None /\
              (tx_height tx = -1 -> apply_ops ops m !! Kp (tx_hash tx) = None).
Proof.
  unfold erase. intros H.
  apply bind_inv_ok in H as (d1 & s1 & _ & H).
  apply bind_inv_ok in H as (d2 & s2 & _ & H).
  apply bind_inv_ok in H as (u3 & s3 & H3 & H).
  apply bind_inv_ok in H as (u4 & s4 & H4 & H).
  apply bind_inv_ok in H as (u5 & s5 & H5 & H).
  apply bind_inv_ok in H as (u6 & s6 & H6 & H).
  destruct (del_inv _ _ _ _ H3) as (ops3 & _ & C3).
  destruct (del_inv _ _ _ _ H4) as (ops4 & C3' & C4).
  destruct (del_inv _ _ _ _ H5) as (ops5 & C4' & C5).
  assert (C6 : exists k6, current s6 = Some ((ops5 ++ [(Km (tx_ps tx) (tx_hash tx), None)]) ++ [(k6, None)]) /\
                          (tx_height tx = -1 -> k6 = Kp (tx_hash tx)) /\
                          k6 <> Kt (tx_hash tx)).
  { destruct (tx_height tx =? -1) eqn:Eh.
    - destruct (del_inv _ _ _ _ H6) as (ops6 & C5' & C6).
      exists (Kp (tx_hash tx)). rewrite C5 in C5'. injection C5' as <-.
      split; [exact C6|]. split; done.
    - destruct (del_inv _ _ _ _ H6) as (ops6 & C5' & C6).
      exists (Kh (tx_height tx) (tx_hash tx)). rewrite C5 in C5'.
      injection C5' as <-. split; [exact C6|].
      split; [|done]. intros E. apply Z.eqb_neq in Eh. contradiction. }
  destruct C6 as (k6 & C6 & Hk6 & Hk6t).
  rewrite C4 in C4'. injection C4' as <-.
  destruct (stages_erase_rest
              (fun o => o.1 <> Kt (tx_hash tx) /\ o.1 <> Kp (tx_hash tx)) tx d2
              ltac:(intros a; repeat split; discriminate)
              ltac:(split; discriminate) ltac:(intros v; split; discriminate)
              ltac:(intros v; split; discriminate)
              _ _ _ _ H C6) as (_ & new & Cf & Fnew).
  eexists. split; [exact Cf|]. intros m.
  rewrite !apply_ops_app. split.
  - rewrite lookup_apply_ops_other.
    2:{ eapply Forall_impl; [exact Fnew|]. by intros o [? ?]. }
    simpl. rewrite lookup_apply_op_ne by done.
    rewrite lookup_apply_op_ne by done.
    apply lookup_apply_op_eq.
  - intros Eh. rewrite lookup_apply_ops_other.
    2:{ eapply Forall_impl; [exact Fnew|]. by intros o [? ?]. }
    simpl. rewrite (Hk6 Eh). apply lookup_apply_op_eq.
Qed.

Lemma commit_inv s u s' ops :
  commit s = (Ok u, s') -> current s = Some ops ->
  db s' = apply_ops ops (db s).
Proof.
  intros H Hc. destruct s as [e d c st pe ev cc lk o ct t]. simpl in *. subst c.
  unfold commit, wallet_commit, bind, gets, modify in H. simpl in H.
  destruct pe as [p|]; [|discriminate].
  destruct (st_committed p); simpl in H; injection H as <-; subst s'; reflexivity.
Qed.

(** Whenever [removeRecursive] returns, the transaction is gone. *)
Lemma removeRecursive_deletes fuel tx s d s' :
  removeRecursive fuel tx s = (Ok d, s') ->
  db s' !! Kt (tx_hash tx) = None /\
  (tx_height tx = -1 -> db s' !! Kp (tx_hash tx) = None).
Proof.
  destruct fuel as [|fuel]; [discriminate|]. simpl. intros H.
  apply bind_inv_ok in H as (u1 & s1 & _ & H).
  apply bind_inv_ok in H as (u2 & s2 & _ & H).
  apply bind_inv_ok in H as (d3 & s3 & H3 & H).
  apply bind_inv_ok in H as (u4 & s4 & H4 & H).
  injection H as <- <-.
  destruct (erase_deletes _ _ _ _ H3) as (ops & Hc & Hops).
  rewrite (commit_inv _ _ _ _ H4 Hc). apply Hops.
Qed.

(** ** Records and markers only disappear *)














Lemma getSpent_inv hash index s r s' :
  getSpent hash index s = (Ok r, s') ->
  s' = s /\
  match r with
  | None => db s !! Ks hash index = None
  | Some sp => db s !! Ks hash index = Some (VOutpoint sp)
  end.
Proof.
  unfold getSpent, bind, get, gets, decode.
  destruct (db s !! Ks hash index) as [v|] eqn:E.
  - destruct v; simpl; try discriminate. by intros [= <- <-].
  - by intros [= <- <-].
Qed.

Lemma getTX_inv hash s r s' :
  getTX hash s = (Ok r, s') ->
  s' = s /\
  match r with
  | None => db s !! Kt hash = None
  | Some tx => db s !! Kt hash = Some (VTX tx)
  end.
Proof.
  unfold getTX, bind, get, gets, decode.
  destruct (db s !! Kt hash) as [v|] eqn:E.
  - destruct v; simpl; try discriminate. by intros [= <- <-].
  - by intros [= <- <-].
Qed.






Lemma keyed_by_scan (m : gmap Key Value) :
  bool_decide (map_Forall (fun k v => keyed_entry k v = true) m) = true ->
  keyed m.
Proof.
  intros H h tx Ht. apply bool_decide_eq_true_1 in H.
  specialize (H _ _ Ht). simpl in H. by apply bool_decide_eq_true_1 in H.
Qed.

(** ** abandon *)

Lemma abandon_not_pending fuel hash s :
  db s !! Kp hash = None ->
  abandon fuel hash s = (Throw "TX not eligible.", s).
Proof.
  intros H. unfold abandon, bind, has, gets. rewrite H.
  rewrite bool_decide_eq_false_2; [reflexivity|].
  intros [v Hv]. discriminate.
Qed.

Lemma abandon_pending fuel hash s :
  is_Some (db s !! Kp hash) ->
  abandon fuel hash s = remove fuel hash s.
Proof.
  intros H. unfold abandon, bind, has, gets.
  rewrite bool_decide_eq_true_2 by exact H. reflexivity.
Qed.




(** ** add followed by erase *)

(** The value under [k] after a list of operations all of whose writes
    to [k] agree. *)
Lemma lookup_apply_ops_all ops m k v :
  (forall o, (k, o) ∈ ops -> o = v) ->
  (m !! k = v \/ exists o, (k, o) ∈ ops) ->
  apply_ops ops m !! k = v.
Proof.
  revert m. induction ops as [|[k' o'] rest IH]; intros m Hall Hex.
  - destruct Hex as [H|[o H]]; [exact H|]. by apply elem_of_nil in H.
  - rewrite apply_ops_cons. apply IH.
    + intros o Ho. apply Hall. by apply list_elem_of_further.
    + destruct (decide (k' = k)) as [->|Hne].
      * left. rewrite lookup_apply_op_eq. apply Hall. apply list_elem_of_here.
      * destruct Hex as [H|[o H]].
        { left. rewrite lookup_apply_op_ne by done. exact H. }
        apply elem_of_cons in H as [[= E _]|H]; [congruence|].
        right. by exists o.
Qed.

Lemma lookup_apply_ops_untouched ops m k :
  (forall o, (k, o) ∉ ops) -> apply_ops ops m !! k = m !! k.
Proof.
  intros H. apply lookup_apply_ops_all; [|by left].
  intros o Ho. by destruct (H o).
Qed.

(** Operations that each write back what [m] holds, and that cover
    every key an earlier list wrote, restore [m]. *)
Lemma apply_ops_restore (A E : list Op) (m : gmap Key Value) :
  (forall k o, (k, o) ∈ E -> o = m !! k) ->
  (forall k o, (k, o) ∈ A -> exists o', (k, o') ∈ E) ->
  apply_ops E (apply_ops A m) = m.
Proof.
  intros HE HA. apply map_eq. intros k.
  destruct (decide (k ∈ E.*1)) as [Hin|Hout].
  - apply list_elem_of_fmap in Hin as ([k' o] & -> & Hin). simpl.
    apply lookup_apply_ops_all; [intros o' Ho'; by apply HE|].
    right. by exists o.
  - assert (HnE : forall o, (k, o) ∉ E).
    { intros o Ho. apply Hout. apply list_elem_of_fmap. by exists (k, o). }
    rewrite lookup_apply_ops_untouched by exact HnE.
    apply lookup_apply_ops_untouched. intros o Ho.
    destruct (HA _ _ Ho) as [o' Ho']. by apply (HnE o').
Qed.

(** Membership in the operations staged input by input and output by
    output. *)
Lemma elem_of_insert_inputs_ops m paths tx i inputs op :
  op ∈ insert_inputs_ops m paths tx i inputs <->
  exists k input, inputs !! k = Some input /\
                  op ∈ insert_input_ops m paths tx (i + k) input.
Proof.
  revert i. induction inputs as [|x rest IH]; intros i; simpl.
  - rewrite elem_of_nil. split; [done|]. by intros (k & input & H & _).
  - rewrite elem_of_app, IH. split.
    + intros [H|(k & input & Hk & H)].
      * exists 0%nat, x. by rewrite Nat.add_0_r.
      * exists (S k), input. by rewrite Nat.add_succ_r.
    + intros (k & input & Hk & H). destruct k as [|k]; simpl in Hk.
      * injection Hk as <-. left. by rewrite Nat.add_0_r in H.
      * right. exists k, input. by rewrite Nat.add_succ_r in H.
Qed.

Lemma elem_of_erase_inputs_ops m paths tx i inputs op :
  op ∈ erase_inputs_ops m paths tx i inputs <->
  exists k input, inputs !! k = Some input /\
                  op ∈ erase_input_ops m paths tx (i + k) input.
Proof.
  revert i. induction inputs as [|x rest IH]; intros i; simpl.
  - rewrite elem_of_nil. split; [done|]. by intros (k & input & H & _).
  - rewrite elem_of_app, IH. split.
    + intros [H|(k & input & Hk & H)].
      * exists 0%nat, x. by rewrite Nat.add_0_r.
      * exists (S k), input. by rewrite Nat.add_succ_r.
    + intros (k & input & Hk & H). destruct k as [|k]; simpl in Hk.
      * injection Hk as <-. left. by rewrite Nat.add_0_r in H.
      * right. exists k, input. by rewrite Nat.add_succ_r in H.
Qed.

Lemma elem_of_insert_outputs_ops paths tx i outputs op :
  op ∈ insert_outputs_ops paths tx i outputs <->
  exists k output, outputs !! k = Some output /\
                   op ∈ insert_output_ops paths tx (i + k) output.
Proof.
  revert i. induction outputs as [|x rest IH]; intros i; simpl.
  - rewrite elem_of_nil. split; [done|]. by intros (k & input & H & _).
  - rewrite elem_of_app, IH. split.
    + intros [H|(k & input & Hk & H)].
      * exists 0%nat, x. by rewrite Nat.add_0_r.
      * exists (S k), input. by rewrite Nat.add_succ_r.
    + intros (k & input & Hk & H). destruct k as [|k]; simpl in Hk.
      * injection Hk as <-. left. by rewrite Nat.add_0_r in H.
      * right. exists k, input. by rewrite Nat.add_succ_r in H.
Qed.

Lemma elem_of_erase_outputs_ops paths tx i outputs op :
  op ∈ erase_outputs_ops paths tx i outputs <->
  exists k output, outputs !! k = Some output /\
                   op ∈ erase_output_ops paths tx (i + k) output.
Proof.
  revert i. induction outputs as [|x rest IH]; intros i; simpl.
  - rewrite elem_of_nil. split; [done|]. by intros (k & input & H & _).
  - rewrite elem_of_app, IH. split.
    + intros [H|(k & input & Hk & H)].
      * exists 0%nat, x. by rewrite Nat.add_0_r.
      * exists (S k), input. by rewrite Nat.add_succ_r.
    + intros (k & input & Hk & H). destruct k as [|k]; simpl in Hk.
      * injection Hk as <-. left. by rewrite Nat.add_0_r in H.
      * right. exists k, input. by rewrite Nat.add_succ_r in H.
Qed.

Lemma elem_of_index_ops tx accounts op :
  op ∈ index_ops tx accounts <->
  exists a, a ∈ accounts /\
    op ∈ [(KT a (tx_hash tx), Some DUMMY);
          (KM a (tx_ps tx) (tx_hash tx), Some DUMMY);
          (if tx_height tx =? -1 then (KP a (tx_hash tx), Some DUMMY)
           else (KH a (tx_height tx) (tx_hash tx), Some DUMMY))].
Proof.
  unfold index_ops. rewrite list_elem_of_In, in_flat_map.
  split; intros (a & Ha & H); exists a.
  - by rewrite !list_elem_of_In.
  - by rewrite <- !list_elem_of_In.
Qed.

Lemma elem_of_unindex_ops tx accounts op :
  op ∈ unindex_ops tx accounts <->
  exists a, a ∈ accounts /\
    op ∈ [(KT a (tx_hash tx), None);
          (KM a (tx_ps tx) (tx_hash tx), None);
          (if tx_height tx =? -1 then (KP a (tx_hash tx), None)
           else (KH a (tx_height tx) (tx_hash tx), None))].
Proof.
  unfold unindex_ops. rewrite list_elem_of_In, in_flat_map.
  split; intros (a & Ha & H); exists a.
  - by rewrite !list_elem_of_In.
  - by rewrite <- !list_elem_of_In.
Qed.

Ltac split_ops H :=
  repeat (apply elem_of_cons in H as [H|H]);
  try (by apply elem_of_nil in H).

(** The seven groups of operations of [add], and of [erase]. *)
Lemma elem_of_add_ops m paths tx p0 op :
  op ∈ add_ops m paths tx p0 <->
  (tx_height tx <> -1 /\ op = (Kr (tx_hash tx), None)) \/
  (tx_coinbase tx = false /\
   exists i input, tx_inputs tx !! i = Some input /\
                   op ∈ insert_input_ops m paths tx i input) \/
  (exists i output, tx_outputs tx !! i = Some output /\
                    op ∈ insert_output_ops paths tx i output) \/
  op ∈ [(Kt (tx_hash tx), Some (TX_toExtended tx));
        (Km (tx_ps tx) (tx_hash tx), Some DUMMY);
        (if tx_height tx =? -1 then (Kp (tx_hash tx), Some DUMMY)
         else (Kh (tx_height tx) (tx_hash tx), Some DUMMY))] \/
  op ∈ index_ops tx (dt_accounts (insert_details m paths tx)) \/
  (tx_height tx <> -1 /\ op ∈ addBlock_ops m tx) \/
  op = (KR, Some (TXDBState_toRaw (apply_delta (insert_delta m paths tx) p0))).
Proof.
  unfold add_ops, insert_ops, insert_body_ops.
  rewrite !elem_of_app, elem_of_insert_outputs_ops, list_elem_of_singleton.
  setoid_rewrite Nat.add_0_l.
  assert (E1 : op ∈ (if tx_height tx =? -1 then [] else [(Kr (tx_hash tx), None)])
               <-> tx_height tx <> -1 /\ op = (Kr (tx_hash tx), None)).
  { destruct (tx_height tx =? -1) eqn:Eh.
    - rewrite elem_of_nil. apply Z.eqb_eq in Eh. tauto.
    - rewrite list_elem_of_singleton. apply Z.eqb_neq in Eh. tauto. }
  assert (E2 : op ∈ (if tx_coinbase tx then []
                     else insert_inputs_ops m paths tx 0 (tx_inputs tx))
               <-> tx_coinbase tx = false /\
                   exists i input, tx_inputs tx !! i = Some input /\
                                   op ∈ insert_input_ops m paths tx i input).
  { destruct (tx_coinbase tx).
    - rewrite elem_of_nil. split; [done|]. by intros [? _].
    - rewrite elem_of_insert_inputs_ops. setoid_rewrite Nat.add_0_l. tauto. }
  assert (E3 : op ∈ (if tx_height tx =? -1 then [] else addBlock_ops m tx)
               <-> tx_height tx <> -1 /\ op ∈ addBlock_ops m tx).
  { destruct (tx_height tx =? -1) eqn:Eh.
    - rewrite elem_of_nil. apply Z.eqb_eq in Eh. tauto.
    - apply Z.eqb_neq in Eh. tauto. }
  rewrite E1, E2, E3. tauto.
Qed.

Lemma elem_of_erase_ops m paths tx p0 op :
  op ∈ erase_ops m paths tx p0 <->
  (tx_coinbase tx = false /\
   exists i input, tx_inputs tx !! i = Some input /\
                   op ∈ erase_input_ops m paths tx i input) \/
  (exists i output, tx_outputs tx !! i = Some output /\
                    op ∈ erase_output_ops paths tx i output) \/
  op ∈ [(Kr (tx_hash tx), None);
        (Kt (tx_hash tx), None);
        (Km (tx_ps tx) (tx_hash tx), None);
        (if tx_height tx =? -1 then (Kp (tx_hash tx), None)
         else (Kh (tx_height tx) (tx_hash tx), None))] \/
  op ∈ unindex_ops tx (dt_accounts (erase_details m paths tx)) \/
  (tx_height tx <> -1 /\ op ∈ removeBlock_ops m tx) \/
  op = (KR, Some (TXDBState_toRaw (apply_delta (erase_delta m paths tx) p0))).
Proof.
  unfold erase_ops, erase_body_ops.
  rewrite !elem_of_app, elem_of_erase_outputs_ops, list_elem_of_singleton.
  setoid_rewrite Nat.add_0_l.
  assert (E2 : op ∈ (if tx_coinbase tx then []
                     else erase_inputs_ops m paths tx 0 (tx_inputs tx))
               <-> tx_coinbase tx = false /\
                   exists i input, tx_inputs tx !! i = Some input /\
                                   op ∈ erase_input_ops m paths tx i input).
  { destruct (tx_coinbase tx).
    - rewrite elem_of_nil. split; [done|]. by intros [? _].
    - rewrite elem_of_erase_inputs_ops. setoid_rewrite Nat.add_0_l. tauto. }
  assert (E3 : op ∈ (if tx_height tx =? -1 then [] else removeBlock_ops m tx)
               <-> tx_height tx <> -1 /\ op ∈ removeBlock_ops m tx).
  { destruct (tx_height tx =? -1) eqn:Eh.
    - rewrite elem_of_nil. apply Z.eqb_eq in Eh. tauto.
    - apply Z.eqb_neq in Eh. tauto. }
  rewrite E2, E3. tauto.
Qed.

(** Every write of [add] to an undo-coin key is the coin of a stored
    credit one of the inputs spends. *)
Lemma add_ops_Kd_writes m paths tx p0 h j o :
  (Kd h j, o) ∈ add_ops m paths tx p0 ->
  h = tx_hash tx /\ tx_coinbase tx = false /\
  exists i input r sp,
    j = Z.of_nat i /\ tx_inputs tx !! i = Some input /\
    credit_at m (prevout input) = Some (r, sp) /\ o = Some (VCoin r).
Proof.
  intros H. apply elem_of_add_ops in H
    as [[_ H]|[[Hcb (i & input & Hi & H)]|[(i & output & Hi & H)|[H|[H|[[_ H]|H]]]]]].
  - discriminate H.
  - unfold insert_input_ops in H.
    destruct (credit_at m (prevout input)) as [[r sp]|] eqn:Hc.
    + destruct (path_of paths (cr_address r)); [|by apply elem_of_nil in H].
      destruct (tx_height tx =? -1); simpl in H; split_ops H; try discriminate H.
      all: injection H as -> -> ->; split; [done|]; split; [done|];
        by exists i, input, r, sp.
    + split_ops H. discriminate H.
  - unfold insert_output_ops in H.
    destruct (path_of paths (out_address output)); split_ops H; discriminate H.
  - destruct (tx_height tx =? -1); split_ops H; discriminate H.
  - apply elem_of_index_ops in H as (a & _ & H).
    destruct (tx_height tx =? -1); split_ops H; discriminate H.
  - unfold addBlock_ops in H.
    destruct (m !! Kb (tx_height tx)) as [[]|]; try (split_ops H; discriminate H).
    destruct (BlockRecord_add _ _); split_ops H; discriminate H.
  - discriminate H.
Qed.

Lemma add_ops_Kb_writes m paths tx p0 z o :
  (Kb z, o) ∈ add_ops m paths tx p0 ->
  tx_height tx <> -1 /\ (Kb z, o) ∈ addBlock_ops m tx.
Proof.
  intros H. apply elem_of_add_ops in H
    as [[_ H]|[[Hcb (i & input & Hi & H)]|[(i & output & Hi & H)|[H|[H|[H|H]]]]]].
  - discriminate H.
  - unfold insert_input_ops in H.
    destruct (credit_at m (prevout input)) as [[r sp]|] eqn:Hc.
    + destruct (path_of paths (cr_address r)); [|by apply elem_of_nil in H].
      destruct (tx_height tx =? -1); simpl in H; split_ops H; discriminate H.
    + split_ops H. discriminate H.
  - unfold insert_output_ops in H.
    destruct (path_of paths (out_address output)); split_ops H; discriminate H.
  - destruct (tx_height tx =? -1); split_ops H; discriminate H.
  - apply elem_of_index_ops in H as (a & _ & H).
    destruct (tx_height tx =? -1); split_ops H; discriminate H.
  - exact H.
  - discriminate H.
Qed.

Lemma opposite_0 : opposite delta0 delta0.
Proof. by repeat split. Qed.

Lemma opposite_plus a b c d :
  opposite a b -> opposite c d -> opposite (delta_plus a c) (delta_plus b d).
Proof.
  intros (A1 & A2 & A3 & A4) (B1 & B2 & B3 & B4).
  unfold opposite, delta_plus. simpl. lia.
Qed.

Lemma outputs_opposite paths tx outputs :
  opposite (erase_outputs_delta paths tx outputs)
           (insert_outputs_delta paths tx outputs).
Proof.
  induction outputs as [|output rest IH]; simpl; [apply opposite_0|].
  apply opposite_plus; [|exact IH].
  unfold erase_output_delta, insert_output_delta.
  destruct (path_of paths (out_address output)); [|apply opposite_0].
  unfold opposite. simpl. destruct (tx_height tx =? -1); lia.
Qed.

Section AddThenErase.

Variables (m : gmap Key Value) (paths : gmap Address Path) (tx : TX).
Variable p0 : TXDBState.

Hypothesis Hfresh : fresh m tx.
Hypothesis Hok : inputs_ok m paths (tx_inputs tx).
Hypothesis Hnc : no_conflicts m tx.
Hypothesis Hsp : tx_coinbase tx = false -> spends_unspent m paths tx.
Hypothesis Hblk : tx_height tx <> -1 -> block_ok m tx.
Hypothesis Hbt : forall v, m !! Kb (tx_height tx) = Some v -> exists b, v = VBlock b.
Hypothesis HR : m !! KR = Some (TXDBState_toRaw p0).

(** The undo coin [add] leaves for an input is the coin of the credit
    the input spends. *)
Lemma add_ops_undo i input :
  tx_coinbase tx = false -> tx_inputs tx !! i = Some input ->
  apply_ops (add_ops m paths tx p0) m !! Kd (tx_hash tx) (Z.of_nat i)
  = (fun c => VCoin c.1) <$> credit_at m (prevout input).
Proof.
  intros Hcb Hi. apply lookup_apply_ops_all.
  - intros o Ho.
    apply add_ops_Kd_writes in Ho
      as (_ & _ & i' & input' & r & sp & Ei & Hi' & Hc & ->).
    apply Nat2Z.inj in Ei. subst i'. rewrite Hi in Hi'. injection Hi' as <-.
    by rewrite Hc.
  - destruct (credit_at m (prevout input)) as [[r sp]|] eqn:Hc.
    + right. exists (Some (VCoin r)). apply elem_of_add_ops.
      right. left. split; [done|]. exists i, input. split; [done|].
      unfold insert_input_ops. rewrite Hc.
      destruct (Hok input _ ltac:(by eapply list_elem_of_lookup_2)
                  (credit_at_Some _ _ _ _ Hc)) as (r' & sp' & path & [= <- <-] & Hp).
      rewrite Hp. simpl. apply list_elem_of_further, list_elem_of_here.
    + left. simpl. apply Hfresh. simpl. by apply bool_decide_eq_true_2.
Qed.

Lemma add_ops_undo_at i input :
  tx_coinbase tx = false -> tx_inputs tx !! i = Some input ->
  undo_at (apply_ops (add_ops m paths tx p0) m) tx i
  = fst <$> credit_at m (prevout input).
Proof.
  intros Hcb Hi. unfold undo_at. rewrite (add_ops_undo _ _ Hcb Hi).
  by destruct (credit_at m (prevout input)) as [[r sp]|].
Qed.

Lemma add_ops_Kd_inv j v :
  apply_ops (add_ops m paths tx p0) m !! Kd (tx_hash tx) j = Some v ->
  tx_coinbase tx = false /\
  exists i input r sp,
    j = Z.of_nat i /\ tx_inputs tx !! i = Some input /\
    credit_at m (prevout input) = Some (r, sp) /\ v = VCoin r.
Proof.
  intros Hv.
  destruct (decide (Kd (tx_hash tx) j ∈ (add_ops m paths tx p0).*1)) as [Hin|Hout].
  - apply list_elem_of_fmap in Hin as ([k o] & Ek & Hin). simpl in Ek. subst k.
    apply add_ops_Kd_writes in Hin
      as (_ & Hcb & i & input & r & sp & -> & Hi & Hc & ->).
    split; [done|]. exists i, input, r, sp. repeat (split; [done|]).
    rewrite (add_ops_undo _ _ Hcb Hi), Hc in Hv. by injection Hv as <-.
  - rewrite lookup_apply_ops_untouched in Hv.
    + rewrite Hfresh in Hv; [done|]. simpl. by apply bool_decide_eq_true_2.
    + intros o Ho. apply Hout. apply list_elem_of_fmap. by exists (Kd (tx_hash tx) j, o).
Qed.

Lemma add_ops_undo_ok : undo_ok (apply_ops (add_ops m paths tx p0) m) tx.
Proof.
  intros j v Hv.
  apply add_ops_Kd_inv in Hv as (_ & i & input & r & sp & -> & Hi & _ & ->).
  split; [by exists r|]. exists input. by apply tx_input_of_nat.
Qed.

Lemma add_ops_undo_paths_ok :
  undo_paths_ok (apply_ops (add_ops m paths tx p0) m) paths tx.
Proof.
  intros j r Hr. unfold undo_at in Hr.
  destruct (apply_ops (add_ops m paths tx p0) m !! Kd (tx_hash tx) (Z.of_nat j))
    as [v|] eqn:Hv; [|done].
  apply add_ops_Kd_inv in Hv as (_ & i & input & r' & sp & _ & Hi & Hc & ->).
  injection Hr as <-.
  destruct (Hok input _ ltac:(by eapply list_elem_of_lookup_2)
              (credit_at_Some _ _ _ _ Hc)) as (r'' & sp' & path & [= <- <-] & Hp).
  by exists path.
Qed.

Lemma add_ops_inputs_details inputs :
  tx_coinbase tx = false ->
  forall i d, suffix_at (tx_inputs tx) i inputs ->
  erase_inputs_details (apply_ops (add_ops m paths tx p0) m) paths tx i inputs d
  = insert_inputs_details m paths i inputs d.
Proof.
  intros Hcb. induction inputs as [|input rest IH]; intros i d Hsuf; [done|].
  simpl. rewrite (IH _ _ (suffix_at_tail _ _ _ _ Hsuf)). f_equal.
  unfold erase_input_details, insert_input_details.
  rewrite (add_ops_undo_at _ _ Hcb (suffix_at_head _ _ _ _ Hsuf)).
  by destruct (credit_at m (prevout input)) as [[r sp]|].
Qed.

Lemma add_ops_details :
  erase_details (apply_ops (add_ops m paths tx p0) m) paths tx
  = insert_details m paths tx.
Proof.
  unfold erase_details, insert_details.
  destruct (tx_coinbase tx) eqn:Hcb; [done|].
  by rewrite (add_ops_inputs_details _ Hcb _ _ (suffix_at_whole _)).
Qed.

Lemma inputs_opposite inputs :
  tx_coinbase tx = false ->
  forall i, suffix_at (tx_inputs tx) i inputs ->
  opposite (erase_inputs_delta (apply_ops (add_ops m paths tx p0) m) tx i inputs)
           (insert_inputs_delta m tx inputs).
Proof.
  intros Hcb. induction inputs as [|input rest IH]; intros i Hsuf;
    [apply opposite_0|].
  simpl. apply opposite_plus; [|exact (IH _ (suffix_at_tail _ _ _ _ Hsuf))].
  unfold erase_input_delta, insert_input_delta.
  rewrite (add_ops_undo_at _ _ Hcb (suffix_at_head _ _ _ _ Hsuf)).
  destruct (credit_at m (prevout input)) as [[r sp]|]; [|apply opposite_0].
  unfold opposite. simpl. destruct (tx_height tx =? -1); lia.
Qed.

Lemma add_erase_opposite :
  opposite (erase_delta (apply_ops (add_ops m paths tx p0) m) paths tx)
           (insert_delta m paths tx).
Proof.
  unfold erase_delta, insert_delta, erase_body_delta, insert_body_delta.
  apply opposite_plus; [|by repeat split].
  apply opposite_plus; [|apply outputs_opposite].
  destruct (tx_coinbase tx) eqn:Hcb; [apply opposite_0|].
  apply (inputs_opposite _ Hcb _ (suffix_at_whole _)).
Qed.

Lemma add_erase_state :
  TXDBState_toRaw
    (apply_delta (erase_delta (apply_ops (add_ops m paths tx p0) m) paths tx)
       (TXDBState_clone (apply_delta (insert_delta m paths tx) p0)))
  = TXDBState_toRaw p0.
Proof.
  pose proof add_erase_opposite as H. revert H.
  generalize (erase_delta (apply_ops (add_ops m paths tx p0) m) paths tx).
  generalize (insert_delta m paths tx).
  intros a e (H1 & H2 & H3 & H4).
  unfold TXDBState_toRaw, apply_delta, TXDBState_clone. simpl.
  f_equal; lia.
Qed.

(** The block record after [add], and what [erase] then stages for
    it. *)
Lemma add_ops_block :
  tx_height tx <> -1 ->
  (exists b, apply_ops (add_ops m paths tx p0) m !! Kb (tx_height tx)
             = Some (VBlock b)) /\
  removeBlock_ops (apply_ops (add_ops m paths tx p0) m) tx
  = [(Kb (tx_height tx), m !! Kb (tx_height tx))].
Proof.
  intros Hh.
  assert (Hlook : forall b', addBlock_ops m tx = [(Kb (tx_height tx), Some (VBlock b'))] ->
            apply_ops (add_ops m paths tx p0) m !! Kb (tx_height tx)
            = Some (VBlock b')).
  { intros b' Hb'. apply lookup_apply_ops_all.
    - intros o Ho. apply add_ops_Kb_writes in Ho as [_ Ho].
      rewrite Hb' in Ho. apply list_elem_of_singleton in Ho. by injection Ho.
    - right. eexists. apply elem_of_add_ops.
      do 5 right. left. split; [done|]. rewrite Hb'. apply list_elem_of_here. }
  unfold removeBlock_ops.
  destruct (m !! Kb (tx_height tx)) as [v|] eqn:Hv.
  - destruct (Hbt _ eq_refl) as [b ->].
    destruct (Hblk Hh b Hv) as [Hnotin Hne].
    rewrite (Hlook (mkBlockRecord (br_hash b) (br_height b) (br_ts b)
                                  (br_hashes b ++ [tx_hash tx]))).
    2:{ unfold addBlock_ops, BlockRecord_add. rewrite Hv.
        by rewrite bool_decide_eq_false_2. }
    split; [eauto|].
    unfold BlockRecord_remove. simpl.
    rewrite (bool_decide_eq_true_2 (tx_hash tx ∈ br_hashes b ++ [tx_hash tx]))
      by (apply elem_of_app; right; apply list_elem_of_here).
    rewrite (bool_decide_eq_true_2 (last (br_hashes b ++ [tx_hash tx]) = Some (tx_hash tx)))
      by apply last_snoc.
    rewrite removelast_last.
    rewrite bool_decide_eq_false_2 by done. by destruct b.
  - rewrite (Hlook (mkBlockRecord (default NULL_HASH (tx_block tx))
                                  (tx_height tx) (tx_ts tx) [tx_hash tx])).
    2:{ unfold addBlock_ops. by rewrite Hv. }
    split; [eauto|].
    unfold BlockRecord_remove. simpl.
    rewrite (bool_decide_eq_true_2 (tx_hash tx ∈ [tx_hash tx]))
      by apply list_elem_of_here.
    rewrite (bool_decide_eq_true_2 (last [tx_hash tx] = Some (tx_hash tx)))
      by done.
    reflexivity.
Qed.

Lemma add_ops_block_typed v :
  apply_ops (add_ops m paths tx p0) m !! Kb (tx_height tx) = Some v ->
  exists b, v = VBlock b.
Proof.
  destruct (decide (tx_height tx = -1)) as [Hh|Hh].
  - rewrite lookup_apply_ops_untouched; [apply Hbt|].
    intros o Ho. by apply add_ops_Kb_writes in Ho as [? _].
  - destruct (proj1 (add_ops_block Hh)) as [b Hb]. rewrite Hb.
    intros [= <-]. eauto.
Qed.

Ltac in_list :=
  repeat first [apply list_elem_of_here | apply list_elem_of_further].

Ltac is_fresh :=
  symmetry; apply Hfresh; simpl; by apply bool_decide_eq_true_2.

(** Each operation of [erase] after [add] writes back what the store
    held before [add]. *)
Lemma erase_writes_back k o :
  (k, o) ∈ erase_ops (apply_ops (add_ops m paths tx p0) m) paths tx
             (TXDBState_clone (apply_delta (insert_delta m paths tx) p0)) ->
  o = m !! k.
Proof.
  intros H. apply elem_of_erase_ops in H
    as [[Hcb (i & input & Hi & H)]|[(i & output & Hi & H)|[H|[H|[[Hh H]|H]]]]].
  - unfold erase_input_ops in H. rewrite (add_ops_undo_at _ _ Hcb Hi) in H.
    assert (Hin : input ∈ tx_inputs tx) by (by eapply list_elem_of_lookup_2).
    destruct (credit_at m (prevout input)) as [[r sp]|] eqn:Hc; simpl in H.
    + destruct (Hok input _ Hin (credit_at_Some _ _ _ _ Hc))
        as (r' & sp' & path & [= <- <-] & Hp).
      rewrite Hp in H.
      destruct (Hsp Hcb input r sp path Hin Hc Hp) as [-> HKC].
      split_ops H; injection H as -> ->.
      * symmetry. by apply Hnc.
      * is_fresh.
      * symmetry. by apply credit_at_Some.
      * symmetry. exact HKC.
    + split_ops H. injection H as -> ->. symmetry. by apply Hnc.
  - unfold erase_output_ops in H.
    destruct (path_of paths (out_address output)); split_ops H;
      injection H as -> ->; is_fresh.
  - destruct (tx_height tx =? -1); split_ops H; injection H as -> ->; is_fresh.
  - apply elem_of_unindex_ops in H as (a & _ & H).
    destruct (tx_height tx =? -1); split_ops H; injection H as -> ->; is_fresh.
  - rewrite (proj2 (add_ops_block Hh)) in H.
    apply list_elem_of_singleton in H. by injection H as -> ->.
  - injection H as -> ->. rewrite add_erase_state. by symmetry.
Qed.

(** [erase] writes every key [add] wrote. *)
Lemma erase_covers k o :
  (k, o) ∈ add_ops m paths tx p0 ->
  exists o',
    (k, o') ∈ erase_ops (apply_ops (add_ops m paths tx p0) m) paths tx
                (TXDBState_clone (apply_delta (insert_delta m paths tx) p0)).
Proof.
  intros H. apply elem_of_add_ops in H
    as [[_ H]|[[Hcb (i & input & Hi & H)]|[(i & output & Hi & H)|[H|[H|[[Hh H]|H]]]]]].
  - injection H as -> ->. eexists. apply elem_of_erase_ops.
    right. right. left. in_list.
  - assert (Hin : input ∈ tx_inputs tx) by (by eapply list_elem_of_lookup_2).
    assert (He : forall o', (k, o') ∈ erase_input_ops
                   (apply_ops (add_ops m paths tx p0) m) paths tx i input ->
                 exists o', (k, o') ∈ erase_ops (apply_ops (add_ops m paths tx p0) m)
                   paths tx
                   (TXDBState_clone (apply_delta (insert_delta m paths tx) p0))).
    { intros o' Ho'. exists o'. apply elem_of_erase_ops. left.
      split; [done|]. by exists i, input. }
    unfold insert_input_ops in H. unfold erase_input_ops in He.
    rewrite (add_ops_undo_at _ _ Hcb Hi) in He.
    destruct (credit_at m (prevout input)) as [[r sp]|] eqn:Hc; simpl in He.
    + destruct (Hok input _ Hin (credit_at_Some _ _ _ _ Hc))
        as (r' & sp' & path & [= <- <-] & Hp).
      rewrite Hp in H, He.
      destruct (tx_height tx =? -1); simpl in H; split_ops H;
        injection H as -> ->; eapply He; in_list.
    + split_ops H. injection H as -> ->. eapply He. in_list.
  - assert (He : forall o', (k, o') ∈ erase_output_ops paths tx i output ->
                 exists o', (k, o') ∈ erase_ops (apply_ops (add_ops m paths tx p0) m)
                   paths tx
                   (TXDBState_clone (apply_delta (insert_delta m paths tx) p0))).
    { intros o' Ho'. exists o'. apply elem_of_erase_ops. right. left.
      by exists i, output. }
    unfold insert_output_ops in H. unfold erase_output_ops in He.
    destruct (path_of paths (out_address output)); split_ops H;
      injection H as -> ->; eapply He; in_list.
  - destruct (tx_height tx =? -1) eqn:Eh; split_ops H; injection H as -> ->;
      eexists; apply elem_of_erase_ops; right; right; left; rewrite Eh; in_list.
  - apply elem_of_index_ops in H as (a & Ha & H).
    assert (He : forall o',
                 (k, o') ∈ [(KT a (tx_hash tx), None : option Value);
                            (KM a (tx_ps tx) (tx_hash tx), None);
                            (if tx_height tx =? -1 then (KP a (tx_hash tx), None)
                             else (KH a (tx_height tx) (tx_hash tx), None))] ->
                 exists o', (k, o') ∈ erase_ops (apply_ops (add_ops m paths tx p0) m)
                   paths tx
                   (TXDBState_clone (apply_delta (insert_delta m paths tx) p0))).
    { intros o' Ho'. exists o'. apply elem_of_erase_ops. do 3 right. left.
      apply elem_of_unindex_ops. exists a. by rewrite add_ops_details. }
    destruct (tx_height tx =? -1); split_ops H; injection H as -> ->;
      eapply He; in_list.
  - assert (Ek : k = Kb (tx_height tx)).
    { unfold addBlock_ops in H.
      destruct (m !! Kb (tx_height tx)) as [[]|];
        try (split_ops H; by injection H as -> ->).
      destruct (BlockRecord_add _ _); split_ops H; by injection H as -> ->. }
    subst k. eexists. apply elem_of_erase_ops. do 4 right. left.
    split; [done|]. rewrite (proj2 (add_ops_block Hh)). in_list.
  - injection H as -> ->. eexists. apply elem_of_erase_ops. do 5 right.
    reflexivity.
Qed.

(** The operations of [erase] undo those of [add]. *)
Lemma add_erase_ops_restore :
  apply_ops
    (erase_ops (apply_ops (add_ops m paths tx p0) m) paths tx
       (TXDBState_clone (apply_delta (insert_delta m paths tx) p0)))
    (apply_ops (add_ops m paths tx p0) m)
  = m.
Proof.
  apply apply_ops_restore; [apply erase_writes_back|apply erase_covers].
Qed.

End AddThenErase.

Lemma erase_in_batch_ok tx s :
  quiescent s -> erasable s tx ->
  exists s',
    erase_in_batch tx s
    = (Ok (erase_details (db s) (wpaths (env s)) tx), s') /\
    db s' = apply_ops
              (erase_ops (db s) (wpaths (env s)) tx (TXDBState_clone (state s)))
              (db s) /\
    state s' = apply_delta (erase_delta (db s) (wpaths (env s)) tx)
                           (TXDBState_clone (state s)) /\
    env s' = env s /\ quiescent s'.
Proof.
  intros Hq Hera.
  destruct (erase_runs tx (started s) (TXDBState_clone (state s))
              (started_open s) eq_refl Hera) as (s2 & Herase & Hs2).
  destruct Hs2 as (G1 & G2 & G3 & G4 & G5 & _). simpl in G4, G5.
  destruct (commit_ok s2 _ _ G4 G5) as (s3 & Hcommit & Hdb3 & Hst3 & Henv3 & Hq3).
  { unfold apply_delta, erase_delta, delta_plus. simpl. apply orb_true_r. }
  exists s3. split.
  { unfold erase_in_batch. rewrite (bind_ok _ _ _ _ _ (start_eq s)).
    change (db (started s)) with (db s) in Herase.
    change (env (started s)) with (env s) in Herase.
    rewrite (bind_ok _ _ _ _ _ Herase).
    by rewrite (bind_ok _ _ _ _ _ Hcommit). }
  split; [rewrite Hdb3, G1; reflexivity|].
  split; [exact Hst3|]. split; [rewrite Henv3, G2; reflexivity|exact Hq3].
Qed.

(** C2 (add then erase).  On a committed state whose [R] record holds
    the counters, [add] of a transaction that is inserted, under whose
    hash nothing is stored, whose spent credits are unspent and listed
    in their account index, and whose block record (if any) lists
    other transactions only, followed by [erase] of the same
    transaction in a batch of its own, returns the same details twice
    and leaves the store and the four counters as they were. *)
Theorem add_then_erase_restores (fuel : nat) (tx : TX)
    (block : option BlockMeta) (s : TXDB) :
  quiescent s -> cache_coherent s ->
  insertable s tx ->
  fresh (db s) tx ->
  (tx_coinbase tx = false -> spends_unspent (db s) (wpaths (env s)) tx) ->
  (tx_height tx <> -1 -> block_ok (db s) tx) ->
  db s !! KR = Some (TXDBState_toRaw (state s)) ->
  exists details s1 s2,
    add fuel tx block s = (Ok (Some details), s1) /\
    erase_in_batch tx s1 = (Ok details, s2) /\
    db s2 = db s /\
    TXDBState_toRaw (state s2) = TXDBState_toRaw (state s) /\
    quiescent s2.
Proof.
  intros Hq Hcoh (Hm & Hl & Hrbf & Hnc & Hok & Hfree & Hbt & Htouch)
         Hfresh Hsp Hblk HR.
  destruct (add_inserts fuel tx block s Hq Hcoh Hm Hl Hrbf Hnc Hok Hfree Hbt Htouch)
    as (s1 & Hadd & Hdb1 & Hst1 & Henv1 & Hq1).
  assert (Hera : erasable s1 tx).
  { unfold erasable. rewrite Hdb1, Henv1. split; [|split].
    - by apply add_ops_undo_ok.
    - by apply add_ops_undo_paths_ok.
    - by apply add_ops_block_typed. }
  destruct (erase_in_batch_ok tx s1 Hq1 Hera)
    as (s2 & Herase & Hdb2 & Hst2 & _ & Hq2).
  exists (insert_details (db s) (wpaths (env s)) tx), s1, s2.
  split; [exact Hadd|]. split.
  { rewrite Herase, Hdb1, Henv1. f_equal. f_equal. by apply add_ops_details. }
  split.
  { rewrite Hdb2, Hst1, Hdb1, Henv1. by apply add_erase_ops_restore. }
  split; [|exact Hq2].
  rewrite Hst2, Hst1, Hdb1, Henv1.
  rewrite (add_erase_state (db s) (wpaths (env s)) tx (TXDBState_clone (state s)))
    by assumption.
  reflexivity.
Qed.

Lemma add_then_erase_restores_witness :
  quiescent Examples.withP5 /\ cache_coherent Examples.withP5 /\
  insertable Examples.withP5 Examples.txC /\
  fresh (db Examples.withP5) Examples.txC /\
  exists details s1 s2,
    add 1 Examples.txC None Examples.withP5 = (Ok (Some details), s1) /\
    erase_in_batch Examples.txC s1 = (Ok details, s2) /\
    db s2 = db Examples.withP5 /\
    TXDBState_toRaw (state s2) = TXDBState_toRaw (state Examples.withP5) /\
    quiescent s2.
Proof.
  assert (Hq : quiescent Examples.withP5).
  { split; [|split; [|split]]; vm_compute; reflexivity. }
  assert (Hcoh : cache_coherent Examples.withP5).
  { apply cache_coherent_by_scan. vm_compute. reflexivity. }
  assert (Hins : insertable Examples.withP5 Examples.txC).
  { split; [reflexivity|]. split; [vm_compute; reflexivity|].
    split.
    { intros _ [H|(input & Hin & [v Hv])]; [discriminate H|].
      apply list_elem_of_singleton in Hin as ->. vm_compute in Hv. discriminate. }
    split.
    { intros input Hin. apply list_elem_of_singleton in Hin as ->.
      vm_compute. reflexivity. }
    split.
    { intros input v Hin Hv. apply list_elem_of_singleton in Hin as ->.
      vm_compute in Hv. injection Hv as <-.
      eexists _, _, _. split; [reflexivity|vm_compute; reflexivity]. }
    split.
    { intros k. apply (absent_by_scan _ (marker_of "cc"));
        [vm_compute; reflexivity|]. reflexivity. }
    split.
    { intros v Hv. vm_compute in Hv. discriminate. }
    vm_compute. reflexivity. }
  assert (Hfresh : fresh (db Examples.withP5) Examples.txC).
  { intros k Hk. apply (absent_by_scan _ (owned_by Examples.txC));
      [vm_compute; reflexivity|exact Hk]. }
  assert (Hsp : tx_coinbase Examples.txC = false ->
                spends_unspent (db Examples.withP5)
                  (wpaths (env Examples.withP5)) Examples.txC).
  { intros _ input r sp path Hin Hcr Hp.
    apply list_elem_of_singleton in Hin as ->.
    vm_compute in Hcr. injection Hcr as <- <-.
    vm_compute in Hp. injection Hp as <-.
    split; [reflexivity|]. vm_compute. reflexivity. }
  assert (Hblk : tx_height Examples.txC <> -1 ->
                 block_ok (db Examples.withP5) Examples.txC).
  { intros H. by destruct H. }
  assert (HR : db Examples.withP5 !! KR
               = Some (TXDBState_toRaw (state Examples.withP5))).
  { vm_compute. reflexivity. }
  split; [exact Hq|]. split; [exact Hcoh|]. split; [exact Hins|].
  split; [exact Hfresh|].
  exact (add_then_erase_restores 1 Examples.txC None Examples.withP5
           Hq Hcoh Hins Hfresh Hsp Hblk HR).
Defined.

(** With the spender of an output known before the transaction itself,
    [add] settles the waiting spent marker ([resolveInput]): it writes
    an undo coin under the spender's hash and does not count the
    output, and [erase] then takes the output off the counters and
    leaves the undo coin behind. *)
Lemma add_then_erase_leaves_undo_coin :
  ~ (forall fuel tx block s,
       quiescent s -> cache_coherent s ->
       balance_matches (db s) (state s) ->
       db s !! KR = Some (TXDBState_toRaw (state s)) ->
       fresh (db s) tx ->
       (exists d, (add fuel tx block s).1 = Ok (Some d)) ->
       (exists d, (erase_in_batch tx (add fuel tx block s).2).1 = Ok d) ->
       db (erase_in_batch tx (add fuel tx block s).2).2 = db s).
Proof.
  intros H.
  specialize (H 1%nat Examples.txP None Examples.withC).
  assert (Hq : quiescent Examples.withC).
  { split; [|split; [|split]]; vm_compute; reflexivity. }
  assert (Hcoh : cache_coherent Examples.withC).
  { apply cache_coherent_by_scan. vm_compute. reflexivity. }
  assert (Hbal : balance_matches (db Examples.withC) (state Examples.withC)).
  { vm_compute. reflexivity. }
  assert (HR : db Examples.withC !! KR
               = Some (TXDBState_toRaw (state Examples.withC))).
  { vm_compute. reflexivity. }
  assert (Hfresh : fresh (db Examples.withC) Examples.txP).
  { intros k Hk. apply (absent_by_scan _ (owned_by Examples.txP));
      [vm_compute; reflexivity|exact Hk]. }
  specialize (H Hq Hcoh Hbal HR Hfresh).
  assert (H1 : exists d, (add 1 Examples.txP None Examples.withC).1 = Ok (Some d)).
  { eexists. vm_compute. reflexivity. }
  assert (H2 : exists d,
             (erase_in_batch Examples.txP
                (add 1 Examples.txP None Examples.withC).2).1 = Ok d).
  { eexists. vm_compute. reflexivity. }
  specialize (H H1 H2).
  apply (f_equal (fun m => m !! Kd "cc" 0)) in H.
  vm_compute in H. discriminate H.
Qed.

(** On a wallet that never committed, the state record [R] is created
    by [add] and rewritten, not deleted, by [erase]. *)
Lemma add_then_erase_creates_R :
  db Examples.empty !! KR = None /\
  db (erase_in_batch Examples.txP
        (add 1 Examples.txP None Examples.empty).2).2 !! KR
  = Some (VState 0 0 0 0).
Proof. split; vm_compute; reflexivity. Qed.

(** ** erase and the balance *)







(** ** The balance after a batch that writes each credit key once *)












(** ** confirm *)

(** Bookkeeping after a step of a batch body: the facts about the
    state before the step are replaced by the same facts about the
    state after it. *)
Ltac advance :=
  let s1 := fresh "s" in
  let Hs := fresh "Hs" in
  intros s1 Hs;
  lazymatch type of Hs with
  | step ?s0 _ _ _ =>
      lazymatch goal with
      | Hb : batch_open s0, Hc : cache_coherent s0,
        Hd : db s0 = _, He : env s0 = _ |- _ =>
          let Hb1 := fresh "Hb" in
          let Hc1 := fresh "Hc" in
          let Hd1 := fresh "Hd" in
          let He1 := fresh "He" in
          destruct (step_keeps _ _ _ _ Hs Hb Hc) as (Hb1 & Hc1 & Hd1 & He1);
          try rewrite Hd in Hd1; try rewrite He in He1;
          try (lazymatch goal with
               | Hp : pending s0 = Some _ |- _ =>
                   let Hp1 := fresh "Hp" in
                   pose proof (step_pending_val _ _ _ _ _ Hs Hp) as Hp1
               end);
          clear Hs Hb Hc
      end
  end.

Ltac use_store :=
  repeat match goal with
         | He : env ?s = _ |- context [env ?s] => rewrite He
         | Hd : db ?s = _ |- context [db ?s] => rewrite Hd
         end.

Ltac open_batch :=
  lazymatch goal with
  | Hb : batch_open ?s |- is_Some (current ?s) => exact (proj1 Hb)
  | Hb : batch_open ?s |- is_Some (pending ?s) => exact (proj2 Hb)
  | Hb : batch_open ?s |- batch_open ?s => exact Hb
  end.

Lemma runs_assert b msg s : b = true -> runs (assert b msg) s tt [] delta0.
Proof. intros ->. apply runs_ret. Qed.

Lemma runs_ext {A} (m m' : M A) s a n d :
  m s = m' s -> runs m' s a n d -> runs m s a n d.
Proof. intros E (s' & H & Hs). exists s'. by rewrite E. Qed.

Lemma runs_updateSpentCoin tx i s :
  is_Some (current s) ->
  (forall v, db s !! Ks (tx_hash tx) i = Some v ->
     exists o, v = VOutpoint o /\
       forall v', db s !! Kd (op_hash o) (op_index o) = Some v' ->
                  exists c, v' = VCoin c) ->
  runs (updateSpentCoin tx i) s tt (updateSpentCoin_ops (db s) tx i) delta0.
Proof.
  intros Hcur Hty. unfold updateSpentCoin_ops.
  destruct (db s !! Ks (tx_hash tx) i) as [v|] eqn:Em.
  - destruct (Hty v eq_refl) as (o & -> & Hd).
    destruct (db s !! Kd (op_hash o) (op_index o)) as [v'|] eqn:Ed.
    + destruct (Hd v' eq_refl) as [c ->].
      eapply runs_ext; [|by apply runs_put].
      unfold updateSpentCoin. simpl.
      rewrite (bind_ok _ _ _ _ _ (getSpent_Some _ _ _ _ Em)).
      unfold getSpentCoin, get, gets, bind at 1. unfold bind at 1.
      rewrite Ed. reflexivity.
    + eapply runs_ext; [|apply runs_ret].
      unfold updateSpentCoin. simpl.
      rewrite (bind_ok _ _ _ _ _ (getSpent_Some _ _ _ _ Em)).
      unfold getSpentCoin, get, gets, bind at 1. unfold bind at 1.
      rewrite Ed. reflexivity.
  - eapply runs_ext; [|apply runs_ret].
    unfold updateSpentCoin. simpl.
    by rewrite (bind_ok _ _ _ _ _ (getSpent_None _ _ _ Em)).
Qed.

Lemma reindex_accounts_runs tx accounts :
  forall s, is_Some (current s) ->
  runs (reindex_accounts tx accounts) s tt (reindex_ops tx accounts) delta0.
Proof.
  induction accounts as [|a rest IH]; intros s Hc; [apply runs_ret|].
  simpl. eapply runs_conv.
  - eapply runs_bind; [by apply runs_del|]. intros s1 Hs1.
    pose proof (step_current _ _ _ _ Hs1 Hc) as Hc1.
    eapply runs_bind; [by apply runs_put|]. intros s2 Hs2.
    apply IH. by eapply step_current.
  - reflexivity.
  - reflexivity.
Qed.

Lemma confirm_inputs_runs tx m paths inputs :
  forall i details s,
  batch_open s -> cache_coherent s -> db s = m -> env s = paths ->
  confirmable m (wpaths paths) tx ->
  suffix_at (tx_inputs tx) i inputs ->
  runs (confirm_inputs tx i (zip inputs (spent_credits m tx i inputs)) details) s
       (confirm_inputs_details m (wpaths paths) tx i inputs details)
       (confirm_inputs_ops m (wpaths paths) tx i inputs)
       (confirm_inputs_delta m tx i inputs).
Proof.
  induction inputs as [|input rest IH];
    intros i details s Hb Hc Hd He Hconf Hsuf.
  { simpl. apply runs_ret. }
  pose proof (suffix_at_head _ _ _ _ Hsuf) as Hi.
  pose proof (suffix_at_tail _ _ _ _ Hsuf) as Hsuf'.
  pose proof Hconf as (Hundo & Hty & Hcoin & Hout & Hblk).
  pose proof (Hcoin i input) as Hcoin_i.
  simpl.
  unfold confirm_input_ops, confirm_input_delta, confirm_input_details,
    confirm_credit in Hcoin_i |- *.
  destruct (undo_at m tx i) as [r|] eqn:Eu.
  - (* the spend was recorded: the undo coin is the coin *)
    destruct (Hcoin_i r false Hi eq_refl) as [Hh [path Hp]]. rewrite Hp.
    eapply runs_conv.
    + eapply runs_bind_pure; [apply runs_ret|]. advance.
      eapply runs_bind_pure.
      { apply runs_assert. simpl. apply negb_true_iff. by apply Z.eqb_neq. }
      advance.
      eapply runs_bind_pure; [apply runs_getPath|]. advance.
      simpl. use_store. rewrite Hp.
      eapply runs_bind.
      { apply (runs_update_pending _ _ _ (add_confirmed_delta _)). open_batch. }
      advance.
      eapply runs_bind; [apply runs_removeCredit; open_batch|]. advance.
      apply IH; assumption.
    + reflexivity.
    + simpl. apply delta_eq; simpl; try lia; reflexivity.
  - (* no undo coin: is there a credit by now? *)
    assert (Hty' : forall v,
               db s !! Kc (op_hash (prevout input)) (op_index (prevout input)) = Some v ->
               exists r sp, v = VCredit r sp).
    { rewrite Hd. intros v. by apply (Hty i input). }
    pose proof (runs_getCredit _ _ s Hc Hty') as Hg.
    rewrite credit_at_outpoint, Hd in Hg.
    destruct (credit_at m (prevout input)) as [[r sp]|] eqn:Ecr.
    + destruct (Hcoin_i r true Hi eq_refl) as [Hh [path Hp]]. rewrite Hp.
      eapply runs_conv.
      * eapply runs_bind.
        { eapply runs_bind_pure; [exact Hg|]. advance.
          eapply runs_bind; [apply runs_spendCredit; [open_batch|exact Hi]|].
          advance.
          eapply runs_bind.
          { apply (runs_update_pending _ _ _ (add_coin_delta (-1))). open_batch. }
          advance.
          eapply runs_bind.
          { apply (runs_update_pending _ _ _ (add_unconfirmed_delta _)). open_batch. }
          advance. apply runs_ret. }
        advance.
        eapply runs_bind_pure.
        { apply runs_assert. simpl. apply negb_true_iff. by apply Z.eqb_neq. }
        advance.
        eapply runs_bind_pure; [apply runs_getPath|]. advance.
        simpl. use_store. rewrite Hp.
        eapply runs_bind.
        { apply (runs_update_pending _ _ _ (add_confirmed_delta _)). open_batch. }
        advance.
        eapply runs_bind; [apply runs_removeCredit; open_batch|]. advance.
        apply IH; assumption.
      * simpl. by rewrite Coin_toRaw_fromRaw.
      * simpl. apply delta_eq; simpl; try lia; reflexivity.
    + eapply runs_conv.
      * eapply runs_bind_pure.
        { eapply runs_bind_pure; [exact Hg|]. advance. apply runs_ret. }
        advance.
        apply IH; assumption.
      * reflexivity.
      * by rewrite delta_plus_0_l.
Qed.

Lemma confirm_outputs_runs tx m paths outputs :
  forall i details s,
  batch_open s -> cache_coherent s -> db s = m -> env s = paths ->
  confirmable m (wpaths paths) tx ->
  suffix_at (tx_outputs tx) i outputs ->
  runs (confirm_outputs tx i outputs details) s
       (outputs_details (wpaths paths) i outputs details)
       (confirm_outputs_ops m (wpaths paths) tx i outputs)
       (confirm_outputs_delta (wpaths paths) outputs).
Proof.
  induction outputs as [|output rest IH];
    intros i details s Hb Hc Hd He Hconf Hsuf.
  { simpl. apply runs_ret. }
  pose proof (suffix_at_head _ _ _ _ Hsuf) as Hi.
  pose proof (suffix_at_tail _ _ _ _ Hsuf) as Hsuf'.
  pose proof Hconf as (Hundo & Hty & Hcoin & Hout & Hblk).
  simpl. unfold confirm_output_ops, confirm_output_delta.
  destruct (path_of (wpaths paths) (out_address output)) as [path|] eqn:Ep.
  - destruct (Hout i output path Hi Ep) as (r & sp & Hcr & Hmark).
    assert (Hty' : forall v, db s !! Kc (tx_hash tx) (Z.of_nat i) = Some v ->
                             exists r sp, v = VCredit r sp).
    { rewrite Hd, Hcr. intros v [= <-]. eauto. }
    pose proof (runs_getCredit _ _ s Hc Hty') as Hg.
    rewrite Hd in Hg. unfold credit_at in Hg |- *. simpl in Hg |- *.
    rewrite Hcr in Hg |- *.
    eapply runs_conv.
    + eapply runs_bind_pure; [apply runs_getPath|]. advance.
      use_store. rewrite Ep.
      eapply runs_bind_pure.
      { eapply runs_ext; [|apply runs_getCredit].
        - reflexivity.
        - done.
        - use_store. rewrite Hcr. intros v [= <-]. eauto. }
      advance. unfold credit_at. simpl. use_store. rewrite Hcr.
      eapply runs_bind.
      { instantiate (2 := if sp then updateSpentCoin_ops m tx (Z.of_nat i) else []).
        instantiate (1 := delta0).
        destruct sp; simpl; [|apply runs_ret].
        eapply runs_conv; [apply runs_updateSpentCoin| |reflexivity].
        - open_batch.
        - use_store. by apply Hmark.
        - by use_store. }
      advance.
      eapply runs_bind.
      { apply (runs_update_pending _ _ _ (add_confirmed_delta _)). open_batch. }
      advance.
      eapply runs_bind; [apply runs_saveCredit; open_batch|]. advance.
      apply IH; assumption.
    + simpl. by rewrite <- ?app_assoc.
    + simpl. apply delta_eq; simpl; try lia.
      by rewrite ?orb_false_r.
  - eapply runs_conv.
    + eapply runs_bind_pure; [apply runs_getPath|]. advance.
      use_store. rewrite Ep.
      apply IH; assumption.
    + reflexivity.
    + by rewrite delta_plus_0_l.
Qed.

Lemma _confirm_runs tx block s p :
  batch_open s -> cache_coherent s -> pending s = Some p ->
  confirmable (db s) (wpaths (env s)) tx ->
  runs (_confirm tx block) s
       (confirm_details (db s) (wpaths (env s)) tx)
       (confirm_ops (db s) (wpaths (env s)) tx p)
       (confirm_delta (db s) (wpaths (env s)) tx).
Proof.
  intros Hb Hc Hp Hconf.
  pose proof Hconf as (Hundo & _ & _ & _ & Hblk).
  assert (Hd : db s = db s) by reflexivity.
  assert (He : env s = env s) by reflexivity.
  unfold _confirm.
  eapply runs_conv.
  - eapply runs_bind.
    { instantiate (3 := if tx_coinbase tx then Details_new tx
                        else confirm_inputs_details (db s) (wpaths (env s)) tx 0
                               (tx_inputs tx) (Details_new tx)).
      instantiate (2 := if tx_coinbase tx then []
                        else confirm_inputs_ops (db s) (wpaths (env s)) tx 0
                               (tx_inputs tx)).
      instantiate (1 := if tx_coinbase tx then delta0
                        else confirm_inputs_delta (db s) tx 0 (tx_inputs tx)).
      destruct (tx_coinbase tx) eqn:Ecb; simpl; [apply runs_ret|].
      eapply runs_bind_pure; [by apply getSpentCredits_runs|]. advance.
      apply confirm_inputs_runs; try assumption. apply suffix_at_whole. }
    advance.
    eapply runs_bind.
    { apply confirm_outputs_runs; try eassumption. apply suffix_at_whole. }
    advance.
    eapply runs_bind; [apply runs_del; open_batch|]. advance.
    eapply runs_bind; [apply runs_put; open_batch|]. advance.
    eapply runs_bind; [apply runs_del; open_batch|]. advance.
    eapply runs_bind; [apply runs_put; open_batch|]. advance.
    eapply runs_bind; [apply reindex_accounts_runs; open_batch|]. advance.
    eapply runs_bind.
    { instantiate (2 := if tx_height tx =? -1 then [] else addBlock_ops (db s) tx).
      instantiate (1 := delta0).
      destruct (tx_height tx =? -1) eqn:Eh; simpl; [apply runs_ret|].
      eapply runs_conv; [apply addBlock_runs| |reflexivity].
      - open_batch.
      - use_store. exact Hblk.
      - by use_store. }
    advance.
    eapply runs_bind.
    { lazymatch goal with
      | Hp' : pending ?s' = Some _, Hb' : batch_open ?s'
        |- runs commit_state ?s' _ _ _ =>
          apply (commit_state_runs _ _ (proj1 Hb') Hp')
      end. }
    advance.
    eapply runs_bind_pure; [apply runs_unlockTX|]. advance.
    eapply runs_bind_pure; [apply runs_emit|]. advance.
    eapply runs_bind_pure; [apply (runs_gets pending)|]. advance.
    match goal with
    | Hp' : pending ?s' = Some _ |- context [pending ?s'] => rewrite Hp'
    end.
    eapply runs_bind_pure; [apply runs_emit|]. advance.
    apply runs_ret.
  - unfold confirm_ops, confirm_body_ops, confirm_details. simpl.
    rewrite <- !app_assoc. simpl.
    rewrite ?apply_delta0.
    repeat f_equal.
    unfold TXDBState_toRaw, mark_committed, apply_delta, confirm_delta,
      confirm_body_delta, delta_plus. simpl. f_equal; lia.
  - unfold confirm_delta, confirm_body_delta. simpl.
    rewrite ?delta_plus_0_l, ?delta_plus_0_r.
    apply delta_eq; simpl; try lia.
Qed.

(** [confirm] of a stored mempool transaction runs [_confirm] on it
    with the block fields set, and the commit flushes what it
    staged. *)
Lemma confirm_confirms hash b s tx :
  quiescent s -> cache_coherent s ->
  db s !! Kt hash = Some (VTX tx) -> tx_height tx = -1 ->
  confirmable (db s) (wpaths (env s))
    (tx_set_block tx (bm_height b) (Some (bm_block b)) (bm_ts b) (tx_index tx)) ->
  exists s',
    confirm hash (Some b) s
    = (Ok (Some (confirm_details (db s) (wpaths (env s))
                   (tx_set_block tx (bm_height b) (Some (bm_block b)) (bm_ts b)
                                 (tx_index tx)))), s') /\
    db s' = apply_ops
              (confirm_ops (db s) (wpaths (env s))
                 (tx_set_block tx (bm_height b) (Some (bm_block b)) (bm_ts b)
                               (tx_index tx))
                 (TXDBState_clone (state s)))
              (db s) /\
    state s' = apply_delta
                 (confirm_delta (db s) (wpaths (env s))
                    (tx_set_block tx (bm_height b) (Some (bm_block b)) (bm_ts b)
                                  (tx_index tx)))
                 (TXDBState_clone (state s)) /\
    env s' = env s /\ quiescent s'.
Proof.
  intros Hq Hcoh Ht Hh Hconf.
  set (tx' := tx_set_block tx (bm_height b) (Some (bm_block b)) (bm_ts b)
                           (tx_index tx)) in *.
  destruct (_confirm_runs tx' (Some b) (started s) (TXDBState_clone (state s))
              (started_open s) (started_coherent s Hcoh) eq_refl Hconf)
    as (s2 & Hrun & Hs2).
  change (db (started s)) with (db s) in Hrun, Hs2.
  change (env (started s)) with (env s) in Hrun, Hs2.
  destruct Hs2 as (G1 & G2 & G3 & G4 & G5 & _). simpl in G4, G5.
  destruct (commit_ok s2 _ _ G4 G5) as (s3 & Hcommit & Hdb3 & Hst3 & Henv3 & Hq3).
  { unfold apply_delta, confirm_delta, delta_plus. simpl. apply orb_true_r. }
  exists s3. split.
  { unfold confirm. rewrite (bind_ok _ _ _ _ _ (getTX_Some _ _ _ Ht)).
    apply Z.eqb_eq in Hh. rewrite Hh. simpl.
    rewrite (bind_ok _ _ _ _ _ (start_eq s)).
    unfold bind at 1. unfold try_rethrow. fold tx'. rewrite Hrun.
    by rewrite (bind_ok _ _ _ _ _ Hcommit). }
  split; [rewrite Hdb3, G1; reflexivity|].
  split; [exact Hst3|]. split; [rewrite Henv3, G2; reflexivity|exact Hq3].
Qed.

(** *** confirm and the balance *)
















(** ** disconnect *)

Lemma disconnect_inputs_runs tx tx' m paths inputs :
  forall i details s,
  batch_open s -> cache_coherent s -> db s = m -> env s = paths ->
  disconnectable m (wpaths paths) tx ->
  suffix_at (tx_inputs tx) i inputs ->
  runs (disconnect_inputs tx' i (spent_credits m tx i inputs) details) s
       (erase_inputs_details m (wpaths paths) tx i inputs details)
       (disconnect_inputs_ops m (wpaths paths) tx i inputs)
       (disconnect_inputs_delta m tx i inputs).
Proof.
  induction inputs as [|input rest IH];
    intros i details s Hb Hc Hd He Hdis Hsuf.
  { simpl. apply runs_ret. }
  pose proof (suffix_at_head _ _ _ _ Hsuf) as Hi.
  pose proof (suffix_at_tail _ _ _ _ Hsuf) as Hsuf'.
  pose proof Hdis as (Hh & Hundo & Hcoin & Hout & Hblk).
  simpl.
  unfold disconnect_input_ops, disconnect_input_delta, erase_input_details.
  destruct (undo_at m tx i) as [r|] eqn:Eu.
  - destruct (Hcoin i r Eu) as [Hr [path Hp]]. rewrite Hp.
    eapply runs_conv.
    + eapply runs_bind_pure.
      { apply runs_assert. simpl. apply negb_true_iff. by apply Z.eqb_neq. }
      advance.
      eapply runs_bind_pure; [apply runs_getPath|]. advance.
      simpl. use_store. rewrite Hp.
      eapply runs_bind.
      { apply (runs_update_pending _ _ _ (add_confirmed_delta _)). open_batch. }
      advance.
      eapply runs_bind; [apply runs_saveCredit; open_batch|]. advance.
      apply IH; assumption.
    + simpl. unfold Credit_toRaw. simpl. by rewrite Coin_toRaw_fromRaw.
    + simpl. apply delta_eq; simpl; try lia; reflexivity.
  - eapply runs_conv.
    + apply IH; assumption.
    + reflexivity.
    + by rewrite delta_plus_0_l.
Qed.

Lemma disconnect_outputs_runs tx m paths outputs :
  forall i details s,
  batch_open s -> cache_coherent s -> db s = m -> env s = paths ->
  disconnectable m (wpaths paths) tx ->
  suffix_at (tx_outputs tx) i outputs ->
  runs (disconnect_outputs (tx_unset_block tx) i outputs details) s
       (disconnect_outputs_details m (wpaths paths) tx i outputs details)
       (disconnect_outputs_ops m (wpaths paths) tx i outputs)
       (disconnect_outputs_delta m (wpaths paths) tx i outputs).
Proof.
  induction outputs as [|output rest IH];
    intros i details s Hb Hc Hd He Hdis Hsuf.
  { simpl. apply runs_ret. }
  pose proof (suffix_at_head _ _ _ _ Hsuf) as Hi.
  pose proof (suffix_at_tail _ _ _ _ Hsuf) as Hsuf'.
  pose proof Hdis as (Hh & Hundo & Hcoin & Hout & Hblk).
  simpl.
  unfold disconnect_output_ops, disconnect_output_delta,
    disconnect_output_details.
  destruct (path_of (wpaths paths) (out_address output)) as [path|] eqn:Ep.
  - destruct (Hout i output path Hi Ep) as (Hty & Hmark).
    assert (Hg : forall s0, cache_coherent s0 -> db s0 = m ->
               runs (getCredit (tx_hash tx) (Z.of_nat i)) s0
                    (match credit_at m (mkOutpoint (tx_hash tx) (Z.of_nat i)) with
                     | Some (r, sp) =>
                         Some (mkCredit (Coin_fromRaw r (tx_hash tx) (Z.of_nat i)) sp)
                     | None => None
                     end) [] delta0).
    { intros s0 Hc0 Hd0. rewrite <- Hd0. apply runs_getCredit; [done|].
      by rewrite Hd0. }
    assert (Hupd : forall s0, batch_open s0 -> db s0 = m ->
               runs (updateSpentCoin (tx_unset_block tx) (Z.of_nat i)) s0 tt
                    (updateSpentCoin_ops m (tx_unset_block tx) (Z.of_nat i))
                    delta0).
    { intros s0 Hb0 Hd0. rewrite <- Hd0.
      apply runs_updateSpentCoin; [apply Hb0|]. rewrite Hd0. exact Hmark. }
    destruct (credit_at m (mkOutpoint (tx_hash tx) (Z.of_nat i)))
      as [[r sp]|] eqn:Ecr.
    + eapply runs_conv.
      * eapply runs_bind_pure; [apply runs_getPath|]. advance.
        use_store. rewrite Ep.
        eapply runs_bind_pure; [by apply Hg|]. advance.
        eapply runs_bind.
        { instantiate (2 := if sp then updateSpentCoin_ops m (tx_unset_block tx)
                                         (Z.of_nat i) else []).
          instantiate (1 := delta0).
          destruct sp; simpl; [by apply Hupd|apply runs_ret]. }
        advance.
        eapply runs_bind.
        { apply (runs_update_pending _ _ _ (add_confirmed_delta _)). open_batch. }
        advance.
        eapply runs_bind; [apply runs_saveCredit; open_batch|]. advance.
        apply IH; assumption.
      * simpl. by rewrite <- ?app_assoc.
      * simpl. apply delta_eq; simpl; try lia.
        by rewrite ?orb_false_r.
    + eapply runs_conv.
      * eapply runs_bind_pure; [apply runs_getPath|]. advance.
        use_store. rewrite Ep.
        eapply runs_bind_pure; [by apply Hg|]. advance.
        eapply runs_bind; [by apply Hupd|]. advance.
        apply IH; assumption.
      * reflexivity.
      * by rewrite !delta_plus_0_l.
  - eapply runs_conv.
    + eapply runs_bind_pure; [apply runs_getPath|]. advance.
      use_store. rewrite Ep.
      apply IH; assumption.
    + reflexivity.
    + by rewrite delta_plus_0_l.
Qed.

Lemma unreindex_accounts_runs tx tx' accounts :
  tx_hash tx' = tx_hash tx ->
  forall s, is_Some (current s) ->
  runs (unreindex_accounts tx' (tx_height tx) accounts) s tt
       (unreindex_ops tx accounts) delta0.
Proof.
  intros Eh. induction accounts as [|a rest IH]; intros s Hc; [apply runs_ret|].
  simpl. rewrite Eh. eapply runs_conv.
  - eapply runs_bind; [by apply runs_put|]. intros s1 Hs1.
    pose proof (step_current _ _ _ _ Hs1 Hc) as Hc1.
    eapply runs_bind; [by apply runs_del|]. intros s2 Hs2.
    apply IH. by eapply step_current.
  - reflexivity.
  - reflexivity.
Qed.

Lemma spent_credits_hash m tx tx' inputs :
  tx_hash tx' = tx_hash tx ->
  forall i, spent_credits m tx' i inputs = spent_credits m tx i inputs.
Proof.
  intros Eh. induction inputs as [|input rest IH]; intros i; [done|].
  simpl. rewrite IH. unfold undo_at. by rewrite Eh.
Qed.

Lemma disconnect_runs tx s p :
  batch_open s -> cache_coherent s -> pending s = Some p ->
  disconnectable (db s) (wpaths (env s)) tx ->
  runs (disconnect tx) s
       (disconnect_details (db s) (wpaths (env s)) tx)
       (disconnect_ops (db s) (wpaths (env s)) tx p)
       (disconnect_delta (db s) (wpaths (env s)) tx).
Proof.
  intros Hb Hc Hp Hdis.
  pose proof Hdis as (Hh & Hundo & _ & _ & Hblk).
  assert (Hd : db s = db s) by reflexivity.
  assert (He : env s = env s) by reflexivity.
  unfold disconnect.
  eapply runs_conv.
  - eapply runs_bind_pure.
    { apply runs_assert. apply negb_true_iff. by apply Z.eqb_neq. }
    advance.
    eapply runs_bind.
    { instantiate (3 := if tx_coinbase tx then Details_new tx
                        else erase_inputs_details (db s) (wpaths (env s)) tx 0
                               (tx_inputs tx) (Details_new tx)).
      instantiate (2 := if tx_coinbase tx then []
                        else disconnect_inputs_ops (db s) (wpaths (env s)) tx 0
                               (tx_inputs tx)).
      instantiate (1 := if tx_coinbase tx then delta0
                        else disconnect_inputs_delta (db s) tx 0 (tx_inputs tx)).
      change (tx_coinbase (tx_unset_block tx)) with (tx_coinbase tx).
      destruct (tx_coinbase tx) eqn:Ecb; simpl; [apply runs_ret|].
      eapply runs_bind_pure.
      { apply getSpentCredits_runs; [exact Ecb|]. use_store. exact Hundo. }
      advance. use_store.
      change (tx_inputs (tx_unset_block tx)) with (tx_inputs tx).
      rewrite (spent_credits_hash _ tx (tx_unset_block tx) _ eq_refl).
      apply disconnect_inputs_runs; try assumption. apply suffix_at_whole. }
    advance.
    eapply runs_bind.
    { change (tx_outputs (tx_unset_block tx)) with (tx_outputs tx).
      apply disconnect_outputs_runs; try eassumption. apply suffix_at_whole. }
    advance.
    eapply runs_bind.
    { change (removeBlock (tx_unset_block tx) (tx_height tx))
        with (removeBlock tx (tx_height tx)).
      eapply runs_conv; [apply removeBlock_runs| |reflexivity].
      - open_batch.
      - use_store. exact Hblk.
      - by use_store. }
    advance.
    eapply runs_bind; [apply runs_put; open_batch|]. advance.
    eapply runs_bind; [apply runs_put; open_batch|]. advance.
    eapply runs_bind; [apply runs_del; open_batch|]. advance.
    eapply runs_bind.
    { apply (unreindex_accounts_runs tx); [reflexivity|open_batch]. }
    advance.
    eapply runs_bind.
    { lazymatch goal with
      | Hp' : pending ?s' = Some _, Hb' : batch_open ?s'
        |- runs commit_state ?s' _ _ _ =>
          apply (commit_state_runs _ _ (proj1 Hb') Hp')
      end. }
    advance.
    eapply runs_bind_pure; [apply runs_emit|]. advance.
    eapply runs_bind_pure; [apply (runs_gets pending)|]. advance.
    match goal with
    | Hp' : pending ?s' = Some _ |- context [pending ?s'] => rewrite Hp'
    end.
    eapply runs_bind_pure; [apply runs_emit|]. advance.
    apply runs_ret.
  - unfold disconnect_ops, disconnect_body_ops, disconnect_details. simpl.
    rewrite <- !app_assoc. simpl.
    rewrite ?apply_delta0.
    repeat f_equal.
    unfold TXDBState_toRaw, mark_committed, apply_delta, disconnect_delta,
      disconnect_body_delta, delta_plus. simpl. f_equal; lia.
  - unfold disconnect_delta, disconnect_body_delta. simpl.
    rewrite ?delta_plus_0_l, ?delta_plus_0_r.
    apply delta_eq; simpl; try lia.
Qed.

(** [unconfirm] of a stored confirmed transaction runs [disconnect]
    on it, and the commit flushes what it staged. *)
Lemma unconfirm_disconnects hash s tx :
  quiescent s -> cache_coherent s ->
  db s !! Kt hash = Some (VTX tx) ->
  disconnectable (db s) (wpaths (env s)) tx ->
  exists s',
    unconfirm hash s
    = (Ok (Some (disconnect_details (db s) (wpaths (env s)) tx)), s') /\
    db s' = apply_ops
              (disconnect_ops (db s) (wpaths (env s)) tx
                 (TXDBState_clone (state s)))
              (db s) /\
    state s' = apply_delta (disconnect_delta (db s) (wpaths (env s)) tx)
                           (TXDBState_clone (state s)) /\
    env s' = env s /\ quiescent s'.
Proof.
  intros Hq Hcoh Ht Hdis.
  destruct (disconnect_runs tx (started s) (TXDBState_clone (state s))
              (started_open s) (started_coherent s Hcoh) eq_refl Hdis)
    as (s2 & Hrun & Hs2).
  change (db (started s)) with (db s) in Hrun, Hs2.
  change (env (started s)) with (env s) in Hrun, Hs2.
  destruct Hs2 as (G1 & G2 & G3 & G4 & G5 & _). simpl in G4, G5.
  destruct (commit_ok s2 _ _ G4 G5) as (s3 & Hcommit & Hdb3 & Hst3 & Henv3 & Hq3).
  { unfold apply_delta, disconnect_delta, delta_plus. simpl. apply orb_true_r. }
  exists s3. split.
  { unfold unconfirm. rewrite (bind_ok _ _ _ _ _ (start_eq s)).
    assert (Hun : _unconfirm hash (started s)
                  = (Ok (Some (disconnect_details (db s) (wpaths (env s)) tx)), s2)).
    { unfold _unconfirm.
      rewrite (bind_ok _ _ _ _ _ (getTX_Some (started s) _ _ Ht)).
      by rewrite (bind_ok _ _ _ _ _ Hrun). }
    unfold bind at 1. unfold try_rethrow. rewrite Hun.
    by rewrite (bind_ok _ _ _ _ _ Hcommit). }
  split; [rewrite Hdb3, G1; reflexivity|].
  split; [exact Hst3|]. split; [rewrite Henv3, G2; reflexivity|exact Hq3].
Qed.

(** *** disconnect and the balance *)














(** ** The balance correspondence under the write entry points *)


(** The wallet holding txP at height 5 and its spender txC in the
    mempool accepts each of the four writes. *)
Lemma withP5C_committed :
  quiescent Examples.withP5C /\ cache_coherent Examples.withP5C /\
  balance_matches (db Examples.withP5C) (state Examples.withP5C).
Proof.
  split; [|split].
  - split; [|split; [|split]]; vm_compute; reflexivity.
  - apply cache_coherent_by_scan. vm_compute. reflexivity.
  - vm_compute. reflexivity.
Qed.

Lemma withP5C_add_txQ :
  insertable Examples.withP5C Examples.txQ /\
  (tx_coinbase Examples.txQ = false ->
   NoDup (map prevout (tx_inputs Examples.txQ))) /\
  (tx_coinbase Examples.txQ = false ->
   spends_ok (db Examples.withP5C) Examples.txQ (tx_inputs Examples.txQ)) /\
  (forall i, db Examples.withP5C !! Kc (tx_hash Examples.txQ) i = None).
Proof.
  split; [|split; [|split]].
  - split; [reflexivity|]. split; [vm_compute; reflexivity|].
    split.
    { intros _ [H|(input & Hin & [v Hv])]; [discriminate H|].
      apply list_elem_of_singleton in Hin as ->. vm_compute in Hv. discriminate. }
    split.
    { intros input Hin. apply list_elem_of_singleton in Hin as ->.
      vm_compute. reflexivity. }
    split.
    { intros input v Hin Hv. apply list_elem_of_singleton in Hin as ->.
      vm_compute in Hv. injection Hv as <-.
      eexists _, _, _. split; [reflexivity|vm_compute; reflexivity]. }
    split.
    { intros k. apply (absent_by_scan _ (marker_of "qq"));
        [vm_compute; reflexivity|]. reflexivity. }
    split.
    { intros v Hv. vm_compute in Hv. discriminate. }
    vm_compute. reflexivity.
  - intros _. simpl. apply NoDup_singleton.
  - intros _ input r sp Hin Hcr. apply list_elem_of_singleton in Hin as ->.
    vm_compute in Hcr. injection Hcr as <- <-.
    split; [reflexivity|]. intros H. by contradict H.
  - intros i. apply (absent_by_scan _ (credit_of "qq"));
      [vm_compute; reflexivity|]. reflexivity.
Qed.

Lemma withP5C_undo_coins h j v :
  db Examples.withP5C !! Kd h j = Some v -> h = "cc" /\ j = 0.
Proof.
  intros H. destruct (decide (h = "cc" /\ j = 0)) as [|Hn]; [done|]. exfalso.
  rewrite (absent_by_scan _
             (fun k => match k with
                       | Kd h i => negb (bool_decide (h = "cc") && (i =? 0))
                       | _ => false
                       end)) in H; [discriminate|vm_compute; reflexivity|].
  simpl. destruct (bool_decide (h = "cc")) eqn:E1; [|done].
  destruct (j =? 0) eqn:E2; [|done].
  exfalso. apply Hn. split; [by apply bool_decide_eq_true in E1|by apply Z.eqb_eq].
Qed.

Lemma withP5C_confirm_txC :
  db Examples.withP5C !! Kt "cc" = Some (VTX Examples.txC) /\
  tx_height Examples.txC = -1 /\
  confirmable (db Examples.withP5C) (wpaths (env Examples.withP5C))
    Examples.txC6 /\
  confirm_consistent (db Examples.withP5C) (wpaths (env Examples.withP5C))
    Examples.txC6.
Proof.
  split; [vm_compute; reflexivity|]. split; [reflexivity|]. split.
  - split.
    { intros j v Hv. destruct (withP5C_undo_coins _ _ _ Hv) as [_ ->].
      vm_compute in Hv. injection Hv as <-.
      split; eexists; reflexivity. }
    split.
    { intros i input v Hi Hv. destruct i; [|discriminate Hi].
      injection Hi as <-. vm_compute in Hv. injection Hv as <-.
      eexists _, _. reflexivity. }
    split.
    { intros i input r late Hi Hc. destruct i; [|discriminate Hi].
      injection Hi as <-. vm_compute in Hc. injection Hc as <- <-.
      split; [discriminate|]. eexists. vm_compute. reflexivity. }
    split.
    { intros i output path Hi Hp. destruct i; [|discriminate Hi].
      injection Hi as <-. eexists _, _.
      split; [vm_compute; reflexivity|]. discriminate. }
    intros v Hv. vm_compute in Hv. discriminate.
  - split; [discriminate|]. split.
    { intros _. split; [apply NoDup_singleton|]. split.
      { intros input Hin. apply list_elem_of_singleton in Hin as ->.
        discriminate. }
      intros i input Hi. destruct i; [|discriminate Hi].
      injection Hi as <-. split.
      - intros r Hr. vm_compute in Hr. injection Hr as <-.
        vm_compute. reflexivity.
      - intros r sp Hr. vm_compute in Hr. discriminate. }
    intros i output path r sp Hi Hp Hc. destruct i; [|discriminate Hi].
    injection Hi as <-. vm_compute in Hc. injection Hc as <- <-.
    split; reflexivity.
Qed.

Lemma withP5C_unconfirm_txP :
  db Examples.withP5C !! Kt "aa" = Some (VTX Examples.txP5) /\
  disconnectable (db Examples.withP5C) (wpaths (env Examples.withP5C))
    Examples.txP5 /\
  disconnect_consistent (db Examples.withP5C) (wpaths (env Examples.withP5C))
    Examples.txP5.
Proof.
  assert (Hnone : forall i, undo_at (db Examples.withP5C) Examples.txP5 i = None).
  { intros i. unfold undo_at.
    destruct (db Examples.withP5C !! Kd _ _) as [v|] eqn:E; [|done].
    by destruct (withP5C_undo_coins _ _ _ E) as [? _]. }
  split; [vm_compute; reflexivity|]. split.
  - split; [discriminate|]. split.
    { intros j v Hv. by destruct (withP5C_undo_coins _ _ _ Hv) as [? _]. }
    split.
    { intros i r Hr. rewrite Hnone in Hr. discriminate. }
    split.
    { intros i output path Hi Hp. destruct i; [|discriminate Hi].
      injection Hi as <-. split.
      - intros v Hv. vm_compute in Hv. injection Hv as <-.
        eexists _, _. reflexivity.
      - intros v Hv. vm_compute in Hv. injection Hv as <-.
        eexists. split; [reflexivity|].
        intros v' Hv'. vm_compute in Hv'. injection Hv' as <-.
        eexists. reflexivity. }
    intros v Hv. vm_compute in Hv. injection Hv as <-. eexists. reflexivity.
  - split.
    { intros _. split; [apply NoDup_singleton|]. split.
      { intros input Hin. apply list_elem_of_singleton in Hin as ->.
        discriminate. }
      intros i input r _ Hr. rewrite Hnone in Hr. discriminate. }
    intros i output path r sp Hi Hp Hc. destruct i; [|discriminate Hi].
    injection Hi as <-. vm_compute in Hc. injection Hc as <- <-.
    split; [discriminate|reflexivity].
Qed.

Lemma withP5C_erase_txC :
  erasable Examples.withP5C Examples.txC /\
  erase_consistent (db Examples.withP5C) (wpaths (env Examples.withP5C))
    Examples.txC.
Proof.
  assert (Hundo : forall i r,
            undo_at (db Examples.withP5C) Examples.txC i = Some r ->
            i = 0%nat /\ r = mkCoinRaw 5 10 (Some "addrA") false).
  { intros i r Hr. unfold undo_at in Hr.
    destruct (db Examples.withP5C !! Kd _ _) as [v|] eqn:E; [|discriminate].
    destruct (withP5C_undo_coins _ _ _ E) as [_ E0].
    assert (i = 0%nat) as -> by lia. split; [done|].
    vm_compute in E. injection E as <-. by injection Hr as <-. }
  split.
  - split.
    { intros j v Hv. destruct (withP5C_undo_coins _ _ _ Hv) as [_ ->].
      vm_compute in Hv. injection Hv as <-.
      split; eexists; reflexivity. }
    split.
    { intros i r Hr. destruct (Hundo i r Hr) as [-> ->].
      eexists. vm_compute. reflexivity. }
    intros v Hv. vm_compute in Hv. discriminate.
  - split.
    { intros _. split; [apply NoDup_singleton|]. split.
      { intros input Hin. apply list_elem_of_singleton in Hin as ->.
        discriminate. }
      intros i input r Hi Hr. destruct (Hundo i r Hr) as [-> ->].
      injection Hi as <-. split; [vm_compute; reflexivity|].
      intros H. by destruct H. }
    intros i output path Hi Hp. destruct i; [|discriminate Hi].
    injection Hi as <-. vm_compute. reflexivity.
Qed.


(** [erase] run on its own on a transaction one of whose outputs has
    a recorded spender does not keep the correspondence: txP is added
    after its spender txC, so the credit of its output is stored
    flagged spent and was never counted in [unconfirmed], and [erase]
    takes its value off.  [removeRecursive] erases the spenders
    first. *)
Lemma erase_breaks_balance :
  quiescent Examples.withCP /\
  balance_matches (db Examples.withCP) (state Examples.withCP) /\
  (erase_in_batch Examples.txP Examples.withCP).1
  = Ok (erase_details (db Examples.withCP) (wpaths Examples.env0) Examples.txP) /\
  state (erase_in_batch Examples.txP Examples.withCP).2
  = mkState 1 0 (-1) 0 true /\
  getWalletBalance (db (erase_in_batch Examples.txP Examples.withCP).2)
  = mkBalance 9 0.
Proof.
  split; [split; [|split; [|split]]; vm_compute; reflexivity|].
  repeat split; vm_compute; reflexivity.
Qed.

(** * Further properties of the code *)

(** ** Block records *)

Lemma remove_first_not_in hash l : hash ∉ l -> remove_first hash l = l.
Proof.
  induction l as [|x rest IH]; intros H; [done|]. simpl.
  rewrite bool_decide_eq_false_2.
  - f_equal. apply IH. intros Hin. apply H. by apply elem_of_cons; right.
  - intros ->. apply H. apply list_elem_of_here.
Qed.

Lemma remove_first_elem hash l x :
  x ∈ remove_first hash l -> x ∈ l.
Proof.
  induction l as [|y rest IH]; intros H; [done|]. simpl in H.
  destruct (bool_decide (y = hash)).
  - by apply elem_of_cons; right.
  - apply elem_of_cons in H as [->|H]; [apply list_elem_of_here|].
    apply elem_of_cons; right. by apply IH.
Qed.

Lemma remove_first_other hash l x :
  x <> hash -> x ∈ l -> x ∈ remove_first hash l.
Proof.
  intros Hne. induction l as [|y rest IH]; intros H; [done|]. simpl.
  apply elem_of_cons in H as [->|H].
  - rewrite bool_decide_eq_false_2 by done. apply list_elem_of_here.
  - destruct (bool_decide (y = hash)); [done|].
    apply elem_of_cons; right. by apply IH.
Qed.

Lemma remove_first_NoDup hash l :
  NoDup l -> NoDup (remove_first hash l) /\ hash ∉ remove_first hash l.
Proof.
  induction l as [|y rest IH]; intros Hnd; [split; [constructor|by intros H%elem_of_nil]|].
  apply NoDup_cons in Hnd as [Hy Hnd]. simpl.
  destruct (bool_decide (y = hash)) eqn:E.
  - apply bool_decide_eq_true in E as ->. done.
  - apply bool_decide_eq_false in E. destruct (IH Hnd) as [IH1 IH2]. split.
    + apply NoDup_cons. split; [|done].
      intros H. apply Hy. by eapply remove_first_elem.
    + intros H. apply elem_of_cons in H as [->|H]; [done|]. by apply IH2.
Qed.

Lemma remove_first_sublist hash l : remove_first hash l `sublist_of` l.
Proof.
  induction l as [|y rest IH]; [constructor|]. simpl.
  destruct (bool_decide (y = hash)).
  - by apply sublist_cons.
  - by apply sublist_skip.
Qed.

Lemma removelast_is_remove_first hash l :
  NoDup l -> last l = Some hash -> removelast l = remove_first hash l.
Proof.
  induction l as [|y rest IH]; intros Hnd Hl; [done|].
  apply NoDup_cons in Hnd as [Hy Hnd].
  destruct rest as [|z rest'].
  - simpl in *. injection Hl as ->. by rewrite bool_decide_eq_true_2.
  - change (last (y :: z :: rest')) with (last (z :: rest')) in Hl.
    change (removelast (y :: z :: rest')) with (y :: removelast (z :: rest')).
    simpl remove_first. rewrite bool_decide_eq_false_2.
    + f_equal. by apply IH.
    + intros ->. apply Hy. apply last_Some_elem_of. exact Hl.
Qed.

(** X1. A block record lists a hash once: [add] refuses a hash that is
    listed and appends one that is not, and [remove] of the hash just
    added gives the record back; [remove] refuses a hash that is not
    listed. *)
Theorem BlockRecord_add_then_remove (b : BlockRecord) (hash : Hash) :
  (hash ∈ br_hashes b -> BlockRecord_add b hash = None) /\
  (hash ∉ br_hashes b -> BlockRecord_remove b hash = None) /\
  (hash ∉ br_hashes b ->
   exists b', BlockRecord_add b hash = Some b' /\
              br_hashes b' = br_hashes b ++ [hash] /\
              BlockRecord_remove b' hash = Some b).
Proof.
  split; [|split].
  - intros H. unfold BlockRecord_add. by rewrite bool_decide_eq_true_2.
  - intros H. unfold BlockRecord_remove. by rewrite bool_decide_eq_false_2.
  - intros H. unfold BlockRecord_add. rewrite bool_decide_eq_false_2 by done.
    eexists. split; [reflexivity|]. split; [reflexivity|].
    unfold BlockRecord_remove. simpl.
    rewrite bool_decide_eq_true_2 by (apply elem_of_app; right; apply list_elem_of_here).
    rewrite bool_decide_eq_true_2 by apply last_snoc.
    rewrite removelast_last. by destruct b.
Qed.

Lemma BlockRecord_add_then_remove_witness :
  ("aa" ∉ br_hashes (mkBlockRecord "b5" 5 50 ["cc"])) /\
  exists b', BlockRecord_add (mkBlockRecord "b5" 5 50 ["cc"]) "aa" = Some b' /\
             br_hashes b' = ["cc"; "aa"] /\
             BlockRecord_remove b' "aa" = Some (mkBlockRecord "b5" 5 50 ["cc"]).
Proof.
  assert (H : "aa" ∉ br_hashes (mkBlockRecord "b5" 5 50 ["cc"])).
  { simpl. intros Hin. apply list_elem_of_singleton in Hin. discriminate. }
  split; [exact H|].
  exact (proj2 (proj2 (BlockRecord_add_then_remove _ "aa")) H).
Defined.

(** X2. On a record without duplicates, [remove] of a listed hash
    leaves a record without duplicates that no longer lists the hash,
    lists every other hash it listed, in the same relative order, and
    keeps the block's hash, height and time; [add] keeps the record
    free of duplicates. *)
Theorem BlockRecord_remove_listed (b : BlockRecord) (hash : Hash) :
  NoDup (br_hashes b) ->
  (forall b', BlockRecord_add b hash = Some b' -> NoDup (br_hashes b')) /\
  (hash ∈ br_hashes b ->
   exists b', BlockRecord_remove b hash = Some b' /\
     NoDup (br_hashes b') /\ (hash ∉ br_hashes b') /\
     (forall x, x <> hash -> x ∈ br_hashes b -> x ∈ br_hashes b') /\
     br_hashes b' `sublist_of` br_hashes b /\
     length (br_hashes b) = S (length (br_hashes b')) /\
     br_hash b' = br_hash b /\ br_height b' = br_height b /\ br_ts b' = br_ts b).
Proof.
  intros Hnd. split.
  - intros b' H. unfold BlockRecord_add in H.
    destruct (bool_decide (hash ∈ br_hashes b)) eqn:E; [discriminate|].
    apply bool_decide_eq_false in E. injection H as <-. simpl.
    apply NoDup_app. split; [done|]. split; [|apply NoDup_singleton].
    intros x Hx Hx'. apply list_elem_of_singleton in Hx' as ->. done.
  - intros Hin. unfold BlockRecord_remove. rewrite bool_decide_eq_true_2 by done.
    eexists. split; [reflexivity|]. simpl.
    assert (E : (if bool_decide (last (br_hashes b) = Some hash)
                 then removelast (br_hashes b)
                 else remove_first hash (br_hashes b))
                = remove_first hash (br_hashes b)).
    { destruct (bool_decide (last (br_hashes b) = Some hash)) eqn:El; [|done].
      apply bool_decide_eq_true in El. by apply removelast_is_remove_first. }
    rewrite E. destruct (remove_first_NoDup hash _ Hnd) as [H1 H2].
    split; [done|]. split; [done|].
    split; [intros x Hx Hxin; by apply remove_first_other|].
    split; [apply remove_first_sublist|].
    split; [|done].
    clear -Hin. induction (br_hashes b) as [|y rest IH]; [by apply elem_of_nil in Hin|].
    simpl. destruct (bool_decide (y = hash)) eqn:Ey; [done|].
    apply bool_decide_eq_false in Ey.
    apply elem_of_cons in Hin as [->|Hin]; [done|]. simpl. by rewrite <- IH.
Qed.

Lemma BlockRecord_remove_listed_witness :
  NoDup (br_hashes (mkBlockRecord "b5" 5 50 ["aa"; "cc"])) /\
  exists b', BlockRecord_remove (mkBlockRecord "b5" 5 50 ["aa"; "cc"]) "aa" = Some b' /\
             br_hashes b' = ["cc"].
Proof.
  assert (Hnd : NoDup (br_hashes (mkBlockRecord "b5" 5 50 ["aa"; "cc"]))).
  { simpl. apply NoDup_cons. split; [|apply NoDup_singleton].
    intros H. apply list_elem_of_singleton in H. discriminate. }
  split; [exact Hnd|].
  destruct (proj2 (BlockRecord_remove_listed _ "aa" Hnd)) as (b' & Hb & _).
  { simpl. apply list_elem_of_here. }
  exists b'. split; [exact Hb|].
  vm_compute in Hb. injection Hb as <-. reflexivity.
Defined.

(** ** Coin locks *)

Lemma lock_inputs_spec inputs s :
  lock_inputs inputs s
  = (Ok tt, set_locked (fun l => l ∪ list_to_set
       (map (fun input => (op_hash (prevout input), op_index (prevout input)))
            inputs)) s).
Proof.
  revert s. induction inputs as [|input rest IH]; intros s.
  - simpl. unfold ret. f_equal. destruct s. unfold set_locked. simpl.
    f_equal. by rewrite (right_id_L ∅ (∪)).
  - simpl. unfold bind, lockCoin, modify. rewrite IH. f_equal.
    destruct s. unfold set_locked. simpl. f_equal.
    by rewrite (assoc_L (∪)).
Qed.

Lemma unlock_inputs_spec inputs s :
  unlock_inputs inputs s
  = (Ok tt, set_locked (fun l => l ∖ list_to_set
       (map (fun input => (op_hash (prevout input), op_index (prevout input)))
            inputs)) s).
Proof.
  revert s. induction inputs as [|input rest IH]; intros s.
  - simpl. unfold ret. f_equal. destruct s. unfold set_locked. simpl.
    f_equal. by rewrite difference_empty_L.
  - simpl. unfold bind, unlockCoin, modify. rewrite IH. f_equal.
    destruct s. unfold set_locked. simpl. f_equal.
    by rewrite difference_difference_l_L.
Qed.

(** X3. [lockTX] locks every outpoint the transaction spends and
    nothing else, and leaves the rest of the object alone; a coinbase
    locks nothing.  [unlockTX] after [lockTX] gives back the lock
    table when none of these outpoints was locked before. *)
Theorem lockTX_locks (tx : TX) (s : TXDB) :
  exists s',
    lockTX tx s = (Ok tt, s') /\
    s' = set_locked (fun _ => locked s') s /\
    (tx_coinbase tx = true -> locked s' = locked s) /\
    (tx_coinbase tx = false ->
     (forall input, input ∈ tx_inputs tx ->
        isLocked (prevout input) s' = (Ok true, s')) /\
     (forall o, (forall input, input ∈ tx_inputs tx -> prevout input <> o) ->
        (isLocked o s').1 = (isLocked o s).1)) /\
    (spent_keys tx ## locked s ->
     exists s'', unlockTX tx s' = (Ok tt, s'') /\ s'' = s).
Proof.
  unfold lockTX, unlockTX. destruct (tx_coinbase tx) eqn:Ecb.
  - exists s. split; [done|]. split; [by destruct s|]. split; [done|].
    split; [done|]. intros _. by exists s.
  - rewrite lock_inputs_spec. eexists. split; [reflexivity|].
    split; [by destruct s|]. split; [done|]. split.
    + intros _. split.
      * intros input Hin. unfold isLocked, gets. do 2 f_equal.
        apply bool_decide_eq_true_2. simpl. apply elem_of_union; right.
        apply elem_of_list_to_set, list_elem_of_fmap.
        by exists input.
      * intros o Ho. unfold isLocked, gets. simpl. f_equal.
        apply bool_decide_ext. split.
        -- intros [H|H]%elem_of_union; [done|]. exfalso.
           apply elem_of_list_to_set, list_elem_of_fmap in H as (input & E & Hin).
           apply (Ho input Hin). injection E as E1 E2.
           destruct o, (prevout input); simpl in *; congruence.
        -- intros H. by apply elem_of_union; left.
    + intros Hdisj. rewrite unlock_inputs_spec. eexists. split; [reflexivity|].
      destruct s. unfold set_locked, spent_keys in *. simpl in *. f_equal.
      rewrite difference_union_distr_l_L, difference_diag_L.
      rewrite (right_id_L ∅ (∪)). by apply difference_disjoint_L.
Qed.

Lemma lockTX_locks_witness :
  spent_keys Examples.txC ## locked Examples.withP /\
  exists s',
    lockTX Examples.txC Examples.withP = (Ok tt, s') /\
    isLocked (mkOutpoint "aa" 0) s' = (Ok true, s') /\
    unlockTX Examples.txC s' = (Ok tt, Examples.withP).
Proof.
  assert (Hd : spent_keys Examples.txC ## locked Examples.withP).
  { assert (locked Examples.withP = ∅) as -> by (vm_compute; reflexivity).
    apply disjoint_empty_r. }
  split; [exact Hd|].
  destruct (lockTX_locks Examples.txC Examples.withP)
    as (s' & Hl & _ & _ & Hin & Hun).
  exists s'. split; [exact Hl|]. split.
  - apply (proj1 (Hin eq_refl) (mkInput (mkOutpoint "aa" 0) None)).
    apply list_elem_of_here.
  - destruct (Hun Hd) as (s'' & H1 & ->). exact H1.
Defined.

Lemma filterLocked_from_spec coins :
  forall out s,
  filterLocked_from coins out s
  = (Ok (out ++ filter (fun c => (op_hash c, op_index c) ∉ locked s) coins), s).
Proof.
  induction coins as [|c rest IH]; intros out s.
  - simpl. by rewrite app_nil_r.
  - simpl. unfold bind, isLocked, gets. rewrite IH.
    destruct (bool_decide ((op_hash c, op_index c) ∈ locked s)) eqn:E.
    + apply bool_decide_eq_true in E. rewrite filter_cons_False; [done|].
      intros H. by apply H.
    + apply bool_decide_eq_false in E. rewrite filter_cons_True by done.
      by rewrite <- app_assoc.
Qed.

Lemma filter_locked_nil (L : gset (Hash * Z)) inputs :
  (forall input, input ∈ inputs ->
     (op_hash (prevout input), op_index (prevout input)) ∈ L) ->
  filter (fun c => (op_hash c, op_index c) ∉ L) (map prevout inputs) = [].
Proof.
  induction inputs as [|input rest IH]; intros H; [done|].
  simpl. rewrite filter_cons_False.
  - apply IH. intros x Hx. apply H. by apply elem_of_cons; right.
  - intros Hn. apply Hn, H, list_elem_of_here.
Qed.

(** X4. [filterLocked] returns the coins that are not locked, in the
    order given, and changes nothing; on the outpoints of a
    transaction just locked it returns the empty array. *)
Theorem filterLocked_unlocked (coins : list Outpoint) (tx : TX) (s : TXDB) :
  filterLocked coins s
  = (Ok (filter (fun c => (op_hash c, op_index c) ∉ locked s) coins), s) /\
  (tx_coinbase tx = false ->
   forall s', lockTX tx s = (Ok tt, s') ->
     filterLocked (map prevout (tx_inputs tx)) s' = (Ok [], s')).
Proof.
  split; [apply (filterLocked_from_spec coins [] s)|].
  intros Hcb s' Hl. unfold filterLocked. rewrite filterLocked_from_spec.
  f_equal. f_equal. simpl.
  unfold lockTX in Hl. rewrite Hcb, lock_inputs_spec in Hl.
  injection Hl as <-. simpl.
  apply filter_locked_nil. intros input Hin. apply elem_of_union; right.
  apply elem_of_list_to_set, list_elem_of_fmap. by exists input.
Qed.

Lemma filterLocked_unlocked_witness :
  tx_coinbase Examples.txC = false /\
  filterLocked [mkOutpoint "aa" 0; mkOutpoint "cc" 0]
               (lockTX Examples.txC Examples.withP).2
  = (Ok [mkOutpoint "cc" 0], (lockTX Examples.txC Examples.withP).2) /\
  filterLocked (map prevout (tx_inputs Examples.txC))
               (lockTX Examples.txC Examples.withP).2
  = (Ok [], (lockTX Examples.txC Examples.withP).2).
Proof.
  split; [reflexivity|]. split.
  - rewrite (proj1 (filterLocked_unlocked _ Examples.txC _)). f_equal.
  - apply (proj2 (filterLocked_unlocked [] Examples.txC Examples.withP) eq_refl).
    reflexivity.
Defined.

(** ** Bodies of a batch only stage *)

Lemma kept_refl s : kept s s.
Proof. by repeat split. Qed.

Lemma kept_trans s1 s2 s3 : kept s1 s2 -> kept s2 s3 -> kept s1 s3.
Proof.
  intros (D1 & S1 & E1 & C1 & P1 & H1) (D2 & S2 & E2 & C2 & P2 & H2).
  repeat split; try congruence; auto.
Qed.

Lemma staging_ret {A} (a : A) : staging (ret a).
Proof. intros s r s' [= <- <-]. apply kept_refl. Qed.

Lemma staging_throw {A} msg : staging (@throw A msg).
Proof. intros s r s' [= <- <-]. apply kept_refl. Qed.

Lemma staging_gets {A} (f : TXDB -> A) : staging (gets f).
Proof. intros s r s' [= <- <-]. apply kept_refl. Qed.

Lemma staging_bind {A B} (m : M A) (k : A -> M B) :
  staging m -> (forall a, staging (k a)) -> staging (bind m k).
Proof.
  intros Hm Hk s r s' H. unfold bind in H.
  destruct (m s) as [[a|e|] s1] eqn:E.
  - eapply kept_trans; [exact (Hm _ _ _ E)|exact (Hk _ _ _ _ H)].
  - injection H as <- <-. exact (Hm _ _ _ E).
  - injection H as <- <-. exact (Hm _ _ _ E).
Qed.

Lemma staging_modify (f : TXDB -> TXDB) :
  (forall s, kept s (f s)) -> staging (modify f).
Proof. intros Hf s r s' [= <- <-]. apply Hf. Qed.

Lemma staging_assert c msg : staging (assert c msg).
Proof. destruct c; [apply staging_ret|apply staging_throw]. Qed.

Lemma staging_decode {A} (r : option A) : staging (decode r).
Proof. destruct r; [apply staging_ret|apply staging_throw]. Qed.

Lemma staging_put k v : staging (put k v).
Proof.
  intros s r s' H. unfold put, bind, gets, modify in H.
  destruct (current s) eqn:E; injection H as <- <-; [|apply kept_refl].
  repeat split; simpl; eauto.
Qed.

Lemma staging_del k : staging (del k).
Proof.
  intros s r s' H. unfold del, bind, gets, modify in H.
  destruct (current s) eqn:E; injection H as <- <-; [|apply kept_refl].
  repeat split; simpl; eauto.
Qed.

Lemma staging_update_pending f : staging (update_pending f).
Proof.
  intros s r s' H. unfold update_pending, bind, gets, modify in H.
  destruct (pending s) eqn:E; injection H as <- <-; [|apply kept_refl].
  repeat split; simpl; eauto.
Qed.

Lemma staging_emit ev data details : staging (emit ev data details).
Proof. apply staging_modify. intros s. by repeat split. Qed.

Lemma staging_cache_push k v :
  staging (modify (set_coinCache (fun l => LRU_push l k v))).
Proof. apply staging_modify. intros s. by repeat split. Qed.

Lemma staging_cache_unpush k :
  staging (modify (set_coinCache (fun l => LRU_unpush l k))).
Proof. apply staging_modify. intros s. by repeat split. Qed.

Lemma staging_unlockCoin o : staging (unlockCoin o).
Proof. apply staging_modify. intros s. by repeat split. Qed.

Lemma staging_clear : staging clear.
Proof.
  intros s r s' [= <- <-]. repeat split; simpl; eauto.
Qed.

Lemma staging_getCredit hash index : staging (getCredit hash index).
Proof.
  intros s r s' H.
  unfold getCredit, bind, gets, get, modify, decode, ret, throw in H.
  destruct (LRU_get (coinCache s) (hash, index)) as [data|].
  { destruct (Credit_fromRaw data hash index);
      injection H as <- <-; apply kept_refl. }
  simpl in H.
  destruct (db s !! Kc hash index) as [data|] eqn:E;
    [|injection H as <- <-; apply kept_refl].
  destruct (Credit_fromRaw data hash index);
    injection H as <- <-; [|apply kept_refl].
  repeat split; simpl; auto.
  intros Hcoh h i v Hl. simpl in Hl.
  destruct (decide ((hash, index) = (h, i))) as [[= <- <-]|Hne].
  - rewrite lookup_insert_eq in Hl. by injection Hl as <-.
  - rewrite lookup_insert_ne in Hl by done. by apply Hcoh.
Qed.

Create HintDb staging.

#[local] Hint Resolve staging_ret staging_throw staging_gets staging_assert
  staging_decode staging_put staging_del staging_update_pending
  staging_emit staging_cache_push staging_cache_unpush staging_unlockCoin
  staging_clear staging_getCredit : staging.

Ltac staging_step :=
  first
    [ solve [auto with staging]
    | match goal with
      | |- staging (bind _ _) => apply staging_bind; [|intro]
      | |- staging (match ?x with _ => _ end) => destruct x
      end
    | progress cbv zeta ].

Ltac staging_auto := repeat staging_step.

Lemma staging_get k : staging (get k).
Proof. apply staging_gets. Qed.

Lemma staging_has k : staging (has k).
Proof. apply staging_gets. Qed.

Lemma staging_getPath a : staging (getPath a).
Proof. apply staging_gets. Qed.

#[local] Hint Resolve staging_get staging_has staging_getPath : staging.

Lemma staging_getTX hash : staging (getTX hash).
Proof. unfold getTX. staging_auto. Qed.

Lemma staging_getSpent hash index : staging (getSpent hash index).
Proof. unfold getSpent. staging_auto. Qed.

Lemma staging_getSpentCoin spent prevout : staging (getSpentCoin spent prevout).
Proof. unfold getSpentCoin. staging_auto. Qed.

Lemma staging_hasSpentCoin spent : staging (hasSpentCoin spent).
Proof. apply staging_gets. Qed.

Lemma staging_getBlock height : staging (getBlock height).
Proof. unfold getBlock. staging_auto. Qed.

Lemma staging_getSpentCredits tx : staging (getSpentCredits tx).
Proof. unfold getSpentCredits. staging_auto. Qed.

Lemma staging_commit_state : staging commit_state.
Proof. unfold commit_state. staging_auto. Qed.

Lemma staging_saveCredit credit path : staging (saveCredit credit path).
Proof. unfold saveCredit. staging_auto. Qed.

Lemma staging_removeCredit credit path : staging (removeCredit credit path).
Proof. unfold removeCredit. staging_auto. Qed.

Lemma staging_input_prevout tx index : staging (input_prevout tx index).
Proof. unfold input_prevout. staging_auto. Qed.

#[local] Hint Resolve staging_getTX staging_getSpent staging_getSpentCoin
  staging_hasSpentCoin staging_getBlock staging_getSpentCredits
  staging_commit_state staging_saveCredit staging_removeCredit
  staging_input_prevout : staging.

Lemma staging_spendCredit credit tx index : staging (spendCredit credit tx index).
Proof. unfold spendCredit. staging_auto. Qed.

Lemma staging_unspendCredit tx index : staging (unspendCredit tx index).
Proof. unfold unspendCredit. staging_auto. Qed.

Lemma staging_writeInput tx index : staging (writeInput tx index).
Proof. unfold writeInput. staging_auto. Qed.

Lemma staging_removeInput tx index : staging (removeInput tx index).
Proof. unfold removeInput. staging_auto. Qed.

Lemma staging_updateSpentCoin tx index : staging (updateSpentCoin tx index).
Proof. unfold updateSpentCoin. staging_auto. Qed.

#[local] Hint Resolve staging_spendCredit staging_unspendCredit
  staging_writeInput staging_removeInput staging_updateSpentCoin : staging.

Lemma staging_resolveInput tx index path : staging (resolveInput tx index path).
Proof. unfold resolveInput. staging_auto. Qed.

Lemma staging_isRBF tx : staging (isRBF tx).
Proof.
  unfold isRBF. destruct (tx_rbf tx); [apply staging_ret|].
  induction (tx_inputs tx) as [|input rest IH]; simpl; staging_auto.
Qed.

Lemma staging_addBlock tx entry : staging (addBlock tx entry).
Proof. unfold addBlock. staging_auto. Qed.

Lemma staging_removeBlock tx height : staging (removeBlock tx height).
Proof. unfold removeBlock. staging_auto. Qed.

Lemma staging_unlockTX tx : staging (unlockTX tx).
Proof.
  unfold unlockTX. destruct (tx_coinbase tx); [apply staging_ret|].
  induction (tx_inputs tx) as [|input rest IH]; simpl; staging_auto.
Qed.

Lemma staging_index_accounts tx accounts : staging (index_accounts tx accounts).
Proof. induction accounts as [|a rest IH]; simpl; staging_auto. Qed.

Lemma staging_reindex_accounts tx accounts : staging (reindex_accounts tx accounts).
Proof. induction accounts as [|a rest IH]; simpl; staging_auto. Qed.

Lemma staging_unreindex_accounts tx height accounts :
  staging (unreindex_accounts tx height accounts).
Proof. induction accounts as [|a rest IH]; simpl; staging_auto. Qed.

Lemma staging_unindex_accounts tx accounts : staging (unindex_accounts tx accounts).
Proof. induction accounts as [|a rest IH]; simpl; staging_auto. Qed.

#[local] Hint Resolve staging_resolveInput staging_isRBF staging_addBlock
  staging_removeBlock staging_unlockTX staging_index_accounts
  staging_reindex_accounts staging_unreindex_accounts
  staging_unindex_accounts : staging.

Lemma staging_insert_inputs tx inputs :
  forall i details updated, staging (insert_inputs tx i inputs details updated).
Proof.
  induction inputs as [|input rest IH]; intros i details updated; simpl;
    staging_auto.
Qed.

Lemma staging_insert_outputs tx outputs :
  forall i details updated, staging (insert_outputs tx i outputs details updated).
Proof.
  induction outputs as [|output rest IH]; intros i details updated; simpl;
    staging_auto.
Qed.

#[local] Hint Resolve staging_insert_inputs staging_insert_outputs : staging.

Lemma staging_insert tx block : staging (insert tx block).
Proof. unfold insert. staging_auto. Qed.

Lemma staging_confirm_inputs tx inputs :
  forall i details, staging (confirm_inputs tx i inputs details).
Proof.
  induction inputs as [|[input credit] rest IH]; intros i details; simpl;
    staging_auto.
Qed.

Lemma staging_confirm_outputs tx outputs :
  forall i details, staging (confirm_outputs tx i outputs details).
Proof.
  induction outputs as [|output rest IH]; intros i details; simpl;
    staging_auto.
Qed.

#[local] Hint Resolve staging_confirm_inputs staging_confirm_outputs : staging.

Lemma staging__confirm tx block : staging (_confirm tx block).
Proof. unfold _confirm. staging_auto. Qed.

Lemma staging_disconnect_inputs tx credits :
  forall i details, staging (disconnect_inputs tx i credits details).
Proof.
  induction credits as [|[credit|] rest IH]; intros i details; simpl;
    staging_auto.
Qed.

Lemma staging_disconnect_outputs tx outputs :
  forall i details, staging (disconnect_outputs tx i outputs details).
Proof.
  induction outputs as [|output rest IH]; intros i details; simpl;
    staging_auto.
Qed.

#[local] Hint Resolve staging_disconnect_inputs staging_disconnect_outputs
  : staging.

Lemma staging_disconnect tx : staging (disconnect tx).
Proof. unfold disconnect. staging_auto. Qed.

Lemma staging_erase_inputs tx credits :
  forall i details, staging (erase_inputs tx i credits details).
Proof.
  induction credits as [|[credit|] rest IH]; intros i details; simpl;
    staging_auto.
Qed.

Lemma staging_erase_outputs tx outputs :
  forall i details, staging (erase_outputs tx i outputs details).
Proof.
  induction outputs as [|output rest IH]; intros i details; simpl;
    staging_auto.
Qed.

#[local] Hint Resolve staging_erase_inputs staging_erase_outputs : staging.

Lemma staging_erase tx : staging (erase tx).
Proof. unfold erase. staging_auto. Qed.

#[local] Hint Resolve staging_insert staging__confirm staging_disconnect
  staging_erase : staging.

(** ** A write that throws has written nothing *)

Lemma commit_open s :
  is_Some (current s) -> is_Some (pending s) ->
  exists s', commit s = (Ok tt, s').
Proof.
  intros [ops Hc] [p Hp]. unfold commit, wallet_commit, bind, gets, modify.
  rewrite Hc. simpl. rewrite Hp. destruct (st_committed p); eauto.
Qed.

Lemma drop_closes s :
  exists s', drop s = (Ok tt, s') /\
    db s' = db s /\ state s' = state s /\ env s' = env s /\ quiescent s' /\
    lru_items (coinCache s') = lru_items (coinCache s).
Proof. eexists. split; [reflexivity|]. by repeat split. Qed.

(** The shape shared by [add], [confirm] and [unconfirm]: a body run
    between [start] and [commit], the batch being dropped when the
    body throws. *)
Lemma batch_throws {A B} (body : M A) (f : A -> B) s msg s' :
  (forall r s2, body (started s) = (r, s2) -> kept (started s) s2) ->
  (start ;; r <- try_rethrow body drop ;; commit ;; ret (f r)) s
  = (Throw msg, s') ->
  db s' = db s /\ state s' = state s /\ env s' = env s /\ quiescent s' /\
  (cache_coherent s -> cache_coherent s').
Proof.
  intros Hbody H. unfold bind at 1 in H. rewrite start_eq in H.
  unfold bind at 1 in H. unfold try_rethrow in H.
  destruct (body (started s)) as [[a|e|] s2] eqn:Eb.
  - exfalso. destruct (Hbody _ _ eq_refl) as (_ & _ & _ & Hc & Hp & _).
    destruct (commit_open s2) as [s3 E3].
    { apply Hc. simpl. eauto. }
    { apply Hp. simpl. eauto. }
    unfold bind in H. rewrite E3 in H. discriminate.
  - destruct (Hbody _ _ eq_refl) as (Hd & Hs & He & _ & _ & Hcoh).
    destruct (drop_closes s2) as (s3 & E3 & Hd3 & Hs3 & He3 & Hq3 & Hi3).
    rewrite E3 in H. injection H as <- <-.
    split; [by rewrite Hd3, Hd|]. split; [by rewrite Hs3, Hs|].
    split; [by rewrite He3, He|]. split; [exact Hq3|].
    intros Hcs h i v Hl. rewrite Hi3 in Hl. rewrite Hd3.
    apply (Hcoh (started_coherent s Hcs)). exact Hl.
  - discriminate.
Qed.

Lemma getTX_reads hash s r s' : getTX hash s = (r, s') -> s' = s.
Proof.
  unfold getTX, bind, get, gets, decode, ret, throw. simpl.
  destruct (db s !! Kt hash) as [v|]; [|by intros [= _ <-]].
  destruct (TX_fromExtended v); by intros [= _ <-].
Qed.

Lemma confirm_throws_kept hash block s msg s' :
  quiescent s -> confirm hash block s = (Throw msg, s') ->
  db s' = db s /\ state s' = state s /\ env s' = env s /\ quiescent s' /\
  (cache_coherent s -> cache_coherent s').
Proof.
  intros Hq H. unfold confirm in H. unfold bind at 1 in H.
  destruct (getTX hash s) as [[otx|e|] s1] eqn:Eg;
    pose proof (getTX_reads _ _ _ _ Eg) as ->.
  - destruct otx as [tx|]; [|discriminate].
    destruct (negb (tx_height tx =? -1)).
    { injection H as _ <-. by split; [|split; [|split; [|split]]]. }
    destruct block as [b|];
      [|injection H as _ <-; by split; [|split; [|split; [|split]]]].
    eapply (batch_throws _ Some); [intros r s2; apply staging__confirm|exact H].
  - injection H as _ <-. by split; [|split; [|split; [|split]]].
  - discriminate.
Qed.

Lemma unconfirm_throws_kept hash s msg s' :
  unconfirm hash s = (Throw msg, s') ->
  db s' = db s /\ state s' = state s /\ env s' = env s /\ quiescent s' /\
  (cache_coherent s -> cache_coherent s').
Proof.
  intros H. unfold unconfirm in H.
  apply (batch_throws (_unconfirm hash) id s msg s'); [|exact H].
  assert (Hst : staging (_unconfirm hash)) by (unfold _unconfirm; staging_auto).
  intros r s2. apply Hst.
Qed.

(** X5. [confirm] is all or nothing: when it throws (a record that
    does not decode, a transaction that is already confirmed, no
    block given, a failed assertion in the body), the committed store
    and the committed state are what they were, no batch is left
    open, no event is left buffered, and a coherent coin cache is
    still coherent. *)
Theorem confirm_throws_unchanged (hash : Hash) (block : option BlockMeta)
    (s : TXDB) (msg : string) :
  quiescent s ->
  (confirm hash block s).1 = Throw msg ->
  db (confirm hash block s).2 = db s /\
  state (confirm hash block s).2 = state s /\
  env (confirm hash block s).2 = env s /\
  quiescent (confirm hash block s).2 /\
  (cache_coherent s -> cache_coherent (confirm hash block s).2).
Proof.
  intros Hq H. destruct (confirm hash block s) as [r s'] eqn:E.
  simpl in *. subst r. by eapply confirm_throws_kept.
Qed.

Lemma confirm_throws_unchanged_witness :
  quiescent Examples.withPC /\
  (confirm "cc" (Some Examples.blk6) Examples.withPC).1
  = Throw "AssertionError" /\
  db (confirm "cc" (Some Examples.blk6) Examples.withPC).2
  = db Examples.withPC /\
  state (confirm "cc" (Some Examples.blk6) Examples.withPC).2
  = state Examples.withPC /\
  quiescent (confirm "cc" (Some Examples.blk6) Examples.withPC).2.
Proof.
  assert (Hq : quiescent Examples.withPC).
  { split; [|split; [|split]]; vm_compute; reflexivity. }
  assert (E : (confirm "cc" (Some Examples.blk6) Examples.withPC).1
              = Throw "AssertionError").
  { vm_compute. reflexivity. }
  split; [exact Hq|]. split; [exact E|].
  destruct (confirm_throws_unchanged "cc" (Some Examples.blk6)
              Examples.withPC "AssertionError" Hq E) as (Hd & Hs & _ & Hq' & _).
  split; [exact Hd|]. split; [exact Hs|exact Hq'].
Defined.

(** X6. [unconfirm] is all or nothing in the same way: when it throws
    (a record that does not decode, a transaction without a height, a
    failed assertion in [disconnect]), nothing of the batch is
    committed and the batch is closed, whatever state the call
    started from. *)
Theorem unconfirm_throws_unchanged (hash : Hash) (s : TXDB) (msg : string) :
  (unconfirm hash s).1 = Throw msg ->
  db (unconfirm hash s).2 = db s /\
  state (unconfirm hash s).2 = state s /\
  env (unconfirm hash s).2 = env s /\
  quiescent (unconfirm hash s).2 /\
  (cache_coherent s -> cache_coherent (unconfirm hash s).2).
Proof.
  intros H. destruct (unconfirm hash s) as [r s'] eqn:E.
  simpl in *. subst r. by eapply unconfirm_throws_kept.
Qed.

Lemma unconfirm_throws_unchanged_witness :
  (unconfirm "aa" Examples.withPC).1 = Throw "AssertionError" /\
  db (unconfirm "aa" Examples.withPC).2 = db Examples.withPC /\
  state (unconfirm "aa" Examples.withPC).2 = state Examples.withPC /\
  quiescent (unconfirm "aa" Examples.withPC).2.
Proof.
  assert (E : (unconfirm "aa" Examples.withPC).1 = Throw "AssertionError").
  { vm_compute. reflexivity. }
  split; [exact E|].
  destruct (unconfirm_throws_unchanged "aa" Examples.withPC
              "AssertionError" E) as (Hd & Hs & _ & Hq' & _).
  split; [exact Hd|]. split; [exact Hs|exact Hq'].
Defined.

Lemma isRBF_reads tx s r s' : isRBF tx s = (r, s') -> s' = s.
Proof.
  unfold isRBF. destruct (tx_rbf tx); [by intros [= _ <-]|].
  induction (tx_inputs tx) as [|input rest IH]; simpl; [by intros [= _ <-]|].
  unfold bind, has, gets.
  destruct (bool_decide (is_Some (db s !! Kr (op_hash (prevout input)))));
    [by intros [= _ <-]|exact IH].
Qed.

Lemma removeConflicts_no_other fuel tx conf s :
  no_other_spender (db s) tx -> removeConflicts fuel tx conf s = (Ok true, s).
Proof.
  intros Hown. unfold removeConflicts.
  destruct (tx_coinbase tx); [done|].
  rewrite (bind_ok _ _ _ _ _ (gather_spends_own _ _ conf _ Hown)).
  by rewrite (bind_ok _ _ _ _ _ (remove_spends_none _ _ _)).
Qed.

(** With no other spender to remove, the body of [add] only stages. *)
Lemma _add_kept fuel tx block s r s' :
  no_other_spender (db s) tx ->
  _add fuel tx block s = (r, s') -> kept s s'.
Proof.
  intros Hnc H. unfold _add in H. unfold bind at 1 in H.
  destruct (getTX (tx_hash tx) s) as [[existing|e|] s1] eqn:Eg;
    pose proof (getTX_reads _ _ _ _ Eg) as ->;
    [|injection H as _ <-; apply kept_refl..].
  unfold bind at 1 in H. destruct (negb (tx_mutable tx)); simpl in H;
    [|injection H as _ <-; apply kept_refl].
  destruct existing as [existing|].
  - destruct (negb (tx_height existing =? -1));
      [injection H as _ <-; apply kept_refl|].
    destruct (tx_height tx =? -1); [injection H as _ <-; apply kept_refl|].
    revert H. apply staging_bind; [apply staging__confirm|intros; apply staging_ret].
  - destruct (tx_height tx =? -1).
    + unfold bind at 1 in H.
      destruct (isRBF tx s) as [[rbf|e|] s1] eqn:Er;
        pose proof (isRBF_reads _ _ _ _ Er) as ->;
        [|injection H as _ <-; apply kept_refl..].
      destruct rbf.
      * revert H. apply staging_bind; [apply staging_put|intros; apply staging_ret].
      * unfold bind at 1 in H. rewrite (removeConflicts_no_other _ _ _ _ Hnc) in H.
        simpl in H. revert H. apply staging_insert.
    + unfold bind at 1 in H. rewrite (removeConflicts_no_other _ _ _ _ Hnc) in H.
      revert H. apply staging_bind; [apply staging_del|intros; apply staging_insert].
Qed.

(** X7. [add] is all or nothing when no other transaction is recorded
    as spending one of its outpoints, so that it has no conflict to
    remove: if it throws (a mutable transaction, a record that does
    not decode, a spent credit without a path, a failed assertion of
    the confirm transition), the committed store and the committed
    state are what they were, the batch is closed and no event is
    left buffered. *)
Theorem add_throws_unchanged (fuel : nat) (tx : TX)
    (block : option BlockMeta) (s : TXDB) (msg : string) :
  no_other_spender (db s) tx ->
  (add fuel tx block s).1 = Throw msg ->
  db (add fuel tx block s).2 = db s /\
  state (add fuel tx block s).2 = state s /\
  env (add fuel tx block s).2 = env s /\
  quiescent (add fuel tx block s).2 /\
  (cache_coherent s -> cache_coherent (add fuel tx block s).2).
Proof.
  intros Hnc H. destruct (add fuel tx block s) as [r s'] eqn:E.
  simpl in *. subst r. unfold add in E.
  apply (batch_throws (_add fuel tx block) id s msg s'); [|exact E].
  intros r s2. by apply _add_kept.
Qed.

Lemma add_throws_unchanged_witness :
  no_other_spender (db Examples.withPC) Examples.txC6 /\
  (add 1 Examples.txC6 (Some Examples.blk6) Examples.withPC).1
  = Throw "AssertionError" /\
  db (add 1 Examples.txC6 (Some Examples.blk6) Examples.withPC).2
  = db Examples.withPC /\
  state (add 1 Examples.txC6 (Some Examples.blk6) Examples.withPC).2
  = state Examples.withPC /\
  quiescent (add 1 Examples.txC6 (Some Examples.blk6) Examples.withPC).2.
Proof.
  assert (Hnc : no_other_spender (db Examples.withPC) Examples.txC6).
  { intros input v Hin Hv. apply list_elem_of_singleton in Hin as ->.
    vm_compute in Hv. injection Hv as <-. by exists 0. }
  assert (E : (add 1 Examples.txC6 (Some Examples.blk6) Examples.withPC).1
              = Throw "AssertionError").
  { vm_compute. reflexivity. }
  split; [exact Hnc|]. split; [exact E|].
  destruct (add_throws_unchanged 1 Examples.txC6 (Some Examples.blk6)
              Examples.withPC "AssertionError" Hnc E) as (Hd & Hs & _ & Hq' & _).
  split; [exact Hd|]. split; [exact Hs|exact Hq'].
Defined.

(** ** Transactions that do not touch the wallet *)

Lemma insert_outputs_foreign tx outputs :
  forall i details updated s,
  (forall output, output ∈ outputs ->
     path_of (wpaths (env s)) (out_address output) = None) ->
  insert_outputs tx i outputs details updated s = (Ok (details, updated), s).
Proof.
  induction outputs as [|output rest IH]; intros i details updated s H; [done|].
  simpl. unfold bind at 1. unfold getPath, gets.
  pose proof (H output (list_elem_of_here _ _)) as Hp. unfold path_of in Hp.
  rewrite Hp. apply IH. intros o Ho. apply H. by apply elem_of_cons; right.
Qed.

Lemma insert_inputs_updated_none m inputs :
  (forall input, input ∈ inputs ->
     m !! Kc (op_hash (prevout input)) (op_index (prevout input)) = None) ->
  insert_inputs_updated m inputs false = false.
Proof.
  intros H. unfold insert_inputs_updated. simpl.
  induction inputs as [|input rest IH]; [done|]. simpl.
  assert (E : credit_at m (prevout input) = None).
  { unfold credit_at. by rewrite (H input (list_elem_of_here _ _)). }
  rewrite E. rewrite bool_decide_eq_false_2 by (intros [? ?]; done). simpl.
  apply IH. intros x Hx. apply H. by apply elem_of_cons; right.
Qed.

Lemma bind_bind_ok {A B C} (m : M A) (k : A -> M B) (h : B -> M C) s b s' :
  bind m k s = (Ok b, s') -> bind m (fun a => bind (k a) h) s = h b s'.
Proof. intros H. rewrite <- bind_assoc. by rewrite (bind_ok _ _ _ _ _ H). Qed.

Lemma clear_commit s :
  is_Some (current s) ->
  exists s', (clear ;; commit) s = (Ok tt, s') /\
    db s' = db s /\ state s' = state s /\ env s' = env s /\ quiescent s' /\
    lru_items (coinCache s') = lru_items (coinCache s).
Proof.
  intros [ops Hc]. destruct s as [e d c st pe ev cc lk o ct t].
  simpl in Hc. subst c. eexists. split; [reflexivity|]. by repeat split.
Qed.

(** X8. A transaction that spends no stored credit and pays no
    address of the wallet leaves no trace: [add] returns nothing, and
    the spent markers [insert] staged for its inputs are cleared with
    the batch, so that the committed store and state are what they
    were. *)
Theorem add_foreign_leaves_no_trace (fuel : nat) (tx : TX)
    (block : option BlockMeta) (s : TXDB) :
  quiescent s -> cache_coherent s ->
  tx_mutable tx = false ->
  db s !! Kt (tx_hash tx) = None ->
  (tx_height tx = -1 -> ~ rbf_tainted (db s) tx) ->
  no_other_spender (db s) tx ->
  (tx_coinbase tx = false ->
   forall input, input ∈ tx_inputs tx ->
     db s !! Kc (op_hash (prevout input)) (op_index (prevout input)) = None) ->
  (forall output, output ∈ tx_outputs tx ->
     path_of (wpaths (env s)) (out_address output) = None) ->
  exists s',
    add fuel tx block s = (Ok None, s') /\
    db s' = db s /\ state s' = state s /\ env s' = env s /\
    quiescent s' /\ cache_coherent s'.
Proof.
  intros Hq Hcoh Hm Hl Hrbf Hnc Hin Hout.
  set (s0 := started s).
  assert (Hl0 : db s0 !! Kt (tx_hash tx) = None) by exact Hl.
  assert (Hpre : exists s1,
     step s0 s1 (if tx_height tx =? -1 then [] else [(Kr (tx_hash tx), None)])
          delta0 /\
     _add fuel tx block s0 = insert tx block s1).
  { destruct (tx_height tx =? -1) eqn:Eh.
    - exists s0. split; [apply step_refl|].
      unfold _add. rewrite (bind_ok _ _ _ _ _ (getTX_None _ _ Hl0)).
      rewrite Hm. simpl. unfold bind at 1. simpl. rewrite Eh.
      apply Z.eqb_eq in Eh.
      rewrite (bind_ok _ _ _ _ _ (isRBF_false s0 tx (Hrbf Eh))).
      by rewrite (bind_ok _ _ _ _ _ (removeConflicts_no_other fuel tx true s0 Hnc)).
    - destruct (runs_del (Kr (tx_hash tx)) s0 (proj1 (started_open s)))
        as (s1 & Hdel & Hs1).
      exists s1. split; [exact Hs1|].
      unfold _add. rewrite (bind_ok _ _ _ _ _ (getTX_None _ _ Hl0)).
      rewrite Hm. simpl. unfold bind at 1. simpl. rewrite Eh.
      rewrite (bind_ok _ _ _ _ _ (removeConflicts_no_other fuel tx false s0 Hnc)).
      by rewrite (bind_ok _ _ _ _ _ Hdel). }
  destruct Hpre as (s1 & Hs1 & Hadd).
  destruct (step_keeps _ _ _ _ Hs1 (started_open s) (started_coherent s Hcoh))
    as (Hb1 & Hc1 & Hdb1 & Henv1).
  assert (Edb : db s1 = db s) by exact Hdb1.
  assert (Eenv : env s1 = env s) by exact Henv1.
  (* the loops of insert *)
  assert (Hbody : exists d s2,
     (r <- (if negb (tx_coinbase tx)
            then insert_inputs tx 0 (tx_inputs tx) (Details_new tx) false
            else ret (Details_new tx, false)) ;;
      insert_outputs tx 0 (tx_outputs tx) r.1 r.2) s1
     = (Ok (d, false), s2) /\
     db s2 = db s /\ state s2 = state s /\ env s2 = env s /\
     is_Some (current s2) /\ cache_coherent s2).
  { destruct (tx_coinbase tx) eqn:Ecb; simpl.
    - exists (Details_new tx), s1. split.
      + rewrite bind_ret_l. simpl.
        by rewrite insert_outputs_foreign by (rewrite Eenv; exact Hout).
      + destruct Hs1 as (G1 & G2 & G3 & _). destruct Hb1 as [Hcur _].
        split; [done|]. split; [exact G3|]. split; [done|]. by split.
    - destruct (insert_inputs_runs tx (tx_inputs tx) 0 (Details_new tx) false s1
                  Hb1 Hc1) as (s2 & Hins & Hs2).
      { intros input v Hi Hv. rewrite Edb in Hv.
        rewrite (Hin eq_refl input Hi) in Hv. discriminate. }
      { apply suffix_at_whole. }
      rewrite Edb in Hins.
      rewrite (insert_inputs_updated_none _ _ (Hin eq_refl)) in Hins.
      destruct (step_keeps _ _ _ _ Hs2 Hb1 Hc1) as (Hb2 & Hc2 & Hdb2 & Henv2).
      eexists _, s2. split.
      + rewrite (bind_ok _ _ _ _ _ Hins). simpl.
        by rewrite insert_outputs_foreign by (rewrite Henv2, Eenv; exact Hout).
      + destruct Hs1 as (_ & _ & G3 & _). destruct Hs2 as (_ & _ & G3' & _).
        destruct Hb2 as [Hcur _]. change (state s0) with (state s) in G3.
        split; [congruence|]. split; [congruence|]. split; [congruence|].
        by split. }
  destruct Hbody as (d & s2 & Hbody & Hdb2 & Hst2 & Henv2 & Hcur2 & Hcoh2).
  destruct (clear_commit s2 Hcur2) as (s3 & Hcc & Hdb3 & Hst3 & Henv3 & Hq3 & Hit3).
  apply bind_inv_ok in Hcc as ([] & s2' & Hclear & Hcommit).
  assert (Hi : insert tx block s1 = (Ok None, s2')).
  { unfold insert. rewrite (bind_bind_ok _ _ _ _ _ _ Hbody). simpl.
    by rewrite (bind_ok _ _ _ _ _ Hclear). }
  exists s3. split.
  { unfold add. rewrite (bind_ok _ _ _ _ _ (start_eq s)). fold s0.
    unfold bind at 1. unfold try_rethrow. rewrite Hadd, Hi.
    by rewrite (bind_ok _ _ _ _ _ Hcommit). }
  split; [congruence|]. split; [congruence|]. split; [congruence|].
  split; [exact Hq3|].
  intros h i v Hv. rewrite Hit3 in Hv. rewrite Hdb3. by apply Hcoh2.
Qed.

Lemma add_foreign_leaves_no_trace_witness :
  exists s',
    add 1 (mkTX "f1" [mkInput (mkOutpoint "f0" 3) None]
                [mkOutput 5 (Some "other")] (-1) None 0 (-1) 200
                false false false)
        None Examples.withP
    = (Ok None, s') /\
    db s' = db Examples.withP /\ state s' = state Examples.withP /\
    quiescent s'.
Proof.
  destruct (add_foreign_leaves_no_trace 1
              (mkTX "f1" [mkInput (mkOutpoint "f0" 3) None]
                    [mkOutput 5 (Some "other")] (-1) None 0 (-1) 200
                    false false false)
              None Examples.withP)
    as (s' & Ha & Hd & Hs & _ & Hq & _).
  - split; [|split; [|split]]; vm_compute; reflexivity.
  - apply cache_coherent_by_scan. vm_compute. reflexivity.
  - reflexivity.
  - vm_compute. reflexivity.
  - intros _ [H|(input & Hin & [v Hv])]; [discriminate H|].
    apply list_elem_of_singleton in Hin as ->. vm_compute in Hv. discriminate.
  - intros input v Hin Hv. apply list_elem_of_singleton in Hin as ->.
    vm_compute in Hv. discriminate.
  - intros _ input Hin. apply list_elem_of_singleton in Hin as ->.
    vm_compute. reflexivity.
  - intros output Hin. apply list_elem_of_singleton in Hin as ->.
    vm_compute. reflexivity.
  - exists s'. split; [exact Ha|]. split; [exact Hd|]. split; [exact Hs|exact Hq].
Defined.

(** ** What a committed write leaves in the store *)










(** ** Details of a stored transaction *)

Lemma add_ops_index_writes m paths tx p0 k o :
  (k, o) ∈ add_ops m paths tx p0 -> is_index_key k = true ->
  (k, o) ∈ [(Kr (tx_hash tx), None);
            (Kt (tx_hash tx), Some (TX_toExtended tx));
            (Km (tx_ps tx) (tx_hash tx), Some DUMMY);
            (if tx_height tx =? -1 then (Kp (tx_hash tx), Some DUMMY)
             else (Kh (tx_height tx) (tx_hash tx), Some DUMMY));
            (KR, Some (TXDBState_toRaw
                         (apply_delta (insert_delta m paths tx) p0)))].
Proof.
  intros H Hk. apply elem_of_add_ops in H
    as [[_ H]|[[Hcb (i & input & Hi & H)]|[(i & output & Hi & H)|[H|[H|[[_ H]|H]]]]]].
  - rewrite H. apply list_elem_of_here.
  - exfalso. unfold insert_input_ops in H.
    destruct (credit_at m (prevout input)) as [[r sp]|] eqn:Hc.
    + destruct (path_of paths (cr_address r)); [|by apply elem_of_nil in H].
      destruct (tx_height tx =? -1); simpl in H; split_ops H;
        injection H as -> _; discriminate Hk.
    + split_ops H. injection H as -> _. discriminate Hk.
  - exfalso. unfold insert_output_ops in H.
    destruct (path_of paths (out_address output)); split_ops H;
      injection H as -> _; discriminate Hk.
  - split_ops H; rewrite H.
    + apply list_elem_of_further, list_elem_of_here.
    + do 2 apply list_elem_of_further. apply list_elem_of_here.
    + do 3 apply list_elem_of_further. apply list_elem_of_here.
  - exfalso. apply elem_of_index_ops in H as (a & _ & H).
    destruct (tx_height tx =? -1); split_ops H;
      injection H as -> _; discriminate Hk.
  - exfalso. unfold addBlock_ops in H.
    destruct (m !! Kb (tx_height tx)) as [[]|];
      try (split_ops H; injection H as -> _; discriminate Hk).
    destruct (BlockRecord_add _ _); split_ops H.
    injection H as -> _; discriminate Hk.
  - rewrite H. do 4 apply list_elem_of_further. apply list_elem_of_here.
Qed.

(** The record of the transaction after [add]. *)
Lemma add_ops_tx m paths tx p0 :
  apply_ops (add_ops m paths tx p0) m !! Kt (tx_hash tx)
  = Some (TX_toExtended tx).
Proof.
  apply lookup_apply_ops_all.
  - intros o Ho. apply add_ops_index_writes in Ho; [|done].
    destruct (tx_height tx =? -1); split_ops Ho; by injection Ho.
  - right. eexists. apply elem_of_add_ops. do 3 right. left.
    apply list_elem_of_here.
Qed.

Lemma tx_immutable_id tx : tx_mutable tx = false -> tx_immutable tx = tx.
Proof. intros H. destruct tx. simpl in *. by subst. Qed.

Lemma getSpentCredits_value tx s :
  tx_coinbase tx = false -> undo_ok (db s) tx ->
  getSpentCredits tx s = (Ok (spent_credits (db s) tx 0 (tx_inputs tx)), s).
Proof.
  intros Hcb Hok. unfold getSpentCredits. rewrite Hcb.
  unfold bind, gets. simpl.
  rewrite forallb_true_intro.
  2:{ intros e He. apply scan_d_elem in He.
      destruct (Hok _ _ He) as [_ Hi]. by apply bool_decide_eq_true_2. }
  rewrite forallb_true_intro.
  2:{ intros e He. apply scan_d_elem in He.
      destruct (Hok _ _ He) as [[r ->] _]. done. }
  simpl. by rewrite <- (imap_spent_credits (db s) tx (tx_inputs tx) 0).
Qed.

Lemma spent_credits_lookup m tx inputs i input :
  inputs !! i = Some input ->
  spent_credits m tx 0 inputs !! i
  = Some (match undo_at m tx i with
          | Some r =>
              Some (mkCredit (Coin_fromRaw r (op_hash (prevout input))
                                           (op_index (prevout input))) false)
          | None => None
          end).
Proof.
  intros H. rewrite <- imap_spent_credits, list_lookup_imap, H. simpl.
  unfold undo_at. by destruct (m !! Kd (tx_hash tx) (Z.of_nat i)) as [[]|].
Qed.

Lemma Details_setInput_none d i : Details_setInput d i None None = d.
Proof. by destruct d. Qed.

Lemma toDetails_inputs_spec m tx rest :
  forall i d s,
  db s = m ->
  suffix_at (tx_inputs tx) i rest ->
  toDetails_inputs i rest
    (map (fun credit => coin <$> credit) (spent_credits m tx 0 (tx_inputs tx)))
    d s
  = (Ok (erase_inputs_details m (wpaths (env s)) tx i rest d), s).
Proof.
  induction rest as [|input rest IH]; intros i d s Hm Hsuf; [done|].
  pose proof (suffix_at_head _ _ _ _ Hsuf) as Hi.
  simpl. rewrite list_lookup_fmap, (spent_credits_lookup _ _ _ _ _ Hi). simpl.
  unfold erase_input_details.
  destruct (undo_at m tx i) as [r|]; simpl.
  - unfold bind at 1. unfold getPath, gets. simpl.
    apply (IH _ _ _ Hm (suffix_at_tail _ _ _ _ Hsuf)).
  - rewrite bind_ret_l, Details_setInput_none.
    apply (IH _ _ _ Hm (suffix_at_tail _ _ _ _ Hsuf)).
Qed.

Lemma toDetails_inputs_nil rest :
  forall i d s, toDetails_inputs i rest [] d s = (Ok d, s).
Proof.
  induction rest as [|input rest IH]; intros i d s; [done|].
  simpl. rewrite bind_ret_l, Details_setInput_none. apply IH.
Qed.

Lemma toDetails_outputs_spec outputs :
  forall i d s,
  toDetails_outputs i outputs d s
  = (Ok (outputs_details (wpaths (env s)) i outputs d), s).
Proof.
  induction outputs as [|output rest IH]; intros i d s; [done|].
  simpl. unfold bind at 1. unfold getPath, gets. apply IH.
Qed.

(** [_toDetails] rebuilds the details from the undo coins of the
    transaction and the paths of the wallet, and changes nothing. *)
Lemma _toDetails_spec tx s :
  undo_ok (db s) tx ->
  _toDetails tx s = (Ok (erase_details (db s) (wpaths (env s)) tx), s).
Proof.
  intros Hok. unfold _toDetails, fillHistory, erase_details.
  destruct (tx_coinbase tx) eqn:Hcb.
  - rewrite bind_ret_l. unfold bind at 1. rewrite toDetails_inputs_nil.
    apply toDetails_outputs_spec.
  - rewrite bind_assoc.
    rewrite (bind_ok _ _ _ _ _ (getSpentCredits_value tx s Hcb Hok)).
    rewrite bind_ret_l. unfold bind at 1.
    rewrite (toDetails_inputs_spec (db s) tx _ _ _ _ eq_refl (suffix_at_whole _)).
    apply toDetails_outputs_spec.
Qed.

(** X10. What [add] returns can be asked again: after [add] of a
    transaction that is inserted and under whose hash nothing was
    stored, [getTX] returns the transaction and [getDetails] returns
    the details [add] returned, rebuilt from the undo coins; neither
    changes the object. *)
Theorem add_then_getDetails (fuel : nat) (tx : TX)
    (block : option BlockMeta) (s : TXDB) :
  quiescent s -> cache_coherent s ->
  insertable s tx -> fresh (db s) tx ->
  exists details s',
    add fuel tx block s = (Ok (Some details), s') /\
    getTX (tx_hash tx) s' = (Ok (Some tx), s') /\
    getDetails (tx_hash tx) s' = (Ok (Some details), s').
Proof.
  intros Hq Hcoh (Hm & Hl & Hrbf & Hnc & Hok & Hfree & Hblk & Htouch) Hfresh.
  destruct (add_inserts fuel tx block s Hq Hcoh Hm Hl Hrbf Hnc Hok Hfree
              Hblk Htouch) as (s' & Hadd & Hdb & Hst & Henv & _).
  assert (Ht : getTX (tx_hash tx) s' = (Ok (Some tx), s')).
  { apply getTX_Some. rewrite Hdb, add_ops_tx. unfold TX_toExtended.
    by rewrite tx_immutable_id. }
  eexists _, s'. split; [exact Hadd|]. split; [exact Ht|].
  unfold getDetails. rewrite (bind_ok _ _ _ _ _ Ht).
  assert (Hundo : undo_ok (db s') tx).
  { rewrite Hdb. apply add_ops_undo_ok; assumption. }
  rewrite (bind_ok _ _ _ _ _ (_toDetails_spec tx s' Hundo)).
  rewrite Hdb, Henv. unfold ret. do 3 f_equal.
  unfold erase_details, insert_details.
  destruct (tx_coinbase tx) eqn:Hcb; [reflexivity|].
  by rewrite (add_ops_inputs_details _ _ _ _ Hfresh Hok _ Hcb _ _
                (suffix_at_whole _)).
Qed.

Lemma add_then_getDetails_witness :
  exists details s',
    add 1 Examples.txC None Examples.withP5 = (Ok (Some details), s') /\
    getTX "cc" s' = (Ok (Some Examples.txC), s') /\
    getDetails "cc" s' = (Ok (Some details), s').
Proof.
  apply (add_then_getDetails 1 Examples.txC None Examples.withP5).
  - split; [|split; [|split]]; vm_compute; reflexivity.
  - apply cache_coherent_by_scan. vm_compute. reflexivity.
  - split; [reflexivity|]. split; [vm_compute; reflexivity|].
    split.
    { intros _ [H|(input & Hin & [v Hv])]; [discriminate H|].
      apply list_elem_of_singleton in Hin as ->. vm_compute in Hv. discriminate. }
    split.
    { intros input Hin. apply list_elem_of_singleton in Hin as ->.
      vm_compute. reflexivity. }
    split.
    { intros input v Hin Hv. apply list_elem_of_singleton in Hin as ->.
      vm_compute in Hv. injection Hv as <-.
      eexists _, _, _. split; [reflexivity|vm_compute; reflexivity]. }
    split.
    { intros k. apply (absent_by_scan _ (marker_of "cc"));
        [vm_compute; reflexivity|]. reflexivity. }
    split.
    { intros v Hv. vm_compute in Hv. discriminate. }
    vm_compute. reflexivity.
  - intros k Hk. apply (absent_by_scan _ (owned_by Examples.txC));
      [vm_compute; reflexivity|exact Hk].
Defined.

(** ** The pending and height indexes *)

Lemma lookup_apply_ops_segment pre F post m k v :
  (forall o, (k, o) ∈ F -> o = v) ->
  (exists o, (k, o) ∈ F) ->
  (forall o, (k, o) ∉ post) ->
  apply_ops (pre ++ F ++ post) m !! k = v.
Proof.
  intros Hall Hex Hpost. rewrite !apply_ops_app.
  rewrite lookup_apply_ops_untouched by exact Hpost.
  apply lookup_apply_ops_all; [exact Hall|by right].
Qed.

Lemma no_flag_key_absent post k :
  Forall (fun o : Op => is_flag_key o.1 = false) post ->
  is_flag_key k = true ->
  forall o, (k, o) ∉ post.
Proof.
  intros Hf Hk o Hin. rewrite Forall_forall in Hf.
  specialize (Hf _ Hin). simpl in Hf. congruence.
Qed.

Lemma reindex_ops_no_flag tx accounts :
  Forall (fun o : Op => is_flag_key o.1 = false) (reindex_ops tx accounts).
Proof.
  unfold reindex_ops. induction accounts as [|a rest IH]; simpl;
    by repeat constructor.
Qed.

Lemma unreindex_ops_no_flag tx accounts :
  Forall (fun o : Op => is_flag_key o.1 = false) (unreindex_ops tx accounts).
Proof.
  unfold unreindex_ops. induction accounts as [|a rest IH]; simpl;
    by repeat constructor.
Qed.

Lemma addBlock_ops_no_flag m tx :
  Forall (fun o : Op => is_flag_key o.1 = false) (addBlock_ops m tx).
Proof.
  unfold addBlock_ops.
  destruct (m !! Kb (tx_height tx)) as [[]|]; try (by repeat constructor).
  destruct (BlockRecord_add b (tx_hash tx)); by repeat constructor.
Qed.

Lemma confirm_ops_flag m paths tx p k v :
  is_flag_key k = true ->
  (forall o, (k, o) ∈ [(Kr (tx_hash tx), None);
                       (Kt (tx_hash tx), Some (TX_toExtended tx));
                       (Kp (tx_hash tx), None);
                       (Kh (tx_height tx) (tx_hash tx), Some DUMMY)] -> o = v) ->
  (exists o, (k, o) ∈ [(Kr (tx_hash tx), None);
                       (Kt (tx_hash tx), Some (TX_toExtended tx));
                       (Kp (tx_hash tx), None);
                       (Kh (tx_height tx) (tx_hash tx), Some DUMMY)]) ->
  apply_ops (confirm_ops m paths tx p) m !! k = v.
Proof.
  intros Hk Hall Hex. unfold confirm_ops.
  apply lookup_apply_ops_segment; [exact Hall|exact Hex|].
  apply no_flag_key_absent; [|exact Hk].
  apply Forall_app. split; [apply reindex_ops_no_flag|].
  apply Forall_app. split; [|by repeat constructor].
  destruct (tx_height tx =? -1); [constructor|apply addBlock_ops_no_flag].
Qed.

Lemma disconnect_ops_flag m paths tx p k v :
  is_flag_key k = true ->
  (forall o, (k, o) ∈ [(Kt (tx_hash tx), Some (TX_toExtended (tx_unset_block tx)));
                       (Kp (tx_hash tx), Some DUMMY);
                       (Kh (tx_height tx) (tx_hash tx), None)] -> o = v) ->
  (exists o, (k, o) ∈ [(Kt (tx_hash tx), Some (TX_toExtended (tx_unset_block tx)));
                       (Kp (tx_hash tx), Some DUMMY);
                       (Kh (tx_height tx) (tx_hash tx), None)]) ->
  apply_ops (disconnect_ops m paths tx p) m !! k = v.
Proof.
  intros Hk Hall Hex. unfold disconnect_ops. rewrite app_assoc.
  apply lookup_apply_ops_segment; [exact Hall|exact Hex|].
  apply no_flag_key_absent; [|exact Hk].
  apply Forall_app. split; [apply unreindex_ops_no_flag|by repeat constructor].
Qed.

Ltac flag_lookup :=
  first [ apply confirm_ops_flag | apply disconnect_ops_flag ];
  [ reflexivity
  | let o := fresh "o" in let H := fresh "H" in
    intros o H; split_ops H; by injection H
  | eexists; first [ apply list_elem_of_here
                   | apply list_elem_of_further, list_elem_of_here
                   | do 2 apply list_elem_of_further; apply list_elem_of_here
                   | do 3 apply list_elem_of_further; apply list_elem_of_here ] ].

(** X11. [confirm] moves a transaction from the pending index to the
    height index: once it has returned, the stored record carries the
    block fields, [p[hash]] and [r[hash]] are gone, [h[height, hash]]
    is set, and [abandon] refuses the transaction ('TX not
    eligible.'). *)
Theorem confirm_moves_to_height (fuel : nat) (hash : Hash) (b : BlockMeta)
    (s : TXDB) (tx : TX) :
  quiescent s -> cache_coherent s ->
  db s !! Kt hash = Some (VTX tx) -> tx_hash tx = hash ->
  tx_mutable tx = false -> tx_height tx = -1 ->
  confirmable (db s) (wpaths (env s))
    (tx_set_block tx (bm_height b) (Some (bm_block b)) (bm_ts b) (tx_index tx)) ->
  exists details s',
    confirm hash (Some b) s = (Ok (Some details), s') /\
    getTX hash s'
    = (Ok (Some (tx_set_block tx (bm_height b) (Some (bm_block b)) (bm_ts b)
                              (tx_index tx))), s') /\
    db s' !! Kp hash = None /\
    db s' !! Kr hash = None /\
    db s' !! Kh (bm_height b) hash = Some DUMMY /\
    abandon fuel hash s' = (Throw "TX not eligible.", s').
Proof.
  intros Hq Hcoh Ht Hhash Hmut Hh Hconf.
  destruct (confirm_confirms hash b s tx Hq Hcoh Ht Hh Hconf)
    as (s' & Hc & Hdb & _ & _ & _).
  set (tx' := tx_set_block tx (bm_height b) (Some (bm_block b)) (bm_ts b)
                           (tx_index tx)) in *.
  assert (Eh : tx_hash tx' = hash) by exact Hhash.
  assert (Hp : db s' !! Kp hash = None).
  { rewrite Hdb, <- Eh. flag_lookup. }
  eexists _, s'. split; [exact Hc|]. split; [|split; [exact Hp|split; [|split]]].
  - apply getTX_Some. rewrite Hdb, <- Eh.
    replace (VTX tx') with (TX_toExtended tx')
      by (unfold TX_toExtended; by rewrite tx_immutable_id).
    flag_lookup.
  - rewrite Hdb, <- Eh. flag_lookup.
  - rewrite Hdb, <- Eh. change (bm_height b) with (tx_height tx'). flag_lookup.
  - by apply abandon_not_pending.
Qed.

Lemma confirm_moves_to_height_witness :
  exists details s',
    confirm "cc" (Some Examples.blk6) Examples.withP5C
    = (Ok (Some details), s') /\
    getTX "cc" s' = (Ok (Some Examples.txC6), s') /\
    db s' !! Kp "cc" = None /\
    db s' !! Kr "cc" = None /\
    db s' !! Kh 6 "cc" = Some DUMMY /\
    abandon 1 "cc" s' = (Throw "TX not eligible.", s').
Proof.
  destruct withP5C_committed as (Hq & Hcoh & _).
  destruct withP5C_confirm_txC as (Ht & Hh & Hconf & _).
  exact (confirm_moves_to_height 1 "cc" Examples.blk6 Examples.withP5C
           Examples.txC Hq Hcoh Ht eq_refl eq_refl Hh Hconf).
Defined.

(** X12. [unconfirm] moves a transaction back: once it has returned,
    the stored record has its block fields unset (height -1, no
    block, time 0, index -1), [p[hash]] is set again and
    [h[height, hash]] is gone, so that [abandon] no longer refuses
    it. *)
Theorem unconfirm_moves_to_pending (fuel : nat) (hash : Hash) (s : TXDB)
    (tx : TX) :
  quiescent s -> cache_coherent s ->
  db s !! Kt hash = Some (VTX tx) -> tx_hash tx = hash ->
  tx_mutable tx = false ->
  disconnectable (db s) (wpaths (env s)) tx ->
  exists details s',
    unconfirm hash s = (Ok (Some details), s') /\
    getTX hash s' = (Ok (Some (tx_unset_block tx)), s') /\
    db s' !! Kp hash = Some DUMMY /\
    db s' !! Kh (tx_height tx) hash = None /\
    abandon fuel hash s' = remove fuel hash s'.
Proof.
  intros Hq Hcoh Ht Hhash Hmut Hdis.
  destruct (unconfirm_disconnects hash s tx Hq Hcoh Ht Hdis)
    as (s' & Hc & Hdb & _ & _ & _).
  assert (Hp : db s' !! Kp hash = Some DUMMY).
  { rewrite Hdb, <- Hhash. flag_lookup. }
  eexists _, s'. split; [exact Hc|]. split; [|split; [exact Hp|split]].
  - apply getTX_Some. rewrite Hdb, <- Hhash.
    replace (VTX (tx_unset_block tx)) with (TX_toExtended (tx_unset_block tx))
      by (unfold TX_toExtended; by rewrite tx_immutable_id).
    flag_lookup.
  - rewrite Hdb, <- Hhash. flag_lookup.
  - apply abandon_pending. rewrite Hp. eauto.
Qed.

Lemma unconfirm_moves_to_pending_witness :
  exists details s',
    unconfirm "aa" Examples.withP5C = (Ok (Some details), s') /\
    getTX "aa" s' = (Ok (Some (tx_unset_block Examples.txP5)), s') /\
    db s' !! Kp "aa" = Some DUMMY /\
    db s' !! Kh 5 "aa" = None /\
    abandon 1 "aa" s' = remove 1 "aa" s'.
Proof.
  destruct withP5C_committed as (Hq & Hcoh & _).
  destruct withP5C_unconfirm_txP as (Ht & Hdis & _).
  exact (unconfirm_moves_to_pending 1 "aa" Examples.withP5C Examples.txP5
           Hq Hcoh Ht eq_refl eq_refl Hdis).
Defined.

(** ** The flags across the write entry points *)

Lemma flags_at_ext m m' hash :
  m' !! Kt hash = m !! Kt hash ->
  m' !! Kp hash = m !! Kp hash ->
  (forall h, m' !! Kh h hash = m !! Kh h hash) ->
  flags_at m hash -> flags_at m' hash.
Proof.
  intros Et Ep Eh. unfold flags_at. rewrite Et, Ep.
  destruct (m !! Kt hash) as [[]|]; try done.
  - intros [H1 H2]. split; [done|].
    destruct (tx_height tx =? -1); destruct H2 as [H2 H3];
      (split; [done|]); intros h; by rewrite Eh.
  - intros [H1 H2]. split; [done|]. intros h. by rewrite Eh.
Qed.

Lemma no_flag_untouched ops m k :
  Forall no_flag ops -> is_Some (flag_hash k) ->
  apply_ops ops m !! k = m !! k.
Proof.
  intros Hf [h Hk]. apply lookup_apply_ops_untouched. intros o Hin.
  rewrite Forall_forall in Hf. specialize (Hf _ Hin).
  unfold no_flag in Hf. simpl in Hf. congruence.
Qed.

Lemma flag_about_untouched ops m k h hash :
  Forall (flag_about hash) ops -> flag_hash k = Some h -> h <> hash ->
  apply_ops ops m !! k = m !! k.
Proof.
  intros Hf Hk Hne. apply lookup_apply_ops_untouched. intros o Hin.
  rewrite Forall_forall in Hf. apply Hne, (Hf _ Hin). exact Hk.
Qed.

(** A batch whose writes to flags all concern one hash keeps the flags
    in order when it leaves that hash in order. *)
Lemma flags_ok_segment m pre F post hash0 :
  flags_ok m ->
  Forall no_flag pre -> Forall no_flag post -> Forall (flag_about hash0) F ->
  flags_at (apply_ops F (apply_ops pre m)) hash0 ->
  flags_ok (apply_ops (pre ++ F ++ post) m).
Proof.
  intros Hok Hpre Hpost HF H0 hash.
  assert (E : forall k, is_Some (flag_hash k) ->
            apply_ops (pre ++ F ++ post) m !! k
            = apply_ops F (apply_ops pre m) !! k).
  { intros k Hk. rewrite !apply_ops_app. by apply no_flag_untouched. }
  destruct (decide (hash = hash0)) as [->|Hne].
  - revert H0. apply flags_at_ext; intros; apply E; simpl; eauto.
  - assert (E' : forall k, flag_hash k = Some hash ->
              apply_ops (pre ++ F ++ post) m !! k = m !! k).
    { intros k Hk. rewrite E by eauto.
      rewrite (flag_about_untouched _ _ _ _ _ HF Hk Hne).
      apply no_flag_untouched; eauto. }
    generalize (Hok hash). apply flags_at_ext; intros; by apply E'.
Qed.

Ltac no_flag_tac :=
  repeat case_match; repeat constructor.

Lemma no_flag_updateSpentCoin m tx i : Forall no_flag (updateSpentCoin_ops m tx i).
Proof. unfold updateSpentCoin_ops. no_flag_tac. Qed.

Lemma no_flag_insert_inputs m paths tx inputs :
  forall i, Forall no_flag (insert_inputs_ops m paths tx i inputs).
Proof.
  induction inputs as [|input rest IH]; intros i; [constructor|].
  simpl. apply Forall_app. split; [|apply IH].
  unfold insert_input_ops. no_flag_tac.
Qed.

Lemma no_flag_insert_outputs paths tx outputs :
  forall i, Forall no_flag (insert_outputs_ops paths tx i outputs).
Proof.
  induction outputs as [|output rest IH]; intros i; [constructor|].
  simpl. apply Forall_app. split; [|apply IH].
  unfold insert_output_ops. no_flag_tac.
Qed.

Lemma no_flag_confirm_inputs m paths tx inputs :
  forall i, Forall no_flag (confirm_inputs_ops m paths tx i inputs).
Proof.
  induction inputs as [|input rest IH]; intros i; [constructor|].
  simpl. apply Forall_app. split; [|apply IH].
  unfold confirm_input_ops. no_flag_tac.
Qed.

Lemma no_flag_confirm_outputs m paths tx outputs :
  forall i, Forall no_flag (confirm_outputs_ops m paths tx i outputs).
Proof.
  induction outputs as [|output rest IH]; intros i; [constructor|].
  simpl. apply Forall_app. split; [|apply IH].
  unfold confirm_output_ops.
  repeat case_match;
    repeat first [ apply no_flag_updateSpentCoin
                 | apply Forall_app; split
                 | constructor ].
Qed.

Lemma no_flag_disconnect_inputs m paths tx inputs :
  forall i, Forall no_flag (disconnect_inputs_ops m paths tx i inputs).
Proof.
  induction inputs as [|input rest IH]; intros i; [constructor|].
  simpl. apply Forall_app. split; [|apply IH].
  unfold disconnect_input_ops. no_flag_tac.
Qed.

Lemma no_flag_disconnect_outputs m paths tx outputs :
  forall i, Forall no_flag (disconnect_outputs_ops m paths tx i outputs).
Proof.
  induction outputs as [|output rest IH]; intros i; [constructor|].
  simpl. apply Forall_app. split; [|apply IH].
  unfold disconnect_output_ops.
  repeat case_match;
    repeat first [ apply no_flag_updateSpentCoin
                 | apply Forall_app; split
                 | constructor ].
Qed.

Lemma no_flag_erase_inputs m paths tx inputs :
  forall i, Forall no_flag (erase_inputs_ops m paths tx i inputs).
Proof.
  induction inputs as [|input rest IH]; intros i; [constructor|].
  simpl. apply Forall_app. split; [|apply IH].
  unfold erase_input_ops. no_flag_tac.
Qed.

Lemma no_flag_erase_outputs paths tx outputs :
  forall i, Forall no_flag (erase_outputs_ops paths tx i outputs).
Proof.
  induction outputs as [|output rest IH]; intros i; [constructor|].
  simpl. apply Forall_app. split; [|apply IH].
  unfold erase_output_ops. no_flag_tac.
Qed.

Lemma no_flag_flat_map (f : Z -> list Op) accounts :
  (forall a, Forall no_flag (f a)) -> Forall no_flag (flat_map f accounts).
Proof.
  intros H. induction accounts as [|a rest IH]; [constructor|].
  simpl. apply Forall_app. by split.
Qed.

Lemma no_flag_addBlock m tx : Forall no_flag (addBlock_ops m tx).
Proof. unfold addBlock_ops. no_flag_tac. Qed.

Lemma no_flag_removeBlock m tx : Forall no_flag (removeBlock_ops m tx).
Proof. unfold removeBlock_ops. no_flag_tac. Qed.

Lemma no_flag_insert_body m paths tx : Forall no_flag (insert_body_ops m paths tx).
Proof.
  unfold insert_body_ops. apply Forall_app. split.
  - destruct (tx_coinbase tx); [constructor|apply no_flag_insert_inputs].
  - apply no_flag_insert_outputs.
Qed.

Lemma no_flag_confirm_body m paths tx : Forall no_flag (confirm_body_ops m paths tx).
Proof.
  unfold confirm_body_ops. apply Forall_app. split.
  - destruct (tx_coinbase tx); [constructor|apply no_flag_confirm_inputs].
  - apply no_flag_confirm_outputs.
Qed.

Lemma no_flag_disconnect_body m paths tx :
  Forall no_flag (disconnect_body_ops m paths tx).
Proof.
  unfold disconnect_body_ops. apply Forall_app. split.
  - destruct (tx_coinbase tx); [constructor|apply no_flag_disconnect_inputs].
  - apply no_flag_disconnect_outputs.
Qed.

Lemma no_flag_erase_body m paths tx : Forall no_flag (erase_body_ops m paths tx).
Proof.
  unfold erase_body_ops. apply Forall_app. split.
  - destruct (tx_coinbase tx); [constructor|apply no_flag_erase_inputs].
  - apply no_flag_erase_outputs.
Qed.

Ltac no_flag_post :=
  repeat first
    [ apply no_flag_addBlock
    | apply no_flag_removeBlock
    | apply no_flag_insert_body
    | apply no_flag_confirm_body
    | apply no_flag_disconnect_body
    | apply no_flag_erase_body
    | apply no_flag_flat_map; intro
    | apply Forall_app; split
    | progress no_flag_tac ].

Ltac flag_about_tac :=
  repeat case_match; repeat constructor;
  intros ? [=]; done.

(** Looking a flag up after a short list of writes. *)
Ltac flag_step :=
  rewrite ?apply_ops_cons;
  repeat first [ rewrite lookup_apply_op_eq
               | rewrite lookup_apply_op_ne by (simpl; congruence) ].

Lemma flags_add m paths tx p :
  flags_ok m -> m !! Kt (tx_hash tx) = None ->
  flags_ok (apply_ops (add_ops m paths tx p) m).
Proof.
  intros Hok Ht. unfold add_ops, insert_ops. rewrite app_assoc.
  apply (flags_ok_segment _ _ _ _ (tx_hash tx)); [exact Hok| | | |].
  - no_flag_post.
  - no_flag_post.
  - flag_about_tac.
  - set (m1 := apply_ops _ m).
    assert (E : forall k, is_Some (flag_hash k) -> m1 !! k = m !! k).
    { intros k Hk. apply no_flag_untouched; [|exact Hk]. no_flag_post. }
    pose proof (Hok (tx_hash tx)) as H0. unfold flags_at in H0.
    rewrite Ht in H0. destruct H0 as [Hp Hh].
    unfold flags_at. unfold apply_ops at 1 2 3. simpl fold_left.
    rewrite lookup_apply_op_ne by (destruct (tx_height tx =? -1); simpl; congruence).
    rewrite lookup_apply_op_ne by (simpl; congruence).
    rewrite lookup_apply_op_eq. simpl. split; [done|].
    destruct (tx_height tx =? -1) eqn:Eh.
    + split.
      * rewrite lookup_apply_op_eq. done.
      * intros h. rewrite !lookup_apply_op_ne by (simpl; congruence).
        rewrite E by (simpl; eauto). apply Hh.
    + split.
      * rewrite !lookup_apply_op_ne by (simpl; congruence).
        rewrite E by (simpl; eauto). exact Hp.
      * intros h. destruct (Z.eqb_spec h (tx_height tx)) as [->|Hne].
        { by rewrite lookup_apply_op_eq. }
        rewrite !lookup_apply_op_ne by (simpl; congruence).
        rewrite E by (simpl; eauto). apply Hh.
Qed.

Lemma flags_confirm m paths tx0 tx p :
  flags_ok m -> m !! Kt (tx_hash tx) = Some (VTX tx0) ->
  tx_height tx0 = -1 -> tx_height tx <> -1 ->
  flags_ok (apply_ops (confirm_ops m paths tx p) m).
Proof.
  intros Hok Ht Hh0 Hh. unfold confirm_ops.
  apply (flags_ok_segment _ _ _ _ (tx_hash tx)); [exact Hok| | | |].
  - no_flag_post.
  - no_flag_post.
  - flag_about_tac.
  - set (m1 := apply_ops _ m).
    assert (E : forall k, is_Some (flag_hash k) -> m1 !! k = m !! k).
    { intros k Hk. apply no_flag_untouched; [|exact Hk]. no_flag_post. }
    pose proof (Hok (tx_hash tx)) as H0. unfold flags_at in H0.
    rewrite Ht, Hh0 in H0. simpl in H0. destruct H0 as (_ & Hp & Hn).
    unfold flags_at. unfold apply_ops at 1 2 3. simpl fold_left.
    rewrite !lookup_apply_op_ne by (simpl; congruence).
    rewrite lookup_apply_op_eq. simpl. split; [done|].
    apply Z.eqb_neq in Hh. rewrite Hh. split.
    + rewrite lookup_apply_op_ne by (simpl; congruence).
      by rewrite lookup_apply_op_eq.
    + intros h. destruct (Z.eqb_spec h (tx_height tx)) as [->|Hne].
      { by rewrite lookup_apply_op_eq. }
      rewrite !lookup_apply_op_ne by (simpl; congruence).
      rewrite E by (simpl; eauto). apply Hn.
Qed.

Lemma flags_disconnect m paths tx p :
  flags_ok m -> m !! Kt (tx_hash tx) = Some (VTX tx) -> tx_height tx <> -1 ->
  flags_ok (apply_ops (disconnect_ops m paths tx p) m).
Proof.
  intros Hok Ht Hh. unfold disconnect_ops. rewrite app_assoc.
  apply (flags_ok_segment _ _ _ _ (tx_hash tx)); [exact Hok| | | |].
  - no_flag_post.
  - no_flag_post.
  - flag_about_tac.
  - set (m1 := apply_ops _ m).
    assert (E : forall k, is_Some (flag_hash k) -> m1 !! k = m !! k).
    { intros k Hk. apply no_flag_untouched; [|exact Hk]. no_flag_post. }
    pose proof (Hok (tx_hash tx)) as H0. unfold flags_at in H0.
    rewrite Ht in H0. apply Z.eqb_neq in Hh. rewrite Hh in H0.
    destruct H0 as (_ & Hp & Hn).
    unfold flags_at. unfold apply_ops at 1 2 3. simpl fold_left.
    rewrite !lookup_apply_op_ne by (simpl; congruence).
    rewrite lookup_apply_op_eq. simpl. split; [done|]. split.
    + rewrite lookup_apply_op_ne by (simpl; congruence).
      by rewrite lookup_apply_op_eq.
    + intros h. destruct (Z.eqb_spec h (tx_height tx)) as [->|Hne].
      { by rewrite lookup_apply_op_eq. }
      rewrite !lookup_apply_op_ne by (simpl; congruence).
      rewrite E by (simpl; eauto). rewrite Hn.
      by apply Z.eqb_neq in Hne as ->.
Qed.

Lemma flags_erase m paths tx p :
  flags_ok m -> m !! Kt (tx_hash tx) = Some (VTX tx) ->
  flags_ok (apply_ops (erase_ops m paths tx p) m).
Proof.
  intros Hok Ht. unfold erase_ops.
  apply (flags_ok_segment _ _ _ _ (tx_hash tx)); [exact Hok| | | |].
  - no_flag_post.
  - no_flag_post.
  - flag_about_tac.
  - set (m1 := apply_ops _ m).
    assert (E : forall k, is_Some (flag_hash k) -> m1 !! k = m !! k).
    { intros k Hk. apply no_flag_untouched; [|exact Hk]. no_flag_post. }
    pose proof (Hok (tx_hash tx)) as H0. unfold flags_at in H0.
    rewrite Ht in H0. destruct H0 as (_ & H0).
    unfold flags_at. unfold apply_ops at 1 2 3. simpl fold_left.
    rewrite lookup_apply_op_ne by (destruct (tx_height tx =? -1); simpl; congruence).
    rewrite lookup_apply_op_ne by (simpl; congruence).
    rewrite lookup_apply_op_eq.
    destruct (tx_height tx =? -1) eqn:Eh; destruct H0 as [Hp Hn]; split;
      unfold apply_ops; simpl fold_left.
    + by rewrite lookup_apply_op_eq.
    + intros h. rewrite !lookup_apply_op_ne by (simpl; congruence).
      rewrite E by (simpl; eauto). apply Hn.
    + rewrite !lookup_apply_op_ne by (simpl; congruence).
      rewrite E by (simpl; eauto). exact Hp.
    + intros h. destruct (Z.eqb_spec h (tx_height tx)) as [->|Hne].
      { by rewrite lookup_apply_op_eq. }
      rewrite !lookup_apply_op_ne by (simpl; congruence).
      rewrite E by (simpl; eauto). rewrite Hn.
      by apply Z.eqb_neq in Hne as ->.
Qed.

(** X13. The flags of the stored transactions stay in order across
    the writes. When every record of the store is keyed by its own
    hash and has exactly the flag of its height ([p[hash]] without a
    height, [h[height, hash]] with one, nothing for a hash without a
    record), the same holds after [add] has inserted a transaction,
    after [confirm] has confirmed one in a block with a height, after
    [unconfirm] has disconnected one, and after [erase] has removed
    one. *)
Theorem writes_preserve_flags (s : TXDB) :
  quiescent s -> cache_coherent s -> flags_ok (db s) ->
  (forall fuel tx block, insertable s tx ->
     exists details s',
       add fuel tx block s = (Ok (Some details), s') /\ flags_ok (db s')) /\
  (forall hash b tx,
     db s !! Kt hash = Some (VTX tx) -> tx_height tx = -1 ->
     bm_height b <> -1 ->
     confirmable (db s) (wpaths (env s))
       (tx_set_block tx (bm_height b) (Some (bm_block b)) (bm_ts b)
                     (tx_index tx)) ->
     exists details s',
       confirm hash (Some b) s = (Ok (Some details), s') /\ flags_ok (db s')) /\
  (forall hash tx,
     db s !! Kt hash = Some (VTX tx) ->
     disconnectable (db s) (wpaths (env s)) tx ->
     exists details s',
       unconfirm hash s = (Ok (Some details), s') /\ flags_ok (db s')) /\
  (forall tx,
     db s !! Kt (tx_hash tx) = Some (VTX tx) -> erasable s tx ->
     exists details s',
       erase_in_batch tx s = (Ok details, s') /\ flags_ok (db s')).
Proof.
  intros Hq Hcoh Hok. split; [|split; [|split]].
  - intros fuel tx block (Hm & Ht & Hrbf & Hnc & Hin & Hfree & Hblk & Htouch).
    destruct (add_inserts fuel tx block s Hq Hcoh Hm Ht Hrbf Hnc Hin Hfree
                Hblk Htouch) as (s' & Ha & Hdb & _).
    eexists _, s'. split; [exact Ha|]. rewrite Hdb. by apply flags_add.
  - intros hash b tx Ht Hh Hb Hconf.
    destruct (confirm_confirms hash b s tx Hq Hcoh Ht Hh Hconf)
      as (s' & Hc & Hdb & _).
    eexists _, s'. split; [exact Hc|]. rewrite Hdb.
    pose proof (Hok hash) as H0. unfold flags_at in H0. rewrite Ht in H0.
    destruct H0 as [Ehash _].
    apply (flags_confirm _ _ tx); [exact Hok| |exact Hh|exact Hb].
    simpl. by rewrite Ehash.
  - intros hash tx Ht Hdis.
    destruct (unconfirm_disconnects hash s tx Hq Hcoh Ht Hdis)
      as (s' & Hc & Hdb & _).
    eexists _, s'. split; [exact Hc|]. rewrite Hdb.
    pose proof (Hok hash) as H0. unfold flags_at in H0. rewrite Ht in H0.
    destruct H0 as [Ehash _].
    apply flags_disconnect; [exact Hok|by rewrite Ehash|apply Hdis].
  - intros tx Ht Hera.
    destruct (erase_in_batch_ok tx s Hq Hera) as (s' & He & Hdb & _).
    eexists _, s'. split; [exact He|]. rewrite Hdb. by apply flags_erase.
Qed.

Lemma flags_ok_by_scan (m : gmap Key Value) :
  bool_decide (map_Forall (fun k v => flags_entry m k v = true) m) = true ->
  flags_ok m.
Proof.
  intros H hash. apply bool_decide_eq_true_1 in H.
  assert (Hp : forall v, m !! Kp hash = Some v ->
            exists tx, m !! Kt hash = Some (VTX tx) /\ tx_height tx = -1).
  { intros v Hv. specialize (H _ _ Hv). simpl in H.
    destruct (m !! Kt hash) as [[]|]; try discriminate.
    eexists. split; [done|]. by apply Z.eqb_eq. }
  assert (Hh : forall h v, m !! Kh h hash = Some v ->
            exists tx, m !! Kt hash = Some (VTX tx) /\ tx_height tx <> -1 /\
                       h = tx_height tx).
  { intros h v Hv. specialize (H _ _ Hv). simpl in H.
    destruct (m !! Kt hash) as [[]|]; try discriminate.
    apply andb_true_iff in H as [H1 H2]. apply negb_true_iff in H1.
    eexists. split; [done|]. split; [by apply Z.eqb_neq|by apply Z.eqb_eq]. }
  unfold flags_at. destruct (m !! Kt hash) as [v|] eqn:Et.
  - specialize (H _ _ Et). simpl in H. destruct v; try discriminate.
    apply andb_true_iff in H as [H1 H2]. apply bool_decide_eq_true_1 in H1.
    split; [exact H1|].
    destruct (tx_height tx =? -1) eqn:Eh.
    + apply bool_decide_eq_true_1 in H2. split; [exact H2|].
      intros h. destruct (m !! Kh h hash) as [v|] eqn:E; [|done].
      destruct (Hh _ _ E) as (tx' & [= <-] & Hne & _).
      by apply Z.eqb_eq in Eh.
    + apply andb_true_iff in H2 as [H2 H3].
      apply bool_decide_eq_true_1 in H2. apply bool_decide_eq_true_1 in H3.
      split; [exact H2|]. intros h.
      destruct (Z.eqb_spec h (tx_height tx)) as [->|Hne]; [exact H3|].
      destruct (m !! Kh h hash) as [v|] eqn:E; [|done].
      by destruct (Hh _ _ E) as (tx' & [= <-] & _ & ?).
  - split.
    + destruct (m !! Kp hash) as [v|] eqn:E; [|done].
      by destruct (Hp _ eq_refl) as (tx' & [=] & _).
    + intros h. destruct (m !! Kh h hash) as [v|] eqn:E; [|done].
      by destruct (Hh _ _ E) as (tx' & [=] & _).
Qed.

Lemma writes_preserve_flags_witness :
  (exists details s',
     add 1 Examples.txQ None Examples.withP5C = (Ok (Some details), s') /\
     flags_ok (db s')) /\
  (exists details s',
     confirm "cc" (Some Examples.blk6) Examples.withP5C
     = (Ok (Some details), s') /\ flags_ok (db s')) /\
  (exists details s',
     unconfirm "aa" Examples.withP5C = (Ok (Some details), s') /\
     flags_ok (db s')) /\
  (exists details s',
     erase_in_batch Examples.txC Examples.withP5C = (Ok details, s') /\
     flags_ok (db s')).
Proof.
  destruct withP5C_committed as (Hq & Hcoh & _).
  assert (Hf : flags_ok (db Examples.withP5C)).
  { apply flags_ok_by_scan. vm_compute. reflexivity. }
  destruct (writes_preserve_flags Examples.withP5C Hq Hcoh Hf)
    as (Hadd & Hconfirm & Hunconfirm & Herase).
  split.
  { destruct withP5C_add_txQ as (Hins & _).
    exact (Hadd 1%nat Examples.txQ None Hins). }
  split.
  { destruct withP5C_confirm_txC as (Ht & Hh & Hconf & _).
    refine (Hconfirm "cc" Examples.blk6 Examples.txC Ht Hh _ Hconf).
    vm_compute. discriminate. }
  split.
  { destruct withP5C_unconfirm_txP as (Ht & Hdis & _).
    exact (Hunconfirm "aa" Examples.txP5 Ht Hdis). }
  destruct withP5C_erase_txC as (Hera & _).
  refine (Herase Examples.txC _ Hera). vm_compute. reflexivity.
Defined.

(** ** Spent markers after add *)

Lemma lookup_apply_ops_sat (P : option Value -> Prop) ops m k :
  (forall o, (k, o) ∈ ops -> P o) ->
  (P (m !! k) \/ exists o, (k, o) ∈ ops) ->
  P (apply_ops ops m !! k).
Proof.
  revert m. induction ops as [|[k' o'] rest IH]; intros m Hall Hex.
  - destruct Hex as [H|[o H]]; [exact H|]. by apply elem_of_nil in H.
  - rewrite apply_ops_cons. apply IH.
    + intros o Ho. apply Hall. by apply list_elem_of_further.
    + destruct (decide (k' = k)) as [->|Hne].
      * left. rewrite lookup_apply_op_eq. apply Hall. apply list_elem_of_here.
      * destruct Hex as [H|[o H]].
        { left. by rewrite lookup_apply_op_ne. }
        apply elem_of_cons in H as [[= E _]|H]; [congruence|].
        right. by exists o.
Qed.

(** isDoubleSpend answers whether some outpoint the transaction spends
    carries a marker. *)
Lemma isDoubleSpend_inputs_spec inputs s :
  isDoubleSpend_inputs inputs s
  = (Ok (bool_decide
           (Exists (fun input =>
                      is_Some (db s !! Ks (op_hash (prevout input))
                                          (op_index (prevout input))))
                   inputs)), s).
Proof.
  induction inputs as [|input rest IH]; simpl.
  - reflexivity.
  - unfold bind, isSpent, has, gets. simpl.
    destruct (bool_decide (is_Some (db s !! Ks _ _))) eqn:E.
    + unfold ret. do 2 f_equal. symmetry. apply bool_decide_eq_true_2.
      apply Exists_cons_hd. by apply bool_decide_eq_true_1 in E.
    + rewrite IH. do 2 f_equal. apply bool_decide_ext.
      rewrite Exists_cons. apply bool_decide_eq_false_1 in E. tauto.
Qed.

(** The only writes of [add] under a spent marker key are the markers
    of the inputs that spend that outpoint. *)
Lemma add_ops_marker_writes m paths tx p h j o :
  (Ks h j, o) ∈ add_ops m paths tx p ->
  exists i input,
    tx_inputs tx !! i = Some input /\ prevout input = mkOutpoint h j /\
    o = Some (VOutpoint (mkOutpoint (tx_hash tx) (Z.of_nat i))).
Proof.
  intros H. apply elem_of_add_ops in H.
  destruct H as [[_ H]|[(_ & i & input & Hi & H)|[(i & output & Hi & H)|
                 [H|[H|[[_ H]|H]]]]]]; try discriminate.
  - exists i, input. split; [exact Hi|].
    unfold insert_input_ops in H.
    destruct (credit_at m (prevout input)) as [[r sp]|].
    + destruct (path_of paths (cr_address r)); [|by apply elem_of_nil in H].
      destruct (tx_height tx =? -1); simpl in H; split_ops H;
        try discriminate; injection H as -> -> ->;
        (split; [by apply outpoint_eq|done]).
    + split_ops H. injection H as -> -> ->. split; [by apply outpoint_eq|done].
  - unfold insert_output_ops in H.
    destruct (path_of paths (out_address output)); split_ops H; discriminate.
  - destruct (tx_height tx =? -1); split_ops H; discriminate.
  - apply elem_of_index_ops in H as (a & _ & H).
    destruct (tx_height tx =? -1); split_ops H; discriminate.
  - unfold addBlock_ops in H.
    destruct (m !! Kb (tx_height tx)) as [[]|]; try (split_ops H; discriminate).
    destruct (BlockRecord_add b (tx_hash tx)); split_ops H; discriminate.
Qed.

Lemma add_ops_marker_written m paths tx p i input :
  tx_coinbase tx = false -> inputs_ok m paths (tx_inputs tx) ->
  tx_inputs tx !! i = Some input ->
  (Ks (op_hash (prevout input)) (op_index (prevout input)),
   Some (VOutpoint (mkOutpoint (tx_hash tx) (Z.of_nat i))))
  ∈ add_ops m paths tx p.
Proof.
  intros Hcb Hok Hi. apply elem_of_add_ops. right. left.
  split; [exact Hcb|]. exists i, input. split; [exact Hi|].
  unfold insert_input_ops.
  destruct (credit_at m (prevout input)) as [[r sp]|] eqn:Ec.
  - apply credit_at_Some in Ec.
    destruct (Hok input _ (list_elem_of_lookup_2 _ _ _ Hi) Ec)
      as (r' & sp' & path & [= <- <-] & ->).
    apply list_elem_of_here.
  - apply list_elem_of_here.
Qed.

(** X14. [add] records what it spends: once [add] has inserted a
    transaction that is not a coinbase, every outpoint it spends
    carries a spent marker that names the transaction and one of its
    inputs that spends this outpoint, whether the wallet owns the
    spent coin or not; [getSpent] returns that marker, and
    [isDoubleSpend] answers true for every transaction that spends
    one of the same outpoints. *)
Theorem add_marks_spent (fuel : nat) (tx : TX) (block : option BlockMeta)
    (s : TXDB) (input : Input) (tx' : TX) (input' : Input) :
  quiescent s -> cache_coherent s -> insertable s tx ->
  tx_coinbase tx = false ->
  input ∈ tx_inputs tx -> input' ∈ tx_inputs tx' ->
  prevout input' = prevout input ->
  exists details s' i spender,
    add fuel tx block s = (Ok (Some details), s') /\
    tx_inputs tx !! i = Some spender /\ prevout spender = prevout input /\
    getSpent (op_hash (prevout input)) (op_index (prevout input)) s'
    = (Ok (Some (mkOutpoint (tx_hash tx) (Z.of_nat i))), s') /\
    isDoubleSpend tx' s' = (Ok true, s').
Proof.
  intros Hq Hcoh (Hm & Ht & Hrbf & Hnc & Hok & Hfree & Hblk & Htouch)
         Hcb Hin Hin' Hprev.
  destruct (add_inserts fuel tx block s Hq Hcoh Hm Ht Hrbf Hnc Hok Hfree
              Hblk Htouch) as (s' & Ha & Hdb & _).
  apply list_elem_of_lookup_1 in Hin as [k Hk].
  assert (Hs : exists i spender,
            tx_inputs tx !! i = Some spender /\
            prevout spender = prevout input /\
            db s' !! Ks (op_hash (prevout input)) (op_index (prevout input))
            = Some (VOutpoint (mkOutpoint (tx_hash tx) (Z.of_nat i)))).
  { rewrite Hdb.
    apply (lookup_apply_ops_sat
             (fun o => exists i spender,
                tx_inputs tx !! i = Some spender /\
                prevout spender = prevout input /\
                o = Some (VOutpoint (mkOutpoint (tx_hash tx) (Z.of_nat i))))).
    - intros o Ho.
      destruct (add_ops_marker_writes _ _ _ _ _ _ _ Ho) as (i & sp & Hi & Hp & ->).
      exists i, sp. split; [exact Hi|]. split; [|done].
      rewrite Hp. by destruct (prevout input).
    - right. eexists. by apply add_ops_marker_written. }
  destruct Hs as (i & spender & Hi & Hp & Hl).
  eexists _, s', i, spender. split; [exact Ha|]. split; [exact Hi|].
  split; [exact Hp|]. split; [by apply getSpent_Some|].
  unfold isDoubleSpend. rewrite isDoubleSpend_inputs_spec.
  do 2 f_equal. apply bool_decide_eq_true_2. apply Exists_exists.
  exists input'. split; [exact Hin'|]. rewrite Hprev, Hl. eauto.
Qed.

Lemma add_marks_spent_witness :
  exists details s' i spender,
    add 1 Examples.txQ None Examples.withP5C = (Ok (Some details), s') /\
    tx_inputs Examples.txQ !! i = Some spender /\
    prevout spender = mkOutpoint "cc" 0 /\
    getSpent "cc" 0 s' = (Ok (Some (mkOutpoint "qq" (Z.of_nat i))), s') /\
    isDoubleSpend Examples.txQ s' = (Ok true, s').
Proof.
  destruct withP5C_committed as (Hq & Hcoh & _).
  destruct withP5C_add_txQ as (Hins & _).
  refine (add_marks_spent 1 Examples.txQ None Examples.withP5C
            (mkInput (mkOutpoint "cc" 0) None) Examples.txQ
            (mkInput (mkOutpoint "cc" 0) None) Hq Hcoh Hins eq_refl _ _ eq_refl);
    apply list_elem_of_here.
Defined.

(** ** The coin cache follows the store *)

Lemma quiescent_sound s : quiescent s -> cache_coherent s -> sound s.
Proof.
  intros (Hc & Hp & _ & Hl) Hcoh. split; [exact Hcoh|].
  unfold mirrored. by rewrite Hc, Hl.
Qed.

Lemma credit_ops_app a b : credit_ops (a ++ b) = credit_ops a ++ credit_ops b.
Proof. apply List.filter_app. Qed.

(** Flushing a batch and publishing the pending operations of the
    cache keeps the cache in line with the store. *)
Lemma commit_coherent ops :
  forall cops (items : gmap (Hash * Z) Value) (m : gmap Key Value),
  (forall h i v, items !! (h, i) = Some v -> m !! Kc h i = Some v) ->
  credit_ops ops = cache_op <$> cops ->
  forall h i v, fold_left LRU_apply cops items !! (h, i) = Some v ->
                apply_ops ops m !! Kc h i = Some v.
Proof.
  induction ops as [|[k o] ops IH]; intros cops items m Hcoh Heq.
  - simpl in Heq. symmetry in Heq. apply fmap_nil_inv in Heq as ->. exact Hcoh.
  - rewrite apply_ops_cons. unfold credit_ops in Heq. simpl in Heq.
    destruct (is_credit_key k) eqn:Ek.
    + destruct cops as [|[[h0 i0] o0] cops]; [discriminate|].
      simpl in Heq. injection Heq as -> -> Heq.
      simpl. apply IH; [|exact Heq].
      intros h i v Hl.
      destruct (decide ((h0, i0) = (h, i))) as [[= -> ->]|Hne].
      * rewrite lookup_apply_op_eq. revert Hl. unfold LRU_apply. simpl.
        destruct o0; [by rewrite lookup_insert_eq|by rewrite lookup_delete_eq].
      * rewrite lookup_apply_op_ne by (simpl; congruence).
        apply Hcoh. revert Hl. unfold LRU_apply. simpl.
        destruct o0; [by rewrite lookup_insert_ne|by rewrite lookup_delete_ne].
    + apply IH; [|exact Heq].
      intros h i v Hl. rewrite lookup_apply_op_ne.
      * by apply Hcoh.
      * simpl. intros ->. discriminate.
Qed.

Lemma careful_ret {A} (a : A) : careful (ret a).
Proof. by intros s r s' [= <- <-]. Qed.

Lemma careful_throw {A} msg : careful (@throw A msg).
Proof. by intros s r s' [= <- <-]. Qed.

Lemma careful_out_of_fuel {A} : careful (@out_of_fuel A).
Proof. by intros s r s' [= <- <-]. Qed.

Lemma careful_gets {A} (f : TXDB -> A) : careful (gets f).
Proof. by intros s r s' [= <- <-]. Qed.

Lemma careful_bind {A B} (m : M A) (k : A -> M B) :
  careful m -> (forall a, careful (k a)) -> careful (bind m k).
Proof.
  intros Hm Hk s r s' H Hs. unfold bind in H.
  destruct (m s) as [[a|e|] s1] eqn:E.
  - exact (Hk _ _ _ _ H (Hm _ _ _ E Hs)).
  - injection H as <- <-. exact (Hm _ _ _ E Hs).
  - injection H as <- <-. exact (Hm _ _ _ E Hs).
Qed.

Lemma careful_try_rethrow {A} (body : M A) (handler : M unit) :
  careful body -> careful handler -> careful (try_rethrow body handler).
Proof.
  intros Hb Hh s r s' H Hs. unfold try_rethrow in H.
  destruct (body s) as [[a|e|] s1] eqn:E.
  - injection H as <- <-. exact (Hb _ _ _ E Hs).
  - destruct (handler s1) as [[u|e'|] s2] eqn:E2; injection H as <- <-;
      exact (Hh _ _ _ E2 (Hb _ _ _ E Hs)).
  - injection H as <- <-. exact (Hb _ _ _ E Hs).
Qed.

Lemma careful_modify (f : TXDB -> TXDB) :
  (forall s, sound s -> sound (f s)) -> careful (modify f).
Proof. intros Hf s r s' [= <- <-]. apply Hf. Qed.

Lemma careful_assert c msg : careful (assert c msg).
Proof. destruct c; [apply careful_ret|apply careful_throw]. Qed.

Lemma careful_decode {A} (r : option A) : careful (decode r).
Proof. destruct r; [apply careful_ret|apply careful_throw]. Qed.

(** A write under a key that holds no credit. *)
Lemma careful_stage k o s ops :
  is_credit_key k = false -> current s = Some ops -> sound s ->
  sound (set_current (fun _ => Some (ops ++ [(k, o)])) s).
Proof.
  intros Hk Hc [Hcoh Hm]. split; [exact Hcoh|].
  unfold mirrored in *. simpl. rewrite Hc in Hm.
  destruct (lru_pending (coinCache s)); [|done].
  destruct Hm as [Hp Hm]. split; [exact Hp|].
  rewrite credit_ops_app. unfold credit_ops at 2. simpl. rewrite Hk.
  by rewrite app_nil_r.
Qed.

Lemma careful_put k v : is_credit_key k = false -> careful (put k v).
Proof.
  intros Hk s r s' H Hs. unfold put, bind, gets, modify in H.
  destruct (current s) eqn:E; injection H as <- <-; [|exact Hs].
  by apply careful_stage.
Qed.

Lemma careful_del k : is_credit_key k = false -> careful (del k).
Proof.
  intros Hk s r s' H Hs. unfold del, bind, gets, modify in H.
  destruct (current s) eqn:E; injection H as <- <-; [|exact Hs].
  by apply careful_stage.
Qed.

Lemma careful_update_pending f : careful (update_pending f).
Proof.
  intros s r s' H Hs. unfold update_pending, bind, gets, modify in H.
  destruct (pending s) eqn:E; injection H as <- <-; [|exact Hs].
  destruct Hs as [Hcoh Hm]. split; [exact Hcoh|].
  unfold mirrored in *. simpl.
  destruct (current s), (lru_pending (coinCache s)); try done.
  - destruct Hm as [_ Hm]. split; [eauto|exact Hm].
  - congruence.
Qed.

Lemma careful_emit ev data details : careful (emit ev data details).
Proof. apply careful_modify. by intros s. Qed.

Lemma careful_unlockCoin o : careful (unlockCoin o).
Proof. apply careful_modify. by intros s. Qed.

Lemma careful_lockCoin o : careful (lockCoin o).
Proof. apply careful_modify. by intros s. Qed.

Lemma careful_start : careful start.
Proof.
  intros s r s' [= <- <-] [Hcoh _]. split; [exact Hcoh|].
  unfold mirrored. simpl. split; [eauto|done].
Qed.

Lemma careful_clear : careful clear.
Proof.
  intros s r s' [= <- <-] [Hcoh _]. split; [exact Hcoh|].
  unfold mirrored. simpl. split; [eauto|done].
Qed.

Lemma careful_drop : careful drop.
Proof. intros s r s' [= <- <-] [Hcoh _]. split; [exact Hcoh|done]. Qed.

Lemma careful_commit : careful commit.
Proof.
  intros s r s' H [Hcoh Hm].
  unfold commit, wallet_commit, bind, gets, modify in H.
  unfold mirrored in Hm.
  destruct (current s) as [ops|] eqn:Ec.
  - destruct (lru_pending (coinCache s)) as [cops|] eqn:El; [|done].
    destruct Hm as [[p Hp] Hm]. simpl in H. rewrite Hp in H.
    assert (G : forall (s0 : TXDB),
              db s0 = apply_ops ops (db s) -> current s0 = None ->
              coinCache s0 = coinCache s ->
              sound (set_coinCache LRU_commit
                       (set_events (fun _ => [])
                          (set_pending (fun _ => None) s0)))).
    { intros s0 Hdb Hcur Hcc. split.
      - intros h i v Hl. simpl in Hl. rewrite Hcc, El in Hl. simpl in Hl.
        simpl. rewrite Hdb.
        exact (commit_coherent ops cops _ _ Hcoh Hm h i v Hl).
      - unfold mirrored. simpl. by rewrite Hcur. }
    destruct (st_committed p); simpl in H; injection H as <- <-;
      by apply G.
  - injection H as <- <-. split; [exact Hcoh|].
    unfold mirrored. by rewrite Ec.
Qed.

Lemma careful_getCredit hash index : careful (getCredit hash index).
Proof.
  intros s r s' H Hs.
  unfold getCredit, bind, gets, get, modify, decode, ret, throw in H.
  destruct (LRU_get (coinCache s) (hash, index)) as [data|].
  { destruct (Credit_fromRaw data hash index);
      injection H as <- <-; exact Hs. }
  simpl in H.
  destruct (db s !! Kc hash index) as [data|] eqn:E;
    [|injection H as <- <-; exact Hs].
  destruct (Credit_fromRaw data hash index);
    injection H as <- <-; [|exact Hs].
  destruct Hs as [Hcoh Hm]. split; [|exact Hm].
  intros h i v Hl. simpl in Hl. simpl.
  destruct (decide ((hash, index) = (h, i))) as [[= <- <-]|Hne].
  - rewrite lookup_insert_eq in Hl. by injection Hl as <-.
  - rewrite lookup_insert_ne in Hl by done. by apply Hcoh.
Qed.

(** The two writers of credits stage the write and tell the cache. *)
Lemma careful_saveCredit credit path : careful (saveCredit credit path).
Proof.
  intros s r s' H [Hcoh Hm].
  unfold saveCredit, put, bind, gets, modify in H.
  destruct (current s) as [ops|] eqn:Ec; simpl in H;
    injection H as <- <-; [|by split].
  split; [exact Hcoh|]. unfold mirrored in *. simpl. rewrite Ec in Hm.
  destruct (lru_pending (coinCache s)) as [cops|]; [|done]. simpl.
  destruct Hm as [Hp Hm]. split; [exact Hp|].
  rewrite !credit_ops_app, fmap_app, Hm. unfold credit_ops. simpl.
  by rewrite app_nil_r.
Qed.

Lemma careful_removeCredit credit path : careful (removeCredit credit path).
Proof.
  intros s r s' H [Hcoh Hm].
  unfold removeCredit, del, bind, gets, modify in H.
  destruct (current s) as [ops|] eqn:Ec; simpl in H;
    injection H as <- <-; [|by split].
  split; [exact Hcoh|]. unfold mirrored in *. simpl. rewrite Ec in Hm.
  destruct (lru_pending (coinCache s)) as [cops|]; [|done]. simpl.
  destruct Hm as [Hp Hm]. split; [exact Hp|].
  rewrite !credit_ops_app, fmap_app, Hm. unfold credit_ops. simpl.
  by rewrite app_nil_r.
Qed.

Create HintDb careful.

#[local] Hint Resolve careful_ret careful_throw careful_out_of_fuel
  careful_gets careful_assert careful_decode careful_update_pending
  careful_emit careful_unlockCoin careful_lockCoin careful_start
  careful_clear careful_drop careful_commit careful_getCredit
  careful_saveCredit careful_removeCredit : careful.

#[local] Hint Extern 1 (careful (put _ _)) =>
  apply careful_put; reflexivity : careful.
#[local] Hint Extern 1 (careful (del _)) =>
  apply careful_del; reflexivity : careful.

Ltac careful_step :=
  first
    [ solve [auto with careful]
    | match goal with
      | |- careful (bind _ _) => apply careful_bind; [|intro]
      | |- careful (try_rethrow _ _) => apply careful_try_rethrow
      | |- careful (match ?x with _ => _ end) => destruct x
      end
    | progress cbv zeta ].

Ltac careful_auto := repeat careful_step.

Lemma careful_get k : careful (get k).
Proof. apply careful_gets. Qed.

Lemma careful_has k : careful (has k).
Proof. apply careful_gets. Qed.

Lemma careful_getPath a : careful (getPath a).
Proof. apply careful_gets. Qed.

Lemma careful_hasSpentCoin spent : careful (hasSpentCoin spent).
Proof. apply careful_gets. Qed.

#[local] Hint Resolve careful_get careful_has careful_getPath
  careful_hasSpentCoin : careful.

Lemma careful_getTX hash : careful (getTX hash).
Proof. unfold getTX. careful_auto. Qed.

Lemma careful_getSpent hash index : careful (getSpent hash index).
Proof. unfold getSpent. careful_auto. Qed.

Lemma careful_getSpentCoin spent prevout : careful (getSpentCoin spent prevout).
Proof. unfold getSpentCoin. careful_auto. Qed.

Lemma careful_getBlock height : careful (getBlock height).
Proof. unfold getBlock. careful_auto. Qed.

Lemma careful_getSpentCredits tx : careful (getSpentCredits tx).
Proof. unfold getSpentCredits. careful_auto. Qed.

Lemma careful_commit_state : careful commit_state.
Proof. unfold commit_state. careful_auto. Qed.

Lemma careful_input_prevout tx index : careful (input_prevout tx index).
Proof. unfold input_prevout. careful_auto. Qed.

#[local] Hint Resolve careful_getTX careful_getSpent careful_getSpentCoin
  careful_getBlock careful_getSpentCredits careful_commit_state
  careful_input_prevout : careful.

Lemma careful_spendCredit credit tx index : careful (spendCredit credit tx index).
Proof. unfold spendCredit. careful_auto. Qed.

Lemma careful_unspendCredit tx index : careful (unspendCredit tx index).
Proof. unfold unspendCredit. careful_auto. Qed.

Lemma careful_writeInput tx index : careful (writeInput tx index).
Proof. unfold writeInput. careful_auto. Qed.

Lemma careful_removeInput tx index : careful (removeInput tx index).
Proof. unfold removeInput. careful_auto. Qed.

Lemma careful_updateSpentCoin tx index : careful (updateSpentCoin tx index).
Proof. unfold updateSpentCoin. careful_auto. Qed.

#[local] Hint Resolve careful_spendCredit careful_unspendCredit
  careful_writeInput careful_removeInput careful_updateSpentCoin : careful.

Lemma careful_resolveInput tx index path : careful (resolveInput tx index path).
Proof. unfold resolveInput. careful_auto. Qed.

Lemma careful_isRBF tx : careful (isRBF tx).
Proof.
  unfold isRBF. destruct (tx_rbf tx); [apply careful_ret|].
  induction (tx_inputs tx) as [|input rest IH]; simpl; careful_auto.
Qed.

Lemma careful_addBlock tx entry : careful (addBlock tx entry).
Proof. unfold addBlock. careful_auto. Qed.

Lemma careful_removeBlock tx height : careful (removeBlock tx height).
Proof. unfold removeBlock. careful_auto. Qed.

Lemma careful_unlockTX tx : careful (unlockTX tx).
Proof.
  unfold unlockTX. destruct (tx_coinbase tx); [apply careful_ret|].
  induction (tx_inputs tx) as [|input rest IH]; simpl; careful_auto.
Qed.

Lemma careful_index_accounts tx accounts : careful (index_accounts tx accounts).
Proof. induction accounts as [|a rest IH]; simpl; careful_auto. Qed.

Lemma careful_reindex_accounts tx accounts : careful (reindex_accounts tx accounts).
Proof. induction accounts as [|a rest IH]; simpl; careful_auto. Qed.

Lemma careful_unreindex_accounts tx height accounts :
  careful (unreindex_accounts tx height accounts).
Proof. induction accounts as [|a rest IH]; simpl; careful_auto. Qed.

Lemma careful_unindex_accounts tx accounts : careful (unindex_accounts tx accounts).
Proof. induction accounts as [|a rest IH]; simpl; careful_auto. Qed.

#[local] Hint Resolve careful_resolveInput careful_isRBF careful_addBlock
  careful_removeBlock careful_unlockTX careful_index_accounts
  careful_reindex_accounts careful_unreindex_accounts
  careful_unindex_accounts : careful.

Lemma careful_insert_inputs tx inputs :
  forall i details updated, careful (insert_inputs tx i inputs details updated).
Proof.
  induction inputs as [|input rest IH]; intros i details updated; simpl;
    careful_auto.
Qed.

Lemma careful_insert_outputs tx outputs :
  forall i details updated, careful (insert_outputs tx i outputs details updated).
Proof.
  induction outputs as [|output rest IH]; intros i details updated; simpl;
    careful_auto.
Qed.

#[local] Hint Resolve careful_insert_inputs careful_insert_outputs : careful.

Lemma careful_insert tx block : careful (insert tx block).
Proof. unfold insert. careful_auto. Qed.

Lemma careful_confirm_inputs tx inputs :
  forall i details, careful (confirm_inputs tx i inputs details).
Proof.
  induction inputs as [|[input credit] rest IH]; intros i details; simpl;
    careful_auto.
Qed.

Lemma careful_confirm_outputs tx outputs :
  forall i details, careful (confirm_outputs tx i outputs details).
Proof.
  induction outputs as [|output rest IH]; intros i details; simpl;
    careful_auto.
Qed.

#[local] Hint Resolve careful_confirm_inputs careful_confirm_outputs : careful.

Lemma careful__confirm tx block : careful (_confirm tx block).
Proof. unfold _confirm. careful_auto. Qed.

Lemma careful_disconnect_inputs tx credits :
  forall i details, careful (disconnect_inputs tx i credits details).
Proof.
  induction credits as [|[credit|] rest IH]; intros i details; simpl;
    careful_auto.
Qed.

Lemma careful_disconnect_outputs tx outputs :
  forall i details, careful (disconnect_outputs tx i outputs details).
Proof.
  induction outputs as [|output rest IH]; intros i details; simpl;
    careful_auto.
Qed.

#[local] Hint Resolve careful_disconnect_inputs careful_disconnect_outputs
  : careful.

Lemma careful_disconnect tx : careful (disconnect tx).
Proof. unfold disconnect. careful_auto. Qed.

Lemma careful_erase_inputs tx credits :
  forall i details, careful (erase_inputs tx i credits details).
Proof.
  induction credits as [|[credit|] rest IH]; intros i details; simpl;
    careful_auto.
Qed.

Lemma careful_erase_outputs tx outputs :
  forall i details, careful (erase_outputs tx i outputs details).
Proof.
  induction outputs as [|output rest IH]; intros i details; simpl;
    careful_auto.
Qed.

#[local] Hint Resolve careful_erase_inputs careful_erase_outputs : careful.

Lemma careful_erase tx : careful (erase tx).
Proof. unfold erase. careful_auto. Qed.

#[local] Hint Resolve careful_insert careful__confirm careful_disconnect
  careful_erase : careful.

Lemma careful_remove_spenders (recurse : TX -> M Details) hash outputs :
  (forall tx, careful (recurse tx)) ->
  forall i, careful (remove_spenders recurse hash i outputs).
Proof.
  intros Hrec. induction outputs as [|output rest IH]; intros i; simpl;
    careful_auto.
Qed.

Lemma careful_removeRecursive fuel : forall tx, careful (removeRecursive fuel tx).
Proof.
  induction fuel as [|fuel IH]; intros tx; simpl; [apply careful_out_of_fuel|].
  apply careful_bind; [by apply careful_remove_spenders|intro].
  careful_auto.
Qed.

#[local] Hint Resolve careful_removeRecursive : careful.

Lemma careful_remove fuel hash : careful (remove fuel hash).
Proof. unfold remove. careful_auto. Qed.

Lemma careful_removeConflict fuel tx : careful (removeConflict fuel tx).
Proof. unfold removeConflict. careful_auto. Qed.

Lemma careful_gather_spends hash conf inputs :
  careful (gather_spends hash conf inputs).
Proof. induction inputs as [|input rest IH]; simpl; careful_auto. Qed.

#[local] Hint Resolve careful_remove careful_removeConflict
  careful_gather_spends : careful.

Lemma careful_remove_spends fuel spends : careful (remove_spends fuel spends).
Proof. induction spends as [|[spender|] rest IH]; simpl; careful_auto. Qed.

#[local] Hint Resolve careful_remove_spends : careful.

Lemma careful_removeConflicts fuel tx conf : careful (removeConflicts fuel tx conf).
Proof. unfold removeConflicts. careful_auto. Qed.

#[local] Hint Resolve careful_removeConflicts : careful.

Lemma careful__add fuel tx block : careful (_add fuel tx block).
Proof. unfold _add. careful_auto. Qed.

#[local] Hint Resolve careful__add : careful.

Lemma hasCoin_coherent hash index s :
  cache_coherent s ->
  hasCoin hash index s
  = (Ok (bool_decide (is_Some (db s !! Kc hash index))), s).
Proof.
  intros Hcoh. unfold hasCoin, bind, gets, has, LRU_get. simpl.
  destruct (bool_decide (is_Some (lru_items (coinCache s) !! (hash, index))))
    eqn:E; [|reflexivity].
  apply bool_decide_eq_true_1 in E as [v Hv]. unfold ret. do 2 f_equal.
  symmetry. apply bool_decide_eq_true_2. rewrite (Hcoh _ _ _ Hv). eauto.
Qed.

(** X15. The coin cache never disagrees with the store. Take a state
    whose cache holds only bytes that are stored under the credit key
    and whose batch, if one is open, has a pending state and writes
    under credit keys what the cache has pending (a state between two
    writes is such a state). Whatever [add], [confirm], [unconfirm],
    [remove] and [abandon] do from there (return, throw, or exhaust
    the bound on the recursion), they leave such a state again, so
    that [hasCoin] answers exactly whether a credit is stored. *)
Theorem cache_follows_store (s s' : TXDB) :
  sound s ->
  (exists fuel tx block, s' = (add fuel tx block s).2) \/
  (exists hash block, s' = (confirm hash block s).2) \/
  (exists hash, s' = (unconfirm hash s).2) \/
  (exists fuel hash, s' = (remove fuel hash s).2) \/
  (exists fuel hash, s' = (abandon fuel hash s).2) ->
  sound s' /\
  forall hash index,
    hasCoin hash index s'
    = (Ok (bool_decide (is_Some (db s' !! Kc hash index))), s').
Proof.
  intros Hs Hcase.
  assert (G : sound s').
  { destruct Hcase as [(fuel & tx & block & ->)|[(hash & block & ->)|
                       [(hash & ->)|[(fuel & hash & ->)|(fuel & hash & ->)]]]].
    - assert (C : careful (add fuel tx block)) by (unfold add; careful_auto).
      exact (C s _ _ (surjective_pairing _) Hs).
    - assert (C : careful (confirm hash block)) by (unfold confirm; careful_auto).
      exact (C s _ _ (surjective_pairing _) Hs).
    - assert (C : careful (unconfirm hash)).
      { unfold unconfirm, _unconfirm. careful_auto. }
      exact (C s _ _ (surjective_pairing _) Hs).
    - exact (careful_remove fuel hash s _ _ (surjective_pairing _) Hs).
    - assert (C : careful (abandon fuel hash)) by (unfold abandon; careful_auto).
      exact (C s _ _ (surjective_pairing _) Hs). }
  split; [exact G|]. intros hash index. apply hasCoin_coherent. apply G.
Qed.

Lemma cache_follows_store_witness :
  sound (confirm "cc" (Some Examples.blk6) Examples.withP5C).2 /\
  forall hash index,
    hasCoin hash index (confirm "cc" (Some Examples.blk6) Examples.withP5C).2
    = (Ok (bool_decide
             (is_Some (db (confirm "cc" (Some Examples.blk6)
                             Examples.withP5C).2 !! Kc hash index))),
       (confirm "cc" (Some Examples.blk6) Examples.withP5C).2).
Proof.
  destruct withP5C_committed as (Hq & Hcoh & _).
  apply (cache_follows_store Examples.withP5C _ (quiescent_sound _ Hq Hcoh)).
  right. left. by exists "cc", (Some Examples.blk6).
Defined.

(** * The key layout *)

(** ** Hex strings *)

Lemma unhex_hex_char n : 0 <= n < 16 -> unhex (hex_char n) = Some n.
Proof.
  intros H. rewrite <- (Z2Nat.id n) by lia.
  assert (Hk : (Z.to_nat n < 16)%nat) by lia. revert Hk.
  generalize (Z.to_nat n). intros k Hk.
  do 16 (destruct k as [|k]; [reflexivity|]). lia.
Qed.

Lemma hex_decode_toHex bytes :
  Forall is_byte bytes -> hex_decode (toHex bytes) = bytes.
Proof.
  induction 1 as [|b rest Hb _ IH]; [reflexivity|]. simpl.
  unfold is_byte in Hb.
  rewrite !unhex_hex_char, IH.
  - f_equal. pose proof (Z.div_mod b 16). lia.
  - apply Z.mod_pos_bound. lia.
  - split; [apply Z.div_pos; lia|apply Z.div_lt_upper_bound; lia].
Qed.

Lemma toHex_even bytes : Nat.odd (String.length (toHex bytes)) = false.
Proof. induction bytes as [|b rest IH]; [reflexivity|exact IH]. Qed.

Lemma toHex_inj a b :
  Forall is_byte a -> Forall is_byte b -> toHex a = toHex b -> a = b.
Proof.
  intros Ha Hb E. rewrite <- (hex_decode_toHex a Ha), <- (hex_decode_toHex b Hb).
  by rewrite E.
Qed.

(** ** Writes into a buffer *)

Lemma Buffer_set_app pre x post v :
  Buffer_set (pre ++ x :: post) (length pre) v = pre ++ (v mod 256) :: post.
Proof.
  unfold Buffer_set. induction pre as [|y pre IH]; [reflexivity|].
  simpl. f_equal. exact IH.
Qed.

Lemma writeUInt32BE_app pre old post v :
  length old = 4%nat ->
  writeUInt32BE (pre ++ old ++ post) v (length pre) = pre ++ be32 v ++ post.
Proof.
  intros Hl.
  destruct old as [|x0 [|x1 [|x2 [|x3 [|]]]]]; try discriminate.
  unfold writeUInt32BE, Buffer_set, be32. cbv zeta.
  induction pre as [|y pre IH]; [reflexivity|].
  simpl. f_equal. exact IH.
Qed.

Lemma hexWrite_app pre old post bytes :
  length old = length bytes -> Forall is_byte bytes ->
  hexWrite (pre ++ old ++ post) (toHex bytes) (length pre)
  = Some (pre ++ bytes ++ post).
Proof.
  intros Hl Hb. unfold hexWrite. rewrite toHex_even, hex_decode_toHex by done.
  rewrite (take_ge bytes) by (rewrite !length_app; lia).
  rewrite take_app_length. do 3 f_equal.
  rewrite drop_app_add'; [|done]. rewrite <- Hl. by rewrite drop_app_length.
Qed.

Lemma Buffer_alloc_split mem a b c :
  exists la lb lc,
    Buffer_alloc mem (a + b + c) = la ++ lb ++ lc /\
    length la = a /\ length lb = b /\ length lc = c.
Proof.
  unfold Buffer_alloc.
  assert (Hl : length (resize (a + b + c) 0 mem) = (a + b + c)%nat)
    by apply length_resize.
  set (l := resize (a + b + c) 0 mem) in *.
  exists (take a l), (take b (skipn a l)), (skipn (a + b) l).
  split; [|split; [|split]].
  - rewrite <- (take_drop a l) at 1. f_equal.
    rewrite <- (take_drop b (skipn a l)) at 1. f_equal.
    by rewrite drop_drop.
  - rewrite length_take. lia.
  - rewrite length_take, length_drop. lia.
  - rewrite length_drop. lia.
Qed.

(** ** Reading an integer back *)

Lemma lor_shiftl_small a b k :
  0 <= k -> 0 <= b < 2 ^ k -> Z.lor (Z.shiftl a k) b = a * 2 ^ k + b.
Proof.
  intros Hk Hb. rewrite <- Z.shiftl_mul_pow2 by lia.
  pose proof (Z.add_lor_land (Z.shiftl a k) b) as E.
  assert (E0 : Z.land (Z.shiftl a k) b = 0).
  { apply Z.bits_inj'. intros n Hn. rewrite Z.land_spec, Z.bits_0.
    destruct (Z.lt_ge_cases n k).
    - by rewrite Z.shiftl_spec_low by lia.
    - rewrite <- (Z.mod_small b (2 ^ k)) by lia.
      rewrite Z.mod_pow2_bits_high by lia. apply andb_false_r. }
  lia.
Qed.

Lemma be32_bytes v : Forall is_byte (be32 v).
Proof.
  unfold be32, is_byte. repeat constructor; apply Z.mod_pos_bound; lia.
Qed.

(** The bytes written by [writeUInt32BE] read back, by the formula of
    [readUInt32BE], as the value reduced to 32 bits. *)
Lemma be32_value v :
  (ushr v 24 mod 256) * 16777216 +
  Z.lor (Z.lor (Z.shiftl (ushr v 16 mod 256) 16) (Z.shiftl (ushr v 8 mod 256) 8))
        (v mod 256)
  = v mod 2 ^ 32.
Proof.
  unfold ushr. rewrite !Z.shiftr_div_pow2 by lia.
  set (w := v mod 2 ^ 32).
  assert (Hw : 0 <= w < 2 ^ 32) by (apply Z.mod_pos_bound; lia).
  assert (Ed : v mod 256 = w mod 256).
  { unfold w. change (2 ^ 32) with 4294967296.
    Z.div_mod_to_equations. lia. }
  rewrite Ed. rewrite <- Z.lor_assoc.
  rewrite (lor_shiftl_small (w / 2 ^ 8 mod 256) (w mod 256) 8)
    by (try apply Z.mod_pos_bound; lia).
  rewrite lor_shiftl_small.
  - change (2 ^ 32) with 4294967296 in Hw.
    change (2 ^ 24) with 16777216. change (2 ^ 16) with 65536.
    change (2 ^ 8) with 256.
    Z.div_mod_to_equations. lia.
  - lia.
  - change (2 ^ 8) with 256. change (2 ^ 16) with 65536.
    pose proof (Z.mod_pos_bound (w / 256) 256 ltac:(lia)).
    pose proof (Z.mod_pos_bound w 256 ltac:(lia)). lia.
Qed.

Lemma readUInt32BE_app pre v post :
  readUInt32BE (pre ++ be32 v ++ post) (length pre) = Some (v mod 2 ^ 32).
Proof.
  rewrite <- be32_value. unfold be32.
  induction pre as [|y pre IH]; [reflexivity|exact IH].
Qed.

Lemma be32_inj a b : is_u32 a -> is_u32 b -> be32 a = be32 b -> a = b.
Proof.
  unfold is_u32. intros Ha Hb E.
  pose proof (readUInt32BE_app [] a []) as Ra.
  pose proof (readUInt32BE_app [] b []) as Rb.
  rewrite E, Rb in Ra. injection Ra as Ra.
  change (2 ^ 32) with 4294967296 in Ra.
  rewrite !Z.mod_small in Ra by lia. done.
Qed.

(** ** The bytes of a key *)

Lemma Buffer_set_at buf pre x post v off :
  buf = pre ++ x :: post -> off = length pre ->
  Buffer_set buf off v = pre ++ (v mod 256) :: post.
Proof. intros -> ->. apply Buffer_set_app. Qed.

Lemma writeUInt32BE_at buf pre old post v off :
  buf = pre ++ old ++ post -> off = length pre -> length old = 4%nat ->
  writeUInt32BE buf v off = pre ++ be32 v ++ post.
Proof. intros -> ->. apply writeUInt32BE_app. Qed.

Lemma hexWrite_at buf pre old post bytes off :
  buf = pre ++ old ++ post -> off = length pre ->
  length old = length bytes -> Forall is_byte bytes ->
  hexWrite buf (toHex bytes) off = Some (pre ++ bytes ++ post).
Proof. intros -> ->. apply hexWrite_app. Qed.

Ltac layout_side :=
  first [ done
        | simpl; rewrite ?app_nil_r; done
        | simpl; rewrite ?length_app; simpl; lia ].

Lemma ha_bytes mem ch bytes :
  length bytes = 32%nat -> Forall is_byte bytes ->
  layout.ha mem ch (toHex bytes) = Some ([ch mod 256] ++ bytes).
Proof.
  intros Hl Hb. unfold layout.ha.
  destruct (Buffer_alloc_split mem 1 32 0) as (la & lb & lc & E & Ha & Hlb & Hc).
  change (1 + 32 + 0)%nat with 33%nat in E. rewrite E.
  destruct la as [|x [|]]; try discriminate.
  destruct lc; try discriminate. cbv zeta.
  rewrite (Buffer_set_at _ [] x (lb ++ []) ch 0) by layout_side.
  rewrite (hexWrite_at _ [ch mod 256] lb [] bytes 1) by layout_side.
  by rewrite app_nil_r.
Qed.

Lemma hi_bytes mem ch bytes index :
  length bytes = 32%nat -> Forall is_byte bytes ->
  layout.hi mem ch (toHex bytes) index
  = Some ([ch mod 256] ++ bytes ++ be32 index).
Proof.
  intros Hl Hb. unfold layout.hi.
  destruct (Buffer_alloc_split mem 1 32 4) as (la & lb & lc & E & Ha & Hlb & Hc).
  change (1 + 32 + 4)%nat with 37%nat in E. rewrite E.
  destruct la as [|x [|]]; try discriminate. cbv zeta.
  rewrite (Buffer_set_at _ [] x (lb ++ lc) ch 0) by layout_side.
  rewrite (hexWrite_at _ [ch mod 256] lb lc bytes 1) by layout_side.
  simpl.
  rewrite (writeUInt32BE_at _ ((ch mod 256) :: bytes) lc [] index 33)
    by layout_side.
  by rewrite app_nil_r.
Qed.

Lemma ih_bytes mem ch index bytes :
  length bytes = 32%nat -> Forall is_byte bytes ->
  layout.ih mem ch index (toHex bytes)
  = Some ([ch mod 256] ++ be32 index ++ bytes).
Proof.
  intros Hl Hb. unfold layout.ih.
  destruct (Buffer_alloc_split mem 1 4 32) as (la & lb & lc & E & Ha & Hlb & Hc).
  change (1 + 4 + 32)%nat with 37%nat in E. rewrite E.
  destruct la as [|x [|]]; try discriminate. cbv zeta.
  rewrite (Buffer_set_at _ [] x (lb ++ lc) ch 0) by layout_side.
  rewrite (writeUInt32BE_at _ [ch mod 256] lb lc index 1) by layout_side.
  rewrite (hexWrite_at _ ((ch mod 256) :: be32 index) lc [] bytes 5)
    by layout_side.
  by rewrite app_nil_r.
Qed.

Lemma iih_bytes mem ch index num bytes :
  length bytes = 32%nat -> Forall is_byte bytes ->
  layout.iih mem ch index num (toHex bytes)
  = Some ([ch mod 256] ++ be32 index ++ be32 num ++ bytes).
Proof.
  intros Hl Hb. unfold layout.iih.
  destruct (Buffer_alloc_split mem 5 4 32) as (la & lb & lc & E & Ha & Hlb & Hc).
  change (5 + 4 + 32)%nat with 41%nat in E. rewrite E.
  destruct la as [|x [|x0 [|x1 [|x2 [|x3 [|]]]]]]; try discriminate. cbv zeta.
  rewrite (Buffer_set_at _ [] x ([x0; x1; x2; x3] ++ lb ++ lc) ch 0)
    by layout_side.
  rewrite (writeUInt32BE_at _ [ch mod 256] [x0; x1; x2; x3] (lb ++ lc) index 1)
    by layout_side.
  rewrite (writeUInt32BE_at _ ((ch mod 256) :: be32 index) lb lc num 5)
    by layout_side.
  rewrite (hexWrite_at _ ((ch mod 256) :: be32 index ++ be32 num) lc [] bytes 9)
    by layout_side.
  by rewrite app_nil_r.
Qed.

Lemma ihi_bytes mem ch index bytes num :
  length bytes = 32%nat -> Forall is_byte bytes ->
  layout.ihi mem ch index (toHex bytes) num
  = Some ([ch mod 256] ++ be32 index ++ bytes ++ be32 num).
Proof.
  intros Hl Hb. unfold layout.ihi.
  destruct (Buffer_alloc_split mem 5 32 4) as (la & lb & lc & E & Ha & Hlb & Hc).
  change (5 + 32 + 4)%nat with 41%nat in E. rewrite E.
  destruct la as [|x [|x0 [|x1 [|x2 [|x3 [|]]]]]]; try discriminate. cbv zeta.
  rewrite (Buffer_set_at _ [] x ([x0; x1; x2; x3] ++ lb ++ lc) ch 0)
    by layout_side.
  rewrite (writeUInt32BE_at _ [ch mod 256] [x0; x1; x2; x3] (lb ++ lc) index 1)
    by layout_side.
  rewrite (hexWrite_at _ ((ch mod 256) :: be32 index) lb lc bytes 5)
    by layout_side.
  simpl.
  rewrite (writeUInt32BE_at _ ((ch mod 256) :: be32 index ++ bytes) lc [] num 37)
    by layout_side.
  by rewrite app_nil_r.
Qed.

Lemma b_bytes mem height : layout.b mem height = [98] ++ be32 height.
Proof.
  unfold layout.b.
  destruct (Buffer_alloc_split mem 1 4 0) as (la & lb & lc & E & Ha & Hlb & Hc).
  change (1 + 4 + 0)%nat with 5%nat in E. rewrite E.
  destruct la as [|x [|]]; try discriminate.
  destruct lc; try discriminate. cbv zeta.
  rewrite (Buffer_set_at _ [] x (lb ++ []) 98 0) by layout_side.
  rewrite (writeUInt32BE_at _ [98 mod 256] lb [] height 1) by layout_side.
  reflexivity.
Qed.

Lemma prefix_bytes mem wid key :
  is_u32 wid -> layout.prefix mem wid key = Some ([116] ++ be32 wid ++ key).
Proof.
  intros Hw. unfold layout.prefix, is_u32 in *.
  destruct (Buffer_alloc_split mem 1 4 (length key))
    as (la & lb & lc & E & Ha & Hlb & Hc).
  change (1 + 4 + length key)%nat with (5 + length key)%nat in E. rewrite E.
  destruct la as [|x [|]]; try discriminate. cbv zeta.
  rewrite (Buffer_set_at _ [] x (lb ++ lc) 116 0) by layout_side.
  unfold writeUInt32BE_checked.
  replace (wid <? 0) with false by (symmetry; apply Z.ltb_ge; lia).
  replace (4294967295 <? wid) with false by (symmetry; apply Z.ltb_ge; lia).
  match goal with
  | |- context [Nat.ltb ?a ?b] =>
      replace (Nat.ltb a b) with false
        by (symmetry; apply Nat.ltb_ge; simpl; rewrite length_app; lia)
  end.
  simpl.
  rewrite (writeUInt32BE_at _ [116] lb lc wid 1) by layout_side.
  unfold Buffer_copy. f_equal.
  rewrite (take_ge key) by (simpl; lia).
  simpl. rewrite <- Hc, drop_all. by rewrite app_nil_r.
Qed.

(** ** Keys parse back *)

Lemma option_bind_Some {A B} (f : A -> option B) (x : A) :
  (y ← Some x; f y) = f x.
Proof. reflexivity. Qed.

Lemma drop6_key wid ch rest :
  skipn 6 ([116] ++ be32 wid ++ [ch] ++ rest) = rest.
Proof. reflexivity. Qed.

Lemma toString_hex_at buf pre bytes rest a b :
  buf = pre ++ bytes ++ rest -> a = length pre ->
  b = (length pre + length bytes)%nat ->
  toString_hex buf a b = toHex bytes.
Proof.
  intros -> -> ->. unfold toString_hex.
  rewrite app_assoc, <- length_app, take_app_length.
  by rewrite drop_app_length.
Qed.

Lemma readUInt32BE_at buf pre v post off :
  buf = pre ++ be32 v ++ post -> off = length pre ->
  readUInt32BE buf off = Some (v mod 2 ^ 32).
Proof. intros -> ->. apply readUInt32BE_app. Qed.

Lemma pre_prefix wid key : layout.pre ([116] ++ be32 wid ++ key) = Some (wid mod 2 ^ 32).
Proof. exact (readUInt32BE_app [116] wid key). Qed.

(** X16. Keys parse back. For a hash that is the hex string of 32
    bytes and a wallet id that is an unsigned 32-bit integer, every
    key builder of the layout followed by [prefix] yields a key,
    whatever the allocated memory held, from which the parser of the
    same family returns the hash and every integer reduced modulo
    2^32 (so an integer in range comes back as it is, and -1 comes
    back as 4294967295); [pre] returns the wallet id. *)
Theorem layout_round_trip (mem mem' : Buffer) (wid ch : Z) (hash : string)
    (index num : Z) :
  is_hash hash -> is_u32 wid ->
  (exists key,
     (k ← layout.ha mem ch hash; layout.prefix mem' wid k) = Some key /\
     layout.haa key = hash /\ layout.pre key = Some wid) /\
  (exists key,
     (k ← layout.hi mem ch hash index; layout.prefix mem' wid k) = Some key /\
     layout.hii key = (hash, Some (index mod 2 ^ 32)) /\
     layout.pre key = Some wid) /\
  (exists key,
     (k ← layout.ih mem ch index hash; layout.prefix mem' wid k) = Some key /\
     layout.ihh key = (Some (index mod 2 ^ 32), hash) /\
     layout.pre key = Some wid) /\
  (exists key,
     (k ← layout.iih mem ch index num hash; layout.prefix mem' wid k)
     = Some key /\
     layout.iihh key = (Some (index mod 2 ^ 32), Some (num mod 2 ^ 32), hash) /\
     layout.pre key = Some wid) /\
  (exists key,
     (k ← layout.ihi mem ch index hash num; layout.prefix mem' wid k)
     = Some key /\
     layout.ihii key = (Some (index mod 2 ^ 32), hash, Some (num mod 2 ^ 32)) /\
     layout.pre key = Some wid) /\
  (exists key,
     layout.prefix mem' wid (layout.b mem index) = Some key /\
     layout.bb key = Some (index mod 2 ^ 32) /\
     layout.pre key = Some wid).
Proof.
  intros (bytes & -> & Hl & Hb) Hw.
  assert (Ew : wid mod 2 ^ 32 = wid) by (apply Z.mod_small; exact Hw).
  assert (Hpre : forall key,
            layout.pre ([116] ++ be32 wid ++ key) = Some wid).
  { intros key. by rewrite pre_prefix, Ew. }
  split; [|split; [|split; [|split; [|split]]]].
  - rewrite ha_bytes by done. rewrite option_bind_Some, prefix_bytes by done.
    eexists. split; [reflexivity|]. split; [|apply Hpre].
    unfold layout.haa. by rewrite drop6_key.
  - rewrite hi_bytes by done. rewrite option_bind_Some, prefix_bytes by done.
    eexists. split; [reflexivity|]. split; [|apply Hpre].
    unfold layout.hii. rewrite drop6_key. f_equal.
    + apply (toString_hex_at _ [] bytes (be32 index)); layout_side.
    + apply (readUInt32BE_at _ bytes index []); layout_side.
  - rewrite ih_bytes by done. rewrite option_bind_Some, prefix_bytes by done.
    eexists. split; [reflexivity|]. split; [|apply Hpre].
    unfold layout.ihh. rewrite drop6_key. f_equal.
    + apply (readUInt32BE_at _ [] index bytes); layout_side.
    + apply (toString_hex_at _ (be32 index) bytes []); layout_side.
  - rewrite iih_bytes by done. rewrite option_bind_Some, prefix_bytes by done.
    eexists. split; [reflexivity|]. split; [|apply Hpre].
    unfold layout.iihh. rewrite drop6_key. f_equal; [f_equal|].
    + apply (readUInt32BE_at _ [] index (be32 num ++ bytes)); layout_side.
    + apply (readUInt32BE_at _ (be32 index) num bytes); layout_side.
    + apply (toString_hex_at _ (be32 index ++ be32 num) bytes []); layout_side.
  - rewrite ihi_bytes by done. rewrite option_bind_Some, prefix_bytes by done.
    eexists. split; [reflexivity|]. split; [|apply Hpre].
    unfold layout.ihii. rewrite drop6_key. f_equal; [f_equal|].
    + apply (readUInt32BE_at _ [] index (bytes ++ be32 num)); layout_side.
    + apply (toString_hex_at _ (be32 index) bytes (be32 num)); layout_side.
    + apply (readUInt32BE_at _ (be32 index ++ bytes) num []); layout_side.
  - rewrite b_bytes. rewrite prefix_bytes by done.
    eexists. split; [reflexivity|]. split; [|apply Hpre].
    unfold layout.bb. rewrite drop6_key.
    apply (readUInt32BE_at _ [] index []); layout_side.
Qed.

Lemma layout_round_trip_witness :
  exists key,
    (k ← layout.hi [] 99 (toHex (replicate 32 171)) (-1);
     layout.prefix [7; 7] 1 k) = Some key /\
    layout.hii key = (toHex (replicate 32 171), Some 4294967295) /\
    layout.pre key = Some 1.
Proof.
  assert (Hh : is_hash (toHex (replicate 32 171))).
  { exists (replicate 32 171). split; [reflexivity|]. split; [reflexivity|].
    apply Forall_replicate. unfold is_byte. lia. }
  assert (Hw : is_u32 1) by (unfold is_u32; lia).
  exact (proj1 (proj2 (layout_round_trip [] [7; 7] 1 99 _ (-1) 0 Hh Hw))).
Defined.

(** ** Keys do not collide *)

Lemma is_hash_decode hash :
  is_hash hash ->
  length (hex_decode hash) = 32%nat /\ Forall is_byte (hex_decode hash) /\
  toHex (hex_decode hash) = hash.
Proof.
  intros (bytes & -> & Hl & Hb). by rewrite hex_decode_toHex.
Qed.

Lemma hex_decode_inj h1 h2 :
  is_hash h1 -> is_hash h2 -> hex_decode h1 = hex_decode h2 -> h1 = h2.
Proof.
  intros H1 H2 E.
  destruct (is_hash_decode _ H1) as (_ & _ & <-).
  destruct (is_hash_decode _ H2) as (_ & _ & <-). by rewrite E.
Qed.

Lemma key_bytes_canon mem k :
  key_valid k -> key_bytes mem k = Some (key_canon k).
Proof.
  destruct k; simpl; intros Hv;
    repeat match goal with
           | H : _ /\ _ |- _ => destruct H
           | H : is_hash _ |- _ =>
               destruct H as (bytes & -> & Hl & Hb);
               rewrite (hex_decode_toHex _ Hb)
           end.
  - unfold layout.t. by rewrite ha_bytes.
  - unfold layout.c. by rewrite hi_bytes.
  - unfold layout.d. by rewrite hi_bytes.
  - unfold layout.s. by rewrite hi_bytes.
  - unfold layout.p. by rewrite ha_bytes.
  - unfold layout.m. by rewrite ih_bytes.
  - unfold layout.h. by rewrite ih_bytes.
  - unfold layout.T. by rewrite ih_bytes.
  - unfold layout.P. by rewrite ih_bytes.
  - unfold layout.M. by rewrite iih_bytes.
  - unfold layout.H. by rewrite iih_bytes.
  - unfold layout.C. by rewrite ihi_bytes.
  - unfold layout.r. by rewrite ha_bytes.
  - f_equal. apply b_bytes.
  - reflexivity.
Qed.

Lemma be32_length v : length (be32 v) = 4%nat.
Proof. reflexivity. Qed.

Lemma key_canon_inj k1 k2 :
  key_valid k1 -> key_valid k2 -> key_canon k1 = key_canon k2 -> k1 = k2.
Proof.
  intros H1 H2 E.
  destruct k1, k2; simpl in H1, H2; try discriminate E;
    repeat match goal with
           | H : _ /\ _ |- _ => destruct H
           end;
    unfold key_canon in E; try apply app_inv_head in E;
    repeat match goal with
           | H : is_hash ?h |- _ =>
               pose proof (is_hash_decode _ H) as (? & _ & _);
               pose proof (hex_decode_inj h) as ?;
               revert H
           end; intros;
    repeat match goal with
           | E : _ ++ _ = _ ++ _ |- _ =>
               apply app_inj_1 in E as [? ?];
               [|rewrite ?be32_length; congruence]
           end;
    repeat match goal with
           | E : be32 _ = be32 _ |- _ => apply be32_inj in E; [|done..]
           | E : hex_decode ?a = hex_decode ?b |- _ =>
               apply hex_decode_inj in E; [|done..]
           end;
    by subst.
Qed.

(** X17. Keys do not collide. Two keys of the schema whose fields are
    valid (hashes that are the hex string of 32 bytes, integers that
    are unsigned 32-bit), built and prefixed for the same wallet,
    are stored under the same bytes exactly when they are the same
    key, whatever the allocated memory held when each was built; for
    a wallet id that is 0 or not an unsigned 32-bit integer there is
    no key. *)
Theorem stored_key_injective (mem1 mem1' mem2 mem2' : Buffer) (wid : Z)
    (k1 k2 : Key) :
  key_valid k1 -> key_valid k2 ->
  (is_u32 wid -> wid <> 0 ->
   exists b1 b2,
     stored_key mem1 mem1' wid k1 = Some b1 /\
     stored_key mem2 mem2' wid k2 = Some b2 /\
     (b1 = b2 <-> k1 = k2)) /\
  (~ (is_u32 wid /\ wid <> 0) -> stored_key mem1 mem1' wid k1 = None).
Proof.
  intros H1 H2. split.
  - intros Hw H0. unfold stored_key, TXDB_prefix.
    rewrite !key_bytes_canon by done. rewrite !option_bind_Some.
    replace (wid =? 0) with false by (symmetry; by apply Z.eqb_neq).
    rewrite !prefix_bytes by done. eexists _, _.
    split; [reflexivity|]. split; [reflexivity|]. split.
    + intros E. do 2 apply app_inv_head in E. by apply key_canon_inj.
    + by intros ->.
  - intros Hn. unfold stored_key, TXDB_prefix.
    rewrite key_bytes_canon by done. rewrite option_bind_Some.
    destruct (Z.eqb_spec wid 0) as [|H0]; [done|].
    unfold layout.prefix, writeUInt32BE_checked. cbv zeta.
    assert (Hr : (wid <? 0) || (4294967295 <? wid) = true).
    { apply orb_true_iff. unfold is_u32 in Hn.
      rewrite Z.ltb_lt, Z.ltb_lt. lia. }
    by rewrite Hr.
Qed.

Lemma stored_key_injective_witness :
  exists b1 b2,
    stored_key [] [] 1 (Kh 5 (toHex (replicate 32 171))) = Some b1 /\
    stored_key [9] [9] 1 (KP 5 (toHex (replicate 32 171))) = Some b2 /\
    (b1 = b2 <-> Kh 5 (toHex (replicate 32 171))
                 = KP 5 (toHex (replicate 32 171))).
Proof.
  assert (Hh : is_hash (toHex (replicate 32 171))).
  { exists (replicate 32 171). split; [reflexivity|]. split; [reflexivity|].
    apply Forall_replicate. unfold is_byte. lia. }
  assert (Hw : is_u32 1) by (unfold is_u32; lia).
  assert (H5 : is_u32 5) by (unfold is_u32; lia).
  apply (stored_key_injective [] [] [9] [9] 1
           (Kh 5 (toHex (replicate 32 171)))
           (KP 5 (toHex (replicate 32 171))) (conj H5 Hh) (conj H5 Hh));
    [exact Hw|lia].
Defined.

(** ** The order of the keys *)

Lemma Buffer_le_app pre a b :
  Buffer_le (pre ++ a) (pre ++ b) = Buffer_le a b.
Proof.
  induction pre as [|x pre IH]; [reflexivity|]. simpl.
  by rewrite Z.ltb_irrefl, Z.eqb_refl, IH.
Qed.

Lemma Buffer_le_cons x a y b :
  Buffer_le (x :: a) (y :: b) = (x <? y) || ((x =? y) && Buffer_le a b).
Proof. reflexivity. Qed.

Lemma be32_sum v :
  is_u32 v ->
  exists b3 b2 b1 b0,
    be32 v = [b3; b2; b1; b0] /\
    is_byte b3 /\ is_byte b2 /\ is_byte b1 /\ is_byte b0 /\
    v = ((b3 * 256 + b2) * 256 + b1) * 256 + b0.
Proof.
  intros Hv. unfold is_u32 in Hv. eexists _, _, _, _.
  split; [reflexivity|].
  pose proof (be32_bytes v) as Hb. unfold be32 in Hb.
  apply Forall_cons in Hb as [H3 Hb]. apply Forall_cons in Hb as [H2 Hb].
  apply Forall_cons in Hb as [H1 Hb]. apply Forall_cons in Hb as [H0 _].
  do 4 (split; [done|]).
  unfold ushr. rewrite !Z.shiftr_div_pow2 by lia.
  change (2 ^ 32) with 4294967296. rewrite (Z.mod_small v 4294967296) by lia.
  change (2 ^ 24) with 16777216. change (2 ^ 16) with 65536.
  change (2 ^ 8) with 256.
  Z.div_mod_to_equations. lia.
Qed.

(** One digit of a comparison in base 256. *)
Lemma digit_step x y p q (R : bool) :
  is_byte p -> is_byte q ->
  (x * 256 + p <? y * 256 + q) || ((x * 256 + p =? y * 256 + q) && R)
  = (x <? y) || ((x =? y) && ((p <? q) || ((p =? q) && R))).
Proof.
  unfold is_byte. intros Hp Hq.
  destruct (Z.ltb_spec x y), (Z.eqb_spec x y),
           (Z.ltb_spec p q), (Z.eqb_spec p q),
           (Z.ltb_spec (x * 256 + p) (y * 256 + q)),
           (Z.eqb_spec (x * 256 + p) (y * 256 + q));
    simpl; try reflexivity; exfalso; lia.
Qed.

(** Big-endian integers compare as numbers. *)
Lemma Buffer_le_be32 a b r1 r2 :
  is_u32 a -> is_u32 b ->
  Buffer_le (be32 a ++ r1) (be32 b ++ r2)
  = (a <? b) || ((a =? b) && Buffer_le r1 r2).
Proof.
  intros Ha Hb.
  destruct (be32_sum a Ha) as (a3 & a2 & a1 & a0 & -> & A3 & A2 & A1 & A0 & ->).
  destruct (be32_sum b Hb) as (b3 & b2 & b1 & b0 & -> & B3 & B2 & B1 & B0 & ->).
  rewrite !digit_step by done. reflexivity.
Qed.

Lemma Buffer_le_zeros bytes :
  Forall is_byte bytes -> Buffer_le (replicate (length bytes) 0) bytes = true.
Proof.
  induction 1 as [|b rest Hb _ IH]; [reflexivity|].
  change (replicate (length (b :: rest)) 0)
    with (0 :: replicate (length rest) 0).
  rewrite Buffer_le_cons, IH. unfold is_byte in Hb.
  destruct (Z.ltb_spec 0 b), (Z.eqb_spec 0 b); try reflexivity; exfalso; lia.
Qed.

Lemma Buffer_le_high bytes :
  Forall is_byte bytes -> Buffer_le bytes (replicate (length bytes) 255) = true.
Proof.
  induction 1 as [|b rest Hb _ IH]; [reflexivity|].
  change (replicate (length (b :: rest)) 255)
    with (255 :: replicate (length rest) 255).
  rewrite Buffer_le_cons, IH. unfold is_byte in Hb.
  destruct (Z.ltb_spec b 255), (Z.eqb_spec b 255); try reflexivity;
    exfalso; lia.
Qed.

Lemma Buffer_le_same c a b : Buffer_le (c :: a) (c :: b) = Buffer_le a b.
Proof. exact (Buffer_le_app [c] a b). Qed.

(** A key that starts with another byte is on one side of both
    bounds. *)
Lemma other_family c1 c2 lo hi a :
  c1 <> c2 ->
  Buffer_le (c1 :: lo) (c2 :: a) && Buffer_le (c2 :: a) (c1 :: hi) = false.
Proof.
  intros Hne. rewrite !Buffer_le_cons.
  destruct (Z.ltb_spec c1 c2), (Z.eqb_spec c1 c2),
           (Z.ltb_spec c2 c1), (Z.eqb_spec c2 c1);
    try reflexivity; exfalso; lia.
Qed.

Lemma NULL_HASH_is_hash : is_hash NULL_HASH.
Proof.
  exists (replicate 32 0). split; [reflexivity|]. split; [reflexivity|].
  apply Forall_replicate. unfold is_byte. lia.
Qed.

Lemma HIGH_HASH_is_hash : is_hash HIGH_HASH.
Proof.
  exists (replicate 32 255). split; [reflexivity|]. split; [reflexivity|].
  apply Forall_replicate. unfold is_byte. lia.
Qed.

(** X18. The scan of the height index meets the height index only.
    The bounds of getHeightRangeHashes are [h[start, NULL_HASH]] and
    [h[end, HIGH_HASH]]; in the bytewise order of the store, a key of
    the schema with valid fields lies between them exactly when it
    is a key [h[height, hash]] with [start <= height <= end]: no key
    of another family, and no height out of range. *)
Theorem height_range_exact (mem1 mem1' mem2 mem2' mem3 mem3' : Buffer)
    (wid start end_ : Z) (k : Key) :
  is_u32 wid -> wid <> 0 -> is_u32 start -> is_u32 end_ -> key_valid k ->
  exists lo hi key,
    stored_key mem1 mem1' wid (Kh start NULL_HASH) = Some lo /\
    stored_key mem2 mem2' wid (Kh end_ HIGH_HASH) = Some hi /\
    stored_key mem3 mem3' wid k = Some key /\
    (height_range_has lo hi key = true <->
     exists height hash, k = Kh height hash /\ start <= height <= end_).
Proof.
  intros Hw H0 Hs He Hk.
  assert (Hlo : key_valid (Kh start NULL_HASH))
    by (split; [done|apply NULL_HASH_is_hash]).
  assert (Hhi : key_valid (Kh end_ HIGH_HASH))
    by (split; [done|apply HIGH_HASH_is_hash]).
  unfold stored_key, TXDB_prefix.
  rewrite !key_bytes_canon by done. rewrite !option_bind_Some.
  replace (wid =? 0) with false by (symmetry; by apply Z.eqb_neq).
  rewrite !prefix_bytes by done. eexists _, _, _.
  do 3 (split; [reflexivity|]).
  unfold height_range_has.
  rewrite !(app_assoc [116] (be32 wid)), !Buffer_le_app.
  destruct k; cbn [key_valid] in Hk; cbn [key_canon app];
    try (rewrite other_family by discriminate;
         split; [discriminate|by intros (? & ? & [=] & _)]).
  destruct Hk as [Hh Hhash].
  destruct (is_hash_decode _ Hhash) as (Hl & Hb & _).
  rewrite !Buffer_le_same.
  change (hex_decode NULL_HASH) with (replicate 32 0).
  change (hex_decode HIGH_HASH) with (replicate 32 255).
  rewrite !Buffer_le_be32 by done.
  rewrite <- Hl, Buffer_le_zeros, Buffer_le_high by done.
  rewrite !andb_true_r. split.
  - intros H. apply andb_true_iff in H as [H1 H2].
    exists height, hash. split; [done|].
    apply orb_true_iff in H1. apply orb_true_iff in H2.
    rewrite !Z.ltb_lt, !Z.eqb_eq in *. lia.
  - intros (x & h' & [= <- <-] & Hr). apply andb_true_iff.
    rewrite !orb_true_iff, !Z.ltb_lt, !Z.eqb_eq. lia.
Qed.

Lemma height_range_exact_witness :
  exists lo hi key,
    stored_key [] [] 1 (Kh 3 NULL_HASH) = Some lo /\
    stored_key [] [] 1 (Kh 9 HIGH_HASH) = Some hi /\
    stored_key [1; 2] [3] 1 (Kh 5 (toHex (replicate 32 171))) = Some key /\
    (height_range_has lo hi key = true <->
     exists height hash,
       Kh 5 (toHex (replicate 32 171)) = Kh height hash /\ 3 <= height <= 9).
Proof.
  assert (Hh : is_hash (toHex (replicate 32 171))).
  { exists (replicate 32 171). split; [reflexivity|]. split; [reflexivity|].
    apply Forall_replicate. unfold is_byte. lia. }
  assert (Hw : is_u32 1) by (unfold is_u32; lia).
  assert (H3 : is_u32 3) by (unfold is_u32; lia).
  assert (H9 : is_u32 9) by (unfold is_u32; lia).
  assert (H5 : is_u32 5) by (unfold is_u32; lia).
  apply (height_range_exact [] [] [] [] [1; 2] [3] 1 3 9
           (Kh 5 (toHex (replicate 32 171))) Hw ltac:(lia) H3 H9
           (conj H5 Hh)).
Defined.

(** * A conflicting transaction is replaced *)

Lemma apply_ops_gone h0 ops :
  Forall (no_record_write h0) ops ->
  forall m, m !! Kt h0 = None -> apply_ops ops m !! Kt h0 = None.
Proof.
  induction 1 as [|[k o] ops Ho _ IH]; intros m Hm; [exact Hm|].
  rewrite apply_ops_cons. apply IH.
  destruct (decide (k = Kt h0)) as [->|Hne].
  - rewrite lookup_apply_op_eq. by apply Ho.
  - by rewrite lookup_apply_op_ne.
Qed.

Section Gone.

Variable h0 : Hash.

Lemma keeps_gone_ret {A} (a : A) : keeps_gone h0 (ret a).
Proof. by intros s r s' [= <- <-]. Qed.

Lemma keeps_gone_throw {A} msg : keeps_gone h0 (@throw A msg).
Proof. by intros s r s' [= <- <-]. Qed.

Lemma keeps_gone_out_of_fuel {A} : keeps_gone h0 (@out_of_fuel A).
Proof. by intros s r s' [= <- <-]. Qed.

Lemma keeps_gone_gets {A} (f : TXDB -> A) : keeps_gone h0 (gets f).
Proof. by intros s r s' [= <- <-]. Qed.

Lemma keeps_gone_bind {A B} (m : M A) (k : A -> M B) :
  keeps_gone h0 m -> (forall a, keeps_gone h0 (k a)) -> keeps_gone h0 (bind m k).
Proof.
  intros Hm Hk s r s' H Hs. unfold bind in H.
  destruct (m s) as [[a|e|] s1] eqn:E.
  - exact (Hk _ _ _ _ H (Hm _ _ _ E Hs)).
  - injection H as <- <-. exact (Hm _ _ _ E Hs).
  - injection H as <- <-. exact (Hm _ _ _ E Hs).
Qed.

Lemma keeps_gone_try_rethrow {A} (body : M A) (handler : M unit) :
  keeps_gone h0 body -> keeps_gone h0 handler ->
  keeps_gone h0 (try_rethrow body handler).
Proof.
  intros Hb Hh s r s' H Hs. unfold try_rethrow in H.
  destruct (body s) as [[a|e|] s1] eqn:E.
  - injection H as <- <-. exact (Hb _ _ _ E Hs).
  - destruct (handler s1) as [[u|e'|] s2] eqn:E2; injection H as <- <-;
      exact (Hh _ _ _ E2 (Hb _ _ _ E Hs)).
  - injection H as <- <-. exact (Hb _ _ _ E Hs).
Qed.

Lemma keeps_gone_modify (f : TXDB -> TXDB) :
  (forall s, db (f s) = db s) ->
  (forall s, current (f s) = current s \/ current (f s) = Some []
             \/ current (f s) = None) ->
  keeps_gone h0 (modify f).
Proof.
  intros Hdb Hcur s r s' [= <- <-] [Hg Hb]. split; [by rewrite Hdb|].
  intros ops Hc. destruct (Hcur s) as [E|[E|E]]; rewrite E in Hc.
  - by apply Hb.
  - injection Hc as <-. constructor.
  - discriminate.
Qed.

Lemma keeps_gone_assert c msg : keeps_gone h0 (assert c msg).
Proof. destruct c; [apply keeps_gone_ret|apply keeps_gone_throw]. Qed.

Lemma keeps_gone_decode {A} (r : option A) : keeps_gone h0 (decode r).
Proof. destruct r; [apply keeps_gone_ret|apply keeps_gone_throw]. Qed.

Lemma keeps_gone_stage k o s ops :
  no_record_write h0 (k, o) -> current s = Some ops -> gone h0 s ->
  gone h0 (set_current (fun _ => Some (ops ++ [(k, o)])) s).
Proof.
  intros Hk Hc [Hg Hb]. split; [exact Hg|].
  intros ops' [= <-]. apply Forall_app. split; [by apply Hb|].
  by constructor.
Qed.

Lemma keeps_gone_put k v : k <> Kt h0 -> keeps_gone h0 (put k v).
Proof.
  intros Hk s r s' H Hs. unfold put, bind, gets, modify in H.
  destruct (current s) eqn:E; injection H as <- <-; [|exact Hs].
  apply keeps_gone_stage; [|done..]. intros E'. simpl in E'. congruence.
Qed.

Lemma keeps_gone_del k : keeps_gone h0 (del k).
Proof.
  intros s r s' H Hs. unfold del, bind, gets, modify in H.
  destruct (current s) eqn:E; injection H as <- <-; [|exact Hs].
  by apply keeps_gone_stage.
Qed.

Lemma keeps_gone_update_pending f : keeps_gone h0 (update_pending f).
Proof.
  intros s r s' H Hs. unfold update_pending, bind, gets, modify in H.
  destruct (pending s) eqn:E; injection H as <- <-; exact Hs.
Qed.

Lemma keeps_gone_emit ev data details : keeps_gone h0 (emit ev data details).
Proof. apply keeps_gone_modify; intros s; auto. Qed.

Lemma keeps_gone_cache (f : LRU -> LRU) :
  keeps_gone h0 (modify (set_coinCache f)).
Proof. apply keeps_gone_modify; intros s; auto. Qed.

Lemma keeps_gone_unlockCoin o : keeps_gone h0 (unlockCoin o).
Proof. apply keeps_gone_modify; intros s; auto. Qed.

Lemma keeps_gone_start : keeps_gone h0 start.
Proof.
  intros s r s' [= <- <-] [Hg _]. split; [exact Hg|].
  intros ops [= <-]. constructor.
Qed.

Lemma keeps_gone_clear : keeps_gone h0 clear.
Proof.
  intros s r s' [= <- <-] [Hg _]. split; [exact Hg|].
  intros ops [= <-]. constructor.
Qed.

Lemma keeps_gone_drop : keeps_gone h0 drop.
Proof. intros s r s' [= <- <-] [Hg _]. split; [exact Hg|]. by intros ops. Qed.

Lemma keeps_gone_commit : keeps_gone h0 commit.
Proof.
  intros s r s' H [Hg Hb].
  unfold commit, wallet_commit, bind, gets, modify in H.
  destruct (current s) as [ops|] eqn:Ec.
  - assert (G : apply_ops ops (db s) !! Kt h0 = None)
      by (apply apply_ops_gone; [by apply Hb|exact Hg]).
    simpl in H. destruct (pending s) as [p|]; simpl in H.
    + destruct (st_committed p); simpl in H; injection H as <- <-;
        (split; [exact G|by intros ops']).
    + injection H as <- <-. split; [exact G|by intros ops'].
  - injection H as <- <-. split; [exact Hg|]. intros ops. by rewrite Ec.
Qed.

Lemma keeps_gone_getCredit hash index : keeps_gone h0 (getCredit hash index).
Proof.
  intros s r s' H Hs.
  unfold getCredit, bind, gets, get, modify, decode, ret, throw in H.
  destruct (LRU_get (coinCache s) (hash, index)) as [data|].
  { destruct (Credit_fromRaw data hash index);
      injection H as <- <-; exact Hs. }
  simpl in H.
  destruct (db s !! Kc hash index) as [data|] eqn:E;
    [|injection H as <- <-; exact Hs].
  destruct (Credit_fromRaw data hash index);
    injection H as <- <-; exact Hs.
Qed.

End Gone.

Create HintDb gone.

#[local] Hint Resolve keeps_gone_ret keeps_gone_throw keeps_gone_out_of_fuel
  keeps_gone_gets keeps_gone_assert keeps_gone_decode keeps_gone_del
  keeps_gone_update_pending keeps_gone_emit keeps_gone_cache
  keeps_gone_unlockCoin keeps_gone_start keeps_gone_clear keeps_gone_drop
  keeps_gone_commit keeps_gone_getCredit : gone.

#[local] Hint Extern 1 (keeps_gone _ (put _ _)) =>
  apply keeps_gone_put; congruence : gone.

Ltac gone_step :=
  first
    [ solve [auto with gone]
    | match goal with
      | |- keeps_gone _ (bind _ _) => apply keeps_gone_bind; [|intro]
      | |- keeps_gone _ (try_rethrow _ _) => apply keeps_gone_try_rethrow
      | |- keeps_gone _ (match ?x with _ => _ end) => destruct x
      end
    | progress cbv zeta ].

Ltac gone_auto := repeat gone_step.

Lemma keeps_gone_get h0 k : keeps_gone h0 (get k).
Proof. apply keeps_gone_gets. Qed.

Lemma keeps_gone_has h0 k : keeps_gone h0 (has k).
Proof. apply keeps_gone_gets. Qed.

Lemma keeps_gone_getPath h0 a : keeps_gone h0 (getPath a).
Proof. apply keeps_gone_gets. Qed.

Lemma keeps_gone_hasSpentCoin h0 spent : keeps_gone h0 (hasSpentCoin spent).
Proof. apply keeps_gone_gets. Qed.

#[local] Hint Resolve keeps_gone_get keeps_gone_has keeps_gone_getPath
  keeps_gone_hasSpentCoin : gone.

Lemma keeps_gone_getTX h0 hash : keeps_gone h0 (getTX hash).
Proof. unfold getTX. gone_auto. Qed.

Lemma keeps_gone_getSpent h0 hash index : keeps_gone h0 (getSpent hash index).
Proof. unfold getSpent. gone_auto. Qed.

Lemma keeps_gone_getSpentCoin h0 spent prevout :
  keeps_gone h0 (getSpentCoin spent prevout).
Proof. unfold getSpentCoin. gone_auto. Qed.

Lemma keeps_gone_getBlock h0 height : keeps_gone h0 (getBlock height).
Proof. unfold getBlock. gone_auto. Qed.

Lemma keeps_gone_getSpentCredits h0 tx : keeps_gone h0 (getSpentCredits tx).
Proof. unfold getSpentCredits. gone_auto. Qed.

Lemma keeps_gone_commit_state h0 : keeps_gone h0 commit_state.
Proof. unfold commit_state. gone_auto. Qed.

Lemma keeps_gone_input_prevout h0 tx index : keeps_gone h0 (input_prevout tx index).
Proof. unfold input_prevout. gone_auto. Qed.

Lemma keeps_gone_saveCredit h0 credit path : keeps_gone h0 (saveCredit credit path).
Proof. unfold saveCredit. gone_auto. Qed.

Lemma keeps_gone_removeCredit h0 credit path :
  keeps_gone h0 (removeCredit credit path).
Proof. unfold removeCredit. gone_auto. Qed.

#[local] Hint Resolve keeps_gone_getTX keeps_gone_getSpent
  keeps_gone_getSpentCoin keeps_gone_getBlock keeps_gone_getSpentCredits
  keeps_gone_commit_state keeps_gone_input_prevout keeps_gone_saveCredit
  keeps_gone_removeCredit : gone.

Lemma keeps_gone_spendCredit h0 credit tx index :
  keeps_gone h0 (spendCredit credit tx index).
Proof. unfold spendCredit. gone_auto. Qed.

Lemma keeps_gone_unspendCredit h0 tx index : keeps_gone h0 (unspendCredit tx index).
Proof. unfold unspendCredit. gone_auto. Qed.

Lemma keeps_gone_writeInput h0 tx index : keeps_gone h0 (writeInput tx index).
Proof. unfold writeInput. gone_auto. Qed.

Lemma keeps_gone_removeInput h0 tx index : keeps_gone h0 (removeInput tx index).
Proof. unfold removeInput. gone_auto. Qed.

Lemma keeps_gone_updateSpentCoin h0 tx index :
  keeps_gone h0 (updateSpentCoin tx index).
Proof. unfold updateSpentCoin. gone_auto. Qed.

#[local] Hint Resolve keeps_gone_spendCredit keeps_gone_unspendCredit
  keeps_gone_writeInput keeps_gone_removeInput keeps_gone_updateSpentCoin
  : gone.

Lemma keeps_gone_resolveInput h0 tx index path :
  keeps_gone h0 (resolveInput tx index path).
Proof. unfold resolveInput. gone_auto. Qed.

Lemma keeps_gone_isRBF h0 tx : keeps_gone h0 (isRBF tx).
Proof.
  unfold isRBF. destruct (tx_rbf tx); [apply keeps_gone_ret|].
  induction (tx_inputs tx) as [|input rest IH]; simpl; gone_auto.
Qed.

Lemma keeps_gone_addBlock h0 tx entry : keeps_gone h0 (addBlock tx entry).
Proof. unfold addBlock. gone_auto. Qed.

Lemma keeps_gone_removeBlock h0 tx height : keeps_gone h0 (removeBlock tx height).
Proof. unfold removeBlock. gone_auto. Qed.

Lemma keeps_gone_unlockTX h0 tx : keeps_gone h0 (unlockTX tx).
Proof.
  unfold unlockTX. destruct (tx_coinbase tx); [apply keeps_gone_ret|].
  induction (tx_inputs tx) as [|input rest IH]; simpl; gone_auto.
Qed.

Lemma keeps_gone_index_accounts h0 tx accounts :
  keeps_gone h0 (index_accounts tx accounts).
Proof. induction accounts as [|a rest IH]; simpl; gone_auto. Qed.

Lemma keeps_gone_unindex_accounts h0 tx accounts :
  keeps_gone h0 (unindex_accounts tx accounts).
Proof. induction accounts as [|a rest IH]; simpl; gone_auto. Qed.

#[local] Hint Resolve keeps_gone_resolveInput keeps_gone_isRBF
  keeps_gone_addBlock keeps_gone_removeBlock keeps_gone_unlockTX
  keeps_gone_index_accounts keeps_gone_unindex_accounts : gone.

Lemma keeps_gone_insert_inputs h0 tx inputs :
  forall i details updated,
    keeps_gone h0 (insert_inputs tx i inputs details updated).
Proof.
  induction inputs as [|input rest IH]; intros i details updated; simpl;
    gone_auto.
Qed.

Lemma keeps_gone_insert_outputs h0 tx outputs :
  forall i details updated,
    keeps_gone h0 (insert_outputs tx i outputs details updated).
Proof.
  induction outputs as [|output rest IH]; intros i details updated; simpl;
    gone_auto.
Qed.

#[local] Hint Resolve keeps_gone_insert_inputs keeps_gone_insert_outputs : gone.

(** [insert] writes the record of its own transaction only. *)
Lemma keeps_gone_insert h0 tx block :
  tx_hash tx <> h0 -> keeps_gone h0 (insert tx block).
Proof. intros Hne. unfold insert. gone_auto. Qed.

Lemma keeps_gone_erase_inputs h0 tx credits :
  forall i details, keeps_gone h0 (erase_inputs tx i credits details).
Proof.
  induction credits as [|[credit|] rest IH]; intros i details; simpl;
    gone_auto.
Qed.

Lemma keeps_gone_erase_outputs h0 tx outputs :
  forall i details, keeps_gone h0 (erase_outputs tx i outputs details).
Proof.
  induction outputs as [|output rest IH]; intros i details; simpl;
    gone_auto.
Qed.

#[local] Hint Resolve keeps_gone_erase_inputs keeps_gone_erase_outputs : gone.

Lemma keeps_gone_erase h0 tx : keeps_gone h0 (erase tx).
Proof. unfold erase. gone_auto. Qed.

#[local] Hint Resolve keeps_gone_erase : gone.

Lemma keeps_gone_remove_spenders h0 (recurse : TX -> M Details) hash outputs :
  (forall tx, keeps_gone h0 (recurse tx)) ->
  forall i, keeps_gone h0 (remove_spenders recurse hash i outputs).
Proof.
  intros Hrec. induction outputs as [|output rest IH]; intros i; simpl;
    gone_auto.
Qed.

Lemma keeps_gone_removeRecursive h0 fuel :
  forall tx, keeps_gone h0 (removeRecursive fuel tx).
Proof.
  induction fuel as [|fuel IH]; intros tx; simpl;
    [apply keeps_gone_out_of_fuel|].
  apply keeps_gone_bind; [by apply keeps_gone_remove_spenders|intro].
  gone_auto.
Qed.

#[local] Hint Resolve keeps_gone_removeRecursive : gone.

Lemma keeps_gone_removeConflict h0 fuel tx :
  keeps_gone h0 (removeConflict fuel tx).
Proof. unfold removeConflict. gone_auto. Qed.

#[local] Hint Resolve keeps_gone_removeConflict : gone.

Lemma keeps_gone_remove_spends h0 fuel spends :
  keeps_gone h0 (remove_spends fuel spends).
Proof. induction spends as [|[spender|] rest IH]; simpl; gone_auto. Qed.

Lemma try_rethrow_inv_ok {A} (body : M A) (handler : M unit) s a s' :
  try_rethrow body handler s = (Ok a, s') -> body s = (Ok a, s').
Proof.
  unfold try_rethrow. destruct (body s) as [[x|e|] s1]; [done| |done].
  by destruct (handler s1) as [[u|e'|] s2].
Qed.

(** What the first loop of [removeConflicts] hands to the second: the
    stored transaction of every spender other than [hash]. *)
Lemma gather_spends_lists hash conf inputs :
  forall s spends s',
    gather_spends hash conf inputs s = (Ok (Some spends), s') ->
    s' = s /\
    forall input sp, input ∈ inputs ->
      db s !! Ks (op_hash (prevout input)) (op_index (prevout input))
      = Some (VOutpoint sp) ->
      op_hash sp <> hash ->
      exists stx, Some stx ∈ spends /\
                  db s !! Kt (op_hash sp) = Some (VTX stx).
Proof.
  induction inputs as [|x rest IH]; intros s spends s' H.
  - injection H as <- <-. split; [done|]. intros input sp Hin.
    by apply elem_of_nil in Hin.
  - simpl in H. apply bind_inv_ok in H as (r & s1 & Hs & H).
    apply getSpent_inv in Hs as [-> Hr].
    assert (Hstep : forall o r0 s2,
              gather_spends hash conf rest s = (Ok r0, s2) ->
              option_map (cons o) r0 = Some spends -> s' = s2 ->
              s' = s /\
              forall input sp, input ∈ rest ->
                db s !! Ks (op_hash (prevout input)) (op_index (prevout input))
                = Some (VOutpoint sp) ->
                op_hash sp <> hash ->
                exists stx, Some stx ∈ spends /\
                            db s !! Kt (op_hash sp) = Some (VTX stx)).
    { intros o r0 s2 Hg Ho ->. destruct r0 as [l|]; [|discriminate].
      injection Ho as <-. destruct (IH _ _ _ Hg) as [-> Hrest].
      split; [done|]. intros input sp Hin Hm Hne.
      destruct (Hrest input sp Hin Hm Hne) as (stx & Hstx & Ht).
      exists stx. split; [by apply list_elem_of_further|exact Ht]. }
    destruct r as [spent|].
    + destruct (bool_decide (op_hash spent = hash)) eqn:Eown.
      * apply bind_inv_ok in H as (r0 & s2 & Hg & H). injection H as H <-.
        destruct (Hstep None r0 s2 Hg H eq_refl) as [-> Hrest].
        split; [done|]. intros input sp Hin Hm Hne.
        apply elem_of_cons in Hin as [->|Hin]; [|exact (Hrest _ _ Hin Hm Hne)].
        rewrite Hr in Hm. injection Hm as <-.
        by apply bool_decide_eq_true_1 in Eown.
      * apply bind_inv_ok in H as (stx & s2 & Ht & H).
        apply getTX_inv in Ht as [-> Ht].
        destruct stx as [stx|]; [|discriminate].
        destruct (conf && negb (tx_height stx =? -1)); [discriminate|].
        apply bind_inv_ok in H as (r0 & s2 & Hg & H). injection H as H <-.
        destruct (Hstep (Some stx) r0 s2 Hg H eq_refl) as [-> Hrest].
        split; [done|]. intros input sp Hin Hm Hne.
        apply elem_of_cons in Hin as [->|Hin]; [|exact (Hrest _ _ Hin Hm Hne)].
        rewrite Hr in Hm. injection Hm as <-.
        exists stx. split; [|exact Ht].
        destruct r0 as [l|]; [|discriminate]. injection H as <-.
        apply list_elem_of_here.
    + apply bind_inv_ok in H as (r0 & s2 & Hg & H). injection H as H <-.
      destruct (Hstep None r0 s2 Hg H eq_refl) as [-> Hrest].
      split; [done|]. intros input sp Hin Hm Hne.
      apply elem_of_cons in Hin as [->|Hin]; [|exact (Hrest _ _ Hin Hm Hne)].
      rewrite Hr in Hm. discriminate.
Qed.

(** Without the confirmed-spender test the first loop never gives up. *)
Lemma gather_spends_false hash inputs :
  forall s r s', gather_spends hash false inputs s = (Ok r, s') -> is_Some r.
Proof.
  induction inputs as [|x rest IH]; intros s r s' H.
  - injection H as <- _. eauto.
  - simpl in H. apply bind_inv_ok in H as (r1 & s1 & _ & H).
    assert (Hstep : forall o s0 r0 s2 s3,
              gather_spends hash false rest s0 = (Ok r0, s2) ->
              ret (option_map (cons o) r0) s2 = (Ok r, s3) -> is_Some r).
    { intros o s0 r0 s2 s3 Hg [= <- _].
      destruct (IH _ _ _ Hg) as [l ->]. simpl. eauto. }
    destruct r1 as [spent|].
    + destruct (bool_decide (op_hash spent = hash)).
      * apply bind_inv_ok in H as (r0 & s2 & Hg & H). by eapply Hstep.
      * apply bind_inv_ok in H as (stx & s2 & _ & H).
        destruct stx as [stx|]; [|discriminate]. simpl in H.
        apply bind_inv_ok in H as (r0 & s3 & Hg & H). by eapply Hstep.
    + apply bind_inv_ok in H as (r0 & s2 & Hg & H). by eapply Hstep.
Qed.

Lemma removeConflict_gone fuel tx s d s' :
  removeConflict fuel tx s = (Ok d, s') -> gone (tx_hash tx) s'.
Proof.
  unfold removeConflict. intros H.
  apply bind_inv_ok in H as (u1 & s1 & _ & H).
  apply bind_inv_ok in H as (d2 & s2 & H2 & H).
  apply bind_inv_ok in H as (u3 & s3 & H3 & H).
  apply bind_inv_ok in H as (u4 & s4 & H4 & H).
  injection H as _ <-. rewrite start_eq in H3. injection H3 as _ <-.
  injection H4 as _ <-.
  destruct (removeRecursive_deletes _ _ _ _ _ H2) as [Hg _].
  split; [exact Hg|]. intros ops [= <-]. constructor.
Qed.

Lemma remove_spends_gone fuel spends :
  forall s u s' stx,
    remove_spends fuel spends s = (Ok u, s') -> Some stx ∈ spends ->
    gone (tx_hash stx) s'.
Proof.
  induction spends as [|[spender|] rest IH]; intros s u s' stx H Hin.
  - by apply elem_of_nil in Hin.
  - simpl in H. apply bind_inv_ok in H as (d & s1 & H1 & H).
    apply elem_of_cons in Hin as [[= ->]|Hin].
    + exact (keeps_gone_remove_spends _ _ _ _ _ _ H
               (removeConflict_gone _ _ _ _ _ H1)).
    + by eapply IH.
  - simpl in H. apply elem_of_cons in Hin as [[=]|Hin]. by eapply IH.
Qed.

(** Whenever [removeConflicts] lets [add] go on, the spender of a
    conflicting marker is gone. *)
Lemma removeConflicts_gone fuel tx conf s ok s' input sp :
  keyed (db s) -> tx_coinbase tx = false -> input ∈ tx_inputs tx ->
  db s !! Ks (op_hash (prevout input)) (op_index (prevout input))
  = Some (VOutpoint sp) ->
  op_hash sp <> tx_hash tx ->
  removeConflicts fuel tx conf s = (Ok ok, s') ->
  (conf = true -> ok = true) ->
  gone (op_hash sp) s'.
Proof.
  intros Hkeyed Hcb Hin Hm Hne H Hok. unfold removeConflicts in H.
  rewrite Hcb in H. apply bind_inv_ok in H as (spends & s1 & Hg & H).
  destruct spends as [spends|].
  - destruct (gather_spends_lists _ _ _ _ _ _ Hg) as [-> Hl].
    destruct (Hl input sp Hin Hm Hne) as (stx & Hstx & Ht).
    apply bind_inv_ok in H as (u & s2 & Hr & H). injection H as _ <-.
    rewrite <- (Hkeyed _ _ Ht). by eapply remove_spends_gone.
  - injection H as <- <-. destruct conf.
    + by specialize (Hok eq_refl).
    + by destruct (gather_spends_false _ _ _ _ _ Hg).
Qed.

(** X19. A conflicting transaction is replaced. Let [tx] be a
    transaction the wallet has no record of, not a coinbase, one of
    whose inputs spends an outpoint that carries the marker of another
    transaction, in a store whose records are keyed by their own
    hash. Whenever [add] returns details for [tx], the record of that
    other transaction is gone: [getTX] no longer finds it. *)
Theorem add_replaces_conflict (fuel : nat) (tx : TX)
    (block : option BlockMeta) (s : TXDB) (input : Input) (sp : Outpoint)
    (details : Details) :
  keyed (db s) -> db s !! Kt (tx_hash tx) = None ->
  tx_coinbase tx = false -> input ∈ tx_inputs tx ->
  db s !! Ks (op_hash (prevout input)) (op_index (prevout input))
  = Some (VOutpoint sp) ->
  op_hash sp <> tx_hash tx ->
  (add fuel tx block s).1 = Ok (Some details) ->
  getTX (op_hash sp) (add fuel tx block s).2
  = (Ok None, (add fuel tx block s).2).
Proof.
  intros Hkeyed Hfresh Hcb Hin Hm Hne Hadd.
  destruct (add fuel tx block s) as [r s'] eqn:E. simpl in Hadd. subst r.
  simpl. apply getTX_None.
  unfold add in E. rewrite (bind_ok _ _ _ _ _ (start_eq s)) in E.
  apply bind_inv_ok in E as (res & s1 & Hbody & E).
  apply bind_inv_ok in E as (u & s2 & Hcommit & E).
  injection E as -> <-.
  apply try_rethrow_inv_ok in Hbody.
  assert (Hg : gone (op_hash sp) s1).
  { unfold _add in Hbody.
    rewrite (bind_ok _ _ _ _ _ (getTX_None (started s) _ Hfresh)) in Hbody.
    apply bind_inv_ok in Hbody as (u0 & s0 & Ha & Hbody).
    destruct (tx_mutable tx); [discriminate|]. injection Ha as _ <-.
    assert (Hrc : forall conf ok s3,
              removeConflicts fuel tx conf (started s) = (Ok ok, s3) ->
              (conf = true -> ok = true) -> gone (op_hash sp) s3).
    { intros conf ok s3 Hrc Hok.
      by apply (removeConflicts_gone fuel tx conf (started s) ok s3 input sp). }
    assert (Hins : keeps_gone (op_hash sp) (insert tx block))
      by (apply keeps_gone_insert; congruence).
    destruct (tx_height tx =? -1).
    - apply bind_inv_ok in Hbody as (rbf & s3 & Hrbf & Hbody).
      apply isRBF_reads in Hrbf as ->.
      destruct rbf.
      { apply bind_inv_ok in Hbody as (u4 & s4 & _ & Hbody). discriminate. }
      apply bind_inv_ok in Hbody as (ok & s4 & Hr & Hbody).
      destruct ok; [|discriminate]. simpl in Hbody.
      exact (Hins _ _ _ Hbody (Hrc _ _ _ Hr (fun _ => eq_refl))).
    - apply bind_inv_ok in Hbody as (ok & s4 & Hr & Hbody).
      apply bind_inv_ok in Hbody as (u5 & s5 & Hd & Hbody).
      apply (Hins _ _ _ Hbody).
      apply (keeps_gone_del _ _ _ _ _ Hd).
      apply (Hrc _ _ _ Hr). discriminate. }
  exact (proj1 (keeps_gone_commit _ _ _ _ Hcommit Hg)).
Qed.

Lemma add_replaces_conflict_witness :
  getTX "cc" (add 2 Examples.txC' None Examples.withP5C).2
  = (Ok None, (add 2 Examples.txC' None Examples.withP5C).2).
Proof.
  apply (add_replaces_conflict 2 Examples.txC' None Examples.withP5C
           (mkInput (mkOutpoint "aa" 0) None) (mkOutpoint "cc" 0)
           (mkDetails "c2" None (-1) 0 0 104
              [mkMember 10 (Some "addrA") (Some (mkPath 0))]
              [mkMember 8 (Some "addrA") (Some (mkPath 0))] [0])).
  - apply keyed_by_scan. vm_compute. reflexivity.
  - vm_compute. reflexivity.
  - reflexivity.
  - apply list_elem_of_here.
  - vm_compute. reflexivity.
  - discriminate.
  - vm_compute. reflexivity.
Defined.

(** * The transaction counter *)


























(** * Writes release the locks of what they spend *)

Lemma keeps_locks_ret {A} (a : A) : keeps_locks (ret a).
Proof. by intros s r s' [= <- <-]. Qed.

Lemma keeps_locks_throw {A} msg : keeps_locks (@throw A msg).
Proof. by intros s r s' [= <- <-]. Qed.

Lemma keeps_locks_gets {A} (f : TXDB -> A) : keeps_locks (gets f).
Proof. by intros s r s' [= <- <-]. Qed.

Lemma keeps_locks_bind {A B} (m : M A) (k : A -> M B) :
  keeps_locks m -> (forall a, keeps_locks (k a)) -> keeps_locks (bind m k).
Proof.
  intros Hm Hk s r s' H. unfold bind in H.
  destruct (m s) as [[a|e|] s1] eqn:E.
  - rewrite (Hk _ _ _ _ H). exact (Hm _ _ _ E).
  - injection H as <- <-. exact (Hm _ _ _ E).
  - injection H as <- <-. exact (Hm _ _ _ E).
Qed.

Lemma keeps_locks_modify (f : TXDB -> TXDB) :
  (forall s, locked (f s) = locked s) -> keeps_locks (modify f).
Proof. intros Hf s r s' [= <- <-]. apply Hf. Qed.

Lemma keeps_locks_assert c msg : keeps_locks (assert c msg).
Proof. destruct c; [apply keeps_locks_ret|apply keeps_locks_throw]. Qed.

Lemma keeps_locks_decode {A} (r : option A) : keeps_locks (decode r).
Proof. destruct r; [apply keeps_locks_ret|apply keeps_locks_throw]. Qed.

Lemma keeps_locks_put k v : keeps_locks (put k v).
Proof.
  intros s r s' H. unfold put, bind, gets, modify in H.
  by destruct (current s); injection H as <- <-.
Qed.

Lemma keeps_locks_del k : keeps_locks (del k).
Proof.
  intros s r s' H. unfold del, bind, gets, modify in H.
  by destruct (current s); injection H as <- <-.
Qed.

Lemma keeps_locks_update_pending f : keeps_locks (update_pending f).
Proof.
  intros s r s' H. unfold update_pending, bind, gets, modify in H.
  by destruct (pending s); injection H as <- <-.
Qed.

Lemma keeps_locks_emit ev data details : keeps_locks (emit ev data details).
Proof. by apply keeps_locks_modify. Qed.

Lemma keeps_locks_cache (f : LRU -> LRU) :
  keeps_locks (modify (set_coinCache f)).
Proof. by apply keeps_locks_modify. Qed.

Lemma keeps_locks_start : keeps_locks start.
Proof. by intros s r s' [= <- <-]. Qed.

Lemma keeps_locks_clear : keeps_locks clear.
Proof. by intros s r s' [= <- <-]. Qed.

Lemma keeps_locks_drop : keeps_locks drop.
Proof. by intros s r s' [= <- <-]. Qed.

Lemma keeps_locks_commit : keeps_locks commit.
Proof.
  intros s r s' H. unfold commit, wallet_commit, bind, gets, modify in H.
  destruct (current s); [|by injection H as <- <-]. simpl in H.
  destruct (pending s) as [p|]; simpl in H; [|by injection H as <- <-].
  by destruct (st_committed p); simpl in H; injection H as <- <-.
Qed.

Lemma keeps_locks_getCredit hash index : keeps_locks (getCredit hash index).
Proof.
  intros s r s' H.
  unfold getCredit, bind, gets, get, modify, decode, ret, throw in H.
  destruct (LRU_get (coinCache s) (hash, index)) as [data|].
  { by destruct (Credit_fromRaw data hash index); injection H as <- <-. }
  simpl in H.
  destruct (db s !! Kc hash index) as [data|]; [|by injection H as <- <-].
  by destruct (Credit_fromRaw data hash index); injection H as <- <-.
Qed.

Create HintDb locks.

#[local] Hint Resolve keeps_locks_ret keeps_locks_throw keeps_locks_gets
  keeps_locks_assert keeps_locks_decode keeps_locks_put keeps_locks_del
  keeps_locks_update_pending keeps_locks_emit keeps_locks_cache
  keeps_locks_start keeps_locks_clear keeps_locks_drop keeps_locks_commit
  keeps_locks_getCredit : locks.

Ltac locks_step :=
  first
    [ solve [auto with locks]
    | match goal with
      | |- keeps_locks (bind _ _) => apply keeps_locks_bind; [|intro]
      | |- keeps_locks (match ?x with _ => _ end) => destruct x
      end
    | progress cbv zeta ].

Ltac locks_auto := repeat locks_step.

Lemma keeps_locks_get k : keeps_locks (get k).
Proof. apply keeps_locks_gets. Qed.

Lemma keeps_locks_has k : keeps_locks (has k).
Proof. apply keeps_locks_gets. Qed.

Lemma keeps_locks_getPath a : keeps_locks (getPath a).
Proof. apply keeps_locks_gets. Qed.

Lemma keeps_locks_hasSpentCoin spent : keeps_locks (hasSpentCoin spent).
Proof. apply keeps_locks_gets. Qed.

#[local] Hint Resolve keeps_locks_get keeps_locks_has keeps_locks_getPath
  keeps_locks_hasSpentCoin : locks.

Lemma keeps_locks_getTX hash : keeps_locks (getTX hash).
Proof. unfold getTX. locks_auto. Qed.

Lemma keeps_locks_getSpent hash index : keeps_locks (getSpent hash index).
Proof. unfold getSpent. locks_auto. Qed.

Lemma keeps_locks_getSpentCoin spent prevout :
  keeps_locks (getSpentCoin spent prevout).
Proof. unfold getSpentCoin. locks_auto. Qed.

Lemma keeps_locks_getBlock height : keeps_locks (getBlock height).
Proof. unfold getBlock. locks_auto. Qed.

Lemma keeps_locks_getSpentCredits tx : keeps_locks (getSpentCredits tx).
Proof. unfold getSpentCredits. locks_auto. Qed.

Lemma keeps_locks_commit_state : keeps_locks commit_state.
Proof. unfold commit_state. locks_auto. Qed.

Lemma keeps_locks_input_prevout tx index : keeps_locks (input_prevout tx index).
Proof. unfold input_prevout. locks_auto. Qed.

Lemma keeps_locks_saveCredit credit path : keeps_locks (saveCredit credit path).
Proof. unfold saveCredit. locks_auto. Qed.

Lemma keeps_locks_removeCredit credit path :
  keeps_locks (removeCredit credit path).
Proof. unfold removeCredit. locks_auto. Qed.

#[local] Hint Resolve keeps_locks_getTX keeps_locks_getSpent
  keeps_locks_getSpentCoin keeps_locks_getBlock keeps_locks_getSpentCredits
  keeps_locks_commit_state keeps_locks_input_prevout keeps_locks_saveCredit
  keeps_locks_removeCredit : locks.

Lemma keeps_locks_spendCredit credit tx index :
  keeps_locks (spendCredit credit tx index).
Proof. unfold spendCredit. locks_auto. Qed.

Lemma keeps_locks_writeInput tx index : keeps_locks (writeInput tx index).
Proof. unfold writeInput. locks_auto. Qed.

Lemma keeps_locks_updateSpentCoin tx index :
  keeps_locks (updateSpentCoin tx index).
Proof. unfold updateSpentCoin. locks_auto. Qed.

#[local] Hint Resolve keeps_locks_spendCredit keeps_locks_writeInput
  keeps_locks_updateSpentCoin : locks.

Lemma keeps_locks_resolveInput tx index path :
  keeps_locks (resolveInput tx index path).
Proof. unfold resolveInput. locks_auto. Qed.

Lemma keeps_locks_addBlock tx entry : keeps_locks (addBlock tx entry).
Proof. unfold addBlock. locks_auto. Qed.

Lemma keeps_locks_index_accounts tx accounts :
  keeps_locks (index_accounts tx accounts).
Proof. induction accounts as [|a rest IH]; simpl; locks_auto. Qed.

Lemma keeps_locks_reindex_accounts tx accounts :
  keeps_locks (reindex_accounts tx accounts).
Proof. induction accounts as [|a rest IH]; simpl; locks_auto. Qed.

#[local] Hint Resolve keeps_locks_resolveInput keeps_locks_addBlock
  keeps_locks_index_accounts keeps_locks_reindex_accounts : locks.

Lemma keeps_locks_insert_inputs tx inputs :
  forall i details updated,
    keeps_locks (insert_inputs tx i inputs details updated).
Proof.
  induction inputs as [|input rest IH]; intros i details updated; simpl;
    locks_auto.
Qed.

Lemma keeps_locks_insert_outputs tx outputs :
  forall i details updated,
    keeps_locks (insert_outputs tx i outputs details updated).
Proof.
  induction outputs as [|output rest IH]; intros i details updated; simpl;
    locks_auto.
Qed.

Lemma keeps_locks_confirm_inputs tx inputs :
  forall i details, keeps_locks (confirm_inputs tx i inputs details).
Proof.
  induction inputs as [|[input credit] rest IH]; intros i details; simpl;
    locks_auto.
Qed.

Lemma keeps_locks_confirm_outputs tx outputs :
  forall i details, keeps_locks (confirm_outputs tx i outputs details).
Proof.
  induction outputs as [|output rest IH]; intros i details; simpl;
    locks_auto.
Qed.

#[local] Hint Resolve keeps_locks_insert_inputs keeps_locks_insert_outputs
  keeps_locks_confirm_inputs keeps_locks_confirm_outputs : locks.

Lemma unlockTX_spec tx s :
  unlockTX tx s
  = (Ok tt, set_locked (fun l => if tx_coinbase tx then l
                                 else l ∖ spent_keys tx) s).
Proof.
  unfold unlockTX. destruct (tx_coinbase tx).
  - unfold ret. f_equal. by destruct s.
  - apply unlock_inputs_spec.
Qed.

(** The tail shared by [insert] and [_confirm]: the locks are released
    once everything is staged. *)
Lemma unlock_tail {A} tx ev data details (k : option TXDBState -> M A)
    s r s' :
  (forall p, keeps_locks (k p)) ->
  (unlockTX tx ;; emit ev data details ;; p <- gets pending ;; k p) s
  = (r, s') ->
  locked s' = (if tx_coinbase tx then locked s else locked s ∖ spent_keys tx).
Proof.
  intros Hk H. rewrite (bind_ok _ _ _ _ _ (unlockTX_spec tx s)) in H.
  unfold bind at 1 in H. unfold emit, modify in H.
  unfold bind at 1 in H. unfold gets in H.
  by rewrite (Hk _ _ _ _ H).
Qed.

Lemma insert_unlocks tx block s details s' :
  insert tx block s = (Ok (Some details), s') ->
  locked s' = (if tx_coinbase tx then locked s else locked s ∖ spent_keys tx).
Proof.
  unfold insert. intros H.
  apply bind_inv_ok in H as (r1 & s1 & H1 & H).
  apply bind_inv_ok in H as (r2 & s2 & H2 & H).
  assert (E2 : locked s2 = locked s).
  { rewrite (keeps_locks_insert_outputs _ _ _ _ _ _ _ _ H2).
    destruct (negb (tx_coinbase tx)).
    - exact (keeps_locks_insert_inputs _ _ _ _ _ _ _ _ H1).
    - by injection H1 as _ <-. }
  destruct (negb r2.2).
  { apply bind_inv_ok in H as (u & s3 & _ & H). discriminate. }
  apply bind_inv_ok in H as (u3 & s3 & H3 & H).
  apply bind_inv_ok in H as (u4 & s4 & H4 & H).
  apply bind_inv_ok in H as (u5 & s5 & H5 & H).
  apply bind_inv_ok in H as (u6 & s6 & H6 & H).
  apply bind_inv_ok in H as (u7 & s7 & H7 & H).
  apply bind_inv_ok in H as (u8 & s8 & H8 & H).
  apply bind_inv_ok in H as (u9 & s9 & H9 & H).
  assert (E9 : locked s9 = locked s).
  { rewrite (keeps_locks_commit_state _ _ _ H9).
    rewrite (keeps_locks_update_pending _ _ _ _ H8).
    assert (E7 : locked s7 = locked s6).
    { destruct (negb (tx_height tx =? -1)).
      - exact (keeps_locks_addBlock _ _ _ _ _ H7).
      - by injection H7 as _ <-. }
    rewrite E7, (keeps_locks_index_accounts _ _ _ _ _ H6).
    assert (E5 : locked s5 = locked s4).
    { destruct (tx_height tx =? -1); exact (keeps_locks_put _ _ _ _ _ H5). }
    rewrite E5, (keeps_locks_put _ _ _ _ _ H4), (keeps_locks_put _ _ _ _ _ H3).
    exact E2. }
  rewrite <- E9. eapply unlock_tail; [|exact H].
  intros p. cbv beta. destruct p; locks_auto.
Qed.

Lemma _confirm_unlocks tx block s details s' :
  _confirm tx block s = (Ok details, s') ->
  locked s' = (if tx_coinbase tx then locked s else locked s ∖ spent_keys tx).
Proof.
  unfold _confirm. intros H.
  apply bind_inv_ok in H as (d1 & s1 & H1 & H).
  apply bind_inv_ok in H as (d2 & s2 & H2 & H).
  assert (E2 : locked s2 = locked s).
  { rewrite (keeps_locks_confirm_outputs _ _ _ _ _ _ _ H2).
    destruct (negb (tx_coinbase tx)).
    - apply bind_inv_ok in H1 as (cr & s0 & H0 & H1).
      rewrite (keeps_locks_confirm_inputs _ _ _ _ _ _ _ H1).
      exact (keeps_locks_getSpentCredits _ _ _ _ H0).
    - by injection H1 as _ <-. }
  apply bind_inv_ok in H as (u3 & s3 & H3 & H).
  apply bind_inv_ok in H as (u4 & s4 & H4 & H).
  apply bind_inv_ok in H as (u5 & s5 & H5 & H).
  apply bind_inv_ok in H as (u6 & s6 & H6 & H).
  apply bind_inv_ok in H as (u7 & s7 & H7 & H).
  apply bind_inv_ok in H as (u8 & s8 & H8 & H).
  apply bind_inv_ok in H as (u9 & s9 & H9 & H).
  assert (E9 : locked s9 = locked s).
  { rewrite (keeps_locks_commit_state _ _ _ H9).
    assert (E8 : locked s8 = locked s7).
    { destruct (negb (tx_height tx =? -1)).
      - exact (keeps_locks_addBlock _ _ _ _ _ H8).
      - by injection H8 as _ <-. }
    rewrite E8, (keeps_locks_reindex_accounts _ _ _ _ _ H7).
    rewrite (keeps_locks_put _ _ _ _ _ H6), (keeps_locks_del _ _ _ _ H5).
    rewrite (keeps_locks_put _ _ _ _ _ H4), (keeps_locks_del _ _ _ _ H3).
    exact E2. }
  rewrite <- E9. eapply unlock_tail; [|exact H].
  intros p. cbv beta. destruct p; locks_auto.
Qed.

Lemma add_unlocks fuel tx block s details s' :
  db s !! Kt (tx_hash tx) = None -> no_conflicts (db s) tx ->
  add fuel tx block s = (Ok (Some details), s') ->
  locked s' = (if tx_coinbase tx then locked s else locked s ∖ spent_keys tx).
Proof.
  intros Hfresh Hnc E.
  unfold add in E. rewrite (bind_ok _ _ _ _ _ (start_eq s)) in E.
  apply bind_inv_ok in E as (res & s1 & Hbody & E).
  apply bind_inv_ok in E as (u & s2 & Hcommit & E).
  injection E as -> <-.
  apply try_rethrow_inv_ok in Hbody.
  rewrite (keeps_locks_commit _ _ _ Hcommit).
  assert (Hrc : forall conf,
            removeConflicts fuel tx conf (started s) = (Ok true, started s)).
  { intros conf. apply removeConflicts_no_other.
    intros input v Hin Hv. simpl in Hv. rewrite (Hnc input Hin) in Hv.
    discriminate. }
  unfold _add in Hbody.
  rewrite (bind_ok _ _ _ _ _ (getTX_None (started s) _ Hfresh)) in Hbody.
  apply bind_inv_ok in Hbody as (u0 & s0 & Ha & Hbody).
  destruct (tx_mutable tx); [discriminate|]. injection Ha as _ <-.
  destruct (tx_height tx =? -1).
  - apply bind_inv_ok in Hbody as (rbf & s3 & Hrbf & Hbody).
    apply isRBF_reads in Hrbf as ->.
    destruct rbf.
    { apply bind_inv_ok in Hbody as (u4 & s4 & _ & Hbody). discriminate. }
    rewrite (bind_ok _ _ _ _ _ (Hrc true)) in Hbody. simpl in Hbody.
    exact (insert_unlocks _ _ _ _ _ Hbody).
  - rewrite (bind_ok _ _ _ _ _ (Hrc false)) in Hbody.
    apply bind_inv_ok in Hbody as (u5 & s5 & Hd & Hbody).
    rewrite (insert_unlocks _ _ _ _ _ Hbody).
    by rewrite (keeps_locks_del _ _ _ _ Hd).
Qed.

Lemma confirm_unlocks hash b s tx details s' :
  db s !! Kt hash = Some (VTX tx) -> tx_height tx = -1 ->
  confirm hash (Some b) s = (Ok (Some details), s') ->
  locked s' = (if tx_coinbase tx then locked s else locked s ∖ spent_keys tx).
Proof.
  intros Ht Hh E. unfold confirm in E.
  rewrite (bind_ok _ _ _ _ _ (getTX_Some _ _ _ Ht)) in E.
  rewrite Hh in E. simpl in E.
  rewrite (bind_ok _ _ _ _ _ (start_eq s)) in E.
  apply bind_inv_ok in E as (d & s1 & Hbody & E).
  apply bind_inv_ok in E as (u & s2 & Hcommit & E).
  injection E as _ <-.
  apply try_rethrow_inv_ok in Hbody.
  rewrite (keeps_locks_commit _ _ _ Hcommit).
  exact (_confirm_unlocks _ _ _ _ _ Hbody).
Qed.

Lemma not_locked_after (tx : TX) (s' : TXDB) (L : gset (Hash * Z))
    (input : Input) :
  locked s' = L ∖ spent_keys tx -> input ∈ tx_inputs tx ->
  isLocked (prevout input) s' = (Ok false, s').
Proof.
  intros E Hin. unfold isLocked, gets. do 2 f_equal.
  apply bool_decide_eq_false_2. rewrite E. intros H.
  apply elem_of_difference in H as [_ H]. apply H.
  unfold spent_keys. apply elem_of_list_to_set, list_elem_of_fmap.
  by exists input.
Qed.

(** X21. Writing a transaction releases the locks on what it spends.
    Once [add] has inserted a transaction, or [confirm] has confirmed
    one, the lock table is the one before without the outpoints the
    transaction spends (unchanged for a coinbase): [isLocked] answers
    false for each of them, and every other lock is still there. *)
Theorem writes_release_locks (s : TXDB) :
  quiescent s -> cache_coherent s ->
  (forall fuel tx block, insertable s tx ->
     exists details s',
       add fuel tx block s = (Ok (Some details), s') /\
       locked s' = (if tx_coinbase tx then locked s
                    else locked s ∖ spent_keys tx) /\
       (tx_coinbase tx = false ->
        forall input, input ∈ tx_inputs tx ->
          isLocked (prevout input) s' = (Ok false, s'))) /\
  (forall hash b tx,
     db s !! Kt hash = Some (VTX tx) -> tx_height tx = -1 ->
     confirmable (db s) (wpaths (env s))
       (tx_set_block tx (bm_height b) (Some (bm_block b)) (bm_ts b)
                     (tx_index tx)) ->
     exists details s',
       confirm hash (Some b) s = (Ok (Some details), s') /\
       locked s' = (if tx_coinbase tx then locked s
                    else locked s ∖ spent_keys tx) /\
       (tx_coinbase tx = false ->
        forall input, input ∈ tx_inputs tx ->
          isLocked (prevout input) s' = (Ok false, s'))).
Proof.
  intros Hq Hcoh. split.
  - intros fuel tx block (Hm & Ht & Hrbf & Hnc & Hin & Hfree & Hblk & Htouch).
    destruct (add_inserts fuel tx block s Hq Hcoh Hm Ht Hrbf Hnc Hin Hfree
                Hblk Htouch) as (s' & Ha & _).
    pose proof (add_unlocks _ _ _ _ _ _ Ht Hnc Ha) as Hl.
    eexists _, s'. split; [exact Ha|]. split; [exact Hl|].
    intros Hcb input Hi. rewrite Hcb in Hl.
    by apply (not_locked_after tx s' (locked s)).
  - intros hash b tx Ht Hh Hconf.
    destruct (confirm_confirms hash b s tx Hq Hcoh Ht Hh Hconf)
      as (s' & Hc & _).
    pose proof (confirm_unlocks _ _ _ _ _ _ Ht Hh Hc) as Hl.
    eexists _, s'. split; [exact Hc|]. split; [exact Hl|].
    intros Hcb input Hi. rewrite Hcb in Hl.
    by apply (not_locked_after tx s' (locked s)).
Qed.

Lemma writes_release_locks_witness :
  (exists details s',
     add 1 Examples.txQ None Examples.withP5C = (Ok (Some details), s') /\
     locked s' = locked Examples.withP5C ∖ spent_keys Examples.txQ /\
     isLocked (mkOutpoint "cc" 0) s' = (Ok false, s')) /\
  (exists details s',
     confirm "cc" (Some Examples.blk6) Examples.withP5C
     = (Ok (Some details), s') /\
     locked s' = locked Examples.withP5C ∖ spent_keys Examples.txC /\
     isLocked (mkOutpoint "aa" 0) s' = (Ok false, s')).
Proof.
  destruct withP5C_committed as (Hq & Hcoh & _).
  destruct (writes_release_locks Examples.withP5C Hq Hcoh) as [Hadd Hconfirm].
  split.
  - destruct withP5C_add_txQ as (Hins & _).
    destruct (Hadd 1%nat Examples.txQ None Hins)
      as (details & s' & Ha & Hl & Hnot).
    exists details, s'. split; [exact Ha|]. split; [exact Hl|].
    exact (Hnot eq_refl (mkInput (mkOutpoint "cc" 0) None)
                (list_elem_of_here _ _)).
  - destruct withP5C_confirm_txC as (Ht & Hh & Hconf & _).
    destruct (Hconfirm "cc" Examples.blk6 Examples.txC Ht Hh Hconf)
      as (details & s' & Hc & Hl & Hnot).
    exists details, s'. split; [exact Hc|]. split; [exact Hl|].
    exact (Hnot eq_refl (mkInput (mkOutpoint "aa" 0) None)
                (list_elem_of_here _ _)).
Defined.
